(* ===== verification/_CoqProject ===== *)
-Q . S2P
Prelude.v
FrameAlloc.v
Pmm.v
Heap.v
Switch.v
Sched.v
Vfs.v
Font.v
Framebuffer.v
Gui.v
Console.v
Kernel.v
Text.v
PageTable.v
AddressSpace.v
UserPages.v
Process.v
Selftest.v
VmmX86.v
VmmA64.v
Ring.v
PortIo.v
Interrupts.v
Descriptors.v
InputX86.v
Ata.v
Mmio.v
Timers.v
ProcessArch.v
Virtio.v
VirtioInput.v
Multiboot.v
Mmu.v
Boot.v
Paging.v
FwCfg.v
VfsDisk.v
Arch.v
System.v
Stubs.v
