(* ===== verification/Prelude.v ===== *)
(** * MegKer: a verification development

    MegKer is a small kernel for x86_64 and aarch64.  This library translates its C code
    into Rocq functions and proves that the parts do what they are for.  The definitions
    keep the names of the code.

    ** How the program is put together

    boot.asm and boot.S enter kernel_main (kernel/kernel.c), which calls, in this order:
    arch_early_init, arch_console_init, arch_mm_init, heap_init, arch_interrupts_init and
    _enable, arch_timer_init, arch_late_init, vfs_init, gui_init, sched_init and
    thread_create, and then turns in an idle loop.  What is behind the arch_ functions is
    in src/arch/, once per architecture.  The kernel heap and the page tables take frames
    from the frame allocator; address spaces, threads and processes take memory from the
    heap; a process is entered and left through the context switch of the scheduler.

    ** The files

    Common parts.
    - Prelude: C integers with their wrap-around ([u8] .. [u64], [i32]), the loops of C
      ([for_up], [for_ret] with an early return, [for_m] with a fault), arrays of bytes,
      C strings, shared lemmas, hints and tactics.
    - FrameAlloc: the interface of a frame allocator, operations [FrameOps] and laws
      [FrameLaws].  Pmm: mm/pmm.c, the bitmap allocator, an instance of it.
    - Heap: mm/heap.c over any allocator of the interface.
    - Switch: arch_thread_init_stack and arch_context_switch of both architectures, and
      the interface [SwitchOps]/[SwitchLaws] they keep.  Sched: kernel/sched.c over it.
    - Vfs: fs/vfs.c over a disk that is a function, and tools/mkfs.py.  VfsDisk: the same
      code over a driver, the interface [Disk]/[DiskLaws], and that both drivers keep it.
    - Font, Framebuffer, Gui: the two font8x8.c, the drawing code of the two
      framebuffer.c, gui/gui.c.  Kernel: kernel/kernel.c, over the architecture layer's
      arch_late_init ([ArchLate], with the promise [late_keeps]).  Text: the pixels of a
      drawn string, and of the boot's text from the disk to the screen.

    Virtual memory and processes.
    - PageTable: tables of [S n] levels in physical memory, over a format of entries
      ([PtFormat]/[PtLaws]).  AddressSpace: spaces with such tables, an abstract machine
      of translation functions and its simulation.  UserPages: what a process's data
      needs.  VmmX86, VmmA64: mm/vmm.c of the two architectures, four and three levels,
      and mmu_boot.c.  Mmu: the walk the processor makes, with large pages.
    - Multiboot: multiboot2.c.  Boot: setup_page_tables of boot.asm and arch_mm_init.
      Paging: paging.c and fb_init of x86_64.
    - Process: the loader, the launch and the exit of the two process.c.  ProcessArch:
      their constants and stack layouts, and the two syscall.c.  Selftest: vmm_selftest.

    Devices.
    - PortIo, Mmio: the access instructions as interfaces to a device state, [Ram] for
      memory a device shares.
    - Interrupts, Descriptors: idt.c, gdt.c and tss.c.  Ring, InputX86: keyboard.c and
      mouse.c.  Ata: ata.c.  Console: console.c.  Timers: pit.c and, on aarch64, gic.c,
      timer.c, irq.c and uart.c.  Virtio, VirtioInput: the three virtio drivers.
      FwCfg: fb_init of aarch64.
    - Arch: the two arch.c, with arch_late_init whole, the x86_64 one as the layer of
      Kernel, and the two userland programs.

    The machine.
    - System: the kernel on x86_64 once it has booted.  [sys_step] is a step relation: the
      idle loop and the blinker are cut into the steps between which an interrupt may
      come ([main_step], [blinker_step]), and the timer, keyboard and mouse interrupts and
      the exceptions go through isr_handler ([interrupt]).
    - Stubs: isr_stubs.asm, exceptions.S and the two context_switch and usermode files as
      lists of instructions, with an interpreter for them per architecture.

    ** How state and operations correspond

    The static variables of a C file are a record; a function of the code is a function
    that takes and returns the records it uses, in the order of the code's accesses.
    [None] is a fault (an access outside an object, a division by zero, a page fault) or
    a wait that has not ended; a null pointer is 0.  Physical memory is [PageTable.memory],
    64-bit words by address; kernel stacks are a memory of their own ([Switch.memory]),
    and so are the screen ([Framebuffer.video]) and the memory that the virtio and fw_cfg
    devices read and write ([Mmio.Ram]).  Devices are classes: operations the driver uses
    and, where a property depends on the device, laws that state what its specification
    documents; what a driver needs beyond that is a class of its own ([AtaQuiet]).  Each
    class of laws has a simulated device as instance, which the witnesses use.

    ** What the theorems show

    - Memory: from any boot information the allocator starts with frames that are RAM,
      mapped and not the kernel's, and the walk through it ends if its tags move it
      forward (Multiboot, Boot); it never hands out a frame twice (Pmm), and
      gives the lowest run there is; heap allocations are disjoint, aligned and inside
      pages the heap owns, after any sequence of calls (Heap).
    - Virtual memory: both vmm.c refine the abstract machine of translation functions,
      creating and destroying a space gives every table back, the boot tables and
      paging.c mean to the processor what they should, the self-test tells the truth.
    - Threads and processes: a tick gives the next thread of the ring the processor with
      its registers as they were, a finished thread leaves the ring; a process's space
      holds its segments byte for byte, its exit leads back to process_run with the
      caller's registers, and every space translates as before.
    - Files: what mkfs.py writes vfs.c reads, through either driver, and no contents of
      the disk make it read or write outside its arrays.
    - Devices: the ATA and virtio drivers give the function the filesystem is proved
      against; the keyboard ring loses and repeats nothing under interrupts; both
      keyboards make the same characters of the main block; the tables of interrupts say to the processor
      what the handlers expect; a timer interrupt is one tick.
    - The screen: no drawing call stores outside the framebuffer, lines end, windows stay
      in their array and clicks reach the topmost one; text is on the screen pixel by pixel
      as the font has it (Text); the console shows the last lines.
    - The running kernel: in every interleaving of interrupts with the two threads the
      scheduler, the windows and the input buffers stay well formed, a panic is final
      (System); the interrupt stubs give the handlers the frame of the C structures and
      resume the program from it, and the assembly of the context switch is the function
      the scheduler is proved with (Stubs).
    - The boot: kernel_main reaches its idle loop, or halts when arch_late_init panics, and
      has printed what it should; arch_late_init keeps what kernel_main relies on
      ([Arch.x86_late_keeps]) and reports the exit code of the first process in decimal.

    ** Bounds and fuel

    A loop whose bound the code computes runs that often.  Fuel stands only where the
    source has no bound: waits for a device (UART, virtio, fw_cfg, ATA, each with the
    patience the device's law gives as the fuel that is enough), the multiboot walk
    (tags; [mm_init_parses] says how many for a structure the specification describes,
    [mm_init_stays_in_map] for which structures there is a bound at all), lists of threads and heap blocks (their
    length, from the invariants), lines ([fb_draw_line_spec]: the number of pixels; [line_so_far] is what one that has
    not ended has drawn) and
    decimal digits (20, 11 and 10, the digits of the widest value).  Running out of fuel is
    [None], and the theorems give [Some].  The boot of the kernel needs memory for two
    threads, which thread_create does not check; this is a hypothesis ([boot_memory]).

    ** Not modelled

    The parts of boot.asm and boot.S before the tables (processor checks, mode switches,
    the temporary GDT) and gdt_flush.asm.  TLBs and caches, and with them invlpg, tlbi and
    the barriers: the walk of Mmu reads the tables as they are in memory.  Interrupts are
    taken at the points the step relations name (System, Ring, Sched, Timers), not between
    any two instructions; in Stubs a called C function is what it does up to its return,
    and the segment registers other than cs and ss are left out.  The Makefile, the linker
    scripts and check-toolchain.sh have no run-time behaviour.

    ** Plan

    The order was memory, threads, files, drawing, virtual memory, processes, devices,
    boot, the running kernel, the assembly.  What is left: a step relation like System's
    for the loader, in which the timer may interrupt process_run, and the same for the
    kernel on aarch64. *)

From stdpp Require Export base gmap sets list numbers option strings.
From Stdlib Require Export ZArith Lia.
From Stdlib Require Import Ascii.

#[global] Open Scope Z_scope.
Set Default Proof Using "Type".

(** ** Notations for the bit operators of C

    They live in a scope of their own; [≪] and [≫] are stdpp's shifts on [Z]. *)
Declare Scope c_scope.
Delimit Scope c_scope with C.
Notation "a .& b" := (Z.land a b) (at level 36, left associativity) : c_scope.
Notation "a .^ b" := (Z.lxor a b) (at level 37, left associativity) : c_scope.
Notation "a .| b" := (Z.lor a b) (at level 38, left associativity) : c_scope.
#[global] Open Scope c_scope.

(** The truth value of a C integer used as a condition. *)
Definition truth (z : Z) : bool := negb (z =? 0).

(** The bytes of a string literal. *)
Definition bytes (s : string) : list Z := (λ a, Z.of_N (N_of_ascii a)) <$> String.list_ascii_of_string s.

(** ** Tactics shared by the components *)

(** Split on the Boolean comparisons of the goal and the context, turning each
    into the proposition it decides. *)
Ltac bool_to_prop :=
  repeat match goal with
  | H : _ && _ = true |- _ => apply andb_true_iff in H; destruct H
  | H : _ && _ = false |- _ => apply andb_false_iff in H
  | H : _ || _ = true |- _ => apply orb_true_iff in H
  | H : _ || _ = false |- _ => apply orb_false_iff in H; destruct H
  | H : negb _ = true |- _ => apply negb_true_iff in H
  | H : negb _ = false |- _ => apply negb_false_iff in H
  | H : (_ <? _) = true |- _ => apply Z.ltb_lt in H
  | H : (_ <? _) = false |- _ => apply Z.ltb_ge in H
  | H : (_ <=? _) = true |- _ => apply Z.leb_le in H
  | H : (_ <=? _) = false |- _ => apply Z.leb_gt in H
  | H : (_ =? _) = true |- _ => apply Z.eqb_eq in H
  | H : (_ =? _) = false |- _ => apply Z.eqb_neq in H
  end.

(** Case analysis on the condition of the first [if] of the goal. *)
Ltac case_if :=
  match goal with
  | |- context [if ?b then _ else _] =>
      lazymatch b with
      | context [if _ then _ else _] => fail
      | _ => let E := fresh "E" in destruct b eqn:E
      end
  end.

(** [lia] after the division and modulo of the goal are replaced by their
    defining equations. *)
Ltac div_lia := Z.div_mod_to_equations; lia.

(** ** Fixed-width integers *)

Definition u8 (x : Z) : Z := x mod 2 ^ 8.
Definition u16 (x : Z) : Z := x mod 2 ^ 16.
Definition u32 (x : Z) : Z := x mod 2 ^ 32.
Definition u64 (x : Z) : Z := x mod 2 ^ 64.

(** The signed reading of the low [w] bits. *)
Definition signed (w x : Z) : Z :=
  let y := x mod 2 ^ w in if y <? 2 ^ (w - 1) then y else y - 2 ^ w.
Definition i8 (x : Z) : Z := signed 8 x.
Definition i32 (x : Z) : Z := signed 32 x.

Definition in_u (w x : Z) : Prop := 0 <= x < 2 ^ w.
Definition in_i (w x : Z) : Prop := - 2 ^ (w - 1) <= x < 2 ^ (w - 1).

(** [ALIGN_UP] and [ALIGN_DOWN]; [w] is the width the macro's expression is
    evaluated at (the width of [x]).  The mask [~(align - 1)] is written
    unbounded: on an operand of [w] bits it selects the same bits. *)
Definition ALIGN_UP (w x align : Z) : Z :=
  ((x + align - 1) mod 2 ^ w) .& Z.lnot (align - 1).
Definition ALIGN_DOWN (x align : Z) : Z := x .& Z.lnot (align - 1).

(** [BIT(n)]. *)
Definition BIT (n : Z) : Z := u64 (1 ≪ n).

Lemma truth_testbit_0 z : truth (z .& 1) = Z.testbit z 0.
Proof.
  unfold truth. change (z .& 1) with (z .& Z.ones 1).
  rewrite Z.land_ones, Z.pow_1_r, Z.bit0_odd, Zmod_odd by lia.
  by destruct (Z.odd z).
Qed.

Lemma truth_nonzero x : truth x = true ↔ x ≠ 0.
Proof. unfold truth. destruct (Z.eqb_spec x 0); simpl; split; done. Qed.

Lemma u64_id x : in_u 64 x → u64 x = x.
Proof. apply Z.mod_small. Qed.
Lemma u32_id x : in_u 32 x → u32 x = x.
Proof. apply Z.mod_small. Qed.
Lemma u8_id x : in_u 8 x → u8 x = x.
Proof. apply Z.mod_small. Qed.
Lemma u16_id x : in_u 16 x → u16 x = x.
Proof. apply Z.mod_small. Qed.
Lemma u64_range x : in_u 64 (u64 x).
Proof. apply Z.mod_pos_bound; lia. Qed.
Lemma u32_range x : in_u 32 (u32 x).
Proof. apply Z.mod_pos_bound; lia. Qed.
Lemma u8_range x : in_u 8 (u8 x).
Proof. apply Z.mod_pos_bound; lia. Qed.
Lemma u16_range x : in_u 16 (u16 x).
Proof. apply Z.mod_pos_bound; lia. Qed.

Lemma signed_id w x : 0 < w → in_i w x → signed w x = x.
Proof.
  unfold in_i, signed. intros Hw Hx.
  assert (H2 : 2 ^ w = 2 * 2 ^ (w - 1)).
  { rewrite <- (Z.pow_succ_r 2) by lia. f_equal. lia. }
  destruct (Z_lt_le_dec x 0).
  - replace (x mod 2 ^ w) with (x + 2 ^ w).
    2:{ rewrite <- (Z.mod_add x 1), Z.mul_1_l, Z.mod_small; lia. }
    rewrite (proj2 (Z.ltb_ge _ _)) by lia. lia.
  - rewrite Z.mod_small by lia. by rewrite (proj2 (Z.ltb_lt _ _)) by lia.
Qed.
Lemma i32_id x : in_i 32 x → i32 x = x.
Proof. intros. by apply signed_id. Qed.

Lemma in_u_mod w x : 0 <= w → in_u w (x mod 2 ^ w).
Proof. intros. apply Z.mod_pos_bound. lia. Qed.

Lemma in_u_land w a b : 0 <= w → in_u w a → in_u w b → in_u w (a .& b).
Proof.
  intros Hw Ha Hb. rewrite <- (Z.mod_small b (2 ^ w)), <- Z.land_ones by done.
  rewrite Z.land_assoc, Z.land_ones by done. by apply in_u_mod.
Qed.

Lemma in_u_lor w a b : 0 <= w → in_u w a → in_u w b → in_u w (a .| b).
Proof.
  intros Hw Ha Hb.
  rewrite <- (Z.mod_small a (2 ^ w)), <- (Z.mod_small b (2 ^ w)) by done.
  rewrite <- !Z.land_ones, <- Z.land_lor_distr_l, Z.land_ones by done. by apply in_u_mod.
Qed.

Lemma lor_shiftl_low a x k : 0 <= k → 0 <= x < 2 ^ k → (a ≪ k) .| x = a * 2 ^ k + x.
Proof.
  intros Hk Hx. rewrite <- Z.shiftl_mul_pow2, <- Z.add_lor_land by lia.
  assert ((a ≪ k) .& x = 0) as ->; [|lia]. apply Z.bits_inj'. intros n Hn. rewrite Z.land_spec, Z.bits_0.
  destruct (Z.lt_ge_cases n k); [by rewrite Z.shiftl_spec_low|].
  destruct (decide (x = 0)) as [->|]; [by rewrite Z.bits_0, andb_false_r|].
  rewrite (Z.bits_above_log2 x), andb_false_r; [done|lia|].
  apply Z.lt_le_trans with k; [|done]. apply Z.log2_lt_pow2; lia.
Qed.

Lemma ALIGN_DOWN_pow2 x k : 0 <= k → ALIGN_DOWN x (2 ^ k) = 2 ^ k * (x / 2 ^ k).
Proof.
  intros Hk. unfold ALIGN_DOWN.
  replace (2 ^ k - 1) with (Z.ones k) by (rewrite Z.ones_equiv; lia).
  rewrite <- Z.ldiff_land, Z.ldiff_ones_r by lia.
  rewrite Z.shiftl_mul_pow2, Z.shiftr_div_pow2 by lia. lia.
Qed.

Lemma ALIGN_UP_pow2 w x k :
  0 <= k → 0 <= x → x + 2 ^ k - 1 < 2 ^ w →
  ALIGN_UP w x (2 ^ k) = 2 ^ k * ((x + 2 ^ k - 1) / 2 ^ k).
Proof.
  intros Hk Hx Hlt. unfold ALIGN_UP. rewrite Z.mod_small by lia.
  apply (ALIGN_DOWN_pow2 (x + 2 ^ k - 1) k Hk).
Qed.

(** ** Loops

    [for_up lo hi body s] is [for (i = lo; i < hi; i++) s = body i s], for a
    loop whose bounds do not change and whose counter does not wrap. *)
Fixpoint for_n {St} (n : nat) (i : Z) (body : Z → St → St) (s : St) : St :=
  match n with
  | O => s
  | S n' => for_n n' (i + 1) body (body i s)
  end.
Definition for_up {St} (lo hi : Z) (body : Z → St → St) (s : St) : St :=
  for_n (Z.to_nat (hi - lo)) lo body s.

(** A loop body that may return from the function: [Continue] goes on with the
    next iteration, [Return] leaves the loop. *)
Inductive ctl (St R : Type) : Type :=
  | Continue (s : St)
  | Return (r : R).
Arguments Continue {St R} s.
Arguments Return {St R} r.

Fixpoint for_ret_n {St R} (n : nat) (i : Z) (body : Z → St → ctl St R) (s : St)
    : ctl St R :=
  match n with
  | O => Continue s
  | S n' => match body i s with
            | Continue s' => for_ret_n n' (i + 1) body s'
            | Return r => Return r
            end
  end.
Definition for_ret {St R} (lo hi : Z) (body : Z → St → ctl St R) (s : St) : ctl St R :=
  for_ret_n (Z.to_nat (hi - lo)) lo body s.

(** The invariant rule of [for_up]. *)
Lemma for_n_inv {St} (I : Z → St → Prop) (body : Z → St → St) n i s :
  I i s →
  (∀ j t, i <= j < i + Z.of_nat n → I j t → I (j + 1) (body j t)) →
  I (i + Z.of_nat n) (for_n n i body s).
Proof.
  revert i s. induction n as [|n IH]; intros i s HI Hstep; simpl.
  - by replace (i + Z.of_nat 0) with i by lia.
  - replace (i + Z.of_nat (S n)) with (i + 1 + Z.of_nat n) by lia.
    apply IH; [apply Hstep; [lia|done]|]. intros j t Hj. apply Hstep. lia.
Qed.

Lemma for_up_inv {St} (I : Z → St → Prop) (body : Z → St → St) lo hi s :
  I lo s →
  (∀ i t, lo <= i < hi → I i t → I (i + 1) (body i t)) →
  I (Z.max lo hi) (for_up lo hi body s).
Proof.
  intros HI Hstep. unfold for_up.
  replace (Z.max lo hi) with (lo + Z.of_nat (Z.to_nat (hi - lo))) by lia.
  apply for_n_inv; [done|]. intros j t Hj. apply Hstep. lia.
Qed.

Lemma for_n_ext {St} (f g : Z → St → St) k lo s :
  (∀ i t, lo <= i < lo + Z.of_nat k → f i t = g i t) → for_n k lo f s = for_n k lo g s.
Proof.
  revert lo s. induction k as [|k IH]; intros lo s H; [done|]. cbn [for_n]. rewrite H by lia.
  apply IH. intros i t Hi. apply H. lia.
Qed.

Lemma for_up_ext {St} (f g : Z → St → St) lo hi s :
  (∀ i t, lo <= i < hi → f i t = g i t) → for_up lo hi f s = for_up lo hi g s.
Proof. intros H. apply for_n_ext. intros i t Hi. apply H. lia. Qed.

(** The invariant rule of [for_ret]: [Q] is what a [Return] establishes. *)
Lemma for_ret_n_inv {St R} (I : Z → St → Prop) (Q : R → Prop)
    (body : Z → St → ctl St R) n i s :
  I i s →
  (∀ j t, i <= j < i + Z.of_nat n → I j t →
     match body j t with Continue t' => I (j + 1) t' | Return r => Q r end) →
  match for_ret_n n i body s with
  | Continue t => I (i + Z.of_nat n) t
  | Return r => Q r
  end.
Proof.
  revert i s. induction n as [|n IH]; intros i s HI Hstep; simpl.
  - by replace (i + Z.of_nat 0) with i by lia.
  - pose proof (Hstep i s ltac:(lia) HI) as Hi. destruct (body i s) as [s'|r]; [|done].
    replace (i + Z.of_nat (S n)) with (i + 1 + Z.of_nat n) by lia.
    apply IH; [done|]. intros j t Hj. apply Hstep. lia.
Qed.

Lemma for_ret_inv {St R} (I : Z → St → Prop) (Q : R → Prop)
    (body : Z → St → ctl St R) lo hi s :
  I lo s →
  (∀ i t, lo <= i < hi → I i t →
     match body i t with Continue t' => I (i + 1) t' | Return r => Q r end) →
  match for_ret lo hi body s with
  | Continue t => I (Z.max lo hi) t
  | Return r => Q r
  end.
Proof.
  intros HI Hstep. unfold for_ret.
  replace (Z.max lo hi) with (lo + Z.of_nat (Z.to_nat (hi - lo))) by lia.
  apply for_ret_n_inv; [done|]. intros j t Hj. apply Hstep. lia.
Qed.

(** A loop whose body may fault, which ends the program: [None]. *)
Fixpoint for_m_n {St} (n : nat) (i : Z) (body : Z → St → option St) (s : St) : option St :=
  match n with
  | O => Some s
  | S n' => s' ← body i s; for_m_n n' (i + 1) body s'
  end.
Definition for_m {St} (lo hi : Z) (body : Z → St → option St) (s : St) : option St :=
  for_m_n (Z.to_nat (hi - lo)) lo body s.

(** Its invariant rule: no iteration faults. *)
Lemma for_m_n_inv {St} (I : Z → St → Prop) (body : Z → St → option St) n i s :
  I i s →
  (∀ j t, i <= j < i + Z.of_nat n → I j t → ∃ t', body j t = Some t' ∧ I (j + 1) t') →
  ∃ t, for_m_n n i body s = Some t ∧ I (i + Z.of_nat n) t.
Proof.
  revert i s. induction n as [|n IH]; intros i s HI Hstep; cbn [for_m_n].
  - exists s. split; [done|]. by replace (i + Z.of_nat 0) with i by lia.
  - destruct (Hstep i s ltac:(lia) HI) as (s' & -> & HI'). cbn [mbind option_bind].
    replace (i + Z.of_nat (S n)) with (i + 1 + Z.of_nat n) by lia. apply IH; [done|].
    intros j t Hj. apply Hstep. lia.
Qed.

Lemma for_m_inv {St} (I : Z → St → Prop) (body : Z → St → option St) lo hi s :
  lo <= hi → I lo s →
  (∀ i t, lo <= i < hi → I i t → ∃ t', body i t = Some t' ∧ I (i + 1) t') →
  ∃ t, for_m lo hi body s = Some t ∧ I hi t.
Proof.
  intros Hle HI Hstep. unfold for_m. assert (I hi = I (lo + Z.of_nat (Z.to_nat (hi - lo)))) as -> by (f_equal; lia).
  apply for_m_n_inv; [done|]. intros j t Hj. apply Hstep. lia.
Qed.

(** ** Lists indexed by [Z] *)

Definition zget (l : list Z) (i : Z) : Z := l !!! Z.to_nat i.
Definition zset (l : list Z) (i x : Z) : list Z := <[Z.to_nat i := x]> l.

Lemma zset_length l i x : length (zset l i x) = length l.
Proof. apply length_insert. Qed.

Lemma zget_zset l i j x :
  0 <= i < Z.of_nat (length l) → 0 <= j →
  zget (zset l i x) j = if j =? i then x else zget l j.
Proof.
  intros Hi Hj. unfold zget, zset. destruct (Z.eqb_spec j i) as [->|Hne].
  - apply list_lookup_total_insert_eq. lia.
  - apply list_lookup_total_insert_ne. lia.
Qed.

Lemma zset_Forall (P : Z → Prop) l i x : Forall P l → P x → Forall P (zset l i x).
Proof. intros. by apply Forall_insert. Qed.

Lemma zget_Forall (P : Z → Prop) l i :
  Forall P l → 0 <= i < Z.of_nat (length l) → P (zget l i).
Proof.
  intros HF Hi. unfold zget. eapply Forall_lookup_total_1; [done|lia].
Qed.

Lemma zget_replicate n x i : 0 <= i < Z.of_nat n → zget (replicate n x) i = x.
Proof. intros. apply lookup_total_replicate_2. lia. Qed.

Lemma bind_ext_in {A B} (f g : A → list B) (l : list A) :
  (∀ x, x ∈ l → f x = g x) → l ≫= f = l ≫= g.
Proof.
  intros H. induction l as [|a l IH]; [done|]. rewrite !bind_cons. f_equal.
  - apply H. left.
  - apply IH. intros x Hx. apply H. by right.
Qed.

(** Hint databases: [ranges] closes the range side conditions, [align] rewrites
    alignment arithmetic. *)
Create HintDb ranges.
#[export] Hint Resolve u8_range u16_range u32_range u64_range : ranges.
#[export] Hint Resolve zset_Forall : ranges.
Create Rewrite HintDb fixed_width.
#[export] Hint Rewrite u8_id u16_id u32_id u64_id using (unfold in_u; lia) : fixed_width.
#[export] Hint Rewrite zset_length : fixed_width.

(** ** C strings *)

(** The characters of a C string, from a pointer to the end of its
    object: [None] when there is no NUL among them. *)
Fixpoint c_string (s : list Z) : option (list Z) :=
  match s with
  | [] => None
  | c :: s => if negb (truth c) then Some [] else cons c <$> c_string s
  end.

Lemma c_string_app s r : Forall (λ c, c ≠ 0) s → c_string (s ++ 0 :: r) = Some s.
Proof.
  induction 1 as [|c s Hc Hs IH]; [done|]. cbn [c_string app].
  by rewrite (proj2 (truth_nonzero c) Hc), IH.
Qed.

Lemma c_string_total s : 0 ∈ s → is_Some (c_string s).
Proof.
  induction s as [|c s IH]; [set_solver|]. intros Hin. cbn [c_string]. destruct (truth c) eqn:E; simpl; [|by eexists].
  apply elem_of_cons in Hin as [<-|Hin]; [done|]. destruct (IH Hin) as [x ->]. by eexists.
Qed.

(** ** Rotations *)

Definition rot1 {A} (l : list A) : list A :=
  match l with [] => [] | x :: l => l ++ [x] end.

Lemma length_rot1 {A} (l : list A) : length (rot1 l) = length l.
Proof. destruct l; simpl; [done|]. rewrite length_app. simpl. lia. Qed.

Lemma rot1_lookup {A} (l : list A) i :
  (i < length l)%nat → rot1 l !! i = l !! ((i + 1) mod length l)%nat.
Proof.
  destruct l as [|x l]; [simpl; lia|]. cbn [length rot1]. intros Hi.
  destruct (decide (i = length l)) as [->|].
  - rewrite (Nat.add_1_r (length l)), Nat.Div0.mod_same. rewrite lookup_app_r, Nat.sub_diag by lia. done.
  - rewrite Nat.mod_small by lia. rewrite lookup_app_l by lia. by rewrite Nat.add_1_r.
Qed.

(** After [n] rotations the element at the front is the one at [n] modulo the length. *)
Lemma iter_rot1_lookup {A} n (l : list A) i :
  (i < length l)%nat → Nat.iter n rot1 l !! i = l !! ((i + n) mod length l)%nat.
Proof.
  revert i. induction n as [|n IH]; intros i Hi; simpl.
  - by rewrite Nat.add_0_r, Nat.mod_small by lia.
  - assert (length (Nat.iter n rot1 l) = length l) as El.
    { clear. induction n as [|n IH]; simpl; [done|]. by rewrite length_rot1. }
    rewrite rot1_lookup, El by lia. rewrite IH by (apply Nat.mod_upper_bound; lia).
    rewrite Nat.Div0.add_mod_idemp_l. do 2 f_equal. lia.
Qed.
