(* ===== verification/FrameAlloc.v ===== *)
(** * The frame-allocator interface

    What mm/pmm.c promises to the code built on it (mm/heap.c and the page-table
    code): the operations as a class [FrameOps] and their contract as the class
    [FrameLaws], in terms of the set of free frames and the set of managed frames.
    Pmm.v provides the instance; Heap.v and the page-table files are written and
    proved against the interface. *)

From S2P Require Import Prelude.

Definition PAGE : Z := 4096.

(** The frames [lo .. hi - 1]. *)
Definition frame_range (lo hi : Z) : gset Z := list_to_set (seqZ lo (hi - lo)).

Class FrameOps (St : Type) := {
  alloc_frame : St → Z * St;
  alloc_frames : Z → St → Z * St;
  free_frame : Z → St → St;
  fa_wf : St → Prop;
  fa_free : St → gset Z;
  fa_managed : St → gset Z
}.

(** A failed allocation returns address 0 and changes nothing; a successful one
    returns the address of frames that were free and are not any more. *)
Class FrameLaws (St : Type) `{!FrameOps St} := {
  fa_bounds s f : fa_wf s → f ∈ fa_managed s → 0 <= f < 2 ^ 52 - 1;
  fa_free_managed s : fa_wf s → fa_free s ⊆ fa_managed s;
  fa_zero s : fa_wf s → 0 ∉ fa_free s;
  alloc_frame_law s :
    fa_wf s →
    (fa_free s = ∅ ∧ alloc_frame s = (0, s)) ∨
    ∃ f s', f ∈ fa_free s ∧ alloc_frame s = (f * PAGE, s') ∧ fa_wf s' ∧
      fa_managed s' = fa_managed s ∧ fa_free s' = fa_free s ∖ {[f]};
  alloc_frames_law s n :
    fa_wf s → 0 < n < 2 ^ 64 →
    alloc_frames n s = (0, s) ∨
    ∃ f s', frame_range f (f + n) ⊆ fa_free s ∧ alloc_frames n s = (f * PAGE, s') ∧
      fa_wf s' ∧ fa_managed s' = fa_managed s ∧
      fa_free s' = fa_free s ∖ frame_range f (f + n);
  free_frame_law s f :
    fa_wf s → f ∈ fa_managed s → f ≠ 0 →
    fa_wf (free_frame (f * PAGE) s) ∧ fa_managed (free_frame (f * PAGE) s) = fa_managed s ∧
    fa_free (free_frame (f * PAGE) s) = {[f]} ∪ fa_free s
}.

Lemma elem_of_frame_range f lo hi : f ∈ frame_range lo hi ↔ lo <= f < hi.
Proof. unfold frame_range. rewrite elem_of_list_to_set, elem_of_seqZ. lia. Qed.

Lemma size_frame_range lo hi : lo <= hi → Z.of_nat (size (frame_range lo hi)) = hi - lo.
Proof.
  intros. unfold frame_range. rewrite size_list_to_set by apply NoDup_seqZ.
  rewrite length_seqZ. lia.
Qed.

Lemma frame_range_snoc lo i : lo <= i → frame_range lo (i + 1) = {[i]} ∪ frame_range lo i.
Proof.
  intros. apply set_eq. intros f.
  rewrite elem_of_union, elem_of_singleton, !elem_of_frame_range. lia.
Qed.

Lemma frame_range_empty lo hi : hi <= lo → frame_range lo hi = ∅.
Proof.
  intros. apply set_eq. intros f. rewrite elem_of_frame_range.
  split; [lia|]. by rewrite elem_of_empty.
Qed.
