(* ===== verification/Pmm.v ===== *)
(** * The physical frame allocator: mm/pmm.c, include/mm/pmm.h

    The four static variables of pmm.c are the fields of [pmm].  The bitmap, an
    array of bytes placed in memory at the address [bitmap_ptr], is the list of
    its [bitmap_bytes] bytes.  Each operation takes and returns the state.

    [free_set] is the abstraction the clients see, the set of free frame numbers;
    [pmm_wf] is the representation invariant. *)

From S2P Require Import Prelude.
From S2P Require Import FrameAlloc.

(** ** Data *)

Definition PMM_FRAME_SIZE : Z := 4096.

Record mem_region := mk_region { mr_base : Z; mr_length : Z }.

Record pmm := mk_pmm {
  bitmap : list Z;
  bitmap_ptr : Z;
  bitmap_bytes : Z;
  total_frames : Z;
  free_frames : Z
}.

Definition set_bitmap (p : pmm) (b : list Z) : pmm :=
  mk_pmm b (bitmap_ptr p) (bitmap_bytes p) (total_frames p) (free_frames p).
Definition set_free (p : pmm) (n : Z) : pmm :=
  mk_pmm (bitmap p) (bitmap_ptr p) (bitmap_bytes p) (total_frames p) n.

(** ** Operations *)

(** [bitmap[frame / 8] |= (u8)(1 << (frame % 8))] *)
Definition bit_set (p : pmm) (frame : Z) : pmm :=
  set_bitmap p (zset (bitmap p) (frame / 8)
    (zget (bitmap p) (frame / 8) .| u8 (1 ≪ (frame mod 8)))).

(** [bitmap[frame / 8] &= (u8)~(1 << (frame % 8))] *)
Definition bit_clear (p : pmm) (frame : Z) : pmm :=
  set_bitmap p (zset (bitmap p) (frame / 8)
    (zget (bitmap p) (frame / 8) .& u8 (Z.lnot (1 ≪ (frame mod 8))))).

(** [(bitmap[frame / 8] >> (frame % 8)) & 1] *)
Definition bit_test (p : pmm) (frame : Z) : bool :=
  truth ((zget (bitmap p) (frame / 8) ≫ (frame mod 8)) .& 1).

Definition mark_range (start end_ : Z) (used : bool) (p : pmm) : pmm :=
  let first := start / PMM_FRAME_SIZE in
  let last := ALIGN_DOWN end_ PMM_FRAME_SIZE / PMM_FRAME_SIZE in
  for_up first (Z.min last (total_frames p)) (λ f p,
    if used
    then (if negb (bit_test p f)
          then let p := bit_set p f in set_free p (u64 (free_frames p - 1)) else p)
    else (if bit_test p f
          then let p := bit_clear p f in set_free p (u64 (free_frames p + 1)) else p)) p.

(** The end address of a region, as pmm_init computes it. *)
Definition region_top (r : mem_region) : Z := u64 (mr_base r + mr_length r).

Definition pmm_init (regions : list mem_region) (reserved_start reserved_end : Z) : pmm :=
  let highest := fold_left (λ highest r,
    let top := region_top r in if highest <? top then top else highest) regions 0 in
  let total := highest / PMM_FRAME_SIZE in
  let bytes := (total + 7) / 8 in
  let bm := ALIGN_UP 64 reserved_end 8 in
  let bitmap_end := u64 (bm + bytes) in
  let p := mk_pmm (replicate (Z.to_nat bytes) 0xFF) bm bytes total 0 in
  let p := fold_left (λ p r, mark_range (mr_base r) (region_top r) false p) regions p in
  mark_range reserved_start bitmap_end true p.

Definition pmm_alloc_frame (p : pmm) : Z * pmm :=
  match for_ret 0 (total_frames p) (λ f (_ : unit),
          if negb (bit_test p f)
          then let p := bit_set p f in
               Return (u64 (f * PMM_FRAME_SIZE), set_free p (u64 (free_frames p - 1)))
          else Continue tt) tt with
  | Return r => r
  | Continue _ => (0, p)
  end.

Definition pmm_free_frame (addr : Z) (p : pmm) : pmm :=
  let f := addr / PMM_FRAME_SIZE in
  if (total_frames p <=? f) || negb (bit_test p f) then p
  else let p := bit_clear p f in set_free p (u64 (free_frames p + 1)).

(** The body of the search loop of pmm_alloc_frames, on [(run_start, run_len)]. *)
Definition search_body (p : pmm) (count f : Z) (st : Z * Z) : ctl (Z * Z) (Z * pmm) :=
  let '(run_start, run_len) := st in
  if bit_test p f then Continue (run_start, 0) else
  let run_start := if run_len =? 0 then f else run_start in
  let run_len := u64 (run_len + 1) in
  if run_len =? count
  then let p := for_up run_start (u64 (run_start + count)) (λ i p, bit_set p i) p in
       Return (u64 (run_start * PMM_FRAME_SIZE), set_free p (u64 (free_frames p - count)))
  else Continue (run_start, run_len).

Definition pmm_alloc_frames (count : Z) (p : pmm) : Z * pmm :=
  if count =? 0 then (0, p) else
  match for_ret 0 (total_frames p) (search_body p count) (0, 0) with
  | Return r => r
  | Continue _ => (0, p)
  end.

Definition pmm_free_frames (addr count : Z) (p : pmm) : pmm :=
  let first := addr / PMM_FRAME_SIZE in
  for_up first (Z.min (u64 (first + count)) (total_frames p)) (λ f p,
    if bit_test p f
    then let p := bit_clear p f in set_free p (u64 (free_frames p + 1)) else p) p.

Definition pmm_total_frames (p : pmm) : Z := total_frames p.
Definition pmm_free_frame_count (p : pmm) : Z := free_frames p.

(** ** Abstraction and invariant *)

Definition free_set (p : pmm) : gset Z :=
  list_to_set (filter (λ f, bit_test p f = false) (seqZ 0 (total_frames p))).

Record pmm_wf (p : pmm) : Prop := {
  wf_total : 0 <= total_frames p < 2 ^ 52;
  wf_bytes : bitmap_bytes p = (total_frames p + 7) / 8;
  wf_length : Z.of_nat (length (bitmap p)) = bitmap_bytes p;
  wf_range : Forall (in_u 8) (bitmap p);
  wf_count : free_frames p = Z.of_nat (size (free_set p))
}.

Lemma elem_of_free_set f p :
  f ∈ free_set p ↔ 0 <= f < total_frames p ∧ bit_test p f = false.
Proof.
  unfold free_set. rewrite elem_of_list_to_set, list_elem_of_filter, elem_of_seqZ.
  intuition lia.
Qed.

Lemma free_set_bounded p : free_set p ⊆ frame_range 0 (total_frames p).
Proof. intros f. rewrite elem_of_free_set, elem_of_frame_range. lia. Qed.

(** ** The bit operations *)

Lemma bit_test_testbit p f :
  bit_test p f = Z.testbit (zget (bitmap p) (f / 8)) (f mod 8).
Proof.
  unfold bit_test. rewrite truth_testbit_0, Z.shiftr_spec by lia. by rewrite Z.add_0_l.
Qed.

(** The frames whose bit lies inside the bitmap. *)
Definition in_bitmap (p : pmm) (f : Z) : Prop := 0 <= f < 8 * Z.of_nat (length (bitmap p)).

Lemma in_bitmap_div p f : in_bitmap p f → 0 <= f / 8 < Z.of_nat (length (bitmap p)).
Proof. unfold in_bitmap. div_lia. Qed.

(** Two frames of the same byte have the same bit only when they are equal. *)
Lemma same_bit f g : g / 8 = f / 8 → (f mod 8 =? g mod 8) = (g =? f).
Proof.
  intros E. destruct (Z.eqb_spec g f) as [->|Hne]; [apply Z.eqb_refl|].
  apply Z.eqb_neq. contradict Hne. div_lia.
Qed.

Lemma bit_test_set p f g :
  in_bitmap p f → 0 <= g → bit_test (bit_set p f) g = (g =? f) || bit_test p g.
Proof.
  intros Hf%in_bitmap_div Hg. rewrite !bit_test_testbit. unfold bit_set, set_bitmap; simpl.
  rewrite zget_zset by div_lia. destruct (Z.eqb_spec (g / 8) (f / 8)) as [E|E].
  - unfold u8. rewrite Z.lor_spec, E, Z.mod_pow2_bits_low by div_lia.
    rewrite Z.shiftl_1_l, Z.pow2_bits_eqb, same_bit by (done || div_lia).
    apply orb_comm.
  - by destruct (Z.eqb_spec g f) as [->|Hne].
Qed.

Lemma bit_test_clear p f g :
  in_bitmap p f → 0 <= g → bit_test (bit_clear p f) g = negb (g =? f) && bit_test p g.
Proof.
  intros Hf%in_bitmap_div Hg. rewrite !bit_test_testbit. unfold bit_clear, set_bitmap; simpl.
  rewrite zget_zset by div_lia. destruct (Z.eqb_spec (g / 8) (f / 8)) as [E|E].
  - unfold u8. rewrite Z.land_spec, E, Z.mod_pow2_bits_low by div_lia.
    rewrite Z.lnot_spec, Z.shiftl_1_l, Z.pow2_bits_eqb, same_bit by (done || div_lia).
    apply andb_comm.
  - by destruct (Z.eqb_spec g f) as [->|Hne].
Qed.

(** What an update of one bit and of the counter does to the invariant. *)
Lemma wf_in_bitmap p f : pmm_wf p → 0 <= f < total_frames p → in_bitmap p f.
Proof. intros [? Hb Hl ? ?] ?. unfold in_bitmap. rewrite Hl, Hb. div_lia. Qed.

Lemma free_set_bit_set p f n :
  pmm_wf p → 0 <= f < total_frames p →
  free_set (set_free (bit_set p f) n) = free_set p ∖ {[f]}.
Proof.
  intros Hwf Hf. apply set_eq. intros g.
  rewrite elem_of_difference, elem_of_singleton, !elem_of_free_set.
  change (total_frames (set_free (bit_set p f) n)) with (total_frames p).
  change (bit_test (set_free (bit_set p f) n) g) with (bit_test (bit_set p f) g).
  destruct (decide (0 <= g)); [|lia].
  rewrite bit_test_set, orb_false_iff, Z.eqb_neq by eauto using wf_in_bitmap. tauto.
Qed.

Lemma free_set_bit_clear p f n :
  pmm_wf p → 0 <= f < total_frames p →
  free_set (set_free (bit_clear p f) n) = {[f]} ∪ free_set p.
Proof.
  intros Hwf Hf. apply set_eq. intros g.
  rewrite elem_of_union, elem_of_singleton, !elem_of_free_set.
  change (total_frames (set_free (bit_clear p f) n)) with (total_frames p).
  change (bit_test (set_free (bit_clear p f) n) g) with (bit_test (bit_clear p f) g).
  destruct (decide (0 <= g)); [|lia].
  rewrite bit_test_clear, andb_false_iff, negb_false_iff, Z.eqb_eq
    by eauto using wf_in_bitmap. intuition lia.
Qed.

Lemma wf_size_free p : pmm_wf p → Z.of_nat (size (free_set p)) <= total_frames p.
Proof.
  intros Hwf. destruct (wf_total p Hwf). rewrite <- (Z.sub_0_r (total_frames p)).
  rewrite <- size_frame_range by lia. apply inj_le, subseteq_size, free_set_bounded.
Qed.

(** Rebuild the invariant after an update of the bitmap, given the new count. *)
Lemma wf_update p b n :
  pmm_wf p → length b = length (bitmap p) → Forall (in_u 8) b →
  n = Z.of_nat (size (free_set (set_free (set_bitmap p b) n))) →
  pmm_wf (set_free (set_bitmap p b) n).
Proof. intros [] Hl Hr Hn. split; simpl; try done. by rewrite Hl. Qed.

Lemma wf_bit_set p f n :
  pmm_wf p → 0 <= f < total_frames p →
  n = Z.of_nat (size (free_set p ∖ {[f]})) →
  pmm_wf (set_free (bit_set p f) n).
Proof.
  intros Hwf Hf Hn. apply wf_update; [done|apply zset_length| |].
  - apply zset_Forall; [apply Hwf|]. apply in_u_lor; [lia| |apply u8_range].
    apply zget_Forall; [apply Hwf|]. by apply in_bitmap_div, wf_in_bitmap.
  - rewrite Hn. do 2 f_equal. symmetry. by apply free_set_bit_set.
Qed.

Lemma wf_bit_clear p f n :
  pmm_wf p → 0 <= f < total_frames p →
  n = Z.of_nat (size ({[f]} ∪ free_set p)) →
  pmm_wf (set_free (bit_clear p f) n).
Proof.
  intros Hwf Hf Hn. apply wf_update; [done|apply zset_length| |].
  - apply zset_Forall; [apply Hwf|]. apply in_u_land; [lia| |apply u8_range].
    apply zget_Forall; [apply Hwf|]. by apply in_bitmap_div, wf_in_bitmap.
  - rewrite Hn. do 2 f_equal. symmetry. by apply free_set_bit_clear.
Qed.

(** One step of every loop of this file that changes a frame: its bit and the
    counter together. *)
Definition take_frame (p : pmm) (f : Z) : pmm :=
  set_free (bit_set p f) (u64 (free_frames p - 1)).
Definition give_frame (p : pmm) (f : Z) : pmm :=
  set_free (bit_clear p f) (u64 (free_frames p + 1)).

Lemma take_wf p f :
  pmm_wf p → f ∈ free_set p → pmm_wf (take_frame p f) ∧ free_set (take_frame p f) = free_set p ∖ {[f]}.
Proof.
  intros Hwf Hin. pose proof (wf_size_free p Hwf). destruct (wf_total p Hwf).
  assert (Hs : size (free_set p ∖ {[f]}) = (size (free_set p) - 1)%nat).
  { rewrite size_difference by set_solver. by rewrite size_singleton. }
  assert (Hpos : (0 < size (free_set p))%nat).
  { destruct (size (free_set p)) eqn:E; [|lia]. apply size_empty_inv in E. set_solver. }
  apply elem_of_free_set in Hin as [Hf _]. split; [|by apply free_set_bit_set].
  apply wf_bit_set; [done..|]. rewrite (wf_count p Hwf), Hs.
  autorewrite with fixed_width. lia.
Qed.

Lemma give_wf p f :
  pmm_wf p → 0 <= f < total_frames p → f ∉ free_set p →
  pmm_wf (give_frame p f) ∧ free_set (give_frame p f) = {[f]} ∪ free_set p.
Proof.
  intros Hwf Hf Hni. split; [|by apply free_set_bit_clear].
  pose proof (wf_size_free p Hwf). destruct (wf_total p Hwf).
  apply wf_bit_clear; [done..|].
  rewrite size_union by set_solver. rewrite size_singleton, (wf_count p Hwf).
  autorewrite with fixed_width. lia.
Qed.

Lemma bit_test_true_iff p f :
  0 <= f < total_frames p → bit_test p f = true ↔ f ∉ free_set p.
Proof. intros. rewrite elem_of_free_set. destruct (bit_test p f); intuition lia. Qed.

Lemma bit_test_false_iff p f :
  0 <= f < total_frames p → bit_test p f = false ↔ f ∈ free_set p.
Proof. intros. rewrite elem_of_free_set. destruct (bit_test p f); intuition. Qed.

(** What the operations leave alone. *)
Definition same_shape (p q : pmm) : Prop :=
  total_frames q = total_frames p ∧ bitmap_ptr q = bitmap_ptr p ∧
  bitmap_bytes q = bitmap_bytes p.

#[global] Instance same_shape_equiv : Equivalence same_shape.
Proof. split; unfold same_shape; repeat intros ?; intuition congruence. Qed.

(** ** mark_range *)

(** The frames mark_range visits: both ends are rounded down. *)
Definition range_frames (total start end_ : Z) : gset Z :=
  frame_range (start / PMM_FRAME_SIZE) (Z.min (end_ / PMM_FRAME_SIZE) total).

Lemma ALIGN_DOWN_frame x : ALIGN_DOWN x PMM_FRAME_SIZE / PMM_FRAME_SIZE = x / PMM_FRAME_SIZE.
Proof.
  change PMM_FRAME_SIZE with (2 ^ 12). rewrite ALIGN_DOWN_pow2 by lia.
  by rewrite Z.mul_comm, Z.div_mul.
Qed.

(** A loop that gives every frame of [lo .. hi - 1] that is not free. *)
Lemma give_loop lo hi p :
  pmm_wf p → 0 <= lo → hi <= total_frames p →
  let q := for_up lo hi (λ f p, if bit_test p f then give_frame p f else p) p in
  pmm_wf q ∧ free_set q = frame_range lo hi ∪ free_set p ∧ same_shape p q.
Proof.
  intros Hwf Hlo Hhi q.
  enough (pmm_wf q ∧ free_set q = frame_range lo (Z.max lo hi) ∪ free_set p ∧ same_shape p q)
    as (? & -> & ?).
  { split_and!; [done| |done]. f_equal. apply set_eq. intros f.
    rewrite !elem_of_frame_range. lia. }
  apply (for_up_inv (λ i q,
    pmm_wf q ∧ free_set q = frame_range lo i ∪ free_set p ∧ same_shape p q)).
  - split_and!; [done| |done]. rewrite frame_range_empty by lia. set_solver.
  - intros i t Hi (Hwt & Hft & Hsh). destruct Hsh as (Ht & Hsh).
    rewrite frame_range_snoc by lia. destruct (bit_test t i) eqn:E.
    + apply bit_test_true_iff in E; [|lia].
      destruct (give_wf t i) as [? ->]; [done|lia|done|].
      split_and!; [done|set_solver|done].
    + apply bit_test_false_iff in E; [|lia]. split_and!; [done|set_solver|done].
Qed.

(** A loop that takes every free frame of [lo .. hi - 1]. *)
Lemma take_loop lo hi p :
  pmm_wf p → 0 <= lo → hi <= total_frames p →
  let q := for_up lo hi (λ f p, if negb (bit_test p f) then take_frame p f else p) p in
  pmm_wf q ∧ free_set q = free_set p ∖ frame_range lo hi ∧ same_shape p q.
Proof.
  intros Hwf Hlo Hhi q.
  enough (pmm_wf q ∧ free_set q = free_set p ∖ frame_range lo (Z.max lo hi) ∧ same_shape p q)
    as (? & -> & ?).
  { split_and!; [done| |done]. f_equal. apply set_eq. intros f.
    rewrite !elem_of_frame_range. lia. }
  apply (for_up_inv (λ i q,
    pmm_wf q ∧ free_set q = free_set p ∖ frame_range lo i ∧ same_shape p q)).
  - split_and!; [done| |done]. rewrite frame_range_empty by lia. set_solver.
  - intros i t Hi (Hwt & Hft & Hsh). destruct Hsh as (Ht & Hsh).
    rewrite frame_range_snoc by lia. destruct (bit_test t i) eqn:E; simpl.
    + apply bit_test_true_iff in E; [|lia]. split_and!; [done|set_solver|done].
    + apply bit_test_false_iff in E; [|lia].
      destruct (take_wf t i) as [? ->]; [done|done|].
      split_and!; [done|set_solver|done].
Qed.

Lemma mark_range_free p start end_ :
  pmm_wf p → 0 <= start →
  let q := mark_range start end_ false p in
  pmm_wf q ∧ free_set q = range_frames (total_frames p) start end_ ∪ free_set p ∧ same_shape p q.
Proof.
  intros Hwf Hs. unfold mark_range, range_frames. rewrite ALIGN_DOWN_frame.
  apply give_loop; [done|apply Z.div_pos; [done|unfold PMM_FRAME_SIZE; lia]|lia].
Qed.

Lemma mark_range_used p start end_ :
  pmm_wf p → 0 <= start →
  let q := mark_range start end_ true p in
  pmm_wf q ∧ free_set q = free_set p ∖ range_frames (total_frames p) start end_ ∧ same_shape p q.
Proof.
  intros Hwf Hs. unfold mark_range, range_frames. rewrite ALIGN_DOWN_frame.
  apply take_loop; [done|apply Z.div_pos; [done|unfold PMM_FRAME_SIZE; lia]|lia].
Qed.

(** ** Single frames *)

(** The lowest member of a set of frames, which a first-fit search returns. *)
Definition lowest (S : gset Z) (f : Z) : Prop := f ∈ S ∧ ∀ g, g ∈ S → f <= g.

Lemma frame_addr p f : pmm_wf p → 0 <= f < total_frames p →
  u64 (f * PMM_FRAME_SIZE) = f * PMM_FRAME_SIZE.
Proof. intros [[? ?] ? ? ? ?] ?. apply u64_id. unfold in_u, PMM_FRAME_SIZE. lia. Qed.

Lemma alloc_frame_cases p :
  pmm_wf p →
  (free_set p = ∅ ∧ pmm_alloc_frame p = (0, p)) ∨
  ∃ f, lowest (free_set p) f ∧ pmm_alloc_frame p = (f * PMM_FRAME_SIZE, take_frame p f).
Proof.
  intros Hwf.
  pose (body := λ f (_ : unit), if negb (bit_test p f)
    then Return (u64 (f * PMM_FRAME_SIZE), take_frame p f) else Continue tt).
  change (pmm_alloc_frame p) with
    (match for_ret 0 (total_frames p) body tt with Return r => r | Continue _ => (0, p) end).
  assert (match for_ret 0 (total_frames p) body tt with
          | Continue _ => ∀ g, g ∈ free_set p → Z.max 0 (total_frames p) <= g
          | Return r => ∃ f, lowest (free_set p) f ∧ r = (f * PMM_FRAME_SIZE, take_frame p f)
          end) as Hloop.
  { apply (for_ret_inv (λ i (_ : unit), ∀ g, g ∈ free_set p → i <= g)).
    - intros g Hg%free_set_bounded%elem_of_frame_range. lia.
    - intros i [] Hi Hlow. unfold body. destruct (bit_test p i) eqn:Eb; simpl.
      + intros h Hh. apply bit_test_true_iff in Eb; [|lia].
        specialize (Hlow h Hh). destruct (decide (h = i)); [naive_solver|lia].
      + apply bit_test_false_iff in Eb; [|lia]. exists i.
        split; [done|]. by rewrite (frame_addr p). }
  destruct (for_ret 0 (total_frames p) body tt) as [[]|r].
  - left. split; [|done]. apply set_eq. intros g. split; [|set_solver].
    intros Hg. specialize (Hloop g Hg). apply free_set_bounded, elem_of_frame_range in Hg. lia.
  - right. destruct Hloop as (f & ? & ->). eauto.
Qed.

Lemma free_frame_give addr p :
  0 <= addr < total_frames p * PMM_FRAME_SIZE → addr / PMM_FRAME_SIZE ∉ free_set p →
  pmm_free_frame addr p = give_frame p (addr / PMM_FRAME_SIZE).
Proof.
  intros Ha Hni. unfold pmm_free_frame, PMM_FRAME_SIZE in *.
  assert (0 <= addr / 4096 < total_frames p) as Hf by div_lia.
  rewrite (proj2 (Z.leb_gt _ _)) by lia. simpl.
  by rewrite (proj2 (bit_test_true_iff p _ Hf) Hni).
Qed.

Lemma free_frame_noop addr p :
  0 <= addr →
  total_frames p * PMM_FRAME_SIZE <= addr ∨ addr / PMM_FRAME_SIZE ∈ free_set p →
  pmm_free_frame addr p = p.
Proof.
  intros Ha Hor. unfold pmm_free_frame, PMM_FRAME_SIZE in *.
  destruct (Z.leb_spec (total_frames p) (addr / 4096)); [done|].
  destruct Hor as [?|Hin]; [div_lia|].
  assert (0 <= addr / 4096 < total_frames p) as Hf by div_lia.
  by rewrite (proj2 (bit_test_false_iff p _ Hf) Hin).
Qed.

(** ** Runs of frames *)

(** The run of bits the search of pmm_alloc_frames sets. *)
Lemma bit_set_loop lo hi p :
  pmm_wf p → 0 <= lo → hi <= total_frames p →
  let q := for_up lo hi (λ i p, bit_set p i) p in
  length (bitmap q) = length (bitmap p) ∧ Forall (in_u 8) (bitmap q) ∧ same_shape p q ∧
  free_frames q = free_frames p ∧ free_set q = free_set p ∖ frame_range lo hi.
Proof.
  intros Hwf Hlo Hhi q.
  enough (length (bitmap q) = length (bitmap p) ∧ Forall (in_u 8) (bitmap q) ∧ same_shape p q ∧
    free_frames q = free_frames p ∧
    ∀ g, 0 <= g → bit_test q g = ((lo <=? g) && (g <? Z.max lo hi)) || bit_test p g)
    as (Hl & Hr & (Ht & ?) & Hc & Hb).
  { split_and!; [done|done|done|done|]. apply set_eq. intros g.
    rewrite elem_of_difference, !elem_of_free_set, elem_of_frame_range, Ht.
    destruct (decide (0 <= g)); [|lia]. rewrite Hb by done.
    destruct (Z.leb_spec lo g), (Z.ltb_spec g (Z.max lo hi)); simpl; intuition lia. }
  apply (for_up_inv (λ i q,
    length (bitmap q) = length (bitmap p) ∧ Forall (in_u 8) (bitmap q) ∧ same_shape p q ∧
    free_frames q = free_frames p ∧
    ∀ g, 0 <= g → bit_test q g = ((lo <=? g) && (g <? i)) || bit_test p g)).
  - split_and!; try done; [apply Hwf|]. intros g Hg. by destruct (Z.leb_spec lo g), (Z.ltb_spec g lo); simpl; try lia.
  - intros i t Hi (Hl & Hr & Hsh & Hc & Hb).
    assert (in_bitmap t i) as Hin.
    { pose proof (wf_in_bitmap p i Hwf ltac:(lia)). unfold in_bitmap in *. by rewrite Hl. }
    split_and!; try done.
    + unfold bit_set; simpl. by rewrite zset_length.
    + unfold bit_set; simpl. apply zset_Forall; [done|].
      apply in_u_lor; [lia| |apply u8_range]. by apply zget_Forall, in_bitmap_div.
    + intros g Hg. rewrite bit_test_set, Hb by done.
      by destruct (Z.eqb_spec g i), (Z.leb_spec lo g), (Z.ltb_spec g i), (Z.ltb_spec g (i + 1));
        simpl; try lia.
Qed.

Lemma take_run_wf p s n :
  pmm_wf p → 0 <= s → 0 <= n → frame_range s (s + n) ⊆ free_set p →
  let q := for_up s (s + n) (λ i p, bit_set p i) p in
  let q := set_free q (u64 (free_frames q - n)) in
  pmm_wf q ∧ free_set q = free_set p ∖ frame_range s (s + n) ∧ same_shape p q.
Proof.
  intros Hwf Hs Hn Hsub. pose proof (wf_size_free p Hwf). destruct (wf_total p Hwf).
  assert (Hle : n = 0 ∨ s + n <= total_frames p).
  { destruct (decide (n = 0)); [by left|right].
    assert (s + n - 1 ∈ free_set p) as Hin by (apply Hsub, elem_of_frame_range; lia).
    apply free_set_bounded, elem_of_frame_range in Hin. lia. }
  assert (s + n <= total_frames p ∨ n = 0 ∧ total_frames p < s) as [Hle'|[-> ?]] by lia.
  2:{ unfold for_up. replace (Z.to_nat (s + 0 - s)) with O by lia. simpl.
      rewrite frame_range_empty by lia. rewrite Z.sub_0_r, u64_id.
      - destruct p; unfold set_free; simpl. split_and!; [done|set_solver|done].
      - unfold in_u. rewrite (wf_count p Hwf). lia. }
  destruct (bit_set_loop s (s + n) p Hwf Hs Hle') as (Hl & Hr & Hsh & Hc & Hf).
  set (q := for_up s (s + n) (λ i p, bit_set p i) p) in *. cbv zeta.
  destruct Hsh as (Ht & Hp & Hby).
  assert (Hsz : Z.of_nat (size (free_set p ∖ frame_range s (s + n)))
                = Z.of_nat (size (free_set p)) - n).
  { rewrite size_difference by done. pose proof (size_frame_range s (s + n) ltac:(lia)).
    pose proof (subseteq_size _ _ Hsub). lia. }
  split_and!; [|done|done].
  split; simpl; [by rewrite Ht|by rewrite Ht, Hby; apply Hwf|by rewrite Hl, Hby; apply Hwf|done|].
  change (free_set (set_free q (u64 (free_frames q - n)))) with (free_set q).
  rewrite Hc, Hf, Hsz, (wf_count p Hwf). apply u64_id. unfold in_u. lia.
Qed.

(** The state of the search of pmm_alloc_frames before frame [f]: the last
    [run_len] frames are free, the run cannot be extended downwards, and no run
    of [count] frames lies below [f]. *)
Record search_inv (p : pmm) (count f : Z) (st : Z * Z) : Prop := {
  si_len : 0 <= snd st <= f ∧ snd st < count;
  si_start : snd st = 0 ∨ fst st = f - snd st;
  si_free : frame_range (f - snd st) f ⊆ free_set p;
  si_maximal : f - snd st = 0 ∨ f - snd st - 1 ∉ free_set p;
  si_none : ∀ s, 0 <= s → s + count <= f → ¬ frame_range s (s + count) ⊆ free_set p
}.

Lemma search_inv_used p count f rs rl :
  0 <= f → f ∉ free_set p → 0 < count →
  search_inv p count f (rs, rl) → search_inv p count (f + 1) (rs, 0).
Proof.
  intros Hf Hni Hc [? ? ? ? Hno]; split; simpl in *; [lia|lia| | |].
  - rewrite frame_range_empty by lia. set_solver.
  - right. by replace (f + 1 - 0 - 1) with f by lia.
  - intros s Hs Hle Hsub. destruct (decide (s + count <= f)); [by eapply Hno|].
    apply Hni, Hsub, elem_of_frame_range. lia.
Qed.

(** Extending the run by the free frame [f] leaves no complete run below. *)
Lemma search_inv_free p count f rs rl :
  0 <= f → f ∈ free_set p → search_inv p count f (rs, rl) →
  frame_range (f - rl) (f + 1) ⊆ free_set p ∧
  ∀ s, 0 <= s → s + count <= f + 1 → s < f - rl → ¬ frame_range s (s + count) ⊆ free_set p.
Proof.
  intros Hf Hin [? ? Hfr Hmax Hno]; simpl in *. split.
  - rewrite frame_range_snoc by lia. set_solver.
  - intros s Hs Hle Hlt Hsub. destruct (decide (s + count <= f)); [by eapply Hno|].
    destruct Hmax as [?|Hmax]; [lia|]. apply Hmax, Hsub, elem_of_frame_range. lia.
Qed.

(** The lowest start of a run of [count] free frames. *)
Definition lowest_run (S : gset Z) (count s : Z) : Prop :=
  0 <= s ∧ frame_range s (s + count) ⊆ S ∧
  ∀ s', 0 <= s' → frame_range s' (s' + count) ⊆ S → s <= s'.

(** What a successful search returns. *)
Definition run_taken (p : pmm) (count : Z) (r : Z * pmm) : Prop :=
  ∃ s q, lowest_run (free_set p) count s ∧ r = (s * PMM_FRAME_SIZE, q) ∧
    pmm_wf q ∧ free_set q = free_set p ∖ frame_range s (s + count) ∧ same_shape p q.

Lemma search_body_ok p count f st :
  pmm_wf p → 0 < count < 2 ^ 64 → 0 <= f < total_frames p → search_inv p count f st →
  match search_body p count f st with
  | Continue st' => search_inv p count (f + 1) st'
  | Return r => run_taken p count r
  end.
Proof.
  intros Hwf Hc Hf HI. destruct st as [rs rl]. destruct (wf_total p Hwf) as [Ht0 Ht].
  unfold search_body. destruct (bit_test p f) eqn:Eb.
  { apply bit_test_true_iff in Eb; [|lia]. eapply search_inv_used; (done || lia). }
  apply bit_test_false_iff in Eb; [|lia].
  destruct (search_inv_free p count f rs rl ltac:(lia) Eb HI) as [Hrun Hno].
  destruct HI as [[Hl Hlc] Hst _ Hmax _]; simpl in *.
  rewrite (u64_id (rl + 1)) by (unfold in_u; lia).
  assert ((if rl =? 0 then f else rs) = f - rl) as -> by (destruct (Z.eqb_spec rl 0); lia).
  destruct (Z.eqb_spec (rl + 1) count) as [E|E].
  - rewrite (u64_id (f - rl + count)) by (unfold in_u; lia).
    assert (Hrun' : frame_range (f - rl) (f - rl + count) ⊆ free_set p).
    { by replace (f - rl + count) with (f + 1) by lia. }
    eexists (f - rl), _. split; [|split; [by rewrite (frame_addr p) by (done || lia)|]].
    + split; [lia|]. split; [done|]. intros s' Hs' Hsub.
      destruct (decide (f - rl <= s')); [done|]. exfalso. apply (Hno s'); (done || lia).
    + apply take_run_wf; (done || lia).
  - split; simpl; [lia|lia| | |intros s Hs Hle; apply Hno; lia];
      by replace (f + 1 - (rl + 1)) with (f - rl) by lia.
Qed.

Lemma alloc_frames_cases p count :
  pmm_wf p → 0 < count < 2 ^ 64 →
  ((∀ s, 0 <= s → ¬ frame_range s (s + count) ⊆ free_set p) ∧
     pmm_alloc_frames count p = (0, p)) ∨
  run_taken p count (pmm_alloc_frames count p).
Proof.
  intros Hwf Hc. unfold pmm_alloc_frames. rewrite (proj2 (Z.eqb_neq _ _)) by lia.
  assert (search_inv p count 0 (0, 0)) as H0.
  { split; simpl; [lia|lia|rewrite frame_range_empty by lia; set_solver|lia|lia]. }
  pose proof (for_ret_inv (search_inv p count) (run_taken p count) (search_body p count)
    0 (total_frames p) (0, 0) H0 (λ f st Hf HI, search_body_ok p count f st Hwf Hc Hf HI))
    as Hloop.
  destruct (for_ret 0 (total_frames p) _ (0, 0)) as [st|r]; [left|by right].
  split; [|done]. intros s Hs Hsub. apply (si_none _ _ _ _ Hloop s Hs); [|done].
  assert (s + count - 1 ∈ free_set p) as Hin by (apply Hsub, elem_of_frame_range; lia).
  apply free_set_bounded, elem_of_frame_range in Hin. lia.
Qed.

Lemma alloc_frames_wf p count :
  pmm_wf p → 0 <= count < 2 ^ 64 → pmm_wf (snd (pmm_alloc_frames count p)).
Proof.
  intros Hwf Hc. destruct (decide (count = 0)) as [->|]; [done|].
  destruct (alloc_frames_cases p count Hwf ltac:(lia)) as [[_ ->]|(s & q & _ & -> & ? & _)]; done.
Qed.

Lemma free_frames_give addr count p :
  pmm_wf p → 0 <= addr < 2 ^ 64 → 0 <= count → addr / PMM_FRAME_SIZE + count < 2 ^ 64 →
  let q := pmm_free_frames addr count p in
  let first := addr / PMM_FRAME_SIZE in
  pmm_wf q ∧ same_shape p q ∧
  free_set q = frame_range first (Z.min (first + count) (total_frames p)) ∪ free_set p.
Proof.
  intros Hwf Ha Hc Hlt q first. subst q. unfold pmm_free_frames. fold first.
  assert (0 <= first < 2 ^ 64) by (unfold first, PMM_FRAME_SIZE; div_lia).
  fold first in Hlt. rewrite u64_id by (unfold in_u; lia).
  destruct (give_loop first (Z.min (first + count) (total_frames p)) p) as (? & ? & ?);
    [done|lia|lia|done].
Qed.

(** ** Initialisation *)

(** The frames pmm_init finds usable, and the frames it keeps reserved. *)
Definition usable_frames (total : Z) (regions : list mem_region) : gset Z :=
  ⋃ ((λ r, range_frames total (mr_base r) (region_top r)) <$> regions).

Definition highest_top (regions : list mem_region) : Z :=
  fold_right (λ r, Z.max (region_top r)) 0 regions.

Definition bitmap_end_of (regions : list mem_region) (reserved_end : Z) : Z :=
  u64 (ALIGN_UP 64 reserved_end 8 + (highest_top regions / PMM_FRAME_SIZE + 7) / 8).

Lemma region_top_range r : 0 <= region_top r < 2 ^ 64.
Proof. apply u64_range. Qed.

Lemma highest_top_range regions : 0 <= highest_top regions < 2 ^ 64.
Proof.
  unfold highest_top. induction regions as [|r rs IH]; simpl; [lia|].
  pose proof (region_top_range r). lia.
Qed.

Lemma fold_highest regions h :
  0 <= h →
  fold_left (λ highest r, let top := region_top r in
    if highest <? top then top else highest) regions h = Z.max h (highest_top regions).
Proof.
  revert h. induction regions as [|r rs IH]; intros h Hh; simpl; [unfold highest_top; simpl; lia|].
  rewrite IH by (case_if; pose proof (region_top_range r); lia).
  unfold highest_top at 2; simpl. fold (highest_top rs).
  destruct (Z.ltb_spec h (region_top r)); lia.
Qed.

Lemma usable_frames_cons total r rs :
  usable_frames total (r :: rs) =
  range_frames total (mr_base r) (region_top r) ∪ usable_frames total rs.
Proof. done. Qed.

Lemma fold_mark regions p :
  pmm_wf p → Forall (λ r, 0 <= mr_base r) regions →
  let q := fold_left (λ p r, mark_range (mr_base r) (region_top r) false p) regions p in
  pmm_wf q ∧ same_shape p q ∧
  free_set q = usable_frames (total_frames p) regions ∪ free_set p.
Proof.
  revert p. induction regions as [|r rs IH]; intros p Hwf HF; simpl.
  { split_and!; [done|done|]. unfold usable_frames; simpl. set_solver. }
  apply Forall_cons_1 in HF as [Hr Hrs].
  destruct (mark_range_free p (mr_base r) (region_top r) Hwf Hr) as (Hwf1 & Hf1 & Hsh1).
  destruct (IH (mark_range (mr_base r) (region_top r) false p)) as (Hwf2 & Hsh2 & Hf2); [done..|].
  split_and!; [done|by etrans|].
  rewrite Hf2, Hf1, usable_frames_cons. destruct Hsh1 as (-> & _). set_solver.
Qed.

(** The bitmap with every bit set: no frame is free. *)
Lemma wf_all_used total bm :
  0 <= total < 2 ^ 52 →
  let p := mk_pmm (replicate (Z.to_nat ((total + 7) / 8)) 0xFF) bm ((total + 7) / 8) total 0 in
  pmm_wf p ∧ free_set p = ∅.
Proof.
  intros Ht p.
  assert (free_set p = ∅) as Hempty.
  { apply set_eq. intros f. split; [|set_solver]. rewrite elem_of_free_set.
    intros [Hf Hb]. simpl in Hf. rewrite bit_test_testbit in Hb. simpl in Hb.
    rewrite zget_replicate in Hb by div_lia.
    change 255 with (Z.ones 8) in Hb. rewrite Z.ones_spec_low in Hb; [done|div_lia]. }
  split; [|done]. split; simpl; [done|done| | |].
  - rewrite length_replicate. div_lia.
  - apply Forall_replicate. done.
  - fold p. by rewrite Hempty, size_empty.
Qed.

Lemma init_spec regions rs re :
  Forall (λ r, 0 <= mr_base r) regions → 0 <= rs →
  let p := pmm_init regions rs re in
  pmm_wf p ∧ total_frames p = highest_top regions / PMM_FRAME_SIZE ∧
  bitmap_ptr p = ALIGN_UP 64 re 8 ∧
  free_set p = usable_frames (total_frames p) regions
                 ∖ range_frames (total_frames p) rs (bitmap_end_of regions re).
Proof.
  intros HF Hrs. cbv zeta. unfold pmm_init. rewrite fold_highest by lia.
  pose proof (highest_top_range regions) as Hh.
  rewrite Z.max_r by lia. fold (bitmap_end_of regions re).
  set (total := highest_top regions / PMM_FRAME_SIZE).
  assert (0 <= total < 2 ^ 52) as Ht by (unfold total, PMM_FRAME_SIZE; div_lia).
  destruct (wf_all_used total (ALIGN_UP 64 re 8) Ht) as [Hwf0 Hf0].
  set (p0 := mk_pmm _ _ _ _ _) in *.
  destruct (fold_mark regions p0 Hwf0 HF) as (Hwf1 & (Ht1 & Hp1 & _) & Hf1).
  set (p1 := fold_left _ regions p0) in *.
  destruct (mark_range_used p1 rs (bitmap_end_of regions re) Hwf1 Hrs)
    as (Hwf2 & Hf2 & (Ht2 & Hp2 & _)).
  split_and!; [done|by rewrite Ht2, Ht1|by rewrite Hp2, Hp1|].
  by rewrite Hf2, Hf1, Ht2, Hf0, Ht1, union_empty_r_L.
Qed.

(** ** The interface instance *)

#[export] Instance pmm_frame_ops : FrameOps pmm := {
  alloc_frame := pmm_alloc_frame;
  alloc_frames := pmm_alloc_frames;
  free_frame := pmm_free_frame;
  fa_wf p := pmm_wf p ∧ 0 ∉ free_set p;
  fa_free := free_set;
  fa_managed p := frame_range 0 (total_frames p)
}.

#[export] Instance pmm_frame_laws : FrameLaws pmm.
Proof.
  split; simpl.
  - intros p f [Hwf _]. rewrite elem_of_frame_range. destruct (wf_total p Hwf). lia.
  - intros p _. apply free_set_bounded.
  - by intros p [_ ?].
  - intros p [Hwf H0]. destruct (alloc_frame_cases p Hwf) as [?|(f & [Hin _] & ->)]; [by left|right].
    destruct (take_wf p f Hwf Hin) as [? E]. exists f, (take_frame p f). rewrite E.
    split_and!; [done|done|done|set_solver|done|done].
  - intros p n [Hwf H0] Hn.
    destruct (alloc_frames_cases p n Hwf Hn) as [[_ ?]|(s & q & (_ & Hsub & _) & -> & ? & E & Ht & _)];
      [by left|right].
    exists s, q. rewrite E, Ht. split_and!; [done|done|done|set_solver|done|done].
  - intros p f [Hwf H0] Hf Hne. apply elem_of_frame_range in Hf.
    assert (f * 4096 / PMM_FRAME_SIZE = f) as Hdiv by (apply Z.div_mul; done).
    destruct (decide (f ∈ free_set p)) as [Hin|Hin].
    + rewrite free_frame_noop by (unfold PAGE; rewrite ?Hdiv; auto; lia).
      split_and!; [done|done|done|set_solver].
    + unfold PAGE. rewrite free_frame_give; rewrite ?Hdiv; [|unfold PMM_FRAME_SIZE; lia|done].
      destruct (give_wf p f Hwf Hf Hin) as [? E]. rewrite E.
      split_and!; [done|set_solver|done|done].
Qed.

(** ** Properties *)

(** Pmm_alloc_frame on every branch.  When no frame is free it returns 0 and
    leaves the state as it was; otherwise it returns the address of the lowest
    free frame, which is then no longer free, while every other frame, the
    counter's agreement with the bitmap and the rest of the invariant are kept. *)
Lemma pmm_alloc_frame_spec (p : pmm) :
  pmm_wf p →
  let '(addr, q) := pmm_alloc_frame p in
  pmm_wf q ∧
  ((free_set p = ∅ ∧ addr = 0 ∧ q = p) ∨
   ∃ f, lowest (free_set p) f ∧ addr = f * PMM_FRAME_SIZE ∧
        free_set q = free_set p ∖ {[f]} ∧ free_frames q = free_frames p - 1).
Proof.
  intros Hwf. destruct (alloc_frame_cases p Hwf) as [[? ->]|(f & Hlow & ->)]; [auto|].
  destruct (take_wf p f Hwf (proj1 Hlow)) as [Hwf' Hf].
  split; [done|right]. exists f. split_and!; [done..|].
  rewrite (wf_count _ Hwf'), (wf_count _ Hwf), Hf, size_difference, size_singleton
    by (destruct Hlow; set_solver).
  enough (0 < size (free_set p))%nat by lia.
  destruct (size (free_set p)) eqn:E; [|lia]. apply size_empty_inv in E. destruct Hlow. set_solver.
Qed.

(** A pool of 16 frames, of which 3, 5, 6, 7 and 11 are free. *)
Definition example_pmm : pmm := mk_pmm [0x17; 0xF7] 0 2 16 5.

Lemma example_pmm_wf : pmm_wf example_pmm.
Proof.
  split; [simpl; lia|done|done| |by vm_compute].
  repeat constructor; unfold in_u; lia.
Defined.

Lemma pmm_alloc_frame_spec_witness :
  pmm_alloc_frame example_pmm = (3 * 4096, mk_pmm [0x1F; 0xF7] 0 2 16 4) ∧
  pmm_wf (snd (pmm_alloc_frame example_pmm)).
Proof.
  split; [by vm_compute|].
  exact (proj1 (pmm_alloc_frame_spec example_pmm example_pmm_wf)).
Defined.

(** C28: pmm_alloc_frames finds a run exactly when there is one.  It returns 0
    without a change when no [count] consecutive frames are free, and otherwise
    the address of the lowest run of [count] free frames, takes exactly those
    frames and keeps the invariant (the counter included). *)
Theorem pmm_alloc_frames_spec (p : pmm) (count : Z) :
  pmm_wf p → 0 < count < 2 ^ 64 →
  let '(addr, q) := pmm_alloc_frames count p in
  ((∀ s, 0 <= s → ¬ frame_range s (s + count) ⊆ free_set p) ∧ addr = 0 ∧ q = p) ∨
  ∃ s, lowest_run (free_set p) count s ∧ addr = s * PMM_FRAME_SIZE ∧
       pmm_wf q ∧ free_set q = free_set p ∖ frame_range s (s + count).
Proof.
  intros Hwf Hc.
  destruct (alloc_frames_cases p count Hwf Hc) as [[? ->]|(s & q & ? & -> & ? & ? & _)]; [auto|].
  right. eauto 10.
Qed.

Lemma pmm_alloc_frames_spec_witness :
  pmm_alloc_frames 2 example_pmm = (5 * 4096, mk_pmm [0x77; 0xF7] 0 2 16 3) ∧
  lowest_run (free_set example_pmm) 2 5.
Proof.
  split; [by vm_compute|].
  assert (frame_range 5 (5 + 2) ⊆ free_set example_pmm) as Hsub
    by (apply (bool_decide_eq_true_1 _); by vm_compute).
  destruct (pmm_alloc_frames_spec example_pmm 2 example_pmm_wf ltac:(lia))
    as [[Hno _]|(s & Hlow & Ha & _)]; [by destruct (Hno 5)|].
  change (fst (pmm_alloc_frames 2 example_pmm) = s * 4096) in Ha.
  replace (fst (pmm_alloc_frames 2 example_pmm)) with 20480 in Ha by (by vm_compute).
  by replace 5 with s by lia.
Defined.

(** Giving back what pmm_alloc_frames returned restores the free set and the
    counter: pmm_free_frames undoes it, for a single frame and for a run. *)
Lemma pmm_alloc_free_roundtrip (p : pmm) (count : Z) :
  pmm_wf p → 0 < count < 2 ^ 52 →
  let '(addr, q) := pmm_alloc_frames count p in
  addr ≠ 0 →
  let r := pmm_free_frames addr count q in
  pmm_wf r ∧ free_set r = free_set p ∧ free_frames r = free_frames p.
Proof.
  intros Hwf Hc.
  destruct (alloc_frames_cases p count Hwf ltac:(lia))
    as [[_ ->]|(s & q & (Hs & Hsub & _) & -> & Hwq & Hfq & (Htq & _))]; [done|].
  intros _. destruct (wf_total p Hwf).
  assert (∀ i, s <= i < s + count → 0 <= i < total_frames p) as Hin.
  { intros i Hi. apply elem_of_frame_range. apply free_set_bounded, Hsub, elem_of_frame_range. lia. }
  pose proof (Hin s ltac:(lia)). pose proof (Hin (s + count - 1) ltac:(lia)).
  assert (s * PMM_FRAME_SIZE / PMM_FRAME_SIZE = s) as Hdiv by (apply Z.div_mul; done).
  destruct (free_frames_give (s * PMM_FRAME_SIZE) count q Hwq) as (Hwr & _ & Hfr);
    [unfold PMM_FRAME_SIZE; lia|lia|lia|].
  rewrite Hdiv, Htq, Z.min_l, Hfq in Hfr by lia.
  assert (free_set (pmm_free_frames (s * PMM_FRAME_SIZE) count q) = free_set p) as E.
  { rewrite Hfr. apply set_eq. intros f. destruct (decide (f ∈ frame_range s (s + count))); set_solver. }
  split_and!; [done|done|]. by rewrite (wf_count _ Hwr), E, <- (wf_count _ Hwf).
Qed.

Lemma pmm_alloc_free_roundtrip_witness :
  let '(addr, q) := pmm_alloc_frames 3 example_pmm in
  addr = 5 * 4096 ∧ free_set (pmm_free_frames addr 3 q) = free_set example_pmm.
Proof.
  split; [by vm_compute|].
  apply (pmm_alloc_free_roundtrip example_pmm 3 example_pmm_wf ltac:(lia)).
  by vm_compute.
Defined.

(** What pmm_init leaves free.  From the regions of the boot loader and the
    reserved range it builds a well-formed allocator over
    [highest / 4096] frames whose free frames are exactly those of the usable
    regions, less those mark_range counts in [reserved_start, bitmap_end), where
    the bitmap starts at [reserved_end] rounded up to 8 bytes. *)
Lemma pmm_init_spec (regions : list mem_region) (rs re : Z) :
  Forall (λ r, 0 <= mr_base r) regions → 0 <= rs →
  let p := pmm_init regions rs re in
  pmm_wf p ∧ total_frames p = highest_top regions / PMM_FRAME_SIZE ∧
  bitmap_ptr p = ALIGN_UP 64 re 8 ∧
  free_set p = usable_frames (total_frames p) regions
                 ∖ range_frames (total_frames p) rs (bitmap_end_of regions re).
Proof. apply init_spec. Qed.

(** Two regions of 8 and 48 frames, a kernel that takes the first three frames
    of the second: *)
Definition example_regions : list mem_region :=
  [mk_region 0x1000 0x8000; mk_region 0x10000 0x30000].

Lemma pmm_init_spec_witness :
  free_set (pmm_init example_regions 0x10000 0x12FF8) =
    frame_range 1 9 ∪ frame_range 0x13 0x40 ∧
  pmm_wf (pmm_init example_regions 0x10000 0x12FF8).
Proof.
  split; [by vm_compute|].
  apply (pmm_init_spec example_regions 0x10000 0x12FF8); [|lia].
  repeat constructor; simpl; lia.
Defined.

(** ** Ownership

    The clients of the allocator, as a step relation on the allocator's state
    and the set of frames that are out: any interleaving of allocations and of
    frees of frames that are out. *)
Inductive pmm_step : pmm * gset Z → pmm * gset Z → Prop :=
  | step_alloc p own addr q :
      pmm_alloc_frame p = (addr, q) → addr ≠ 0 →
      pmm_step (p, own) (q, {[addr / PMM_FRAME_SIZE]} ∪ own)
  | step_alloc_fails p own q :
      pmm_alloc_frame p = (0, q) → pmm_step (p, own) (q, own)
  | step_alloc_run p own count addr q :
      0 < count < 2 ^ 52 → pmm_alloc_frames count p = (addr, q) → addr ≠ 0 →
      pmm_step (p, own)
        (q, frame_range (addr / PMM_FRAME_SIZE) (addr / PMM_FRAME_SIZE + count) ∪ own)
  | step_alloc_run_fails p own count q :
      0 < count < 2 ^ 52 → pmm_alloc_frames count p = (0, q) → pmm_step (p, own) (q, own)
  | step_free p own f :
      f ∈ own → pmm_step (p, own) (pmm_free_frame (f * PMM_FRAME_SIZE) p, own ∖ {[f]})
  | step_free_run p own f count :
      0 <= count → frame_range f (f + count) ⊆ own → 0 <= f < 2 ^ 52 → f + count < 2 ^ 52 →
      pmm_step (p, own)
        (pmm_free_frames (f * PMM_FRAME_SIZE) count p, own ∖ frame_range f (f + count)).

(** The free frames and the frames that are out split the initially free ones. *)
Definition owned_inv (p0 : pmm) (st : pmm * gset Z) : Prop :=
  let '(p, own) := st in
  pmm_wf p ∧ total_frames p = total_frames p0 ∧ own ## free_set p ∧
  own ∪ free_set p = free_set p0.

Lemma union_difference_disjoint (X Y Z : gset Z) :
  X ## Y → Z ⊆ Y → (Z ∪ X) ∪ Y ∖ Z = X ∪ Y ∧ Z ∪ X ## Y ∖ Z.
Proof.
  intros Hd Hs. split; [|set_solver]. apply set_eq. intros f.
  destruct (decide (f ∈ Z)); set_solver.
Qed.

Lemma difference_union_disjoint (X Y Z : gset Z) :
  X ## Y → Z ⊆ X → X ∖ Z ∪ (Z ∪ Y) = X ∪ Y ∧ X ∖ Z ## Z ∪ Y.
Proof.
  intros Hd Hs. split; [|set_solver]. apply set_eq. intros f.
  destruct (decide (f ∈ Z)); set_solver.
Qed.

Lemma mul_frame_div f : f * PMM_FRAME_SIZE / PMM_FRAME_SIZE = f.
Proof. by apply Z.div_mul. Qed.

Lemma owned_inv_step p0 st st' :
  0 ∉ free_set p0 → owned_inv p0 st → pmm_step st st' → owned_inv p0 st'.
Proof.
  intros H0 HI Hstep. unfold owned_inv in *. destruct Hstep as
    [p own addr q Ha Hnz|p own q Ha|p own n addr q Hn Ha Hnz|p own n q Hn Ha
    |p own f Hf|p own f n Hn Hsub Hf Hlt]; destruct HI as (Hwf & Ht & Hd & Hu).
  - destruct (alloc_frame_cases p Hwf) as [[_ E]|(f & [Hin _] & E)]; rewrite E in Ha;
      simplify_eq. rewrite mul_frame_div. destruct (take_wf p f Hwf Hin) as [? ->].
    destruct (union_difference_disjoint own (free_set p) {[f]}) as [-> ?]; [done|set_solver|].
    done.
  - destruct (alloc_frame_cases p Hwf) as [[_ E]|(f & [Hin _] & E)]; rewrite E in Ha;
      simplify_eq; [done|].
    assert (f = 0) as -> by (unfold PMM_FRAME_SIZE in *; lia). set_solver.
  - destruct (alloc_frames_cases p n Hwf ltac:(lia))
      as [[_ E]|(s & q' & (_ & Hs & _) & E & ? & Hf & Hsh & _)]; rewrite E in Ha; simplify_eq.
    rewrite mul_frame_div, Hf, Hsh.
    destruct (union_difference_disjoint own (free_set p) (frame_range s (s + n))) as [-> ?]; done.
  - destruct (alloc_frames_cases p n Hwf ltac:(lia))
      as [[_ E]|(s & q' & (_ & Hs & _) & E & ? & Hf & Hsh & _)]; rewrite E in Ha;
      simplify_eq; [done|].
    assert (s = 0) as -> by (unfold PMM_FRAME_SIZE in *; lia).
    assert (0 ∈ free_set p) by (apply Hs, elem_of_frame_range; lia). set_solver.
  - assert (f ∉ free_set p) as Hni by set_solver.
    assert (f ∈ free_set p0) as Hb%free_set_bounded%elem_of_frame_range by set_solver.
    rewrite free_frame_give; rewrite ?mul_frame_div; [|unfold PMM_FRAME_SIZE; lia|done].
    destruct (give_wf p f Hwf ltac:(lia) Hni) as [? ->].
    destruct (difference_union_disjoint own (free_set p) {[f]}) as [-> ?]; [done|set_solver|done].
  - destruct (free_frames_give (f * PMM_FRAME_SIZE) n p) as (? & Hsh & Hfr);
      [done|unfold PMM_FRAME_SIZE; lia|lia|rewrite mul_frame_div; lia|].
    rewrite mul_frame_div in Hfr. rewrite Hfr.
    destruct Hsh as (-> & _).
    assert (frame_range f (Z.min (f + n) (total_frames p)) = frame_range f (f + n)) as ->.
    { apply set_eq. intros g. rewrite !elem_of_frame_range. split; [lia|]. intros Hg.
      assert (g ∈ free_set p0) as Hb%free_set_bounded%elem_of_frame_range; [|lia].
      rewrite <- Hu. apply elem_of_union_l, Hsub, elem_of_frame_range. lia. }
    destruct (difference_union_disjoint own (free_set p) (frame_range f (f + n))) as [-> ?]; done.
Qed.

Lemma owned_inv_reach p0 p own :
  pmm_wf p0 → 0 ∉ free_set p0 → rtc pmm_step (p0, ∅) (p, own) → owned_inv p0 (p, own).
Proof.
  intros Hwf H0 Hr.
  assert (owned_inv p0 (p0, ∅)) as HI by (unfold owned_inv; split_and!; [done|done|set_solver|set_solver]).
  revert HI. induction Hr as [|x y z Hs _ IH]; [done|]. intros HI.
  apply IH. by eapply owned_inv_step.
Qed.

(** C9: no frame is handed out twice and no reserved frame is handed out.  From a
    freshly initialised allocator, after any sequence of allocations and of frees
    of frames that are out, the frames that are out are usable frames, disjoint
    from the free ones, together exactly the frames free at boot; and when the
    bitmap ends on a frame boundary no frame that is out overlaps
    [reserved_start, bitmap_end), that is, the kernel image or the bitmap. *)
Theorem pmm_ownership_safe (regions : list mem_region) (rs re : Z) (p : pmm) (own : gset Z) :
  Forall (λ r, 0 <= mr_base r) regions → 0 <= rs →
  let p0 := pmm_init regions rs re in
  0 ∉ free_set p0 →
  rtc pmm_step (p0, ∅) (p, own) →
  pmm_wf p ∧ own ## free_set p ∧ own ∪ free_set p = free_set p0 ∧
  own ⊆ usable_frames (total_frames p0) regions ∧
  (bitmap_end_of regions re mod PMM_FRAME_SIZE = 0 →
   ∀ f a, f ∈ own → f * PMM_FRAME_SIZE <= a < f * PMM_FRAME_SIZE + PMM_FRAME_SIZE →
     ¬ (rs <= a < bitmap_end_of regions re)).
Proof.
  intros HF Hrs p0 H0 Hr. destruct (init_spec regions rs re HF Hrs) as (Hwf & _ & _ & Hfree).
  fold p0 in Hwf, Hfree. destruct (owned_inv_reach p0 p own Hwf H0 Hr) as (Hwp & Ht & Hd & Hu).
  split_and!; [done|done|done|set_solver|].
  intros Hal f a Hf Ha Hres.
  assert (f ∈ free_set p0) as Hin by set_solver. rewrite Hfree in Hin.
  apply elem_of_difference in Hin as [Hus Hni]. apply Hni, elem_of_frame_range.
  assert (0 <= f < total_frames p0).
  { apply elem_of_frame_range, free_set_bounded. set_solver. }
  unfold PMM_FRAME_SIZE in *. split; [div_lia|]. apply Z.min_glb_lt; [div_lia|lia].
Qed.

Lemma pmm_ownership_safe_witness :
  let p0 := pmm_init example_regions 0x10000 0x12FF8 in
  let p1 := snd (pmm_alloc_frame p0) in
  pmm_alloc_frame p0 = (0x1000, p1) ∧ ({[1]} : gset Z) ## free_set p1 ∧
  ¬ (0x10000 <= 0x1800 < bitmap_end_of example_regions 0x12FF8).
Proof.
  intros p0 p1. assert (pmm_alloc_frame p0 = (0x1000, p1)) as E by (by vm_compute).
  split; [done|].
  destruct (pmm_ownership_safe example_regions 0x10000 0x12FF8 p1 ({[1]} ∪ ∅))
    as (_ & Hd & _ & _ & Hres).
  - repeat constructor; simpl; lia.
  - lia.
  - apply (bool_decide_eq_true_1 _). by vm_compute.
  - apply rtc_once. apply (step_alloc p0 ∅ 0x1000 p1 E). lia.
  - rewrite union_empty_r_L in Hd, Hres. split; [done|].
    apply (Hres eq_refl 1); [set_solver|unfold PMM_FRAME_SIZE; lia].
Defined.

(** A defect of pmm_init.  Both ends of the reserved range are rounded down,
    so when the bitmap does not end on a frame boundary its last frame is left
    free: with one region that starts where the kernel does, the first
    pmm_alloc_frame returns the frame that still holds the end of the bitmap. *)
Theorem pmm_init_bitmap_tail_handed_out (len rs re : Z) :
  let r := mk_region rs len in
  let bend := bitmap_end_of [r] re in
  0 <= rs <= bend → bend mod PMM_FRAME_SIZE ≠ 0 →
  bend / PMM_FRAME_SIZE < region_top r / PMM_FRAME_SIZE →
  let '(addr, _) := pmm_alloc_frame (pmm_init [r] rs re) in
  addr < bend < addr + PMM_FRAME_SIZE.
Proof.
  intros r bend Hrs Hmod Hlt.
  assert (Forall (λ r, 0 <= mr_base r) [r]) as HF by (repeat constructor; simpl; lia).
  destruct (init_spec [r] rs re HF ltac:(lia)) as (Hwf & Ht & _ & Hfree).
  set (p0 := pmm_init [r] rs re) in *. fold bend in Hfree.
  assert (highest_top [r] = region_top r) as Hh.
  { unfold highest_top; simpl. pose proof (region_top_range r). lia. }
  rewrite Hh in Ht.
  assert (∀ f, f ∈ free_set p0 ↔ bend / PMM_FRAME_SIZE <= f < total_frames p0) as Hiff.
  { intros f. rewrite Hfree. unfold usable_frames; simpl. rewrite union_empty_r_L.
    unfold range_frames. rewrite elem_of_difference, !elem_of_frame_range, <- Ht.
    unfold PMM_FRAME_SIZE in *. assert (rs / 4096 <= bend / 4096) by div_lia. lia. }
  destruct (alloc_frame_cases p0 Hwf) as [[He _]|(f & [Hin Hlow] & ->)].
  - assert (bend / PMM_FRAME_SIZE ∈ free_set p0) as Hb by (apply Hiff; lia).
    rewrite He in Hb. by apply elem_of_empty in Hb.
  - assert (f = bend / PMM_FRAME_SIZE) as ->.
    { apply Hiff in Hin. specialize (Hlow (bend / PMM_FRAME_SIZE)). rewrite Hiff in Hlow. lia. }
    unfold PMM_FRAME_SIZE in *. div_lia.
Qed.

(** A machine with 16 MB less a page at the top and a kernel that ends at
    0x1523A8: the first frame allocated is 0x152000, and the bitmap occupies
    [0x1523A8, 0x1525A8). *)
Lemma pmm_init_bitmap_tail_handed_out_witness :
  let r := mk_region 0x100000 0xEFF000 in
  bitmap_end_of [r] 0x1523A8 = 0x1525A8 ∧
  fst (pmm_alloc_frame (pmm_init [r] 0x100000 0x1523A8)) < 0x1525A8.
Proof.
  intros r. assert (bitmap_end_of [r] 0x1523A8 = 0x1525A8) as E by (by vm_compute).
  split; [done|].
  pose proof (pmm_init_bitmap_tail_handed_out 0xEFF000 0x100000 0x1523A8) as H.
  cbv zeta in H. fold r in H. rewrite E in H.
  destruct (pmm_alloc_frame _) as [addr q]. simpl.
  apply H; [lia|by vm_compute|by vm_compute].
Defined.
