(* ===== verification/Heap.v ===== *)
(** * The kernel heap: mm/heap.c

    Block and arena headers are records in two stores indexed by the address of
    the header ([heap_block_t] and [heap_arena_t] objects in memory); a pointer is
    its address and NULL is 0.  A header that kfree merges away stays in the store,
    as its bytes stay in memory.  [None] stands for the dereference of an address
    that holds no header of the expected type.  The heap is written against the
    frame-allocator interface: [frames] is the state of the allocator it calls. *)

From S2P Require Import Prelude.
From S2P Require Import FrameAlloc.
From S2P Require Import Pmm.

(** ** Data *)

Definition HEAP_MIN_ARENA_FRAMES : Z := 16.
Definition HEAP_ALIGN : Z := 8.

Record heap_block := mk_block { hb_size : Z; hb_free : bool; hb_next : Z }.
Record heap_arena := mk_arena { ha_next : Z; ha_frame_count : Z; ha_first_block : Z }.

(** [sizeof(heap_block_t)] and [sizeof(heap_arena_t)]: three 8-byte fields each
    (the [bool] is padded). *)
Definition sizeof_block : Z := 24.
Definition sizeof_arena : Z := 24.

Definition align_up (n a : Z) : Z := u64 (n + a - 1) .& u64 (Z.lnot (a - 1)).

Section heap.
Context {St : Type} `{!FrameOps St}.

Record heap := mk_heap {
  blocks : gmap Z heap_block;
  arenas : gmap Z heap_arena;
  arena_list : Z;
  frames : St
}.

Definition set_block (h : heap) (a : Z) (b : heap_block) : heap :=
  mk_heap (<[a := b]> (blocks h)) (arenas h) (arena_list h) (frames h).
Definition set_frames (h : heap) (s : St) : heap :=
  mk_heap (blocks h) (arenas h) (arena_list h) s.

(** ** Operations *)

(** Returns the new arena's address, or 0. *)
Definition grow_heap (min_bytes : Z) (h : heap) : Z * heap :=
  let needed := u64 (sizeof_arena + sizeof_block + min_bytes) in
  let frames_needed := u64 (needed + PAGE - 1) / PAGE in
  let n := if frames_needed <? HEAP_MIN_ARENA_FRAMES then HEAP_MIN_ARENA_FRAMES
           else frames_needed in
  let '(base, s) := alloc_frames n (frames h) in
  let h := set_frames h s in
  if base =? 0 then (0, h) else
  let block := u64 (base + sizeof_arena) in
  let h := set_block h block
    (mk_block (u64 (n * PAGE - sizeof_arena - sizeof_block)) true 0) in
  (base, mk_heap (blocks h) (<[base := mk_arena (arena_list h) n block]> (arenas h)) base (frames h)).

Definition alloc_from_block (block size : Z) (h : heap) : option (Z * heap) :=
  b ← blocks h !! block;
  let remainder := u64 (hb_size b - size) in
  let '(b, h) :=
    if sizeof_block + HEAP_ALIGN <? remainder
    then let split := u64 (block + sizeof_block + size) in
         let h := set_block h split (mk_block (u64 (remainder - sizeof_block)) true (hb_next b)) in
         (mk_block size (hb_free b) split, h)
    else (b, h) in
  let h := set_block h block (mk_block (hb_size b) false (hb_next b)) in
  Some (u64 (block + sizeof_block), h).

Definition heap_init (h : heap) : heap := snd (grow_heap 0 h).

(** The inner loop of kmalloc: the first free block of the arena with room, or 0
    at the end of the arena.  The fuel bounds the number of blocks visited. *)
Fixpoint find_in_arena (fuel : nat) (bs : gmap Z heap_block) (block aligned : Z) : option Z :=
  if block =? 0 then Some 0 else
  match fuel with
  | O => None
  | S fuel =>
      b ← bs !! block;
      if hb_free b && (aligned <=? hb_size b) then Some block
      else find_in_arena fuel bs (hb_next b) aligned
  end.

(** The outer loop, over the arenas. *)
Fixpoint find_block (fuel : nat) (h : heap) (arena aligned : Z) : option Z :=
  if arena =? 0 then Some 0 else
  match fuel with
  | O => None
  | S fuel =>
      a ← arenas h !! arena;
      r ← find_in_arena (size (blocks h)) (blocks h) (ha_first_block a) aligned;
      if r =? 0 then find_block fuel h (ha_next a) aligned else Some r
  end.

Definition kmalloc (sz : Z) (h : heap) : option (Z * heap) :=
  if sz =? 0 then Some (0, h) else
  let aligned := align_up sz HEAP_ALIGN in
  found ← find_block (size (arenas h)) h (arena_list h) aligned;
  if negb (found =? 0) then alloc_from_block found aligned h else
  let '(arena, h) := grow_heap aligned h in
  if arena =? 0 then Some (0, h) else
  a ← arenas h !! arena;
  alloc_from_block (ha_first_block a) aligned h.

Definition kfree (ptr : Z) (h : heap) : option heap :=
  if ptr =? 0 then Some h else
  let block := u64 (ptr - sizeof_block) in
  b ← blocks h !! block;
  let h := set_block h block (mk_block (hb_size b) true (hb_next b)) in
  if hb_next b =? 0 then Some h else
  nb ← blocks h !! hb_next b;
  if hb_free nb
  then Some (set_block h block
         (mk_block (u64 (hb_size b + sizeof_block + hb_size nb)) true (hb_next nb)))
  else Some h.

End heap.
Arguments heap : clear implicits.
Arguments mk_heap {St} _ _ _ _.

(** ** The layout of an arena

    [chain bs b e l]: the blocks at the addresses [l], linked from [b], tile the
    bytes [b .. e - 1], each header followed by its payload of a positive multiple
    of 8 bytes, and the last one ends the list. *)
Fixpoint chain (bs : gmap Z heap_block) (b e : Z) (l : list Z) : Prop :=
  match l with
  | [] => False
  | a :: l' =>
      a = b ∧ ∃ blk, bs !! b = Some blk ∧ 0 < hb_size blk ∧ (8 | hb_size blk) ∧
      match l' with
      | [] => hb_next blk = 0 ∧ b + sizeof_block + hb_size blk = e
      | _ => hb_next blk = b + sizeof_block + hb_size blk ∧ chain bs (hb_next blk) e l'
      end
  end.

Lemma chain_bounds bs b e l : chain bs b e l → ∀ a, a ∈ l → b <= a ∧ a + sizeof_block < e.
Proof.
  revert b. induction l as [|x l IH]; intros b; simpl; [done|].
  intros (-> & blk & _ & Hs & _ & Hrest) a Ha. unfold sizeof_block in *.
  destruct l as [|y l]; [set_solver by lia|]. destruct Hrest as [Hn Hc].
  pose proof (IH _ Hc) as IHc.
  assert (hb_next blk <= y ∧ y + 24 < e) by (apply IHc; set_solver).
  apply elem_of_cons in Ha as [->|Ha]; [lia|]. specialize (IHc a Ha). lia.
Qed.

(** A chain reads only its own headers. *)
Lemma chain_ext bs bs' b e l :
  (∀ a, a ∈ l → bs' !! a = bs !! a) → chain bs b e l → chain bs' b e l.
Proof.
  revert b. induction l as [|x l IH]; intros b Hext; simpl; [done|].
  intros (-> & blk & Hb & Hs & H8 & Hrest).
  split; [done|]. exists blk. rewrite Hext by set_solver. split_and!; [done..|].
  destruct l as [|y l]; [done|]. destruct Hrest as [Hn Hc]. split; [done|].
  apply IH; [|done]. intros a Ha. apply Hext. set_solver.
Qed.

(** Replacing the part of a chain that starts at one of its blocks. *)
Lemma chain_split bs b e l1 a l2 :
  chain bs b e (l1 ++ a :: l2) → chain bs a e (a :: l2) ∧ ∀ x, x ∈ l1 → x < a.
Proof.
  revert b. induction l1 as [|x l1 IH]; intros b Hc.
  { split; [|set_solver]. destruct Hc as (-> & Hc). split; [done|]. done. }
  simpl in Hc. destruct Hc as (-> & blk & Hb & Hs & H8 & Hrest).
  assert (hb_next blk = b + sizeof_block + hb_size blk ∧ chain bs (hb_next blk) e (l1 ++ a :: l2))
    as [Hn Hc] by (destruct l1; done).
  destruct (IH _ Hc) as [Ht Hlt]. split; [done|]. intros y [->|Hy]%elem_of_cons; [|auto].
  pose proof (chain_bounds _ _ _ _ Hc a). unfold sizeof_block in *. set_solver by lia.
Qed.

Lemma chain_replace bs bs' b e l1 a l2 l2' :
  chain bs b e (l1 ++ a :: l2) → (∀ x, x ∈ l1 → bs' !! x = bs !! x) →
  chain bs' a e (a :: l2') → chain bs' b e (l1 ++ a :: l2').
Proof.
  revert b. induction l1 as [|x l1 IH]; intros b Hc Hext Hc'.
  { destruct Hc as (-> & _). done. }
  simpl in Hc. destruct Hc as (-> & blk & Hb & Hs & H8 & Hrest).
  assert (hb_next blk = b + sizeof_block + hb_size blk ∧ chain bs (hb_next blk) e (l1 ++ a :: l2))
    as [Hn Hc] by (destruct l1; done).
  split; [done|]. exists blk. rewrite Hext by set_solver. split_and!; [done..|].
  assert (chain bs' (hb_next blk) e (l1 ++ a :: l2')) as Hc2.
  { apply IH; [done| |done]. intros y Hy. apply Hext. set_solver. }
  destruct (l1 ++ a :: l2') eqn:E; [by destruct l1|]. done.
Qed.

(** The block found by the inner loop of kmalloc. *)
Definition fits (bs : gmap Z heap_block) (n a : Z) : Prop :=
  ∃ blk, bs !! a = Some blk ∧ hb_free blk = true ∧ n <= hb_size blk.

Lemma find_in_arena_spec bs b e l n fuel :
  chain bs b e l → 0 < b → (length l <= fuel)%nat →
  (find_in_arena fuel bs b n = Some 0 ∧ ∀ a, a ∈ l → ¬ fits bs n a) ∨
  ∃ l1 a l2, l = l1 ++ a :: l2 ∧ fits bs n a ∧ (∀ x, x ∈ l1 → ¬ fits bs n x) ∧
    find_in_arena fuel bs b n = Some a ∧ 0 < a.
Proof.
  revert b fuel. induction l as [|x l IH]; intros b fuel Hc Hb Hf; [done|].
  simpl in Hc. destruct Hc as (-> & blk & Hbs & Hs & H8 & Hrest).
  destruct fuel as [|fuel]; simpl in Hf; [lia|]. simpl.
  rewrite (proj2 (Z.eqb_neq b 0)), Hbs by lia. simpl.
  destruct (hb_free blk && (n <=? hb_size blk)) eqn:E.
  { bool_to_prop. right. exists [], b, l. split_and!; [done|by exists blk|set_solver|done|done]. }
  assert (¬ fits bs n b) as Hnf.
  { intros (blk' & Hblk' & Hfr & Hle). simplify_eq. rewrite Hfr in E. simpl in E. bool_to_prop. lia. }
  destruct l as [|y l].
  - destruct Hrest as [-> _]. left. split; [by destruct fuel|]. set_solver.
  - destruct Hrest as [Hn Hc]. unfold sizeof_block in *.
    destruct (IH _ fuel Hc) as [[-> Hno]|(l1 & a & l2 & -> & ? & Hno & -> & ?)]; [lia|simpl in *; lia| |].
    + left. split; [done|]. intros a [->|Ha]%elem_of_cons; auto.
    + right. exists (b :: l1), a, l2. split_and!; try done.
      intros z [->|Hz]%elem_of_cons; auto.
Qed.

(** A live block of a list of headers: its address and payload size. *)
Definition live_in (bs : gmap Z heap_block) (l : list Z) (a n : Z) : Prop :=
  a ∈ l ∧ ∃ blk, bs !! a = Some blk ∧ hb_free blk = false ∧ hb_size blk = n.

(** The header at the head of a chain, and the rest of the chain. *)
Lemma chain_head bs a e l2 :
  chain bs a e (a :: l2) →
  ∃ blk, bs !! a = Some blk ∧ 0 < hb_size blk ∧ (8 | hb_size blk) ∧
    a + sizeof_block + hb_size blk <= e ∧
    (∀ x, x ∈ l2 → a + sizeof_block + hb_size blk <= x) ∧
    (∀ bs' sz b', b' + sizeof_block + sz = a + sizeof_block + hb_size blk →
       0 < sz → (8 | sz) → (∀ x, x ∈ l2 → bs' !! x = bs !! x) →
       (∃ fr, bs' !! b' = Some (mk_block sz fr (hb_next blk))) → chain bs' b' e (b' :: l2)).
Proof.
  intros (_ & blk & Hb & Hs & H8 & Hrest). exists blk. split_and!; [done..| | |].
  - destruct l2 as [|y l2]; [lia|]. destruct Hrest as [Hn Hc].
    pose proof (chain_bounds _ _ _ _ Hc y). unfold sizeof_block in *. set_solver by lia.
  - intros x Hx. destruct l2 as [|y l2]; [set_solver|]. destruct Hrest as [Hn Hc].
    pose proof (chain_bounds _ _ _ _ Hc x Hx). lia.
  - intros bs' sz b' Heq Hsz H8' Hext (fr & Hb'). split; [done|]. eexists; split; [done|]. simpl.
    split_and!; [done..|]. destruct l2 as [|y l2]; [lia|]. destruct Hrest as [Hn Hc].
    split; [lia|]. by eapply chain_ext.
Qed.

Lemma align_up_ok n :
  0 < n <= 2 ^ 64 - 8 →
  0 < align_up n HEAP_ALIGN ∧ (8 | align_up n HEAP_ALIGN) ∧
  n <= align_up n HEAP_ALIGN < n + 8.
Proof.
  intros Hn. unfold align_up, HEAP_ALIGN. rewrite u64_id by (unfold in_u; lia).
  replace (n + 8 - 1) with (n + 7) by lia.
  assert ((n + 7) .& u64 (Z.lnot (8 - 1)) = 2 ^ 3 * ((n + 7) / 2 ^ 3)) as ->.
  { rewrite <- ALIGN_DOWN_pow2 by lia. unfold ALIGN_DOWN, u64.
    rewrite <- Z.land_ones, (Z.land_comm _ (Z.ones 64)), Z.land_assoc, Z.land_ones by lia.
    by rewrite Z.mod_small by lia. }
  split_and!; [div_lia|by exists ((n + 7) / 2 ^ 3); lia|div_lia|div_lia].
Qed.

(** ** The representation invariant of the heap *)

Record layout := mk_layout { al_base : Z; al_count : Z; al_blocks : list Z }.
#[export] Instance layout_eq_dec : EqDecision layout.
Proof. solve_decision. Defined.

Definition al_first (L : layout) : Z := al_base L + sizeof_arena.
Definition al_end (L : layout) : Z := al_base L + al_count L * PAGE.
Definition disjoint_arenas (L L' : layout) : Prop :=
  al_end L <= al_base L' ∨ al_end L' <= al_base L.

Fixpoint all_disjoint (AL : list layout) : Prop :=
  match AL with
  | [] => True
  | L :: AL => Forall (disjoint_arenas L) AL ∧ all_disjoint AL
  end.

(** The list of arenas, from the pointer [p]. *)
Fixpoint arena_links (ars : gmap Z heap_arena) (p : Z) (AL : list layout) : Prop :=
  match AL with
  | [] => p = 0
  | L :: AL =>
      p = al_base L ∧ ∃ a, ars !! p = Some a ∧ ha_frame_count a = al_count L ∧
      ha_first_block a = al_first L ∧ arena_links ars (ha_next a) AL
  end.

Lemma disjoint_arenas_sym L L' : disjoint_arenas L L' → disjoint_arenas L' L.
Proof. unfold disjoint_arenas. tauto. Qed.

Lemma all_disjoint_mid A1 L A2 :
  all_disjoint (A1 ++ L :: A2) ↔ Forall (disjoint_arenas L) (A1 ++ A2) ∧ all_disjoint (A1 ++ A2).
Proof.
  induction A1 as [|L1 A1 IH]; simpl; [done|].
  rewrite IH, !Forall_cons, !Forall_app, !Forall_cons.
  split; intros; destruct_and!; split_and!; auto using disjoint_arenas_sym.
Qed.

Section proofs.
Context {St : Type} `{!FrameOps St, !FrameLaws St}.
Implicit Types (h : heap St) (AL : list layout).

Record heap_rep (h : heap St) (AL : list layout) : Prop := {
  hr_frames : fa_wf (frames h);
  hr_links : arena_links (arenas h) (arena_list h) AL;
  hr_chains : Forall (λ L, chain (blocks h) (al_first L) (al_end L) (al_blocks L)) AL;
  hr_owned : Forall (λ L, ∃ f, al_base L = f * PAGE ∧ 0 < f ∧ 0 < al_count L ∧
    frame_range f (f + al_count L) ⊆ fa_managed (frames h) ∖ fa_free (frames h)) AL;
  hr_disjoint : all_disjoint AL
}.

(** The allocations that are out: payload address and payload size. *)
Definition live h AL (p n : Z) : Prop :=
  ∃ L, L ∈ AL ∧ live_in (blocks h) (al_blocks L) (p - sizeof_block) n.

Lemma owned_range h AL L :
  heap_rep h AL → L ∈ AL →
  PAGE <= al_base L ∧ al_base L < al_end L < 2 ^ 64 ∧ (PAGE | al_base L).
Proof.
  intros Hr HL. destruct (proj1 (Forall_forall _ _) (hr_owned h AL Hr) L HL)
    as (f & Hf & Hpos & Hn & Hsub).
  unfold al_end. rewrite Hf. unfold PAGE.
  assert (f + al_count L - 1 ∈ fa_managed (frames h)) as Hm.
  { apply (elem_of_weaken (C := gset Z) _ (fa_managed (frames h) ∖ fa_free (frames h))); [|set_solver].
    apply Hsub, elem_of_frame_range. lia. }
  apply fa_bounds in Hm; [|by apply (hr_frames h AL)]. split_and!; [lia|lia|lia|by exists f].
Qed.

Lemma chain_of h AL L :
  heap_rep h AL → L ∈ AL → chain (blocks h) (al_first L) (al_end L) (al_blocks L).
Proof. intros Hr HL. by apply (proj1 (Forall_forall _ _) (hr_chains h AL Hr) L HL). Qed.

(** Every header lies inside its arena. *)
Lemma header_range h AL L a :
  heap_rep h AL → L ∈ AL → a ∈ al_blocks L → al_first L <= a ∧ a + sizeof_block < al_end L.
Proof. intros Hr HL. by apply (chain_bounds (blocks h)), chain_of with (AL := AL). Qed.

(** Replacing the blocks of one arena leaves the others alone. *)
Lemma rep_update h bs' A1 L A2 l' :
  heap_rep h (A1 ++ L :: A2) →
  (∀ x, ¬ (al_first L <= x < al_end L) → bs' !! x = blocks h !! x) →
  chain bs' (al_first L) (al_end L) l' →
  let h' := mk_heap bs' (arenas h) (arena_list h) (frames h) in
  let L' := mk_layout (al_base L) (al_count L) l' in
  heap_rep h' (A1 ++ L' :: A2) ∧
  ∀ p n, live h' (A1 ++ L' :: A2) p n ↔
    live_in bs' l' (p - sizeof_block) n ∨
    ∃ L1, L1 ∈ A1 ++ A2 ∧ live_in (blocks h) (al_blocks L1) (p - sizeof_block) n.
Proof.
  intros Hr Hext Hc h' L'.
  assert (∀ L1, L1 ∈ A1 ++ A2 → ∀ x, x ∈ al_blocks L1 → bs' !! x = blocks h !! x) as Hothers.
  { intros L1 HL1 x Hx. apply Hext.
    pose proof (proj1 (all_disjoint_mid _ _ _) (hr_disjoint _ _ Hr)) as [Hd _].
    pose proof (proj1 (Forall_forall _ _) Hd L1 HL1) as Hdis.
    assert (L1 ∈ A1 ++ L :: A2) as Hin.
    { rewrite elem_of_app, elem_of_cons. apply elem_of_app in HL1. tauto. }
    assert (L ∈ A1 ++ L :: A2) as HL by (rewrite elem_of_app, elem_of_cons; auto).
    pose proof (header_range _ _ _ _ Hr Hin Hx).
    pose proof (owned_range _ _ _ Hr Hin). pose proof (owned_range _ _ _ Hr HL).
    unfold disjoint_arenas, al_first, sizeof_arena, sizeof_block in *. lia. }
  split.
  - destruct Hr as [Hw Hl Hch How Hdis]. split; simpl; [done| | | |].
    + clear -Hl. revert Hl. generalize (arena_list h). induction A1 as [|L1 A1 IH]; intros p; simpl;
        [done|]. intros (? & a & ? & ? & ? & ?). split; [done|]. exists a. auto.
    + apply Forall_app in Hch as [H1 [_ H2]%Forall_cons]. apply Forall_app.
      rewrite Forall_cons. rewrite Forall_forall in H1, H2. rewrite !Forall_forall.
      split_and!; [|done|]; intros L1 HL1; apply (chain_ext (blocks h)); auto;
        intros x Hx; (apply (Hothers L1); [apply elem_of_app; tauto|done]).
    + rewrite Forall_app, Forall_cons in How |- *. exact How.
    + apply all_disjoint_mid. by apply all_disjoint_mid in Hdis.
  - assert (∀ L1, L1 ∈ A1 ++ A2 → ∀ x n,
      live_in bs' (al_blocks L1) x n ↔ live_in (blocks h) (al_blocks L1) x n) as Hsame.
    { intros L1 HL1 x n. unfold live_in. split; intros [Hx Hb]; (split; [done|]);
        [rewrite <- (Hothers L1 HL1 x Hx)|rewrite (Hothers L1 HL1 x Hx)]; done. }
    intros p n. unfold live; simpl. split.
    + intros (L1 & HL1 & Hlive). rewrite elem_of_app, elem_of_cons in HL1.
      destruct (decide (L1 = L')) as [->|]; [by left|right].
      assert (L1 ∈ A1 ++ A2) as Hin by (apply elem_of_app; tauto).
      exists L1. split; [done|]. by apply Hsame.
    + intros [Hlive|(L1 & HL1 & Hlive)].
      * exists L'. rewrite elem_of_app, elem_of_cons. auto.
      * exists L1. rewrite elem_of_app, elem_of_cons. split; [apply elem_of_app in HL1; tauto|].
        by apply Hsame.
Qed.
(** *** Allocation inside a block *)

(** [n] bytes are taken from the free block [a]: the block keeps [m >= n] bytes
    (its own size or exactly [n]) and is the only new live block. *)
(** The used blocks once [a], which was free, is used for [m] bytes; a block [l'] may have
    been split off it. *)
Lemma live_in_taken bs bs' l1 a l2 l' blk blk' x k :
  bs !! a = Some blk → hb_free blk = true → bs' !! a = Some blk' → hb_free blk' = false →
  (∀ y, y ∈ l' → y ≠ a ∧ (y ∉ l1) ∧ (y ∉ l2) ∧ ∃ b, bs' !! y = Some b ∧ hb_free b = true) →
  (∀ y, y ≠ a → y ∉ l' → bs' !! y = bs !! y) →
  live_in bs' (l1 ++ a :: l' ++ l2) x k ↔ (x = a ∧ k = hb_size blk') ∨ live_in bs (l1 ++ a :: l2) x k.
Proof.
  intros Ha Hf Ha' Hf' Hl' Heq. unfold live_in. rewrite !elem_of_app, !elem_of_cons, elem_of_app.
  destruct (decide (x = a)) as [->|Hxa].
  { rewrite Ha, Ha'. split; [intros [_ (b & [= <-] & _ & <-)]; by left|].
    intros [[_ ->]|(_ & b & [= <-] & ? & _)]; [eauto 10|congruence]. }
  destruct (decide (x ∈ l')) as [Hx|Hx].
  { destruct (Hl' x Hx) as (_ & H1 & H2 & b & Hb & Hbf). rewrite Hb.
    split; [intros [_ (b0 & [= <-] & ? & _)]; congruence|]. intros [[? _]|[Hin _]]; [done|]. by destruct Hin as [?|[?|?]]. }
  rewrite (Heq x Hxa Hx). split; [intros [[?|[?|[?|?]]] ?]; try done; right; auto|].
  intros [[? _]|[[?|[?|?]] ?]]; try done; auto 10.
Qed.

(** A free block cut in two. *)
Lemma chain_cut bs b e l1 a l2 n blk :
  chain bs b e (l1 ++ a :: l2) → bs !! a = Some blk → 0 < n → (8 | n) →
  sizeof_block + HEAP_ALIGN < hb_size blk - n →
  chain (<[a := mk_block n false (a + 24 + n)]>
          (<[a + 24 + n := mk_block (hb_size blk - n - 24) true (hb_next blk)]> bs)) b e
    (l1 ++ a :: (a + 24 + n) :: l2).
Proof.
  intros Hc Hbs Hn H8n Hsp. destruct (chain_split _ _ _ _ _ _ Hc) as [Hca Hl1].
  destruct (chain_head _ _ _ _ Hca) as (blk' & Hbs' & Hs & H8 & Hend & Hl2 & Hre).
  assert (blk' = blk) as -> by congruence. unfold sizeof_block, HEAP_ALIGN in *.
  apply (chain_replace bs _ b e l1 a l2); [done| |].
  - intros x Hx. specialize (Hl1 x Hx). by rewrite !lookup_insert_ne by lia.
  - split; [done|]. eexists. rewrite lookup_insert_eq. split; [done|]. simpl.
    unfold sizeof_block. do 2 (split; [done|]). split; [lia|]. apply (Hre _ (hb_size blk - n - 24)).
    + lia.
    + lia.
    + apply Z.divide_sub_r; [by apply Z.divide_sub_r|by exists 3].
    + intros x Hx. specialize (Hl2 x Hx). by rewrite !lookup_insert_ne by lia.
    + exists true. by rewrite lookup_insert_ne, lookup_insert_eq by lia.
Qed.

Lemma alloc_from_block_chain h b e l1 a l2 n :
  chain (blocks h) b e (l1 ++ a :: l2) → 0 < b → e <= 2 ^ 64 →
  fits (blocks h) n a → 0 < n → (8 | n) →
  ∃ bs' l2' m,
    alloc_from_block a n h =
      Some (a + sizeof_block, mk_heap bs' (arenas h) (arena_list h) (frames h)) ∧
    n <= m <= n + sizeof_block + HEAP_ALIGN ∧
    chain bs' b e (l1 ++ a :: l2') ∧
    (∀ x, ¬ (b <= x < e) → bs' !! x = blocks h !! x) ∧
    ∀ x k, live_in bs' (l1 ++ a :: l2') x k ↔
      (x = a ∧ k = m) ∨ live_in (blocks h) (l1 ++ a :: l2) x k.
Proof.
  intros Hc Hb He (blk & Hbs & Hfree & Hle) Hn H8n.
  destruct (chain_split _ _ _ _ _ _ Hc) as [Hca Hl1].
  pose proof (chain_bounds _ _ _ _ Hc a ltac:(set_solver)) as Hab.
  destruct (chain_head _ _ _ _ Hca) as (blk' & Hbs' & Hs & H8 & Hend & Hl2 & Hre).
  assert (blk' = blk) as -> by congruence. clear Hbs'.
  unfold alloc_from_block. rewrite Hbs. simpl.
  rewrite (u64_id (hb_size blk - n)) by (unfold in_u, sizeof_block in *; lia).
  rewrite (u64_id (a + sizeof_block)) by (unfold in_u, sizeof_block in *; lia).
  destruct (Z.ltb_spec (sizeof_block + HEAP_ALIGN) (hb_size blk - n)) as [Hsp|Hsp].
  - unfold sizeof_block, HEAP_ALIGN in *.
    rewrite (u64_id (a + 24 + n)), (u64_id (hb_size blk - n - 24)) by (unfold in_u; lia).
    set (s := a + 24 + n).
    exists (<[a := mk_block n false s]>
             (<[s := mk_block (hb_size blk - n - 24) true (hb_next blk)]> (blocks h))),
           (s :: l2), n.
    assert (∀ x, x ∈ l2 → s < x) as Hsl2 by (intros x Hx; specialize (Hl2 x Hx); lia).
    split_and!; [done|lia|lia| | |].
    + by apply chain_cut.
    + intros x Hx. rewrite !lookup_insert_ne by lia. done.
    + intros x k. eapply (live_in_taken _ _ l1 a l2 [s] blk (mk_block n false s)); [done|done|apply lookup_insert_eq|done| |].
      * intros y ->%list_elem_of_singleton. split; [lia|]. split; [intros Hin%Hl1; lia|]. split; [intros Hin%Hsl2; lia|].
        eexists. by rewrite lookup_insert_ne, lookup_insert_eq by lia.
      * intros y Hya Hys%not_elem_of_cons. by rewrite !lookup_insert_ne by (done || by apply not_eq_sym, Hys).
  - unfold set_block; simpl. exists (<[a := mk_block (hb_size blk) false (hb_next blk)]> (blocks h)), l2, (hb_size blk).
    split_and!; [done|lia|lia| | |].
    + apply (chain_replace (blocks h) _ b e l1 a l2); [done| |].
      * intros x Hx. specialize (Hl1 x Hx). rewrite lookup_insert_ne by lia. done.
      * apply (Hre _ (hb_size blk)); [lia|done|done| |].
        -- intros x Hx. specialize (Hl2 x Hx). unfold sizeof_block in *.
           rewrite lookup_insert_ne by lia. done.
        -- exists false. by rewrite lookup_insert_eq.
    + intros x Hx. unfold sizeof_block in *. rewrite lookup_insert_ne by lia. done.
    + intros x k. eapply (live_in_taken _ _ l1 a l2 [] blk (mk_block (hb_size blk) false (hb_next blk)));
        [done|done|apply lookup_insert_eq|done|by intros y ?%elem_of_nil|].
      intros y Hya _. by rewrite lookup_insert_ne.
Qed.

(** *** The search of kmalloc *)

Lemma length_le_size {V} (m : gmap Z V) (l : list Z) :
  NoDup l → (∀ a, a ∈ l → is_Some (m !! a)) → (length l <= size m)%nat.
Proof.
  intros Hnd Hin. rewrite <- size_dom, <- (size_list_to_set (C := gset Z) l) by done.
  apply subseteq_size. intros a Ha%elem_of_list_to_set. by apply elem_of_dom, Hin.
Qed.

Lemma chain_NoDup bs b e l : chain bs b e l → NoDup l ∧ ∀ a, a ∈ l → is_Some (bs !! a).
Proof.
  revert b. induction l as [|x l IH]; intros b Hc; [done|]. pose proof Hc as Hc'.
  destruct Hc as (-> & blk & Hb & _ & _ & Hrest). destruct l as [|y l].
  { split; [apply NoDup_singleton|]. intros a ->%list_elem_of_singleton. by exists blk. }
  destruct Hrest as [Hn Hc]. destruct (IH _ Hc) as [Hnd Hsome]. split.
  - constructor; [|done]. intros Hin. destruct (chain_head _ _ _ _ Hc') as (blk' & _ & ? & _ & _ & Hlt & _).
    specialize (Hlt b Hin). unfold sizeof_block in *. lia.
  - intros a [->|Ha]%elem_of_cons; [by exists blk|auto].
Qed.

Lemma find_block_spec h AL n fuel A0 :
  heap_rep h (A0 ++ AL) → (length AL <= fuel)%nat → ∀ p, arena_links (arenas h) p AL →
  (find_block fuel h p n = Some 0 ∧ ∀ L a, L ∈ AL → a ∈ al_blocks L → ¬ fits (blocks h) n a) ∨
  ∃ A1 L A2 l1 a l2, AL = A1 ++ L :: A2 ∧ al_blocks L = l1 ++ a :: l2 ∧ fits (blocks h) n a ∧
    find_block fuel h p n = Some a ∧ a ≠ 0.
Proof.
  intros Hr. revert A0 Hr fuel. induction AL as [|L AL IH]; intros A0 Hr fuel Hf p Hl; simpl in Hl.
  { subst p. left. split; [by destruct fuel|]. set_solver. }
  destruct Hl as (-> & ar & Har & _ & Hfb & Hl). destruct fuel as [|fuel]; simpl in *; [lia|].
  assert (L ∈ A0 ++ L :: AL) as HL by set_solver.
  pose proof (owned_range _ _ _ Hr HL) as (Hb & _ & _). unfold PAGE in Hb.
  rewrite (proj2 (Z.eqb_neq _ _)), Har by lia. simpl. rewrite Hfb.
  pose proof (chain_of _ _ _ Hr HL) as Hc. destruct (chain_NoDup _ _ _ _ Hc) as [Hnd Hsome].
  destruct (find_in_arena_spec _ _ _ _ n (size (blocks h)) Hc)
    as [[-> Hno]|(l1 & a & l2 & Hbl & Hfit & _ & -> & Hpos)];
    [unfold al_first, sizeof_arena; lia|by apply length_le_size| |].
  - simpl. destruct (IH (A0 ++ [L])) with (fuel := fuel) (p := ha_next ar)
      as [[-> Hno']|(A1 & L' & A2 & l1 & a & l2 & -> & ? & ? & -> & ?)];
      [by rewrite <- app_assoc|lia|done| |].
    + left. split; [done|]. intros L' a [->|HL']%elem_of_cons; eauto.
    + right. exists (L :: A1), L', A2, l1, a, l2. done.
  - simpl. right. rewrite (proj2 (Z.eqb_neq _ _)) by lia.
    exists [], L, AL, l1, a, l2. split_and!; [done|done|done|done|lia].
Qed.

Lemma arena_links_bases ars p AL :
  arena_links ars p AL → ∀ L, L ∈ AL → is_Some (ars !! al_base L).
Proof.
  revert p. induction AL as [|L AL IH]; intros p Hl L' HL'; [set_solver|].
  destruct Hl as (-> & a & Ha & _ & _ & Hl). apply elem_of_cons in HL' as [->|HL']; eauto.
Qed.

Lemma arenas_length h AL : heap_rep h AL → (length AL <= size (arenas h))%nat.
Proof.
  intros Hr. rewrite <- (length_fmap al_base). apply length_le_size.
  - assert (∀ L, L ∈ AL → al_base L < al_end L) as Hpos.
    { intros L HL. by apply (owned_range h AL). }
    pose proof (hr_disjoint _ _ Hr) as Hd. clear Hr. induction AL as [|L AL IH]; [constructor|].
    destruct Hd as [Hd Hds]. constructor; [|apply IH; [set_solver|done]].
    intros (L' & E & HL')%list_elem_of_fmap. rewrite Forall_forall in Hd.
    specialize (Hd L' HL'). pose proof (Hpos L ltac:(set_solver)). pose proof (Hpos L' ltac:(set_solver)).
    unfold disjoint_arenas in Hd. lia.
  - intros b (L & -> & HL)%list_elem_of_fmap. eapply arena_links_bases; [apply Hr|done].
Qed.

(** *** Growing *)

(** Frames that were free belong to no arena. *)
Lemma fresh_disjoint h AL f n :
  heap_rep h AL → 0 < n → frame_range f (f + n) ⊆ fa_free (frames h) →
  ∀ L', L' ∈ AL → disjoint_arenas (mk_layout (f * PAGE) n []) L'.
Proof.
  intros Hr Hn Hsub L' HL'.
  destruct (proj1 (Forall_forall _ _) (hr_owned h AL Hr) L' HL') as (f' & Hf' & _ & Hn' & Hsub').
  unfold disjoint_arenas, al_end; simpl. rewrite Hf'.
  destruct (decide (f + n <= f' ∨ f' + al_count L' <= f)) as [?|Hov]; [unfold PAGE; lia|exfalso].
  assert (Z.max f f' ∈ fa_free (frames h)) as H1 by (apply Hsub, elem_of_frame_range; lia).
  assert (Z.max f f' ∈ fa_managed (frames h) ∖ fa_free (frames h)) as H2
    by (apply Hsub', elem_of_frame_range; lia).
  set_solver.
Qed.

Lemma arena_links_insert ars p AL b a :
  arena_links ars p AL → (∀ L, L ∈ AL → al_base L ≠ b) → arena_links (<[b := a]> ars) p AL.
Proof.
  revert p. induction AL as [|L AL IH]; intros p Hl Hne; [done|].
  destruct Hl as (-> & ar & Har & ? & ? & Hl). split; [done|]. exists ar.
  rewrite lookup_insert_ne by (apply not_eq_sym, Hne; set_solver).
  split_and!; try done. apply IH; [done|set_solver].
Qed.

Lemma live_in_ext bs bs' l x k :
  (∀ a, a ∈ l → bs' !! a = bs !! a) → live_in bs' l x k ↔ live_in bs l x k.
Proof. intros H. unfold live_in. split; intros [Hx Hb]; (split; [done|]); by rewrite H in * || by rewrite <- H. Qed.

(** Adding an arena made of frames that were free, with one free block. *)
Lemma rep_cons h AL f n s' :
  heap_rep h AL → 16 <= n → frame_range f (f + n) ⊆ fa_free (frames h) → fa_wf s' →
  fa_managed s' = fa_managed (frames h) →
  fa_free s' = fa_free (frames h) ∖ frame_range f (f + n) →
  let b := f * PAGE in
  let L := mk_layout b n [b + sizeof_arena] in
  let h' := mk_heap
    (<[b + sizeof_arena := mk_block (n * PAGE - sizeof_arena - sizeof_block) true 0]> (blocks h))
    (<[b := mk_arena (arena_list h) n (b + sizeof_arena)]> (arenas h)) b s' in
  heap_rep h' (L :: AL) ∧ ∀ p k, live h' (L :: AL) p k ↔ live h AL p k.
Proof.
  intros Hr Hn Hsub Hw Hm Hfr b L h'.
  assert (f ∈ fa_free (frames h)) as Hf by (apply Hsub, elem_of_frame_range; lia).
  assert (0 < f) as Hf0.
  { pose proof (fa_zero _ (hr_frames _ _ Hr)). pose proof (fa_free_managed _ (hr_frames _ _ Hr)) as Hfm.
    assert (f ∈ fa_managed (frames h)) as Hb%fa_bounds by set_solver; [|apply Hr].
    destruct (decide (f = 0)); [set_solver|lia]. }
  assert (∀ L', L' ∈ AL → disjoint_arenas L L') as Hdis.
  { intros L' HL'. apply (fresh_disjoint h AL f n Hr ltac:(lia) Hsub L' HL'). }
  assert (∀ L', L' ∈ AL → ∀ x, x ∈ al_blocks L' → blocks h' !! x = blocks h !! x) as Hext.
  { intros L' HL' x Hx. simpl. apply lookup_insert_ne. specialize (Hdis L' HL').
    pose proof (header_range _ _ _ _ Hr HL' Hx).
    unfold disjoint_arenas, al_end, al_first, sizeof_arena, sizeof_block, PAGE in *.
    subst L; simpl in *. lia. }
  split.
  - destruct Hr as [Hw0 Hl0 Hc0 Ho0 Hd0]. split; simpl; [done| | | |].
    + split; [done|]. eexists; split; [apply lookup_insert_eq|]. split_and!; [done|done|].
      apply arena_links_insert; [done|]. intros L' HL' E. specialize (Hdis L' HL').
      rewrite Forall_forall in Ho0. destruct (Ho0 L' HL') as (f' & ? & _ & ? & _).
      unfold disjoint_arenas, al_end, PAGE in *. subst L; simpl in *. lia.
    + constructor.
      * split; [done|]. eexists; split; [apply lookup_insert_eq|]. simpl.
        unfold al_end, al_first, sizeof_arena, sizeof_block, PAGE; simpl.
        split_and!; [lia|exists (n * 512 - 6); lia|done|lia].
      * rewrite Forall_forall in Hc0. apply Forall_forall. intros L' HL'.
        apply (chain_ext (blocks h)); [by apply Hext|by apply Hc0].
    + constructor.
      * exists f. split_and!; [done|done|simpl; lia|]. simpl.
        rewrite Hm, Hfr. pose proof (fa_free_managed _ Hw0). set_solver.
      * rewrite Forall_forall in Ho0. apply Forall_forall. intros L' HL'.
        destruct (Ho0 L' HL') as (f' & ? & ? & ? & ?). exists f'. rewrite Hm, Hfr.
        split_and!; [done..|set_solver].
    + split; [|done]. by apply Forall_forall.
  - assert (∀ L', L' ∈ AL → ∀ x k, live_in (blocks h') (al_blocks L') x k ↔
        live_in (blocks h) (al_blocks L') x k) as Hsame by (intros L' HL' x k; by apply live_in_ext, Hext).
    intros p k. unfold live. split.
    + intros (L' & [->|HL']%elem_of_cons & Hlive); [|exists L'; split; [done|by apply Hsame]].
      destruct Hlive as [Hx%list_elem_of_singleton (blk & Hb & Hfree & _)]. rewrite Hx in Hb.
      simpl in Hb. rewrite lookup_insert_eq in Hb. by simplify_eq.
    + intros (L' & HL' & Hlive). exists L'. split; [by right|]. by apply Hsame.
Qed.

(** A new arena has at least [bytes] bytes in its one free block. *)
Lemma grow_heap_rep h AL bytes :
  heap_rep h AL → 0 <= bytes < 2 ^ 63 →
  (grow_heap bytes h = (0, h) ∧
   alloc_frames (Z.max HEAP_MIN_ARENA_FRAMES
     ((sizeof_arena + sizeof_block + bytes + PAGE - 1) / PAGE)) (frames h) = (0, frames h)) ∨
  ∃ h' L, grow_heap bytes h = (al_base L, h') ∧ al_base L ≠ 0 ∧
    heap_rep h' (L :: AL) ∧ al_blocks L = [al_first L] ∧ fits (blocks h') bytes (al_first L) ∧
    (∃ a, arenas h' !! al_base L = Some a ∧ ha_first_block a = al_first L) ∧
    ∀ p n, live h' (L :: AL) p n ↔ live h AL p n.
Proof.
  intros Hr Hb. unfold grow_heap.
  rewrite (u64_id (sizeof_arena + sizeof_block + bytes)) by (unfold in_u, sizeof_arena, sizeof_block; lia).
  rewrite (u64_id (sizeof_arena + sizeof_block + bytes + PAGE - 1))
    by (unfold in_u, sizeof_arena, sizeof_block, PAGE; lia).
  set (k := (sizeof_arena + sizeof_block + bytes + PAGE - 1) / PAGE).
  replace (if k <? HEAP_MIN_ARENA_FRAMES then HEAP_MIN_ARENA_FRAMES else k)
    with (Z.max HEAP_MIN_ARENA_FRAMES k) by (destruct (Z.ltb_spec k HEAP_MIN_ARENA_FRAMES); lia).
  set (n := Z.max HEAP_MIN_ARENA_FRAMES k).
  assert (16 <= n < 2 ^ 52 ∧ 48 + bytes <= n * PAGE) as [Hn Hfit].
  { unfold n, HEAP_MIN_ARENA_FRAMES, k, sizeof_arena, sizeof_block, PAGE.
    div_lia. }
  destruct (alloc_frames_law (frames h) n (hr_frames _ _ Hr) ltac:(lia))
    as [E|(f & s' & Hsub & -> & Hw & Hm & Hfr)]; [left; rewrite E; by destruct h|right].
  destruct (rep_cons h AL f n s' Hr ltac:(lia) Hsub Hw Hm Hfr) as [Hrep Hlive].
  pose proof (owned_range _ _ _ Hrep (list_elem_of_here _ _)) as (Hpos & Hend & _).
  unfold al_end, PAGE in Hpos, Hend; simpl in Hpos, Hend.
  unfold PAGE. rewrite (proj2 (Z.eqb_neq _ _)) by lia. simpl.
  rewrite (u64_id (f * 4096 + sizeof_arena)), (u64_id (n * 4096 - sizeof_arena - sizeof_block))
    by (unfold in_u, sizeof_arena, sizeof_block, PAGE in *; lia).
  eexists _, (mk_layout (f * 4096) n [f * 4096 + sizeof_arena]).
  split_and!; [done|simpl; lia|exact Hrep|done| | |exact Hlive]; simpl.
  - eexists; split; [apply lookup_insert_eq|]. simpl. split; [done|].
    unfold sizeof_arena, sizeof_block, PAGE in *. lia.
  - eexists; split; [apply lookup_insert_eq|done].
Qed.

(** How many frames grow_heap asks for; refused, it changes nothing. *)
Lemma grow_heap_refused h bytes :
  0 <= bytes < 2 ^ 63 →
  alloc_frames (Z.max HEAP_MIN_ARENA_FRAMES
    ((sizeof_arena + sizeof_block + bytes + PAGE - 1) / PAGE)) (frames h) = (0, frames h) →
  grow_heap bytes h = (0, h).
Proof.
  intros Hb E. unfold grow_heap. rewrite !(u64_id _) by (unfold in_u, sizeof_arena, sizeof_block, PAGE; rewrite ?u64_id; unfold in_u; lia).
  set (k := (sizeof_arena + sizeof_block + bytes + PAGE - 1) / PAGE) in *.
  replace (if k <? HEAP_MIN_ARENA_FRAMES then HEAP_MIN_ARENA_FRAMES else k)
    with (Z.max HEAP_MIN_ARENA_FRAMES k) by (destruct (Z.ltb_spec k HEAP_MIN_ARENA_FRAMES); lia).
  rewrite E. by destruct h.
Qed.

(** *** Freeing a block *)

(** Marking a block as free; [blk] is its header. *)
Lemma free_header bs b e l1 a l2 blk :
  chain bs b e (l1 ++ a :: l2) → bs !! a = Some blk →
  let bs1 := <[a := mk_block (hb_size blk) true (hb_next blk)]> bs in
  chain bs1 b e (l1 ++ a :: l2) ∧
  (∀ x k, live_in bs1 (l1 ++ a :: l2) x k ↔ x ≠ a ∧ live_in bs (l1 ++ a :: l2) x k) ∧
  fits bs1 (hb_size blk) a ∧ ∀ x, ¬ (b <= x < e) → bs1 !! x = bs !! x.
Proof.
  intros Hc Hbs bs1. destruct (chain_split _ _ _ _ _ _ Hc) as [Hca Hl1].
  pose proof (chain_bounds _ _ _ _ Hc a ltac:(set_solver)) as Hab.
  destruct (chain_head _ _ _ _ Hca) as (blk' & Hbs' & Hs & H8 & Hend & Hl2 & Hre).
  assert (blk' = blk) as -> by congruence. unfold sizeof_block in *.
  assert ((a ∉ l1) ∧ (a ∉ l2)) as [Ha1 Ha2] by (split; intros Hin; [apply Hl1 in Hin|apply Hl2 in Hin]; lia).
  split_and!.
  - apply (chain_replace bs _ b e l1 a l2); [done|intros x Hx; apply lookup_insert_ne; set_solver|].
    apply (Hre _ (hb_size blk)); [lia|done|done| |exists true; apply lookup_insert_eq].
    intros x Hx. apply lookup_insert_ne. set_solver.
  - intros x k. unfold live_in, bs1. destruct (decide (x = a)) as [->|Hxa].
    + rewrite lookup_insert_eq. split; [by intros [_ (b0 & [= <-] & ? & _)]|tauto].
    + rewrite lookup_insert_ne by done. tauto.
  - eexists. split; [apply lookup_insert_eq|done].
  - intros x Hx. apply lookup_insert_ne. lia.
Qed.

Lemma kfree_chain h b e l1 a l2 :
  chain (blocks h) b e (l1 ++ a :: l2) → 0 < b → e <= 2 ^ 64 →
  ∃ bs' l2',
    kfree (a + sizeof_block) h =
      Some (mk_heap bs' (arenas h) (arena_list h) (frames h)) ∧
    chain bs' b e (l1 ++ a :: l2') ∧
    (∀ x, ¬ (b <= x < e) → bs' !! x = blocks h !! x) ∧
    (∀ x k, live_in bs' (l1 ++ a :: l2') x k ↔ x ≠ a ∧ live_in (blocks h) (l1 ++ a :: l2) x k) ∧
    ∀ blk, blocks h !! a = Some blk → fits bs' (hb_size blk) a.
Proof.
  intros Hc Hb He. destruct (chain_split _ _ _ _ _ _ Hc) as [Hca Hl1].
  pose proof (chain_bounds _ _ _ _ Hc a ltac:(set_solver)) as Hab.
  destruct (chain_head _ _ _ _ Hca) as (blk & Hbs & Hs & H8 & Hend & Hl2 & Hre).
  assert ((a ∉ l1) ∧ (a ∉ l2)) as [Ha1 Ha2].
  { unfold sizeof_block in *. split; intros Hin; [apply Hl1 in Hin|apply Hl2 in Hin]; lia. }
  unfold kfree. unfold sizeof_block in Hab.
  rewrite (proj2 (Z.eqb_neq _ _)) by (unfold sizeof_block; lia).
  replace (a + sizeof_block - sizeof_block) with a by lia.
  rewrite u64_id, Hbs by (unfold in_u; lia). simpl.
  destruct (free_header _ _ _ _ _ _ _ Hc Hbs) as (Hc1 & Hlive1 & Hfit & Hext1). set (bs1 := <[a := _]> _) in *.
  assert (∀ blk', Some blk = Some blk' → fits bs1 (hb_size blk') a) as Hfit1 by (by intros blk' [= <-]).
  destruct Hca as (_ & blk' & Hbs' & _ & _ & Hrest). assert (blk' = blk) as -> by congruence.
  destruct l2 as [|y l2].
  { destruct Hrest as [Hn _]. rewrite (proj2 (Z.eqb_eq _ _) Hn). exists bs1, []. by split_and!. }
  destruct Hrest as [Hn Hcy]. unfold sizeof_block in Hn. rewrite (proj2 (Z.eqb_neq _ _)) by lia.
  assert (y = hb_next blk) as -> by exact (proj1 Hcy).
  destruct (chain_head _ _ _ _ Hcy) as (nb & Hnb & Hns & Hn8 & Hnend & Hnl2 & Hnre).
  assert (bs1 !! hb_next blk = Some nb) as Hnb1 by (unfold bs1; rewrite lookup_insert_ne by lia; done).
  simpl. rewrite Hnb1. simpl.
  destruct (hb_free nb) eqn:Hfree; [|by exists bs1, (hb_next blk :: l2); split_and!].
  unfold set_block; simpl. unfold sizeof_block in *.
  rewrite (u64_id (hb_size blk + 24 + hb_size nb)) by (unfold in_u; lia).
  set (bs2 := <[a := mk_block (hb_size blk + 24 + hb_size nb) true (hb_next nb)]> bs1).
  exists bs2, l2. split_and!; [done| | | |].
  - apply (chain_replace (blocks h) _ b e l1 a (hb_next blk :: l2)); [done| |].
    + intros x Hx. unfold bs2, bs1. rewrite !lookup_insert_ne by set_solver. done.
    + apply (Hnre _ (hb_size blk + 24 + hb_size nb)); [unfold sizeof_block; lia|lia| | |].
      * apply Z.divide_add_r; [|done]. apply Z.divide_add_r; [done|by exists 3].
      * intros x Hx. unfold bs2, bs1. rewrite !lookup_insert_ne by set_solver. done.
      * exists true. apply lookup_insert_eq.
  - intros x Hx. unfold bs2. rewrite lookup_insert_ne by lia. by apply Hext1.
  - intros x k. rewrite <- Hlive1. unfold live_in, bs2. rewrite !elem_of_app, !elem_of_cons.
    destruct (decide (x = a)) as [->|Hxa].
    { rewrite lookup_insert_eq. unfold bs1. rewrite lookup_insert_eq.
      split; intros [_ (b0 & [= <-] & ? & _)]; done. }
    rewrite lookup_insert_ne by done. split; [intros [[?|[?|?]] ?]; auto 10|].
    intros [[?|[?|[->|?]]] Hb0]; auto 10. unfold bs1 in Hb0.
    rewrite lookup_insert_ne, Hnb in Hb0 by done. destruct Hb0 as (b0 & ? & ? & _). congruence.
  - intros blk' ?. simplify_eq. eexists. split; [apply lookup_insert_eq|]. simpl. split; [done|lia].
Qed.

(** *** kmalloc and kfree on the whole heap *)

(** What a successful kmalloc does to the live allocations. *)
Definition allocated h AL (sz p : Z) (h' : heap St) AL' : Prop :=
  p ≠ 0 ∧ (8 | p) ∧ (∀ m, ¬ live h AL p m) ∧ ∃ m, sz <= m ∧
  ∀ q k, live h' AL' q k ↔ (q = p ∧ k = m) ∨ live h AL q k.

Lemma chain_aligned bs b e l : chain bs b e l → (8 | b) → ∀ a, a ∈ l → (8 | a).
Proof.
  revert b. induction l as [|x l IH]; intros b Hc H8 a Ha; [set_solver|].
  destruct Hc as (-> & blk & _ & _ & Hs & Hrest). apply elem_of_cons in Ha as [->|Ha]; [done|].
  destruct l as [|y l]; [set_solver|]. destruct Hrest as [Hn Hc]. apply (IH _ Hc); [|done].
  rewrite Hn. apply Z.divide_add_r; [|done]. apply Z.divide_add_r; [done|by exists 3].
Qed.

(** Taking [n] bytes from a block of the heap that has room for them. *)
Lemma alloc_in_heap h A1 L A2 l1 a l2 sz n :
  heap_rep h (A1 ++ L :: A2) → al_blocks L = l1 ++ a :: l2 → fits (blocks h) n a →
  0 < n → (8 | n) → sz <= n →
  ∃ p h' AL', alloc_from_block a n h = Some (p, h') ∧ heap_rep h' AL' ∧
    allocated h (A1 ++ L :: A2) sz p h' AL'.
Proof.
  intros Hr Hbl Hfit Hn H8 Hle.
  assert (L ∈ A1 ++ L :: A2) as HL by (rewrite elem_of_app, elem_of_cons; auto).
  pose proof (owned_range _ _ _ Hr HL) as (Hb & Hend & Hal). unfold PAGE in Hb.
  pose proof (chain_of _ _ _ Hr HL) as Hc. rewrite Hbl in Hc.
  destruct (alloc_from_block_chain h _ _ _ _ _ n Hc) as (bs' & l2' & m & -> & Hm & Hc' & Hext & Hlv);
    [unfold al_first, sizeof_arena; lia|lia|done|done|done|].
  destruct (rep_update h bs' A1 L A2 _ Hr Hext Hc') as [Hr' Hlive].
  eexists _, _, _. split; [done|]. split; [exact Hr'|].
  assert (a ∈ al_blocks L) as Ha by (rewrite Hbl; set_solver).
  pose proof (header_range _ _ _ _ Hr HL Ha) as Hrange.
  assert ((8 | al_first L)) as H8f.
  { unfold al_first, sizeof_arena. destruct Hal as [k ->]. exists (k * 512 + 3). unfold PAGE. lia. }
  destruct Hfit as (blk & Hblk & Hfree & _).
  assert (∀ k, ¬ live h (A1 ++ L :: A2) (a + sizeof_block) k) as Hnl.
  { intros k (L' & HL' & Hx & blk' & Hblk' & Hfree' & _).
    replace (a + sizeof_block - sizeof_block) with a in Hblk' by lia. congruence. }
  split_and!; [unfold al_first, sizeof_arena, sizeof_block in *; lia| |done|].
  { apply Z.divide_add_r; [|by exists 3]. apply (chain_aligned _ _ _ _ Hc H8f). set_solver. }
  exists m. split; [lia|]. intros q k. rewrite Hlive, Hlv.
  rewrite Z.sub_move_r. split.
  - intros [[?|Hin]|(L1 & HL1 & Hin)]; [auto|right; exists L; by rewrite Hbl|right].
    exists L1. split; [|done]. rewrite elem_of_app, elem_of_cons. apply elem_of_app in HL1. tauto.
  - intros [?|(L1 & HL1 & Hin)]; [auto|]. destruct (decide (L1 = L)) as [->|].
    + left; right. by rewrite Hbl in Hin.
    + right. exists L1. split; [|done]. rewrite elem_of_app, elem_of_cons in HL1.
      apply elem_of_app. tauto.
Qed.

(** kmalloc returns, keeps the invariant, and either fails without an effect or
    adds one live allocation. *)
Lemma kmalloc_rep h AL sz :
  heap_rep h AL → 0 < sz < 2 ^ 63 - 8 →
  ∃ p h' AL', kmalloc sz h = Some (p, h') ∧ heap_rep h' AL' ∧
    ((p = 0 ∧ h' = h) ∨ allocated h AL sz p h' AL').
Proof.
  intros Hr Hsz. unfold kmalloc. rewrite (proj2 (Z.eqb_neq _ _)) by lia.
  destruct (align_up_ok sz ltac:(lia)) as (Hn & H8 & Hle).
  set (n := align_up sz HEAP_ALIGN) in *.
  destruct (find_block_spec h AL n (size (arenas h)) [] Hr (arenas_length _ _ Hr) _ (hr_links _ _ Hr))
    as [[-> Hno]|(A1 & L & A2 & l1 & a & l2 & -> & Hbl & Hfit & -> & Ha)]; simpl.
  - destruct (grow_heap_rep h AL n Hr ltac:(lia))
      as [[-> _]|(h' & L & -> & Hb & Hr' & Hbl & Hfit & (ar & Har & Hfb) & Hlive)]; simpl.
    + exists 0, h, AL. auto.
    + rewrite (proj2 (Z.eqb_neq _ _)), Har by done. simpl. rewrite Hfb.
      destruct (alloc_in_heap h' [] L AL [] (al_first L) [] sz n Hr' Hbl Hfit Hn H8 ltac:(lia))
        as (p & h2 & AL2 & -> & Hr2 & Hp & Hp8 & Hnl & m & Hm & Hl2).
      exists p, h2, AL2. split_and!; [done|done|right]. split_and!; [done|done| |].
      * intros k. rewrite <- Hlive. apply Hnl.
      * exists m. split; [done|]. intros q k. rewrite Hl2. simpl. by rewrite Hlive.
  - rewrite (proj2 (Z.eqb_neq _ _)) by done. simpl.
    destruct (alloc_in_heap h A1 L A2 l1 a l2 sz n Hr Hbl Hfit Hn H8 ltac:(lia))
      as (p & h2 & AL2 & -> & Hr2 & Hal). exists p, h2, AL2. auto.
Qed.

(** A header belongs to one arena. *)
Lemma header_unique h A1 L A2 L1 a :
  heap_rep h (A1 ++ L :: A2) → L1 ∈ A1 ++ A2 → a ∈ al_blocks L → a ∉ al_blocks L1.
Proof.
  intros Hr HL1 Ha Ha1.
  pose proof (proj1 (all_disjoint_mid _ _ _) (hr_disjoint _ _ Hr)) as [Hd _].
  pose proof (proj1 (Forall_forall _ _) Hd L1 HL1) as Hdis.
  assert (L1 ∈ A1 ++ L :: A2) as Hin.
  { rewrite elem_of_app, elem_of_cons. apply elem_of_app in HL1. tauto. }
  assert (L ∈ A1 ++ L :: A2) as HL by (rewrite elem_of_app, elem_of_cons; auto).
  pose proof (header_range _ _ _ _ Hr Hin Ha1). pose proof (header_range _ _ _ _ Hr HL Ha).
  unfold disjoint_arenas, al_first, sizeof_arena, sizeof_block in *. lia.
Qed.

Lemma kfree_rep h AL p m :
  heap_rep h AL → live h AL p m →
  ∃ h' AL', kfree p h = Some h' ∧ heap_rep h' AL' ∧
    ∀ q k, live h' AL' q k ↔ q ≠ p ∧ live h AL q k.
Proof.
  intros Hr (L & HL & Hin & _). apply list_elem_of_split in HL as (A1 & A2 & ->).
  assert (L ∈ A1 ++ L :: A2) as HL by (rewrite elem_of_app, elem_of_cons; auto).
  pose proof (owned_range _ _ _ Hr HL) as (Hb & Hend & _). unfold PAGE in Hb.
  pose proof (chain_of _ _ _ Hr HL) as Hc.
  pose proof Hin as Hina. apply list_elem_of_split in Hin as (l1 & l2 & Hbl). rewrite Hbl in Hc.
  destruct (kfree_chain h _ _ _ _ _ Hc) as (bs' & l2' & E & Hc' & Hext & Hlv & _);
    [unfold al_first, sizeof_arena; lia|lia|].
  replace (p - sizeof_block + sizeof_block) with p in E by lia.
  destruct (rep_update h bs' A1 L A2 _ Hr Hext Hc') as [Hr' Hlive].
  eexists _, _. split; [exact E|]. split; [exact Hr'|].
  intros q k. rewrite Hlive, Hlv, <- Hbl. unfold live. split.
  - intros [[Hne Hl]|(L1 & HL1 & Hl)].
    + split; [congruence|]. by exists L.
    + split.
      * intros ->. by apply (header_unique _ _ _ _ L1 _ Hr HL1 Hina), Hl.
      * exists L1. split; [|done]. rewrite elem_of_app, elem_of_cons. apply elem_of_app in HL1. tauto.
  - intros [Hne (L1 & HL1 & Hl)]. destruct (decide (L1 = L)) as [->|HneL].
    + left. split; [|done]. intros ?. apply Hne. lia.
    + right. exists L1. split; [|done]. rewrite elem_of_app, elem_of_cons in HL1.
      apply elem_of_app. tauto.
Qed.

(** *** Separation of the payloads *)

Lemma chain_sep bs b e l :
  chain bs b e l → ∀ a a' blk, a ∈ l → a' ∈ l → a < a' → bs !! a = Some blk →
  a + sizeof_block + hb_size blk <= a'.
Proof.
  revert b. induction l as [|x l IH]; intros b Hc a a' blk Ha Ha' Hlt Hblk; [set_solver|].
  destruct (chain_head bs x e l) as (blk' & Hb' & Hs & _ & _ & Hle & _).
  { by destruct Hc as (-> & Hc). }
  apply elem_of_cons in Ha' as [->|Ha'].
  { apply elem_of_cons in Ha as [->|Ha]; [lia|]. specialize (Hle a Ha). unfold sizeof_block in *. lia. }
  apply elem_of_cons in Ha as [->|Ha]; [simplify_eq; by apply Hle|].
  destruct Hc as (-> & b0 & _ & _ & _ & Hrest). destruct l as [|y l]; [set_solver|].
  destruct Hrest as [_ Hc]. by apply (IH _ Hc).
Qed.

Lemma chain_payload_end bs b e l :
  chain bs b e l → ∀ a blk, a ∈ l → bs !! a = Some blk →
  0 < hb_size blk ∧ a + sizeof_block + hb_size blk <= e.
Proof.
  intros Hc a blk Ha Hblk. apply list_elem_of_split in Ha as (l1 & l2 & ->).
  destruct (chain_split _ _ _ _ _ _ Hc) as [Hca _].
  destruct (chain_head _ _ _ _ Hca) as (blk' & ? & ? & _ & ? & _). by simplify_eq.
Qed.

(** A live payload lies in pages the heap owns. *)
Lemma live_owned h AL p n :
  heap_rep h AL → live h AL p n →
  0 < p ∧ 0 < n ∧ p + n < 2 ^ 64 ∧ (8 | p) ∧
  ∀ x, p <= x < p + n → x / PAGE ∈ fa_managed (frames h) ∖ fa_free (frames h).
Proof.
  intros Hr (L & HL & Hin & blk & Hblk & _ & <-). pose proof (owned_range _ _ _ Hr HL) as (Hb & He & Hal).
  pose proof (chain_of _ _ _ Hr HL) as Hc.
  destruct (chain_payload_end _ _ _ _ Hc _ _ Hin Hblk) as [Hs Hend].
  pose proof (chain_bounds _ _ _ _ Hc _ Hin) as [Hlo _].
  destruct (proj1 (Forall_forall _ _) (hr_owned h AL Hr) L HL) as (f & Hf & _ & _ & Hsub).
  assert ((8 | p - sizeof_block)) as H8.
  { apply (chain_aligned _ _ _ _ Hc); [|done]. unfold al_first, sizeof_arena.
    destruct Hal as [k ->]. exists (k * 512 + 3). unfold PAGE. lia. }
  unfold al_first, al_end, sizeof_arena, sizeof_block, PAGE in *.
  split_and!; [lia|done|lia| |].
  - destruct H8 as [k Hk]. exists (k + 3). lia.
  - intros x Hx. apply Hsub, elem_of_frame_range. rewrite Hf in *. div_lia.
Qed.

(** Different live payloads do not overlap. *)
Lemma live_disjoint h AL p n q m :
  heap_rep h AL → live h AL p n → live h AL q m → p ≠ q → p + n <= q ∨ q + m <= p.
Proof.
  intros Hr (L & HL & Hin & blk & Hblk & _ & <-) (L' & HL' & Hin' & blk' & Hblk' & _ & <-) Hne.
  pose proof (chain_of _ _ _ Hr HL) as Hc. pose proof (chain_of _ _ _ Hr HL') as Hc'.
  destruct (decide (L = L')) as [<-|HneL].
  - destruct (decide (p < q)).
    + pose proof (chain_sep _ _ _ _ Hc _ _ _ Hin Hin' ltac:(lia) Hblk). unfold sizeof_block in *. lia.
    + pose proof (chain_sep _ _ _ _ Hc _ _ _ Hin' Hin ltac:(lia) Hblk'). unfold sizeof_block in *. lia.
  - apply list_elem_of_split in HL as (A1 & A2 & ->).
    pose proof (proj1 (all_disjoint_mid _ _ _) (hr_disjoint _ _ Hr)) as [Hd _].
    assert (disjoint_arenas L L') as Hdis.
    { apply (proj1 (Forall_forall _ _) Hd). rewrite elem_of_app, elem_of_cons in HL'.
      apply elem_of_app. intuition congruence. }
    destruct (chain_payload_end _ _ _ _ Hc _ _ Hin Hblk), (chain_payload_end _ _ _ _ Hc' _ _ Hin' Hblk').
    pose proof (chain_bounds _ _ _ _ Hc _ Hin). pose proof (chain_bounds _ _ _ _ Hc' _ Hin').
    unfold disjoint_arenas, al_first, sizeof_arena, sizeof_block in *. lia.
Qed.

Lemma live_fun h AL p n m : live h AL p n → live h AL p m → n = m.
Proof. intros (? & _ & _ & b & ? & _ & <-) (? & _ & _ & b' & ? & _ & <-). congruence. Qed.

(** *** The heap at boot *)

Definition boot_heap (s : St) : heap St := mk_heap ∅ ∅ 0 s.

Lemma boot_rep s : fa_wf s → heap_rep (boot_heap s) [] ∧ ∀ p n, ¬ live (boot_heap s) [] p n.
Proof.
  intros Hw. split; [by split; simpl|]. intros p n (L & HL & _). set_solver.
Qed.

Lemma heap_init_rep s :
  fa_wf s → ∃ AL, heap_rep (heap_init (boot_heap s)) AL ∧
    ∀ p n, ¬ live (heap_init (boot_heap s)) AL p n.
Proof.
  intros Hw. destruct (boot_rep s Hw) as [Hr Hl]. unfold heap_init.
  destruct (grow_heap_rep _ _ 0 Hr ltac:(lia)) as [[-> _]|(h' & L & -> & _ & Hr' & _ & _ & _ & Hl')].
  - by exists [].
  - exists [L]. split; [done|]. intros p n. simpl. by rewrite Hl'.
Qed.

(** *** The heap as a system of steps

    [out] maps the pointers kmalloc gave out, and kfree did not get back, to the
    sizes they were asked for. *)
Inductive heap_step : heap St * gmap Z Z → heap St * gmap Z Z → Prop :=
  | step_kmalloc h out sz p h' :
      0 <= sz < 2 ^ 63 - 8 → kmalloc sz h = Some (p, h') → p ≠ 0 →
      heap_step (h, out) (h', <[p := sz]> out)
  | step_kmalloc_fail h out sz h' :
      0 <= sz < 2 ^ 63 - 8 → kmalloc sz h = Some (0, h') → heap_step (h, out) (h', out)
  | step_kfree h out p sz h' :
      out !! p = Some sz → kfree p h = Some h' → heap_step (h, out) (h', delete p out).

Definition heap_inv (c : heap St * gmap Z Z) : Prop :=
  ∃ AL, heap_rep c.1 AL ∧ ∀ p sz, c.2 !! p = Some sz → 0 < sz ∧ ∃ n, sz <= n ∧ live c.1 AL p n.

Lemma heap_step_inv c c' : heap_step c c' → heap_inv c → heap_inv c'.
Proof.
  intros Hstep (AL & Hr & Hout). unfold heap_inv.
  destruct Hstep as [h out sz p h' Hsz E Hp|h out sz h' Hsz E|h out p sz h' Hp E]; simpl in *.
  - assert (0 < sz) as Hpos.
    { destruct (decide (sz = 0)) as [->|]; [|lia]. by injection E. }
    destruct (kmalloc_rep h AL sz Hr ltac:(lia)) as (p' & h2 & AL' & E' & Hr' & Hres). simplify_eq.
    exists AL'. split; [done|]. destruct Hres as [[-> _]|(_ & _ & _ & m & Hm & Hlive)]; [done|].
    intros q k Hq. destruct (decide (q = p)) as [->|].
    + rewrite lookup_insert_eq in Hq. simplify_eq. split; [done|]. exists m. rewrite Hlive. auto.
    + rewrite lookup_insert_ne in Hq by done. destruct (Hout _ _ Hq) as (? & n1 & ? & ?).
      split; [done|]. exists n1. rewrite Hlive. auto.
  - destruct (decide (sz = 0)) as [->|]; [injection E as <-; eauto|].
    destruct (kmalloc_rep h AL sz Hr ltac:(lia)) as (p' & h2 & AL' & E' & Hr' & Hres). simplify_eq.
    destruct Hres as [[_ ->]|(? & _)]; [|done]. eauto.
  - destruct (Hout p sz Hp) as (_ & n & _ & Hl).
    destruct (kfree_rep h AL p n Hr Hl) as (h2 & AL' & E' & Hr' & Hlive). simplify_eq.
    exists AL'. split; [done|]. intros q k [Hne Hq]%lookup_delete_Some.
    destruct (Hout q k Hq) as (? & m & ? & ?). split; [done|]. exists m. rewrite Hlive. auto.
Qed.

(** *** Further facts the properties use *)

Lemma fits_le bs m n a : n <= m → fits bs m a → fits bs n a.
Proof. intros ? (b & ? & ? & ?). exists b. split_and!; [done|done|lia]. Qed.

(** The block kfree leaves at the freed address has at least the freed size. *)
Lemma kfree_fits h AL p m :
  heap_rep h AL → live h AL p m →
  ∃ h' AL', kfree p h = Some h' ∧ heap_rep h' AL' ∧ arenas h' = arenas h ∧ frames h' = frames h ∧
    ∃ L, L ∈ AL' ∧ (p - sizeof_block) ∈ al_blocks L ∧ fits (blocks h') m (p - sizeof_block).
Proof.
  intros Hr (L & HL & Hin & blk & Hblk & _ & Hsz). apply list_elem_of_split in HL as (A1 & A2 & ->).
  assert (L ∈ A1 ++ L :: A2) as HL by (rewrite elem_of_app, elem_of_cons; auto).
  pose proof (owned_range _ _ _ Hr HL) as (Hb & Hend & _). unfold PAGE in Hb.
  pose proof (chain_of _ _ _ Hr HL) as Hc.
  apply list_elem_of_split in Hin as (l1 & l2 & Hbl). rewrite Hbl in Hc.
  destruct (kfree_chain h _ _ _ _ _ Hc) as (bs' & l2' & E & Hc' & Hext & _ & Hfit);
    [unfold al_first, sizeof_arena; lia|lia|].
  destruct (rep_update h bs' A1 L A2 _ Hr Hext Hc') as [Hr' _].
  replace (p - sizeof_block + sizeof_block) with p in E by lia.
  eexists _, _. split_and!; [exact E|exact Hr'|done|done|].
  exists (mk_layout (al_base L) (al_count L) (l1 ++ (p - sizeof_block) :: l2')). simpl.
  split_and!; [rewrite elem_of_app, elem_of_cons; auto|set_solver|]. subst m. by apply Hfit.
Qed.

Lemma alloc_from_block_frame a n h q h' :
  alloc_from_block a n h = Some (q, h') → arenas h' = arenas h ∧ frames h' = frames h.
Proof.
  unfold alloc_from_block. destruct (blocks h !! a) as [b|]; [|done]. simpl.
  case_if; simpl; intros [= <- <-]; done.
Qed.

(** The frames the allocator manages never change. *)
Lemma grow_heap_managed h AL bytes :
  heap_rep h AL → 0 <= bytes < 2 ^ 63 →
  fa_managed (frames (snd (grow_heap bytes h))) = fa_managed (frames h).
Proof.
  intros Hr Hb. unfold grow_heap.
  rewrite (u64_id (sizeof_arena + sizeof_block + bytes)) by (unfold in_u, sizeof_arena, sizeof_block; lia).
  rewrite (u64_id (sizeof_arena + sizeof_block + bytes + PAGE - 1))
    by (unfold in_u, sizeof_arena, sizeof_block, PAGE; lia).
  set (k := (sizeof_arena + sizeof_block + bytes + PAGE - 1) / PAGE).
  assert (k < 2 ^ 64) by (unfold k, sizeof_arena, sizeof_block, PAGE; div_lia).
  destruct (alloc_frames_law (frames h) (if k <? HEAP_MIN_ARENA_FRAMES then HEAP_MIN_ARENA_FRAMES else k)
    (hr_frames _ _ Hr)) as [->|(f & s' & _ & -> & _ & Hm & _)]; [|done|].
  - unfold HEAP_MIN_ARENA_FRAMES. destruct (Z.ltb_spec k 16); lia.
  - by case_if.
Qed.

Lemma kmalloc_managed h AL sz p h' :
  heap_rep h AL → 0 < sz < 2 ^ 63 - 8 → kmalloc sz h = Some (p, h') →
  fa_managed (frames h') = fa_managed (frames h).
Proof.
  intros Hr Hsz. unfold kmalloc. rewrite (proj2 (Z.eqb_neq _ _)) by lia.
  destruct (align_up_ok sz ltac:(lia)) as (Hn & _ & Hle).
  set (n := align_up sz HEAP_ALIGN) in *. destruct (find_block _ _ _ _) as [r|]; [|done]. simpl.
  destruct (r =? 0); simpl; [|by intros [_ ->]%alloc_from_block_frame].
  pose proof (grow_heap_managed h AL n Hr ltac:(lia)) as Hm.
  destruct (grow_heap n h) as [arena h1]. simpl in Hm. case_if; [by intros [= _ <-]|].
  destruct (arenas h1 !! arena) as [a|]; [|done]. simpl.
  intros [_ E1]%alloc_from_block_frame. by rewrite E1.
Qed.

(** Taking nothing from a free block leaves a block of at most 32 bytes there. *)
Lemma alloc_from_block_zero a h b :
  blocks h !! a = Some b → 0 <= hb_size b < 2 ^ 64 → 0 < a → a + sizeof_block < 2 ^ 64 →
  ∃ h' b', alloc_from_block a 0 h = Some (a + sizeof_block, h') ∧
    blocks h' !! a = Some b' ∧ hb_size b' <= sizeof_block + HEAP_ALIGN.
Proof.
  intros Hb Hs Ha Ha'. unfold alloc_from_block. rewrite Hb. simpl.
  rewrite (u64_id (hb_size b - 0)), (u64_id (a + sizeof_block)) by (unfold in_u, sizeof_block in *; lia).
  destruct (Z.ltb_spec (sizeof_block + HEAP_ALIGN) (hb_size b - 0)) as [Hsp|Hsp].
  all: eexists _, _; split; [done|]; simpl; rewrite lookup_insert_eq; split; [done|].
  all: simpl; unfold sizeof_block, HEAP_ALIGN in *; lia.
Qed.

(** ** Properties *)

(** C7: heap safety and progress.  After heap_init and any sequence of kmalloc calls
    (of less than 2^63 - 8 bytes) and kfree calls on outstanding pointers, the
    outstanding allocations are 8-aligned, lie in pages the heap took from the frame
    allocator and do not overlap; and the next kmalloc, and the kfree of any
    outstanding pointer, runs to completion without touching a non-header. *)
Theorem heap_allocations_safe s h out :
  fa_wf s → rtc heap_step (heap_init (boot_heap s), ∅) (h, out) →
  (∀ p sz, out !! p = Some sz →
     0 < p ∧ (8 | p) ∧ p + sz < 2 ^ 64 ∧
     ∀ x, p <= x < p + sz → x / PAGE ∈ fa_managed (frames h) ∖ fa_free (frames h)) ∧
  (∀ p sz q sz', out !! p = Some sz → out !! q = Some sz' → p ≠ q →
     p + sz <= q ∨ q + sz' <= p) ∧
  (∀ sz, 0 <= sz < 2 ^ 63 - 8 → is_Some (kmalloc sz h)) ∧
  (∀ p sz, out !! p = Some sz → is_Some (kfree p h)).
Proof.
  intros Hw Hrun. destruct (heap_init_rep s Hw) as (AL0 & Hr0 & Hl0).
  assert (heap_inv (h, out)) as (AL & Hr & Hout).
  { eapply (rtc_ind_r (λ c, heap_inv c)); [|intros ? ? _; apply heap_step_inv|exact Hrun].
    exists AL0. split; [done|]. intros p sz Hp. simpl in Hp. by rewrite lookup_empty in Hp. }
  simpl in *. split_and!.
  - intros p sz Hp. destruct (Hout p sz Hp) as (Hpos & n & Hn & Hl).
    destruct (live_owned _ _ _ _ Hr Hl) as (? & _ & ? & ? & Hin).
    split_and!; [done|done|lia|]. intros x Hx. apply Hin. lia.
  - intros p sz q sz' Hp Hq Hne. destruct (Hout _ _ Hp) as (_ & n & ? & Hl).
    destruct (Hout _ _ Hq) as (_ & m & ? & Hl').
    destruct (live_disjoint _ _ _ _ _ _ Hr Hl Hl' Hne); lia.
  - intros sz Hsz. destruct (decide (sz = 0)) as [->|]; [by eexists|].
    destruct (kmalloc_rep h AL sz Hr ltac:(lia)) as (p & h' & _ & -> & _). by eexists.
  - intros p sz Hp. destruct (Hout _ _ Hp) as (_ & n & _ & Hl).
    destruct (kfree_rep h AL p n Hr Hl) as (h' & _ & -> & _). by eexists.
Qed.

(** What kmalloc answers to a request of at least one byte: NULL, having changed nothing,
    if and only if nothing fits and no arena can be added. *)
Lemma kmalloc_exhausted h AL sz :
  heap_rep h AL → 0 < sz < 2 ^ 63 - 8 →
  let full :=
    (∀ L a, L ∈ AL → a ∈ al_blocks L → ¬ fits (blocks h) (align_up sz HEAP_ALIGN) a) ∧
    alloc_frames (Z.max HEAP_MIN_ARENA_FRAMES
       ((sizeof_arena + sizeof_block + align_up sz HEAP_ALIGN + PAGE - 1) / PAGE)) (frames h)
    = (0, frames h) in
  ∃ p h', kmalloc sz h = Some (p, h') ∧ (p = 0 → h' = h ∧ full) ∧ (full → (p, h') = (0, h)).
Proof.
  intros Hr Hsz full. destruct (kmalloc_rep h AL sz Hr Hsz) as (p & h' & AL' & E & _ & Hres).
  exists p, h'. split; [exact E|].
  assert (p = 0 → h' = h) as Hsame by (intros ->; by destruct Hres as [[_ ->]|[]]).
  destruct (align_up_ok sz ltac:(lia)) as (Hn & H8 & Hle). subst full. clear Hres. revert E.
  unfold kmalloc. rewrite (proj2 (Z.eqb_neq sz 0)) by lia. set (n := align_up sz HEAP_ALIGN) in *.
  destruct (find_block_spec h AL n (size (arenas h)) [] Hr (arenas_length _ _ Hr) _ (hr_links _ _ Hr))
    as [[-> Hno]|(A1 & L & A2 & l1 & a & l2 & HAL & Hbl & Hfit & -> & Ha)]; simpl.
  - destruct (grow_heap_rep h AL n Hr ltac:(lia))
      as [[-> Eg]|(h3 & L & Egrow & Hb & Hr3 & Hbl & Hf & (a & Ha & Hfb) & _)].
    + intros [= <- <-]. by eauto.
    + pose proof (grow_heap_refused h n ltac:(lia)) as Hlaw. rewrite Egrow in Hlaw |- *. rewrite (proj2 (Z.eqb_neq _ _)), Ha by done. simpl. rewrite Hfb. intros E.
      destruct (alloc_in_heap h3 [] L AL [] (al_first L) [] sz n Hr3 Hbl Hf)
        as (q & h4 & ? & E4 & _ & Hq & _); [done|done|lia|].
      assert (p = q) as -> by congruence. split; [done|]. intros [_ ?%Hlaw]. congruence.
  - rewrite (proj2 (Z.eqb_neq _ _)) by done. simpl. intros E.
    destruct (alloc_in_heap h A1 L A2 l1 a l2 sz n) as (q & h4 & ? & E4 & _ & Hq & _);
      [by rewrite <- HAL|done|done|done|done|lia|].
    assert (p = q) as -> by congruence. split; [done|]. intros [Hno _]. exfalso. apply (Hno L a); [|by rewrite Hbl; set_solver|done].
    rewrite HAL. set_solver.
Qed.

(** C29: when kmalloc fails.  For every size below 2^63 - 8, kmalloc returns NULL exactly
    when the size is 0, which is refused at once whatever is free, or no free block of
    any arena has room for the rounded size and the frame allocator refuses the run of
    frames for a new arena; and then it has changed nothing. *)
Theorem kmalloc_null_only_when_exhausted h AL sz h' :
  heap_rep h AL → 0 <= sz < 2 ^ 63 - 8 →
  kmalloc sz h = Some (0, h') ↔
  h' = h ∧
  (sz = 0 ∨
   (∀ L a, L ∈ AL → a ∈ al_blocks L → ¬ fits (blocks h) (align_up sz HEAP_ALIGN) a) ∧
   alloc_frames (Z.max HEAP_MIN_ARENA_FRAMES
      ((sizeof_arena + sizeof_block + align_up sz HEAP_ALIGN + PAGE - 1) / PAGE)) (frames h)
   = (0, frames h)).
Proof.
  intros Hr Hsz. destruct (Z.eqb_spec sz 0) as [->|Hne].
  { unfold kmalloc. cbn. split; [intros [= <-]; by eauto|by intros [-> _]]. }
  destruct (kmalloc_exhausted h AL sz Hr ltac:(lia)) as (p & h2 & E & Hp & Hfull). rewrite E. split.
  - intros [= -> ->]. destruct (Hp eq_refl) as [-> ?]. by eauto.
  - intros [-> [?|Hno]]; [done|]. by rewrite (Hfull Hno) in E |- *.
Qed.

(** Memory that is freed is reused: after kfree of a live allocation of [m]
    payload bytes, a request that rounds to at most [m] bytes is served from the
    arenas already there, without growing the heap. *)
Lemma kfree_then_kmalloc_reuses h AL p m sz :
  heap_rep h AL → live h AL p m → 0 < sz → align_up sz HEAP_ALIGN <= m → sz < 2 ^ 63 - 8 →
  ∃ h1 q h2, kfree p h = Some h1 ∧ kmalloc sz h1 = Some (q, h2) ∧ q ≠ 0 ∧
    arenas h2 = arenas h ∧ frames h2 = frames h.
Proof.
  intros Hr Hl Hsz Hm Hbig.
  destruct (kfree_fits h AL p m Hr Hl) as (h1 & AL1 & -> & Hr1 & Har & Hfs & L & HL & Ha & Hfit).
  destruct (align_up_ok sz ltac:(lia)) as (Hn & H8 & Hle).
  exists h1. unfold kmalloc. rewrite (proj2 (Z.eqb_neq sz 0)) by lia.
  set (n := align_up sz HEAP_ALIGN) in *.
  destruct (find_block_spec h1 AL1 n (size (arenas h1)) [] Hr1 (arenas_length _ _ Hr1) _ (hr_links _ _ Hr1))
    as [[_ Hno]|(A1 & L1 & A2 & l1 & a & l2 & -> & Hbl & Hfit' & -> & Hpos)].
  { destruct (Hno L _ HL Ha). by apply (fits_le _ m). }
  simpl. rewrite (proj2 (Z.eqb_neq a 0)) by done. simpl.
  destruct (alloc_in_heap h1 A1 L1 A2 l1 a l2 sz n Hr1 Hbl Hfit' Hn H8 ltac:(lia))
    as (q & h2 & AL2 & E & _ & Hq & _). exists q, h2.
  destruct (alloc_from_block_frame _ _ _ _ _ E) as [-> ->]. by rewrite E.
Qed.

(** A request within 8 bytes of 2^64 wraps to a size of 0 when it is rounded up, and
    is answered with a block smaller than the request. *)
Lemma kmalloc_wraps_near_2_64 h AL sz L a :
  heap_rep h AL → 2 ^ 64 - 8 < sz < 2 ^ 64 →
  L ∈ AL → a ∈ al_blocks L → fits (blocks h) 0 a →
  ∃ p h' b, kmalloc sz h = Some (p, h') ∧ p ≠ 0 ∧
    blocks h' !! (p - sizeof_block) = Some b ∧ hb_size b < sz.
Proof.
  intros Hr Hsz HL Ha Hfit. unfold kmalloc. rewrite (proj2 (Z.eqb_neq sz 0)) by lia.
  assert (align_up sz HEAP_ALIGN = 0) as ->.
  { unfold align_up, HEAP_ALIGN, u64. replace ((sz + 8 - 1) mod 2 ^ 64) with (sz - (2 ^ 64 - 7)) by div_lia.
    change (Z.lnot (8 - 1) mod 2 ^ 64) with (Z.ldiff (Z.ones 64) (Z.ones 3)).
    rewrite Z.ldiff_land, Z.land_assoc, Z.land_ones by lia. rewrite <- Z.ldiff_land, Z.ldiff_ones_r by lia.
    rewrite Z.shiftr_div_pow2 by lia. rewrite Z.mod_small by lia. rewrite Z.div_small by lia. done. }
  destruct (find_block_spec h AL 0 (size (arenas h)) [] Hr (arenas_length _ _ Hr) _ (hr_links _ _ Hr))
    as [[_ Hno]|(A1 & L1 & A2 & l1 & a1 & l2 & HAL & Hbl & Hfit' & -> & Hpos)].
  { by destruct (Hno L a HL Ha). }
  simpl. rewrite (proj2 (Z.eqb_neq a1 0)) by done. simpl.
  assert (L1 ∈ AL) as HL1 by (rewrite HAL; set_solver).
  assert (a1 ∈ al_blocks L1) as Ha1 by (rewrite Hbl; set_solver).
  destruct (header_range _ _ _ _ Hr HL1 Ha1). destruct (owned_range _ _ _ Hr HL1) as (? & ? & _).
  destruct Hfit' as (b & Hb & _ & _).
  destruct (chain_payload_end _ _ _ _ (chain_of _ _ _ Hr HL1) _ _ Ha1 Hb).
  unfold al_first, sizeof_arena, sizeof_block, PAGE in *.
  destruct (alloc_from_block_zero a1 h b Hb) as (h' & b' & -> & Hb' & Hle);
    unfold sizeof_block, HEAP_ALIGN in *; [lia..|].
  exists (a1 + 24), h', b'. rewrite Z.add_simpl_r. split_and!; [done|lia|done|lia].
Qed.
End proofs.

(** ** Witnesses *)

(** A pool of 39 free frames. *)
Definition example_frames : pmm := mk_pmm [0x01; 0; 0; 0; 0] 0 5 40 39.

Lemma example_frames_wf : fa_wf example_frames.
Proof.
  split; [|by apply (bool_decide_eq_true_1 _); vm_compute].
  split; [simpl; lia|done|done| |by vm_compute]. repeat constructor; unfold in_u; lia.
Defined.

Definition example_heap : heap pmm := heap_init (boot_heap example_frames).

Lemma heap_allocations_safe_witness :
  ∃ h1 h2, kmalloc 100 example_heap = Some (0x1030, h1) ∧ kmalloc 8 h1 = Some (0x10B0, h2) ∧
  is_Some (kfree 0x1030 h2).
Proof.
  eexists _, _. split; [by vm_compute|]. split; [by vm_compute|].
  apply (heap_allocations_safe example_frames _ (<[0x10B0 := 8]> (<[0x1030 := 100]> ∅))
    example_frames_wf) with (sz := 100); [|done].
  eapply rtc_l; [apply (step_kmalloc _ _ 100); [lia|by vm_compute|done]|].
  eapply rtc_l; [apply (step_kmalloc _ _ 8); [lia|by vm_compute|done]|]. apply rtc_refl.
Defined.

Lemma example_pmm_fa_wf : fa_wf example_pmm.
Proof. split; [apply example_pmm_wf|]. by apply (bool_decide_eq_true_1 _); vm_compute. Defined.

Lemma kmalloc_null_only_when_exhausted_witness :
  kmalloc 8 (boot_heap example_pmm) = Some (0, boot_heap example_pmm) ∧
  alloc_frames 16 example_pmm = (0, example_pmm).
Proof.
  split; [by vm_compute|].
  destruct (kmalloc_null_only_when_exhausted (boot_heap example_pmm) [] 8 (boot_heap example_pmm)
    (proj1 (boot_rep _ example_pmm_fa_wf)) ltac:(lia)) as [H _].
  destruct H as [_ [H|[_ H]]]; [by vm_compute|discriminate H|exact H].
Defined.

Lemma kfree_then_kmalloc_reuses_witness :
  ∃ h0 h1 q h2, kmalloc 104 example_heap = Some (0x1030, h0) ∧ kfree 0x1030 h0 = Some h1 ∧
    kmalloc 100 h1 = Some (q, h2) ∧ q ≠ 0.
Proof.
  destruct (heap_init_rep example_frames example_frames_wf) as (AL & Hr & _).
  destruct (kmalloc_rep _ _ 104 Hr ltac:(lia)) as (p & h0 & AL0 & E & Hr0 & Hres).
  assert (p = 0x1030) as ->.
  { apply (f_equal (option_map fst)) in E. vm_compute in E. congruence. }
  destruct Hres as [[? _]|(_ & _ & _ & m & Hm & Hlive)]; [done|].
  destruct (kfree_then_kmalloc_reuses h0 AL0 0x1030 m 100 Hr0)
    as (h1 & q & h2 & Hf & Hk & Hq & _); [apply Hlive; auto|lia| |lia|].
  { change (align_up 100 HEAP_ALIGN) with 104. lia. }
  exists h0, h1, q, h2. exact (conj E (conj Hf (conj Hk Hq))).
Defined.

Lemma kmalloc_wraps_near_2_64_witness :
  ∃ p h' b, kmalloc (2 ^ 64 - 4) example_heap = Some (p, h') ∧ p ≠ 0 ∧
    blocks h' !! (p - sizeof_block) = Some b ∧ hb_size b < 2 ^ 64 - 4.
Proof.
  destruct (boot_rep example_frames example_frames_wf) as [Hr _].
  destruct (grow_heap_rep _ _ 0 Hr ltac:(lia)) as [[E _]|(h' & L & E & _ & Hr' & Hbl & Hf & _)].
  { apply (f_equal fst) in E. vm_compute in E. done. }
  apply (kmalloc_wraps_near_2_64 example_heap [L] (2 ^ 64 - 4) L (al_first L)).
  - unfold example_heap, heap_init. by rewrite E.
  - lia.
  - apply list_elem_of_here.
  - rewrite Hbl. apply list_elem_of_here.
  - unfold example_heap, heap_init. by rewrite E.
Defined.
