(* ===== verification/Switch.v ===== *)
(** * Context switching: arch/x86_64/sched.c, arch/aarch64/sched.c and the two
    [arch_context_switch] routines (boot/context_switch.asm, boot/context_switch.S)

    The interface kernel/sched.c is written against is the class [SwitchOps] (the
    two functions of arch.h and the frame they leave on a suspended stack) with its
    contract [SwitchLaws]; the x86_64 and the aarch64 code are its two instances.
    Stack memory is a map from the address of a 64-bit word to the word. *)

From S2P Require Import Prelude.

(** ** Stack memory *)

Definition memory : Type := Z → Z.
Definition mem_set (m : memory) (a v : Z) : memory := λ x, if x =? a then v else m x.
Notation "m '⟦' a ':=' v '⟧'" := (mem_set m a v)
  (at level 1, left associativity, format "m ⟦ a  :=  v ⟧") : c_scope.

Lemma mem_set_eq m a v : m⟦a := v⟧ a = v.
Proof. unfold mem_set. by rewrite Z.eqb_refl. Qed.
Lemma mem_set_at m a v x : x = a → m⟦a := v⟧ x = v.
Proof. intros ->. apply mem_set_eq. Qed.
Lemma mem_set_ne m a v x : x ≠ a → m⟦a := v⟧ x = m x.
Proof. unfold mem_set. by intros ->%Z.eqb_neq. Qed.

(** The words [vs] pushed in order: the first one at [sp - 8], and so on down. *)
Fixpoint push_all (vs : list Z) (sp : Z) (m : memory) : Z * memory :=
  match vs with
  | [] => (sp, m)
  | v :: vs => push_all vs (sp - 8) (m⟦sp - 8 := v⟧)
  end.

(** The words of a stack from [sp] up. *)
Fixpoint words_at (m : memory) (sp : Z) (vs : list Z) : Prop :=
  match vs with
  | [] => True
  | v :: vs => m sp = v ∧ words_at m (sp + 8) vs
  end.

Lemma words_at_app m sp vs ws :
  words_at m sp (vs ++ ws) ↔ words_at m sp vs ∧ words_at m (sp + 8 * Z.of_nat (length vs)) ws.
Proof.
  revert sp. induction vs as [|v vs IH]; intros sp; simpl.
  - replace (sp + 8 * Z.of_nat 0) with sp by lia. tauto.
  - rewrite IH. replace (sp + 8 + 8 * Z.of_nat (length vs)) with (sp + 8 * Z.of_nat (S (length vs))) by lia.
    tauto.
Qed.

Lemma words_at_ext m m' sp vs :
  (∀ x, sp <= x < sp + 8 * Z.of_nat (length vs) → m' x = m x) → words_at m sp vs → words_at m' sp vs.
Proof.
  revert sp. induction vs as [|v vs IH]; intros sp Hext; simpl; [done|]. intros [<- Hw].
  split; [apply Hext; simpl; lia|]. apply IH; [|done]. intros x Hx. apply Hext. simpl. lia.
Qed.

(** What [push_all] does: the words are found in reverse order from the new stack
    pointer up, and nothing else changes. *)
Lemma push_all_spec vs sp m :
  let '(sp', m') := push_all vs sp m in
  sp' = sp - 8 * Z.of_nat (length vs) ∧ words_at m' sp' (rev vs) ∧
  ∀ x, ¬ (sp' <= x < sp) → m' x = m x.
Proof.
  revert sp m. induction vs as [|v vs IH]; intros sp m; cbn [push_all].
  { split_and!; [simpl; lia|done|done]. }
  specialize (IH (sp - 8) (m⟦sp - 8 := v⟧)). destruct (push_all vs _ _) as [sp' m'].
  destruct IH as (Hsp & Hw & Hout). simpl. rewrite words_at_app, length_rev.
  split; [lia|]. split.
  - split; [done|]. split; [|done]. replace (sp' + 8 * Z.of_nat (length vs)) with (sp - 8) by lia.
    rewrite Hout by lia. apply mem_set_eq.
  - intros x Hx. rewrite Hout by lia. apply mem_set_ne. lia.
Qed.

(** ** The interface *)

(** A suspended or running context: its callee-saved registers, its stack pointer
    and the address it continues at once [arch_context_switch] returns. *)
Record context (R : Type) := mk_context { c_regs : R; c_sp : Z; c_pc : Z }.
Arguments mk_context {R} _ _ _.
Arguments c_regs {R} _.
Arguments c_sp {R} _.
Arguments c_pc {R} _.

Class SwitchOps (R : Type) := {
  arch_thread_init_stack : Z → Z → Z → memory → Z * memory;
  (* [arch_context_switch c new_sp m]: the value stored to [*old_sp], the context
     after the switch and the memory. *)
  arch_context_switch : context R → Z → memory → Z * context R * memory;
  frame_size : Z;
  frame : memory → Z → context R → Prop;
  entry_context : Z → Z → Z → context R
}.

Class SwitchLaws (R : Type) `{!SwitchOps R} := {
  frame_size_bound : 0 < frame_size <= 4096;
  frame_sp m sp c : frame m sp c → sp + frame_size = c_sp c;
  frame_ext m m' sp c :
    (∀ x, sp <= x < sp + frame_size → m' x = m x) → frame m sp c → frame m' sp c;
  init_stack_law top entry arg m :
    let '(sp, m') := arch_thread_init_stack top entry arg m in
    frame m' sp (entry_context top entry arg) ∧ ∀ x, ¬ (sp <= x < top) → m' x = m x;
  switch_saves c new_sp m :
    let '(sp, c', m') := arch_context_switch c new_sp m in
    frame m' sp c ∧ (∀ x, ¬ (sp <= x < c_sp c) → m' x = m x);
  switch_resumes c new_sp m d :
    let '(sp, c', m') := arch_context_switch c new_sp m in
    frame m' new_sp d → c' = d;
  entry_context_sp top entry arg : c_sp (entry_context top entry arg) = top
}.

(** The label [thread_trampoline]: its address is fixed by the linker. *)
Section switch.
Variable thread_trampoline : Z.

(** ** x86_64 *)

Record regs_x86 := mk_regs_x86 { rbp : Z; rbx : Z; r12 : Z; r13 : Z; r14 : Z; r15 : Z }.

Definition arch_thread_init_stack_x86 (stack_top entry arg : Z) (m : memory) : Z * memory :=
  push_all [thread_trampoline; 0; 0; entry; arg; 0; 0] stack_top m.

(** context_switch.asm; the return address is the one the call pushed. *)
Definition arch_context_switch_x86 (c : context regs_x86) (new_sp : Z) (m : memory) :
    Z * context regs_x86 * memory :=
  let r := c_regs c in
  let '(old_sp, m) :=
    push_all [c_pc c; rbp r; rbx r; r12 r; r13 r; r14 r; r15 r] (c_sp c) m in
  let r' := mk_regs_x86 (m (new_sp + 40)) (m (new_sp + 32)) (m (new_sp + 24))
              (m (new_sp + 16)) (m (new_sp + 8)) (m new_sp) in
  (old_sp, mk_context r' (new_sp + 56) (m (new_sp + 48)), m).

Definition frame_x86 (m : memory) (sp : Z) (c : context regs_x86) : Prop :=
  let r := c_regs c in
  c_sp c = sp + 56 ∧ words_at m sp [r15 r; r14 r; r13 r; r12 r; rbx r; rbp r; c_pc c].

(** What [thread_trampoline] finds: [entry] in r12 and [arg] in r13. *)
Definition entry_context_x86 (stack_top entry arg : Z) : context regs_x86 :=
  mk_context (mk_regs_x86 0 0 entry arg 0 0) stack_top thread_trampoline.

(** ** aarch64 *)

Record regs_a64 := mk_regs_a64 {
  x19 : Z; x20 : Z; x21 : Z; x22 : Z; x23 : Z; x24 : Z;
  x25 : Z; x26 : Z; x27 : Z; x28 : Z; x29 : Z
}.

Definition arch_thread_init_stack_a64 (stack_top entry arg : Z) (m : memory) : Z * memory :=
  push_all [thread_trampoline; 0; 0; 0; 0; 0; 0; 0; 0; 0; arg; entry] stack_top m.

(** context_switch.S; the return address is in x30. *)
Definition arch_context_switch_a64 (c : context regs_a64) (new_sp : Z) (m : memory) :
    Z * context regs_a64 * memory :=
  let r := c_regs c in
  let sp := c_sp c - 96 in
  let m := m⟦sp := x19 r⟧⟦sp + 8 := x20 r⟧⟦sp + 16 := x21 r⟧⟦sp + 24 := x22 r⟧
            ⟦sp + 32 := x23 r⟧⟦sp + 40 := x24 r⟧⟦sp + 48 := x25 r⟧⟦sp + 56 := x26 r⟧
            ⟦sp + 64 := x27 r⟧⟦sp + 72 := x28 r⟧⟦sp + 80 := x29 r⟧⟦sp + 88 := c_pc c⟧ in
  let r' := mk_regs_a64 (m new_sp) (m (new_sp + 8)) (m (new_sp + 16)) (m (new_sp + 24))
              (m (new_sp + 32)) (m (new_sp + 40)) (m (new_sp + 48)) (m (new_sp + 56))
              (m (new_sp + 64)) (m (new_sp + 72)) (m (new_sp + 80)) in
  (sp, mk_context r' (new_sp + 96) (m (new_sp + 88)), m).

Definition frame_a64 (m : memory) (sp : Z) (c : context regs_a64) : Prop :=
  let r := c_regs c in
  c_sp c = sp + 96 ∧
  words_at m sp [x19 r; x20 r; x21 r; x22 r; x23 r; x24 r; x25 r; x26 r; x27 r; x28 r;
                 x29 r; c_pc c].

Definition entry_context_a64 (stack_top entry arg : Z) : context regs_a64 :=
  mk_context (mk_regs_a64 entry arg 0 0 0 0 0 0 0 0 0) stack_top thread_trampoline.

(** ** The instances *)

#[local] Instance switch_ops_x86 : SwitchOps regs_x86 := {
  arch_thread_init_stack := arch_thread_init_stack_x86;
  arch_context_switch := arch_context_switch_x86;
  frame_size := 56;
  frame := frame_x86;
  entry_context := entry_context_x86
}.

#[local] Instance switch_laws_x86 : SwitchLaws regs_x86.
Proof.
  split; cbn [arch_thread_init_stack arch_context_switch frame_size frame entry_context switch_ops_x86].
  - lia.
  - by intros m sp c [-> _].
  - intros m m' sp c Hext [Hsp Hw]. split; [done|]. by apply (words_at_ext m).
  - intros top entry arg m. unfold arch_thread_init_stack_x86.
    pose proof (push_all_spec [thread_trampoline; 0; 0; entry; arg; 0; 0] top m) as H.
    destruct (push_all _ _ _) as [sp m']. destruct H as (Hsp & Hw & Hout). simpl in Hsp.
    split; [|done]. split; [simpl; lia|exact Hw].
  - intros c new_sp m. unfold arch_context_switch_x86. set (r := c_regs c).
    pose proof (push_all_spec [c_pc c; rbp r; rbx r; r12 r; r13 r; r14 r; r15 r] (c_sp c) m) as H.
    destruct (push_all _ _ _) as [sp m']. destruct H as (Hsp & Hw & Hout). simpl in Hsp.
    split; [|done]. split; [lia|exact Hw].
  - intros c new_sp m [[] dsp dpc]. unfold arch_context_switch_x86.
    destruct (push_all _ _ _) as [sp m']. unfold frame_x86. simpl.
    rewrite <- !Z.add_assoc. simpl. intros H. destruct_and!.
    f_equal; [f_equal| |]; (lia || (etrans; [|eassumption]; f_equal; lia)).
  - done.
Qed.

#[local] Instance switch_ops_a64 : SwitchOps regs_a64 := {
  arch_thread_init_stack := arch_thread_init_stack_a64;
  arch_context_switch := arch_context_switch_a64;
  frame_size := 96;
  frame := frame_a64;
  entry_context := entry_context_a64
}.

#[local] Instance switch_laws_a64 : SwitchLaws regs_a64.
Proof.
  split; cbn [arch_thread_init_stack arch_context_switch frame_size frame entry_context switch_ops_a64].
  - lia.
  - by intros m sp c [-> _].
  - intros m m' sp c Hext [Hsp Hw]. split; [done|]. by apply (words_at_ext m).
  - intros top entry arg m. unfold arch_thread_init_stack_a64.
    pose proof (push_all_spec [thread_trampoline; 0; 0; 0; 0; 0; 0; 0; 0; 0; arg; entry] top m) as H.
    destruct (push_all _ _ _) as [sp m']. destruct H as (Hsp & Hw & Hout). simpl in Hsp.
    split; [|done]. split; [simpl; lia|exact Hw].
  - intros c new_sp m. unfold arch_context_switch_a64. set (r := c_regs c). split.
    + split; [lia|]. fold r. simpl. rewrite <- !Z.add_assoc. simpl.
      split_and!; try done; repeat (rewrite mem_set_ne by lia); by (rewrite mem_set_at by lia).
    + intros x Hx. rewrite !mem_set_ne by lia. done.
  - intros c new_sp m [[] dsp dpc]. unfold arch_context_switch_a64.
    generalize (m⟦c_sp c - 96 := x19 (c_regs c)⟧). intros m0.
    match goal with |- context [mk_context _ _ (?m _)] => generalize m end. intros m1.
    unfold frame_a64. simpl. rewrite <- !Z.add_assoc. simpl. intros H. destruct_and!.
    f_equal; [f_equal| |]; (lia || (etrans; [|eassumption]; f_equal; lia)).
  - done.
Qed.
End switch.

(** ** Suspend and resume, over the interface *)

Section laws.
Context {R : Type} `{!SwitchOps R, !SwitchLaws R}.

(** [suspended m sp c]: a later switch to [sp], from a context whose own save area
    does not touch the frame, continues [c]. *)
Lemma resume_suspended m sp c d :
  frame m sp c → (c_sp d <= sp ∨ c_sp c <= c_sp d - frame_size) →
  ∃ m', arch_context_switch d sp m = (c_sp d - frame_size, c, m') ∧
    frame m' (c_sp d - frame_size) d ∧ frame m' sp c ∧
    ∀ x, ¬ (c_sp d - frame_size <= x < c_sp d) → m' x = m x.
Proof.
  intros Hf Hdis. pose proof (switch_saves d sp m) as Hs. pose proof (switch_resumes d sp m c) as Hr.
  destruct (arch_context_switch d sp m) as [[sp' c'] m']. destruct Hs as [Hf' Hout].
  pose proof (frame_sp _ _ _ Hf'). pose proof (frame_sp _ _ _ Hf).
  assert (frame m' sp c) as Hfc.
  { apply (frame_ext m); [|done]. intros x Hx. apply Hout. lia. }
  specialize (Hr Hfc) as ->. replace sp' with (c_sp d - frame_size) in * by lia. eauto.
Qed.

Lemma init_stack_frame top entry arg m :
  ∃ m', arch_thread_init_stack top entry arg m = (top - frame_size, m') ∧
    frame m' (top - frame_size) (entry_context top entry arg) ∧
    ∀ x, ¬ (top - frame_size <= x < top) → m' x = m x.
Proof.
  pose proof (init_stack_law top entry arg m) as H.
  destruct (arch_thread_init_stack top entry arg m) as [sp m']. destruct H as [Hf Hout].
  pose proof (frame_sp _ _ _ Hf) as E. rewrite entry_context_sp in E.
  replace sp with (top - frame_size) in * by lia. eauto.
Qed.

Lemma roundtrip c d new_sp m m2 sp c' m1 :
  arch_context_switch c new_sp m = (sp, c', m1) →
  (∀ x, sp <= x < c_sp c → m2 x = m1 x) →
  (c_sp d <= sp ∨ c_sp c <= c_sp d - frame_size) →
  ∃ sp' m3, arch_context_switch d sp m2 = (sp', c, m3).
Proof.
  intros E Hext Hdis. pose proof (switch_saves c new_sp m) as H. rewrite E in H.
  destruct H as [Hf _]. pose proof (frame_sp _ _ _ Hf).
  destruct (resume_suspended m2 sp c d) as (m3 & ? & _); [|done|eauto].
  apply (frame_ext m1); [|done]. intros x Hx. apply Hext. lia.
Qed.
End laws.

(** ** Properties *)

(** The two [arch_context_switch] routines preserve contexts.  A context [c]
    suspended by a switch to anything resumes with the same callee-saved registers,
    stack pointer and return address when some later context switches to the stack
    pointer saved for it, provided the words of its frame were left alone and the
    later context's own frame does not overlap them. *)
Lemma context_switch_roundtrip (tramp : Z) :
  (∀ (c d : context regs_x86) new_sp m m2,
     let '(sp, _, m1) := arch_context_switch_x86 c new_sp m in
     (∀ x, sp <= x < c_sp c → m2 x = m1 x) → (c_sp d <= sp ∨ c_sp c <= c_sp d - 56) →
     ∃ sp' m3, arch_context_switch_x86 d sp m2 = (sp', c, m3)) ∧
  (∀ (c d : context regs_a64) new_sp m m2,
     let '(sp, _, m1) := arch_context_switch_a64 c new_sp m in
     (∀ x, sp <= x < c_sp c → m2 x = m1 x) → (c_sp d <= sp ∨ c_sp c <= c_sp d - 96) →
     ∃ sp' m3, arch_context_switch_a64 d sp m2 = (sp', c, m3)).
Proof.
  split; intros c d new_sp m m2.
  - destruct (arch_context_switch_x86 c new_sp m) as [[sp c'] m1] eqn:E.
    by apply (roundtrip (SwitchLaws0 := switch_laws_x86 tramp) _ _ _ _ _ _ _ _ E).
  - destruct (arch_context_switch_a64 c new_sp m) as [[sp c'] m1] eqn:E.
    by apply (roundtrip (SwitchLaws0 := switch_laws_a64 tramp) _ _ _ _ _ _ _ _ E).
Qed.

Lemma context_switch_roundtrip_witness :
  let c := mk_context (mk_regs_x86 1 2 3 4 5 6) 0x9000 0xAA in
  let d := mk_context (mk_regs_x86 7 7 7 7 7 7) 0x5000 0xBB in
  let '(sp, _, m1) := arch_context_switch_x86 c 0x4000 (λ _, 0) in
  sp = 0x9000 - 56 ∧ ∃ sp' m3, arch_context_switch_x86 d sp m1 = (sp', c, m3).
Proof.
  intros c d. pose proof (proj1 (context_switch_roundtrip 0) c d 0x4000 (λ _, 0)) as H.
  destruct (arch_context_switch_x86 c 0x4000 (λ _, 0)) as [[sp c'] m1] eqn:E.
  assert (sp = 0x9000 - 56) as -> by (injection E as <- _ _; reflexivity).
  split; [reflexivity|]. apply (H m1); [reflexivity|left; simpl; lia].
Defined.

(** A thread built by [arch_thread_init_stack] starts in [thread_trampoline]
    with [entry] and [arg] in the registers the trampoline reads (r12 and r13 on
    x86_64, x19 and x20 on aarch64) and an empty stack, whatever context switches
    to it from another stack. *)
Theorem new_thread_enters_trampoline (tramp top entry arg : Z) (m : memory) :
  (∀ d : context regs_x86, c_sp d <= top - 56 ∨ top <= c_sp d - 56 →
     let '(sp, m1) := arch_thread_init_stack_x86 tramp top entry arg m in
     ∃ c sp' m2, arch_context_switch_x86 d sp m1 = (sp', c, m2) ∧
       c_pc c = tramp ∧ c_sp c = top ∧ r12 (c_regs c) = entry ∧ r13 (c_regs c) = arg) ∧
  (∀ d : context regs_a64, c_sp d <= top - 96 ∨ top <= c_sp d - 96 →
     let '(sp, m1) := arch_thread_init_stack_a64 tramp top entry arg m in
     ∃ c sp' m2, arch_context_switch_a64 d sp m1 = (sp', c, m2) ∧
       c_pc c = tramp ∧ c_sp c = top ∧ x19 (c_regs c) = entry ∧ x20 (c_regs c) = arg).
Proof.
  split; intros d Hd.
  - destruct (init_stack_frame (SwitchLaws0 := switch_laws_x86 tramp) top entry arg m)
      as (m1 & E & Hf & _).
    destruct (resume_suspended (SwitchLaws0 := switch_laws_x86 tramp) m1 _ _ d Hf Hd)
      as (m2 & E2 & _).
    pose proof (E : arch_thread_init_stack_x86 tramp top entry arg m = (top - 56, m1)) as ->.
    eexists _, _, _. split; [exact E2|done].
  - destruct (init_stack_frame (SwitchLaws0 := switch_laws_a64 tramp) top entry arg m)
      as (m1 & E & Hf & _).
    destruct (resume_suspended (SwitchLaws0 := switch_laws_a64 tramp) m1 _ _ d Hf Hd)
      as (m2 & E2 & _).
    pose proof (E : arch_thread_init_stack_a64 tramp top entry arg m = (top - 96, m1)) as ->.
    eexists _, _, _. split; [exact E2|done].
Qed.

Lemma new_thread_enters_trampoline_witness :
  let d := mk_context (mk_regs_x86 1 2 3 4 5 6) 0x9000 0xAA in
  let '(sp, m1) := arch_thread_init_stack_x86 0x77 0x5000 0xEE 0xA6 (λ _, 0) in
  ∃ c sp' m2, arch_context_switch_x86 d sp m1 = (sp', c, m2) ∧
    c_pc c = 0x77 ∧ c_sp c = 0x5000 ∧ r12 (c_regs c) = 0xEE ∧ r13 (c_regs c) = 0xA6.
Proof.
  intros d. apply (proj1 (new_thread_enters_trampoline 0x77 0x5000 0xEE 0xA6 (λ _, 0)) d).
  right. simpl. lia.
Defined.
