(* ===== verification/Sched.v ===== *)
(** * The scheduler: kernel/sched.c

    Thread records live in a store indexed by address, as in Heap.v; stacks are
    words of the memory of Switch.v.  The machine part of the state is the running
    context (registers, stack pointer and the address the running code continues
    at after the scheduler call it is making) and the stack memory.  The file is
    written against the context-switch interface and the frame-allocator interface
    (through the heap), so it holds for both architectures. *)

From S2P Require Import Prelude.
From S2P Require Import FrameAlloc.
From S2P Require Import Pmm.
From S2P Require Import Heap.
From S2P Require Import Switch.

(** ** Data *)

Definition THREAD_STACK_SIZE : Z := 16 * 1024.
Definition sizeof_thread : Z := 48.

Inductive thread_state := THREAD_READY | THREAD_RUNNING | THREAD_BLOCKED | THREAD_DEAD.

Record thread := mk_thread {
  th_id : Z;
  th_sp : Z;
  th_stack_base : Z;
  th_stack_size : Z;
  th_state : thread_state;
  th_next : Z
}.

Definition with_sp (t : thread) (sp : Z) : thread :=
  mk_thread (th_id t) sp (th_stack_base t) (th_stack_size t) (th_state t) (th_next t).
Definition with_state (t : thread) (st : thread_state) : thread :=
  mk_thread (th_id t) (th_sp t) (th_stack_base t) (th_stack_size t) st (th_next t).
Definition with_next (t : thread) (n : Z) : thread :=
  mk_thread (th_id t) (th_sp t) (th_stack_base t) (th_stack_size t) (th_state t) n.

Section sched.
Context {St : Type} `{!FrameOps St} {R : Type} `{!SwitchOps R}.

Record sched := mk_sched {
  threads : gmap Z thread;
  current : Z;
  next_id : Z;
  sched_enabled : bool;
  s_heap : heap St;
  cpu : context R;
  mem : memory
}.

Definition set_thread (s : sched) (a : Z) (t : thread) : sched :=
  mk_sched (<[a := t]> (threads s)) (current s) (next_id s) (sched_enabled s) (s_heap s) (cpu s) (mem s).
Definition set_current (s : sched) (a : Z) : sched :=
  mk_sched (threads s) a (next_id s) (sched_enabled s) (s_heap s) (cpu s) (mem s).

(** ** Operations

    [None] is an access through a pointer to no thread record (NULL included). *)

Definition sched_init (s : sched) : option sched :=
  '(t, h) ← kmalloc sizeof_thread (s_heap s);
  if t =? 0 then None else
  Some (mk_sched (<[t := mk_thread (next_id s) 0 0 0 THREAD_RUNNING t]> (threads s))
          t (u64 (next_id s + 1)) true h (cpu s) (mem s)).

(** [entry] and [arg] are the addresses passed to the new thread.  The result of
    the second kmalloc is used unchecked, as in the code. *)
Definition thread_create (entry arg : Z) (s : sched) : option (Z * sched) :=
  '(t, h) ← kmalloc sizeof_thread (s_heap s);
  if t =? 0 then None else
  '(stack_base, h) ← kmalloc THREAD_STACK_SIZE h;
  let '(sp, m) := arch_thread_init_stack (u64 (stack_base + THREAD_STACK_SIZE)) entry arg (mem s) in
  c ← threads s !! current s;
  let th := mk_thread (next_id s) sp stack_base THREAD_STACK_SIZE THREAD_READY (th_next c) in
  Some (t, mk_sched (<[current s := with_next c t]> (<[t := th]> (threads s)))
             (current s) (u64 (next_id s + 1)) (sched_enabled s) h (cpu s) m).

(** [arch_context_switch(&prev->sp, next->sp)]: [next->sp] is read before the
    switch stores to [prev->sp]. *)
Definition do_switch (prev next : Z) (s : sched) : option sched :=
  n ← threads s !! next;
  p ← threads s !! prev;
  let '(old_sp, c, m) := arch_context_switch (cpu s) (th_sp n) (mem s) in
  Some (mk_sched (<[prev := with_sp p old_sp]> (threads s)) (current s) (next_id s)
          (sched_enabled s) (s_heap s) c m).

Definition sched_current (s : sched) : Z := current s.

Definition switch_to (next : Z) (s : sched) : option sched :=
  let prev := current s in
  do_switch prev next (set_current s next).

Definition sched_yield (s : sched) : option sched :=
  c ← threads s !! current s;
  if negb (th_next c =? current s) then switch_to (th_next c) s else Some s.

Definition sched_tick (s : sched) : option sched :=
  if negb (sched_enabled s) then Some s else sched_yield s.

(** The loop [while (p->next != dead) p = p->next]. *)
Fixpoint find_pred (fuel : nat) (ts : gmap Z thread) (p dead : Z) : option Z :=
  t ← ts !! p;
  if th_next t =? dead then Some p else
  match fuel with
  | O => None
  | S fuel => find_pred fuel ts (th_next t) dead
  end.

Definition thread_exit (s : sched) : option sched :=
  let dead := current s in
  d ← threads s !! dead;
  let s := set_thread s dead (with_state d THREAD_DEAD) in
  p ← find_pred (size (threads s)) (threads s) dead dead;
  pt ← threads s !! p;
  d ← threads s !! dead;
  let s := set_thread s p (with_next pt (th_next d)) in
  d ← threads s !! dead;
  let target := th_next d in
  do_switch dead target (set_current s target).

End sched.
Arguments sched : clear implicits.

(** ** The ring *)

(** [seg ts p q l]: following [th_next] from [p] visits the records [l] and then
    arrives at [q]. *)
Fixpoint seg (ts : gmap Z thread) (p q : Z) (l : list Z) : Prop :=
  match l with
  | [] => p = q
  | a :: l => p = a ∧ ∃ t, ts !! a = Some t ∧ seg ts (th_next t) q l
  end.

Lemma seg_app ts p q l1 l2 : seg ts p q (l1 ++ l2) ↔ ∃ m, seg ts p m l1 ∧ seg ts m q l2.
Proof.
  revert p. induction l1 as [|a l1 IH]; intros p; simpl.
  - split; [by exists p|]. by intros (m & -> & ?).
  - setoid_rewrite IH. split.
    + intros (-> & t & Ht & m & ? & ?). exists m. eauto.
    + intros (m & (-> & t & Ht & ?) & ?). split; [done|]. exists t. eauto.
Qed.

(** A segment depends on the links of its own records only. *)
Lemma seg_ext ts ts' p q l :
  (∀ a, a ∈ l → th_next <$> ts' !! a = th_next <$> ts !! a) → seg ts p q l → seg ts' p q l.
Proof.
  revert p. induction l as [|a l IH]; intros p Hext; simpl; [done|]. intros (-> & t & Ht & Hs).
  split; [done|]. pose proof (Hext a ltac:(left)) as E. rewrite Ht in E. simpl in E.
  apply fmap_Some in E as (t' & Ht' & E). exists t'. split; [done|]. rewrite <- E.
  apply IH; [|done]. intros b Hb. apply Hext. by right.
Qed.

Lemma length_ring_le (ts : gmap Z thread) p q l :
  seg ts p q l → NoDup l → (length l <= size ts)%nat.
Proof.
  intros Hs Hnd. apply length_le_size; [done|]. revert p Hs. clear Hnd.
  induction l as [|a l IH]; intros p Hs b Hb; [set_solver|]. destruct Hs as (-> & t & Ht & Hs).
  apply elem_of_cons in Hb as [->|Hb]; [by exists t|by eapply IH].
Qed.

(** The predecessor search, from a record of the ring to the end of the ring. *)
Lemma find_pred_last ts p dead l fuel :
  seg ts p dead l → l ≠ [] → dead ∉ tail l → (length l <= S fuel)%nat →
  ∃ l' b, l = l' ++ [b] ∧ find_pred fuel ts p dead = Some b.
Proof.
  revert p fuel. induction l as [|a l IH]; intros p fuel Hs Hne Hd Hf; [done|].
  destruct Hs as (-> & t & Ht & Hs). simpl in Hd.
  assert (find_pred fuel ts a dead =
    if th_next t =? dead then Some a else
    match fuel with O => None | S fuel => find_pred fuel ts (th_next t) dead end) as ->.
  { destruct fuel; simpl; by rewrite Ht. }
  destruct l as [|b l].
  - simpl in Hs. rewrite (proj2 (Z.eqb_eq _ _) Hs). by exists [], a.
  - pose proof Hs as (Hb & _). 
    rewrite (proj2 (Z.eqb_neq (th_next t) dead)) by (rewrite Hb; set_solver).
    destruct fuel as [|fuel]; [simpl in Hf; lia|].
    destruct (IH (th_next t) fuel Hs) as (l' & c & E & ->); [done|set_solver|simpl in *; lia|].
    exists (a :: l'), c. by rewrite E.
Qed.

Section proofs.
Context {St : Type} `{!FrameOps St, !FrameLaws St} {R : Type} `{!SwitchOps R, !SwitchLaws R}.
Implicit Types s : sched St R.

(** A thread of the ring: its record, the context it runs or will resume, and the
    bytes of its stack. *)
Record entry := mk_entry { e_addr : Z; e_ctx : context R; e_lo : Z; e_hi : Z }.
Definition with_ctx (e : entry) (c : context R) : entry := mk_entry (e_addr e) c (e_lo e) (e_hi e).

(** The stack pointer is inside the stack and leaves room for a switch frame. *)
Definition in_stack (e : entry) (c : context R) : Prop :=
  e_lo e + frame_size <= c_sp c <= e_hi e.

(** A waiting thread: its saved stack pointer is that of a frame of its context. *)
Definition parked (ts : gmap Z thread) (m : memory) (e : entry) : Prop :=
  ∃ t, ts !! e_addr e = Some t ∧ frame m (th_sp t) (e_ctx e).

(** Records are live heap allocations; a stack is one too, or is outside the frames
    the allocator manages (the boot stack). *)
Definition owned (h : heap St) AL (e : entry) : Prop :=
  (∃ n, live h AL (e_addr e) n) ∧
  ((∃ n, live h AL (e_lo e) n ∧ e_hi e - e_lo e <= n) ∨
   (∀ x, e_lo e <= x < e_hi e → x / PAGE ∉ fa_managed (frames h))).

(** The scheduler represents the running thread [e0] followed by the waiting
    threads [L], in the order they will run. *)
Record sched_rep s (e0 : entry) (L : list entry) : Prop := {
  sr_nodup : NoDup (e_addr <$> e0 :: L);
  sr_ring : seg (threads s) (current s) (current s) (e_addr <$> e0 :: L);
  sr_enabled : sched_enabled s = true;
  sr_cpu : cpu s = e_ctx e0;
  sr_parked : ∀ e, e ∈ L → parked (threads s) (mem s) e;
  sr_room : ∀ e, e ∈ e0 :: L → in_stack e (e_ctx e);
  sr_disjoint : ∀ e e', e ∈ e0 :: L → e' ∈ e0 :: L → e_addr e ≠ e_addr e' →
    e_hi e <= e_lo e' ∨ e_hi e' <= e_lo e;
  sr_owned : ∃ AL, heap_rep (s_heap s) AL ∧ ∀ e, e ∈ e0 :: L → owned (s_heap s) AL e
}.

Lemma sr_current s e0 L : sched_rep s e0 L → current s = e_addr e0.
Proof. intros Hr. by destruct (sr_ring _ _ _ Hr). Qed.

(** ** Switching between two threads of the ring *)

Lemma seg_fmap ts p q (L : list entry) e :
  seg ts p q (e_addr <$> L) → e ∈ L → is_Some (ts !! e_addr e).
Proof.
  revert p. induction L as [|e1 L IH]; intros p Hs He; [set_solver|].
  destruct Hs as (-> & t & Ht & Hs). apply elem_of_cons in He as [->|He]; eauto.
Qed.

(** The running context of the thread at [prev] is parked in its own stack, and
    the thread [e1] resumes with the context it was parked with. *)
Lemma do_switch_spec s prev pt e0 e1 (L : list entry) :
  threads s !! prev = Some pt → prev = e_addr e0 → cpu s = e_ctx e0 → in_stack e0 (e_ctx e0) →
  parked (threads s) (mem s) e1 → in_stack e1 (e_ctx e1) →
  (∀ e, e ∈ L → parked (threads s) (mem s) e ∧ in_stack e (e_ctx e)) →
  (∀ e, e ∈ e1 :: L → e_addr e ≠ prev ∧ (e_hi e0 <= e_lo e ∨ e_hi e <= e_lo e0)) →
  ∃ sp m, do_switch prev (e_addr e1) s =
      Some (mk_sched (<[prev := with_sp pt sp]> (threads s)) (current s) (next_id s)
              (sched_enabled s) (s_heap s) (e_ctx e1) m) ∧
    frame m sp (e_ctx e0) ∧
    ∀ e, e ∈ L → parked (<[prev := with_sp pt sp]> (threads s)) m e.
Proof.
  intros Hp -> Hcpu Hroom (t1 & Ht1 & Hf1) Hroom1 HL Hdis. unfold do_switch. rewrite Ht1, Hp. simpl.
  unfold in_stack in *. pose proof (frame_sp _ _ _ Hf1).
  destruct (Hdis e1 ltac:(left)) as [Hne1 Hd1]. rewrite <- Hcpu in *.
  destruct (resume_suspended (mem s) (th_sp t1) (e_ctx e1) (cpu s)) as (m & -> & Hf & _ & Hout); [done|lia|].
  eexists _, m. split; [done|]. split; [done|]. intros e He.
  destruct (HL e He) as [(t & Ht & Hft) Hroom2]. destruct (Hdis e ltac:(by right)) as [Hne Hd].
  exists t. rewrite lookup_insert_ne by done. split; [done|].
  apply (frame_ext (mem s)); [|done]. pose proof (frame_sp _ _ _ Hft). intros x Hx. apply Hout. lia.
Qed.

(** *** sched_yield *)

Lemma yield_alone s e0 : sched_rep s e0 [] → sched_yield s = Some s.
Proof.
  intros Hr. unfold sched_yield. destruct (sr_ring _ _ _ Hr) as (Hc & t & Ht & Hn). simpl in Hn.
  rewrite Hc, Ht. simpl. by rewrite Hn, Hc, Z.eqb_refl.
Qed.

Lemma yield_rep s e0 e1 L :
  sched_rep s e0 (e1 :: L) →
  ∃ s', sched_yield s = Some s' ∧ sched_rep s' e1 (L ++ [e0]) ∧ s_heap s' = s_heap s ∧
    next_id s' = next_id s.
Proof.
  intros Hr. pose proof Hr as [Hnd Hring Hen Hcpu Hpark Hroom Hdis Hown].
  pose proof (sr_current _ _ _ Hr) as Hcur.
  destruct Hring as (_ & t0 & Ht0 & Hs). pose proof Hs as (Hn & _).
  assert (e_addr e0 ∉ (e_addr <$> e1 :: L)) as Hni by (by inversion Hnd).
  assert (e_addr e1 ≠ e_addr e0) as Hne.
  { intros E. apply Hni. rewrite <- E. set_solver. }
  unfold sched_yield. rewrite Hcur, Ht0. simpl. rewrite Hn, (proj2 (Z.eqb_neq _ _)) by done. simpl.
  unfold switch_to. rewrite Hcur.
  destruct (do_switch_spec (set_current s (e_addr e1)) (e_addr e0) t0 e0 e1 L)
    as (sp & m & -> & Hf & HL); try done.
  - apply Hroom. left.
  - apply Hpark. left.
  - apply Hroom. set_solver.
  - intros e He. split; [apply Hpark; by right|apply Hroom; set_solver].
  - intros e He. assert (e_addr e ≠ e_addr e0).
    { intros E. apply Hni. rewrite <- E. by apply list_elem_of_fmap_2. }
    split; [done|]. destruct (Hdis e0 e); [left|by right|done|by left|by right].
  - eexists. split; [done|]. split; [|done]. split; simpl.
    + change (NoDup (e_addr <$> (e1 :: L) ++ [e0])). by rewrite <- Permutation_cons_append.
    + change (seg (<[e_addr e0 := with_sp t0 sp]> (threads s)) (e_addr e1) (e_addr e1)
        (e_addr <$> (e1 :: L) ++ [e0])).
      rewrite fmap_app. apply seg_app. exists (e_addr e0). split.
      * rewrite Hn, Hcur in Hs. apply (seg_ext (threads s)); [|done].
        intros a Ha. rewrite lookup_insert_ne; [done|]. by intros <-.
      * split; [done|]. eexists. rewrite lookup_insert_eq. split; [done|]. done.
    + done.
    + done.
    + intros e [He| ->%list_elem_of_singleton]%elem_of_app; [by apply HL|].
      exists (with_sp t0 sp). by rewrite lookup_insert_eq.
    + intros e He. apply Hroom. set_solver.
    + intros e e' He He'. apply Hdis; set_solver.
    + destruct Hown as (AL & ? & Ho). exists AL. split; [done|]. intros e He. apply Ho. set_solver.
Qed.

(** *** Between two switches *)

(** The running thread computes: its registers and stack pointer change within its
    own stack, and memory changes outside the stacks of the waiting threads. *)
Definition running s (c : context R) (m : memory) : sched St R :=
  mk_sched (threads s) (current s) (next_id s) (sched_enabled s) (s_heap s) c m.

Lemma running_rep s e0 L c m :
  sched_rep s e0 L → in_stack e0 c →
  (∀ e x, e ∈ L → e_lo e <= x < e_hi e → m x = mem s x) →
  sched_rep (running s c m) (with_ctx e0 c) L.
Proof.
  intros [Hnd Hring Hen Hcpu Hpark Hroom Hdis (AL & Hh & Hown)] Hc Hm. split; simpl.
  - done.
  - done.
  - done.
  - done.
  - intros e He. destruct (Hpark e He) as (t & Ht & Hf). exists t. split; [done|].
    apply (frame_ext (mem s)); [|done]. pose proof (frame_sp _ _ _ Hf).
    destruct (Hroom e ltac:(by right)). intros x Hx. apply (Hm e); [done|lia].
  - intros e [->|He]%elem_of_cons; [done|]. apply Hroom. by right.
  - intros e e' He He'. rewrite !elem_of_cons in He, He'.
    destruct He as [->|He], He' as [->|He']; simpl.
    + done.
    + apply (Hdis e0 e'); [left|by right].
    + apply (Hdis e e0); [by right|left].
    + apply Hdis; by right.
  - exists AL. split; [done|]. intros e [->|He]%elem_of_cons; [|apply Hown; by right].
    by apply (Hown e0); left.
Qed.

(** *** thread_exit *)

(** Unlinking the running thread: its predecessor is found and linked past it. *)
Lemma unlink_ring ts a0 a1 l :
  seg ts a0 a0 (a0 :: a1 :: l) → NoDup (a0 :: a1 :: l) →
  ∃ b pt, b ≠ a0 ∧ find_pred (size ts) ts a0 a0 = Some b ∧ ts !! b = Some pt ∧
    ∀ t0', seg (<[a0 := t0']> (<[b := with_next pt a1]> ts)) a1 a1 (a1 :: l).
Proof.
  intros Hs Hnd. pose proof (length_ring_le _ _ _ _ Hs Hnd) as Hlen.
  pose proof Hnd as [Hni Hnd']%NoDup_cons.
  destruct (find_pred_last ts a0 a0 _ (size ts) Hs) as (l' & b & E & Hfp); [done|done|lia|].
  destruct l' as [|x l1]; [by destruct l|]. injection E as <- E.
  destruct Hs as (_ & t & Ht & Hs). pose proof (proj1 Hs) as Hnext. rewrite E in *.
  apply seg_app in Hs as (m & Hs1 & -> & pt & Hpt & _).
  apply NoDup_app in Hnd' as (_ & Hb & _). exists b, pt. split_and!; [set_solver|done|done|].
  intros t0'. apply seg_app. exists b. rewrite Hnext in Hs1. split.
  - apply (seg_ext ts); [|done]. intros a Ha. rewrite !lookup_insert_ne; [done| |]; set_solver.
  - split; [done|]. eexists. rewrite lookup_insert_ne by set_solver. by rewrite lookup_insert_eq.
Qed.

(** Linking a node anew leaves the waiting threads' saved stack pointers. *)
Lemma parked_relink ts m a0 dead b pt nx e :
  parked ts m e → e_addr e ≠ a0 → <[a0 := dead]> ts !! b = Some pt →
  parked (<[b := with_next pt nx]> (<[a0 := dead]> ts)) m e.
Proof.
  intros (t & Ht & Hf) Hne Hpt. rewrite <- (lookup_insert_ne ts a0 _ dead) in Ht by done.
  destruct (decide (e_addr e = b)) as [<-|].
  - exists (with_next pt nx). rewrite lookup_insert_eq. split; [done|]. by replace pt with t by congruence.
  - exists t. by rewrite lookup_insert_ne.
Qed.

Lemma thread_exit_rep s e0 e1 L :
  sched_rep s e0 (e1 :: L) →
  ∃ s', thread_exit s = Some s' ∧ sched_rep s' e1 L ∧ s_heap s' = s_heap s ∧
    th_state <$> threads s' !! e_addr e0 = Some THREAD_DEAD.
Proof.
  intros Hr. pose proof Hr as [Hnd Hring Hen Hcpu Hpark Hroom Hdis Hown].
  pose proof (sr_current _ _ _ Hr) as Hcur. rewrite Hcur in Hring.
  pose proof Hring as (_ & t0 & Ht0 & Hs). pose proof (proj1 Hs) as Hn. clear Hs.
  unfold thread_exit. rewrite Hcur, Ht0. simpl.
  set (ts1 := <[e_addr e0 := with_state t0 THREAD_DEAD]> (threads s)).
  assert (seg ts1 (e_addr e0) (e_addr e0) (e_addr <$> e0 :: e1 :: L)) as Hring1.
  { apply (seg_ext (threads s)); [|done]. intros a _. unfold ts1.
    destruct (decide (a = e_addr e0)) as [->|]; [|by rewrite lookup_insert_ne].
    by rewrite lookup_insert_eq, Ht0. }
  destruct (unlink_ring ts1 _ _ _ Hring1 Hnd) as (b & pt & Hb & -> & Hpt & Hring2). simpl.
  rewrite Hpt. simpl. assert (ts1 !! e_addr e0 = Some (with_state t0 THREAD_DEAD)) as Hd
    by apply lookup_insert_eq.
  rewrite Hd. simpl. rewrite Hn, lookup_insert_ne, Hd by done. simpl. rewrite Hn.
  set (ts2 := <[b := with_next pt (e_addr e1)]> ts1) in *.
  (* The waiting threads keep their saved stack pointers. *)
  assert (∀ e, e ∈ e1 :: L → e_addr e ≠ e_addr e0) as Hne0.
  { intros e He E. assert (e_addr e0 ∉ (e_addr <$> e1 :: L)) as Hni by (by inversion Hnd).
    apply Hni. rewrite <- E. by apply list_elem_of_fmap_2. }
  assert (∀ e, e ∈ e1 :: L → parked ts2 (mem s) e) as Hpark2
    by (intros e He; apply parked_relink; [by apply Hpark|by apply Hne0|done]).
  match goal with |- context [do_switch _ _ ?s1] => set (s2 := s1) end.
  destruct (do_switch_spec s2 (e_addr e0) (with_state t0 THREAD_DEAD) e0 e1 L)
    as (sp & m & -> & Hf & HL).
  - simpl. unfold ts2. by rewrite lookup_insert_ne.
  - done.
  - done.
  - apply Hroom. left.
  - apply Hpark2. left.
  - apply Hroom. set_solver.
  - intros e He. split; [apply Hpark2; by right|apply Hroom; set_solver].
  - intros e He. specialize (Hne0 e He). split; [done|].
    destruct (Hdis e0 e); [left|by right|done|by left|by right].
  - eexists. split; [done|]. split_and!; [|done|simpl; by rewrite lookup_insert_eq]. split.
    + by inversion Hnd.
    + apply Hring2.
    + done.
    + done.
    + exact HL.
    + intros e He. apply Hroom. by right.
    + intros e e' He He'. apply Hdis; by right.
    + destruct Hown as (AL & ? & Ho). exists AL. split; [done|]. intros e He. apply Ho. by right.
Qed.

(** *** thread_create and sched_init *)

(** A successful kmalloc keeps what the waiting threads own, and hands out memory
    that none of them uses. *)
Lemma owned_kmalloc h AL sz p h' AL' e :
  heap_rep h AL → heap_rep h' AL' → 0 < sz < 2 ^ 63 - 8 → kmalloc sz h = Some (p, h') →
  allocated h AL sz p h' AL' → owned h AL e → e_lo e < e_hi e →
  owned h' AL' e ∧ e_addr e ≠ p ∧ (e_hi e <= p ∨ p + sz <= e_lo e).
Proof.
  intros Hr Hr' Hsz E (Hp & _ & Hfresh & m & Hm & Hlive) [(n & Hn) Hst] Hlt.
  pose proof (kmalloc_managed _ _ _ _ _ Hr Hsz E) as Hmg.
  assert (live h' AL' p m) as Hlp by (apply Hlive; auto).
  split_and!.
  - split; [exists n; apply Hlive; auto|]. rewrite Hmg.
    destruct Hst as [(k & Hk & ?)|?]; [|by right]. left. exists k. rewrite Hlive. auto.
  - intros <-. by apply (Hfresh n).
  - destruct Hst as [(k & Hk & Hle)|Hout].
    + assert (live h' AL' (e_lo e) k) as Hlk by (apply Hlive; auto).
      assert (e_lo e ≠ p) by (intros Eq; apply (Hfresh k); by rewrite <- Eq).
      destruct (live_disjoint _ _ _ _ _ _ Hr' Hlk Hlp); [done|lia|lia].
    + destruct (live_owned _ _ _ _ Hr' Hlp) as (Hpos & Hm0 & _ & _ & Hin).
      destruct (decide (e_hi e <= p ∨ p + sz <= e_lo e)) as [?|Hov]; [done|exfalso].
      apply (Hout (Z.max p (e_lo e))); [lia|]. rewrite <- Hmg.
      assert (Z.max p (e_lo e) / PAGE ∈ fa_managed (frames h') ∖ fa_free (frames h')) by (apply Hin; lia).
      set_solver.
Qed.

Lemma kmalloc_ok h AL sz p h' :
  heap_rep h AL → 0 < sz < 2 ^ 63 - 8 → kmalloc sz h = Some (p, h') → p ≠ 0 →
  ∃ AL', heap_rep h' AL' ∧ allocated h AL sz p h' AL'.
Proof.
  intros Hr Hsz E Hp. destruct (kmalloc_rep h AL sz Hr Hsz) as (q & h1 & AL' & E' & Hr' & Hres).
  simplify_eq. exists AL'. split; [done|]. by destruct Hres as [[? _]|?].
Qed.

Lemma in_stack_lt e c : in_stack e c → e_lo e < e_hi e.
Proof. unfold in_stack. pose proof frame_size_bound. lia. Qed.

(** The two allocations of a thread, beside the memory of the threads [es]. *)
Lemma thread_memory h AL (es : list entry) t h1 b h2 c :
  heap_rep h AL → kmalloc sizeof_thread h = Some (t, h1) → t ≠ 0 →
  kmalloc THREAD_STACK_SIZE h1 = Some (b, h2) → b ≠ 0 →
  (∀ e, e ∈ es → owned h AL e ∧ e_lo e < e_hi e) →
  ∃ AL2, heap_rep h2 AL2 ∧ 0 <= b ∧ b + THREAD_STACK_SIZE < 2 ^ 64 ∧
    owned h2 AL2 (mk_entry t c b (b + THREAD_STACK_SIZE)) ∧
    ∀ e, e ∈ es → owned h2 AL2 e ∧ e_addr e ≠ t ∧ (e_hi e <= b ∨ b + THREAD_STACK_SIZE <= e_lo e).
Proof.
  intros Hh E1 Ht0 E2 Hb0 Hes.
  assert (0 < sizeof_thread < 2 ^ 63 - 8) as B1 by (unfold sizeof_thread; lia).
  assert (0 < THREAD_STACK_SIZE < 2 ^ 63 - 8) as B2 by (unfold THREAD_STACK_SIZE; lia).
  destruct (kmalloc_ok _ _ _ _ _ Hh B1 E1 Ht0) as (AL1 & Hh1 & Ha1).
  destruct (kmalloc_ok _ _ _ _ _ Hh1 B2 E2 Hb0) as (AL2 & Hh2 & Ha2). exists AL2. split; [done|].
  assert (∀ e, e ∈ es → owned h2 AL2 e ∧ e_addr e ≠ t ∧
    (e_hi e <= b ∨ b + THREAD_STACK_SIZE <= e_lo e)) as Hold.
  { intros e He. destruct (Hes e He) as [Ho Hlt].
    destruct (owned_kmalloc _ _ _ _ _ _ e Hh Hh1 B1 E1 Ha1 Ho Hlt) as (Ho1 & ? & _).
    destruct (owned_kmalloc _ _ _ _ _ _ e Hh1 Hh2 B2 E2 Ha2 Ho1 Hlt). tauto. }
  destruct Ha1 as (_ & _ & _ & n1 & _ & Hl1), Ha2 as (_ & _ & _ & n2 & Hn2 & Hl2).
  assert (live h2 AL2 b n2) as Hlb by (apply Hl2; auto).
  destruct (live_owned _ _ _ _ Hh2 Hlb) as (Hpos & _ & Hend & _).
  split; [lia|]. split; [lia|]. split; [|done].
  split; simpl; [exists n1; apply Hl2; right; apply Hl1; auto|]. left. exists n2. split; [done|lia].
Qed.

(** A node linked in behind the first one of a ring. *)
Lemma link_ring ts a0 l t t0 new :
  seg ts a0 a0 (a0 :: l) → ts !! a0 = Some t0 → th_next new = th_next t0 → t ∉ a0 :: l → a0 ∉ l →
  seg (<[a0 := with_next t0 t]> (<[t := new]> ts)) a0 a0 (a0 :: t :: l).
Proof.
  intros (_ & c & Hc & Hs) H0 Hnew Ht Ha. assert (c = t0) as -> by congruence.
  split; [done|]. eexists. split; [apply lookup_insert_eq|]. simpl. split; [done|].
  rewrite lookup_insert_ne, lookup_insert_eq by set_solver. eexists. split; [done|]. rewrite Hnew.
  apply (seg_ext ts); [|done]. intros a Hin. rewrite !lookup_insert_ne; [done|set_solver|]. by intros <-.
Qed.

(** Making a thread from two fresh allocations. *)
Lemma thread_create_rep s e0 L entry arg t h1 b h2 :
  sched_rep s e0 L → kmalloc sizeof_thread (s_heap s) = Some (t, h1) → t ≠ 0 →
  kmalloc THREAD_STACK_SIZE h1 = Some (b, h2) → b ≠ 0 →
  ∃ s', thread_create entry arg s = Some (t, s') ∧ s_heap s' = h2 ∧
    sched_rep s' e0 (mk_entry t (entry_context (b + THREAD_STACK_SIZE) entry arg)
                       b (b + THREAD_STACK_SIZE) :: L).
Proof.
  intros Hr E1 Ht0 E2 Hb0. pose proof Hr as [Hnd Hring Hen Hcpu Hpark Hroom Hdis (AL & Hh & Hown)].
  pose proof (sr_current _ _ _ Hr) as Hcur. pose proof frame_size_bound as HF.
  destruct (thread_memory _ _ (e0 :: L) _ _ _ _ (entry_context (b + THREAD_STACK_SIZE) entry arg) Hh E1 Ht0 E2 Hb0)
    as (AL2 & Hh2 & Hpos & Hend & Hnew & Hold).
  { intros e He. split; [by apply Hown|]. exact (in_stack_lt _ _ (Hroom e He)). }
  unfold thread_create. rewrite E1. simpl. rewrite (proj2 (Z.eqb_neq _ _)), E2 by done. simpl.
  rewrite u64_id by (unfold in_u, THREAD_STACK_SIZE in *; lia).
  destruct (init_stack_frame (b + THREAD_STACK_SIZE) entry arg (mem s)) as (m & -> & Hf & Hout).
  destruct Hring as (_ & c & Hc & Hs). rewrite Hcur in Hs. rewrite Hcur, Hc. simpl.
  eexists. split; [done|]. split; [done|].
  assert (t ∉ (e_addr <$> e0 :: L)) as Hnt.
  { intros (e & -> & He)%list_elem_of_fmap. by apply (Hold e He). }
  apply NoDup_cons in Hnd as Hnd'. destruct Hnd' as [Hn0 HndL].
  split; simpl; [| |done|done| | | |].
  - rewrite fmap_cons in Hnt. constructor; [|constructor; set_solver].
    rewrite elem_of_cons. intros [E|Hin]; [apply Hnt; rewrite E; left|done].
  - apply link_ring; [|done|done|done|done]. split; [done|]. by exists c.
  - intros e [->|He]%elem_of_cons.
    + eexists. simpl. rewrite lookup_insert_ne, lookup_insert_eq by set_solver. done.
    + destruct (Hpark e He) as (te & Hte & Hfe). destruct (Hold e ltac:(by right)) as (_ & ? & ?).
      assert (e_addr e0 ≠ e_addr e) by (intros E; apply Hn0; rewrite E; by apply list_elem_of_fmap_2).
      exists te. rewrite !lookup_insert_ne by auto. split; [done|].
      apply (frame_ext (mem s)); [|done]. pose proof (frame_sp _ _ _ Hfe).
      destruct (Hroom e ltac:(by right)). intros x Hx. apply Hout. unfold THREAD_STACK_SIZE in *. lia.
  - intros e. rewrite !elem_of_cons. intros [->|[->|He]]; [apply Hroom; left| |apply Hroom; by right].
    unfold in_stack. simpl. rewrite entry_context_sp. unfold THREAD_STACK_SIZE. lia.
  - assert (∀ e, e ∈ e0 :: L → e_hi e <= b ∨ b + THREAD_STACK_SIZE <= e_lo e) as Hapart by (intros; by apply Hold).
    intros e e' He He' Hne. rewrite (Permutation_swap _ e0) in He, He'.
    apply elem_of_cons in He as [->|He], He' as [->|He']; simpl; [done|..|by apply Hdis].
    + destruct (Hapart _ He'); lia.
    + destruct (Hapart _ He); lia.
  - exists AL2. split; [done|]. intros e. rewrite (Permutation_swap _ e0).
    intros [->|He]%elem_of_cons; [done|by apply Hold].
Qed.

(** The boot context becomes thread 0. *)
Lemma sched_init_rep s AL t h1 lo hi :
  heap_rep (s_heap s) AL → kmalloc sizeof_thread (s_heap s) = Some (t, h1) → t ≠ 0 →
  lo + frame_size <= c_sp (cpu s) <= hi →
  (∀ x, lo <= x < hi → x / PAGE ∉ fa_managed (frames (s_heap s))) →
  ∃ s', sched_init s = Some s' ∧ s_heap s' = h1 ∧ cpu s' = cpu s ∧ mem s' = mem s ∧
    sched_rep s' (mk_entry t (cpu s) lo hi) [].
Proof.
  intros Hh E Ht Hsp Hboot. unfold sched_init. rewrite E. simpl. rewrite (proj2 (Z.eqb_neq _ _)) by done.
  assert (0 < sizeof_thread < 2 ^ 63 - 8) as B1 by (unfold sizeof_thread; lia).
  destruct (kmalloc_ok _ _ _ _ _ Hh B1 E Ht) as (AL1 & Hh1 & Ha).
  pose proof (kmalloc_managed _ _ _ _ _ Hh B1 E) as Hm.
  eexists. split; [done|]. do 3 (split; [done|]). split; simpl; try done.
  - apply NoDup_singleton.
  - split; [done|]. eexists. by rewrite lookup_insert_eq.
  - set_solver.
  - by intros e ->%list_elem_of_singleton.
  - by intros e e' ->%list_elem_of_singleton ->%list_elem_of_singleton.
  - exists AL1. split; [done|]. intros e ->%list_elem_of_singleton.
    destruct Ha as (_ & _ & _ & n & _ & Hl). split; simpl; [exists n; apply Hl; auto|].
    right. by rewrite Hm.
Qed.

(** ** Time slices *)

(** One time slice: the running thread computes (its context becomes [c] and memory
    [m]), then the timer ticks and the thread goes to the end of the queue. *)
Inductive slice : sched St R * list entry → sched St R * list entry → Prop :=
  | slice_intro s e0 L c m s' :
      in_stack e0 c →
      (∀ e x, e ∈ L → e_lo e <= x < e_hi e → m x = mem s x) →
      sched_tick (running s c m) = Some s' →
      slice (s, e0 :: L) (s', rot1 (with_ctx e0 c :: L)).

Definition ring_rep (c : sched St R * list entry) : Prop :=
  ∃ e0 L, c.2 = e0 :: L ∧ sched_rep c.1 e0 L.

Lemma tick_rep s e0 L c m :
  sched_rep s e0 L → in_stack e0 c →
  (∀ e x, e ∈ L → e_lo e <= x < e_hi e → m x = mem s x) →
  ∃ s', sched_tick (running s c m) = Some s' ∧ ring_rep (s', rot1 (with_ctx e0 c :: L)).
Proof.
  intros Hr Hc Hm. pose proof (running_rep _ _ _ _ _ Hr Hc Hm) as Hr'.
  unfold sched_tick. rewrite (sr_enabled _ _ _ Hr'). simpl. destruct L as [|e1 L].
  - exists (running s c m). split; [by apply (yield_alone _ (with_ctx e0 c))|].
    by exists (with_ctx e0 c), [].
  - destruct (yield_rep _ _ _ _ Hr') as (s' & E & Hr2 & _). exists s'. split; [done|]. by exists e1, (L ++ [with_ctx e0 c]).
Qed.

Lemma slice_rep c c' :
  slice c c' → ring_rep c → ring_rep c' ∧ (e_addr <$> c'.2) = rot1 (e_addr <$> c.2).
Proof.
  intros [s e0 L cc m s' Hc Hm E] (e0' & L' & Heq & Hr). simpl in *. simplify_eq.
  destruct (tick_rep _ _ _ _ _ Hr Hc Hm) as (s2 & E2 & Hr2). simplify_eq. split; [done|].
  by rewrite fmap_app.
Qed.

Lemma slices_rep n c c' :
  nsteps slice n c c' → ring_rep c → ring_rep c' ∧ (e_addr <$> c'.2) = Nat.iter n rot1 (e_addr <$> c.2).
Proof.
  revert c. induction n as [|n IH]; intros c Hn Hr.
  - inversion Hn; subst. done.
  - inversion Hn as [|? ? c1 ? H1 H2]; subst. destruct (slice_rep _ _ H1 Hr) as [Hr1 E1].
    destruct (IH _ H2 Hr1) as [Hr2 E2]. split; [done|].
    rewrite E2, E1, <- Nat.iter_succ_r. done.
Qed.

(** ** Properties *)

(** C8: round robin, on either architecture.  With the threads of [L] in the ring
    (the head running), after [n] timer ticks with arbitrary computation in between
    (each thread staying inside its own stack) the running thread is number [n]
    modulo the number of threads: every thread runs once in each round.  It runs
    with exactly the context it was suspended with (the one its entry records), and
    the next slice can always be taken. *)
Theorem sched_round_robin s e0 L n s' L' :
  sched_rep s e0 L → nsteps slice n (s, e0 :: L) (s', L') →
  ∃ e' W, L' = e' :: W ∧
    (e_addr <$> e0 :: L) !! (n mod length (e0 :: L))%nat = Some (sched_current s') ∧
    sched_current s' = e_addr e' ∧ cpu s' = e_ctx e' ∧
    ∀ c m, in_stack e' c → (∀ e x, e ∈ W → e_lo e <= x < e_hi e → m x = mem s' x) →
      ∃ s2, slice (s', L') (s2, rot1 (with_ctx e' c :: W)).
Proof.
  intros Hr Hn. destruct (slices_rep _ _ _ Hn) as [(e' & W & EL & Hr') Eaddr]; [by exists e0, L|].
  simpl in EL, Hr'. subst L'. exists e', W. pose proof (sr_current _ _ _ Hr') as Hcur. split_and!.
  - done.
  - pose proof (iter_rot1_lookup n (e_addr <$> e0 :: L) 0) as El.
    rewrite length_fmap in El. simpl (0 + n)%nat in El. rewrite <- El by (simpl; lia).
    change (e_addr <$> (s, e0 :: L).2) with (e_addr <$> e0 :: L) in Eaddr. rewrite <- Eaddr.
    simpl. unfold sched_current. by rewrite Hcur.
  - done.
  - apply Hr'.
  - intros c m Hc Hm. destruct (tick_rep _ _ _ _ _ Hr' Hc Hm) as (s2 & E & _).
    exists s2. by apply slice_intro with m.
Qed.

(** Thread_create with memory available returns a thread that is next in the
    ring: the following tick enters it at the trampoline, with [entry] and [arg] and a
    16 KB stack of its own from the heap, and parks the creator. *)
Lemma thread_create_runs_next s e0 L entry arg t h1 b h2 :
  sched_rep s e0 L →
  kmalloc sizeof_thread (s_heap s) = Some (t, h1) → t ≠ 0 →
  kmalloc THREAD_STACK_SIZE h1 = Some (b, h2) → b ≠ 0 →
  ∃ s1 s2, thread_create entry arg s = Some (t, s1) ∧ sched_current s1 = sched_current s ∧
    sched_tick s1 = Some s2 ∧ sched_current s2 = t ∧
    cpu s2 = entry_context (b + THREAD_STACK_SIZE) entry arg ∧
    sched_rep s2 (mk_entry t (entry_context (b + THREAD_STACK_SIZE) entry arg) b
                    (b + THREAD_STACK_SIZE)) (L ++ [e0]).
Proof.
  intros Hr E1 Ht E2 Hb. destruct (thread_create_rep _ _ _ entry arg _ _ _ _ Hr E1 Ht E2 Hb)
    as (s1 & Ec & _ & Hr1). destruct (yield_rep _ _ _ _ Hr1) as (s2 & Ey & Hr2 & _).
  exists s1, s2. unfold sched_tick, sched_current.
  rewrite (sr_enabled _ _ _ Hr1), (sr_current _ _ _ Hr1), (sr_current _ _ _ Hr).
  split_and!; try done.
  - apply (sr_current _ _ _ Hr2).
  - apply Hr2.
Qed.

(** C30: thread_exit of a thread that is not alone finds the predecessor, unlinks the
    thread and continues the next thread with the context it was suspended with; the
    dead thread is no longer in the ring, so it never runs again. *)
Theorem thread_exit_unlinks s e0 e1 L :
  sched_rep s e0 (e1 :: L) →
  ∃ s', thread_exit s = Some s' ∧ sched_rep s' e1 L ∧ cpu s' = e_ctx e1 ∧
    (e_addr e0 ∉ (e_addr <$> e1 :: L)) ∧ th_state <$> threads s' !! e_addr e0 = Some THREAD_DEAD.
Proof.
  intros Hr. destruct (thread_exit_rep _ _ _ _ Hr) as (s' & E & Hr' & _ & Hst).
  exists s'. split_and!; [done|done|apply Hr'| |done].
  pose proof (sr_nodup _ _ _ Hr) as Hnd. by inversion Hnd.
Qed.

(** Thread_exit of the only thread marks it dead and switches to it again, from
    the stack pointer of its last suspension (NULL for the boot thread if it was
    never suspended), not the one just saved. *)
Lemma thread_exit_of_last_thread s e0 t :
  sched_rep s e0 [] → threads s !! sched_current s = Some t →
  ∃ s' sp c m, arch_context_switch (cpu s) (th_sp t) (mem s) = (sp, c, m) ∧
    thread_exit s = Some s' ∧ cpu s' = c ∧ sched_current s' = sched_current s ∧
    th_state <$> threads s' !! sched_current s' = Some THREAD_DEAD.
Proof.
  intros Hr. unfold sched_current, thread_exit. destruct (sr_ring _ _ _ Hr) as (Hc & t0 & Ht0 & Hn).
  simpl in Hn. intros Ht. rewrite Ht. simpl. rewrite <- Hc in *. assert (t0 = t) as -> by congruence.
  set (ts1 := <[current s := with_state t THREAD_DEAD]> (threads s)).
  assert (ts1 !! current s = Some (with_state t THREAD_DEAD)) as Ht1 by apply lookup_insert_eq.
  assert (find_pred (size ts1) ts1 (current s) (current s) = Some (current s)) as ->.
  { destruct (size ts1); simpl; rewrite Ht1; simpl; by rewrite Hn, Z.eqb_refl. }
  simpl. rewrite Ht1. simpl. rewrite Hn, lookup_insert_eq. simpl. unfold do_switch. simpl.
  rewrite lookup_insert_eq. simpl.
  destruct (arch_context_switch (cpu s) (th_sp t) (mem s)) as [[sp c] m] eqn:E.
  eexists _, sp, c, m. split_and!; [done|done|done|done|]. simpl. by rewrite lookup_insert_eq.
Qed.
End proofs.

(** ** Witnesses: the boot thread and one more, on x86_64 *)

#[local] Instance example_ops : SwitchOps regs_x86 := switch_ops_x86 0x77.
#[local] Instance example_laws : SwitchLaws regs_x86 := switch_laws_x86 0x77.

Definition boot_cpu : context regs_x86 := mk_context (mk_regs_x86 0 0 0 0 0 0) 0x40000 0xC0DE.
Definition boot_sched : sched pmm regs_x86 :=
  mk_sched ∅ 0 0 false example_heap boot_cpu (λ _, 0).
Definition boot_entry : entry := mk_entry 0x1030 boot_cpu 0x3F000 0x40000.
Definition second_entry : entry :=
  mk_entry 0x1078 (entry_context_x86 0x77 0x50C0 0xEE 0xA6) 0x10C0 0x50C0.

Definition heap_after (sz : Z) (h : heap pmm) : heap pmm :=
  match kmalloc sz h with Some (_, h) => h | None => h end.

Lemma example_kmallocs :
  let h1 := heap_after sizeof_thread example_heap in
  let h2 := heap_after sizeof_thread h1 in
  kmalloc sizeof_thread example_heap = Some (0x1030, h1) ∧
  kmalloc sizeof_thread h1 = Some (0x1078, h2) ∧
  kmalloc THREAD_STACK_SIZE h2 = Some (0x10C0, heap_after THREAD_STACK_SIZE h2).
Proof. split_and!; by vm_compute. Qed.

Lemma boot_example :
  ∃ s, sched_init boot_sched = Some s ∧ s_heap s = heap_after sizeof_thread example_heap ∧
    sched_rep s boot_entry [].
Proof.
  destruct (heap_init_rep example_frames example_frames_wf) as (AL & Hr & _).
  destruct (sched_init_rep boot_sched AL 0x1030 _ 0x3F000 0x40000 Hr (proj1 example_kmallocs))
    as (s & E & Eh & Ec & _ & Hs).
  - lia.
  - simpl. lia.
  - intros x Hx. change (fa_managed (frames (s_heap boot_sched))) with (frame_range 0 40).
    rewrite elem_of_frame_range. unfold PAGE. div_lia.
  - exists s. split; [exact E|]. split; [exact Eh|exact Hs].
Qed.

Lemma two_threads_example :
  ∃ s, sched_rep s boot_entry [second_entry].
Proof.
  destruct boot_example as (s & _ & Eh & Hs).
  destruct (thread_create_rep s boot_entry [] 0xEE 0xA6 0x1078
    (heap_after sizeof_thread (s_heap s)) 0x10C0
    (heap_after THREAD_STACK_SIZE (heap_after sizeof_thread (s_heap s))) Hs)
    as (s2 & _ & _ & Hs2); rewrite ?Eh; try exact (proj1 (proj2 example_kmallocs));
    try exact (proj2 (proj2 example_kmallocs)); try discriminate.
  by exists s2.
Qed.

Lemma sched_round_robin_witness :
  ∃ s s', sched_rep s boot_entry [second_entry] ∧ sched_current s = 0x1030 ∧
    sched_tick s = Some s' ∧ sched_current s' = 0x1078.
Proof.
  destruct two_threads_example as (s & Hr). pose proof (sr_current _ _ _ Hr) as Hcur.
  pose proof (sr_cpu _ _ _ Hr) as Hcpu.
  assert (in_stack boot_entry boot_cpu) as Hin by (unfold in_stack; simpl; lia).
  destruct (tick_rep s _ _ (cpu s) (mem s) Hr) as (s' & E & _); [by rewrite Hcpu|done|].
  assert (running s (cpu s) (mem s) = s) as Hrun by (by destruct s).
  destruct (sched_round_robin s boot_entry [second_entry] 1 s'
    (rot1 (with_ctx boot_entry (cpu s) :: [second_entry])) Hr) as (e' & W & _ & Hn & _).
  { apply nsteps_once, slice_intro with (mem s); [by rewrite Hcpu|done|done]. }
  exists s, s'. rewrite Hrun in E. split_and!; [done|done|done|]. simpl in Hn. congruence.
Defined.

Lemma thread_create_runs_next_witness :
  ∃ s s1 s2, sched_init boot_sched = Some s ∧ thread_create 0xEE 0xA6 s = Some (0x1078, s1) ∧
    sched_tick s1 = Some s2 ∧ r12 (c_regs (cpu s2)) = 0xEE ∧ c_sp (cpu s2) = 0x50C0.
Proof.
  destruct boot_example as (s & E & Eh & Hs).
  destruct (thread_create_runs_next s boot_entry [] 0xEE 0xA6 0x1078
    (heap_after sizeof_thread (s_heap s)) 0x10C0
    (heap_after THREAD_STACK_SIZE (heap_after sizeof_thread (s_heap s))) Hs)
    as (s1 & s2 & Hc & _ & Ht & _ & Hcpu & _); rewrite ?Eh; try exact (proj1 (proj2 example_kmallocs));
    try exact (proj2 (proj2 example_kmallocs)); try discriminate.
  exists s, s1, s2. split; [exact E|]. split; [exact Hc|]. split; [exact Ht|]. rewrite Hcpu. split; reflexivity.
Defined.

Lemma thread_exit_unlinks_witness :
  ∃ s s', sched_rep s boot_entry [second_entry] ∧ thread_exit s = Some s' ∧
    sched_rep s' second_entry [].
Proof.
  destruct two_threads_example as (s & Hr).
  destruct (thread_exit_unlinks s boot_entry second_entry [] Hr) as (s' & E & Hr' & _). eauto.
Defined.

Lemma thread_exit_of_last_thread_witness :
  ∃ s s', sched_init boot_sched = Some s ∧ thread_exit s = Some s' ∧
    sched_current s' = 0x1030 ∧ th_state <$> threads s' !! 0x1030 = Some THREAD_DEAD.
Proof.
  destruct boot_example as (s & E & _ & Hr). pose proof (sr_current _ _ _ Hr) as Hcur.
  destruct (sr_ring _ _ _ Hr) as (Hc & t & Ht & _).
  destruct (thread_exit_of_last_thread s boot_entry t Hr) as (s' & sp & c & m & _ & E' & _ & Hcs & Hd).
  { unfold sched_current. by rewrite Hcur. }
  exists s, s'. split; [exact E|]. split; [exact E'|]. unfold sched_current in *. rewrite Hcs, Hcur in *.
  split; [reflexivity|exact Hd].
Defined.
