(* ===== verification/Vfs.v ===== *)
(** * The filesystem: fs/vfs.c, and the image builder tools/mkfs.py

    Bytes are integers in [0, 256), a sector is a list of 512 of them.  The disk is
    the pair of functions of arch.h: [disk_available] and [read_sector], which gives
    the sector or fails.  [None] is an access outside an object (a buffer that is
    too short, a name that runs past its sector). *)

From S2P Require Import Prelude.

(** ** Data *)

Definition MKFS_MAGIC : Z := 0x4D4B4653.
Definition SECTOR_SIZE : Z := 512.
Definition DIR_ENTRY_SIZE : Z := 64.
Definition ENTRIES_PER_SECTOR : Z := SECTOR_SIZE / DIR_ENTRY_SIZE.
Definition NAME_LEN : Z := 32.

Record superblock := mk_superblock {
  sb_magic : Z;
  sb_file_count : Z;
  sb_dir_start_sector : Z;
  sb_data_start_sector : Z
}.

(** A little-endian 32-bit field of a packed structure. *)
Definition le32 (l : list Z) (off : Z) : Z :=
  zget l off + 2 ^ 8 * zget l (off + 1) + 2 ^ 16 * zget l (off + 2) + 2 ^ 24 * zget l (off + 3).

Definition read_superblock (sector : list Z) : superblock :=
  mk_superblock (le32 sector 0) (le32 sector 4) (le32 sector 8) (le32 sector 12).

(** The fields of the directory entry at byte [off] of a sector. *)
Definition dirent_name (sector : list Z) (off : Z) : list Z := drop (Z.to_nat off) sector.
Definition dirent_start_sector (sector : list Z) (off : Z) : Z := le32 sector (off + NAME_LEN).
Definition dirent_size_bytes (sector : list Z) (off : Z) : Z := le32 sector (off + NAME_LEN + 4).

Record vfs := mk_vfs { available : bool; sb : superblock }.
Definition vfs_reset : vfs := mk_vfs false (mk_superblock 0 0 0 0).

(** Strings are the bytes from a [char *] to the end of the object it points into. *)
Fixpoint str_eq (a b : list Z) : option bool :=
  match a, b with
  | x :: a', y :: b' =>
      if truth x && truth y then (if negb (x =? y) then Some false else str_eq a' b')
      else Some (x =? y)
  | _, _ => None
  end.

(** [dst[i] = v], inside the buffer. *)
Definition store (dst : list Z) (i v : Z) : option (list Z) :=
  if (0 <=? i) && (i <? Z.of_nat (length dst)) then Some (zset dst i v) else None.

(** [for (b = 0; b < chunk; b++) dst[copied + b] = tmp[b]]. *)
Fixpoint copy_bytes (n : nat) (b : Z) (tmp : list Z) (copied : Z) (dst : list Z) : option (list Z) :=
  match n with
  | O => Some dst
  | S n => v ← tmp !! Z.to_nat b;
           dst ← store dst (u32 (copied + b)) v;
           copy_bytes n (b + 1) tmp copied dst
  end.

Section vfs.
Variable disk_available : bool.
Variable read_sector : Z → option (list Z).

(** ** Operations *)

Definition vfs_init (v : vfs) : vfs :=
  if negb disk_available then v else
  match read_sector 0 with
  | None => v
  | Some sector =>
      let raw := read_superblock sector in
      if negb (sb_magic raw =? MKFS_MAGIC) then v else mk_vfs true raw
  end.

Definition vfs_available (v : vfs) : bool := available v.

(** The loop over the sectors of the file; the result is whether every read
    succeeded, and the buffer. *)
Fixpoint read_data (fuel : nat) (start sectors_needed to_copy s copied : Z) (dst : list Z) :
    option (bool * list Z) :=
  if (s <? sectors_needed) && (copied <? to_copy) then
    match fuel with
    | O => None
    | S fuel =>
        match read_sector (u32 (start + s)) with
        | None => Some (false, dst)
        | Some tmp =>
            let chunk := u32 (to_copy - copied) in
            let chunk := if SECTOR_SIZE <? chunk then SECTOR_SIZE else chunk in
            dst ← copy_bytes (Z.to_nat chunk) 0 tmp copied dst;
            read_data fuel start sectors_needed to_copy (u32 (s + 1)) (u32 (copied + chunk)) dst
        end
    end
  else Some (true, dst).

(** The result of a read: the value returned, the caller's buffer and [*out_size]
    ([None] for a NULL [out_size]). *)
Definition read_result : Type := bool * list Z * option Z.

Definition read_found (sector : list Z) (off : Z) (buf : list Z) (buf_size : Z) (out_size : option Z) :
    option read_result :=
  let size := dirent_size_bytes sector off in
  let to_copy := if size <? buf_size then size else buf_size in
  let sectors_needed := u32 (size + SECTOR_SIZE - 1) / SECTOR_SIZE in
  '(ok, buf) ← read_data (Z.to_nat sectors_needed) (dirent_start_sector sector off)
                 sectors_needed to_copy 0 0 buf;
  if negb ok then Some (false, buf, out_size) else Some (true, buf, (λ _, size) <$> out_size).

(** The loop over the entries of one directory sector. *)
Definition scan_body (sector name buf : list Z) (buf_size : Z) (out_size : option Z)
    (i : Z) (_ : unit) : ctl unit (option read_result) :=
  let off := i * DIR_ENTRY_SIZE in
  match str_eq (dirent_name sector off) name with
  | None => Return None
  | Some false => Continue ()
  | Some true => Return (read_found sector off buf buf_size out_size)
  end.

(** The loop over the directory sectors. *)
Fixpoint dir_loop (fuel : nat) (remaining dir_sector : Z) (name buf : list Z) (buf_size : Z)
    (out_size : option Z) : option read_result :=
  if 0 <? remaining then
    match fuel with
    | O => None
    | S fuel =>
        match read_sector dir_sector with
        | None => Some (false, buf, out_size)
        | Some sector =>
            let n := if remaining <? ENTRIES_PER_SECTOR then remaining else ENTRIES_PER_SECTOR in
            match for_ret 0 n (scan_body sector name buf buf_size out_size) () with
            | Return r => r
            | Continue _ =>
                dir_loop fuel (remaining - n) (u32 (dir_sector + 1)) name buf buf_size out_size
            end
        end
    end
  else Some (false, buf, out_size).

Definition vfs_read_file (v : vfs) (name buf : list Z) (buf_size : Z) (out_size : option Z) :
    option read_result :=
  if negb (available v) then Some (false, buf, out_size) else
  dir_loop (Z.to_nat (sb_file_count (sb v))) (sb_file_count (sb v)) (sb_dir_start_sector (sb v))
    name buf buf_size out_size.

End vfs.

(** ** tools/mkfs.py *)

(** [struct.pack("<I", x)]. *)
Definition pack32 (x : Z) : list Z := [x mod 256; x / 2 ^ 8 mod 256; x / 2 ^ 16 mod 256; x / 2 ^ 24 mod 256].
Definition zeros (n : Z) : list Z := replicate (Z.to_nat n) 0.
Definition ljust (n : Z) (l : list Z) : list Z := l ++ zeros (n - Z.of_nat (length l)).
Definition sectors_of (n : Z) : Z := (n + SECTOR_SIZE - 1) / SECTOR_SIZE.

Record file := mk_file { f_name : list Z; f_data : list Z }.

(** [entries], with the cursor of the loop: each name is cut to 31 bytes. *)
Fixpoint mkfs_entries (cursor : Z) (fs : list file) : list (list Z * Z * Z) :=
  match fs with
  | [] => []
  | f :: fs =>
      (take 31 (f_name f), cursor, Z.of_nat (length (f_data f))) ::
      mkfs_entries (cursor + sectors_of (Z.of_nat (length (f_data f)))) fs
  end.

Definition pack_entry (e : list Z * Z * Z) : list Z :=
  let '(name, start, size) := e in
  ljust DIR_ENTRY_SIZE (ljust NAME_LEN name ++ pack32 start ++ pack32 size).

Definition pad_data (data : list Z) : list Z :=
  data ++ zeros ((- Z.of_nat (length data)) mod SECTOR_SIZE).

Definition mkfs (fs : list file) : list Z :=
  let file_count := Z.of_nat (length fs) in
  let dir_sectors := sectors_of (file_count * DIR_ENTRY_SIZE) in
  let dir_start := 1 in
  let data_start := dir_start + dir_sectors in
  let dir_bytes := concat (pack_entry <$> mkfs_entries data_start fs) in
  ljust SECTOR_SIZE (pack32 MKFS_MAGIC ++ pack32 file_count ++ pack32 dir_start ++ pack32 data_start) ++
  ljust (dir_sectors * SECTOR_SIZE) dir_bytes ++
  concat (pad_data ∘ f_data <$> fs).

(** The image as a disk: sectors of the image can be read, others not. *)
Definition image_sector (img : list Z) (lba : Z) : option (list Z) :=
  if lba * SECTOR_SIZE + SECTOR_SIZE <=? Z.of_nat (length img)
  then Some (take 512 (drop (Z.to_nat (lba * SECTOR_SIZE)) img)) else None.

Example mkfs_small :
  let fs := [mk_file [104; 105] [1; 2; 3]; mk_file [120] (replicate 600 7)] in
  let disk := image_sector (mkfs fs) in
  let v := vfs_init true disk vfs_reset in
  vfs_read_file disk v [104; 105; 0] (replicate 5 9) 5 (Some 0) = Some (true, [1; 2; 3; 9; 9], Some 3) ∧
  vfs_read_file disk v [104; 0] (replicate 5 9) 5 (Some 0) = Some (false, replicate 5 9, Some 0) ∧
  length (mkfs fs) = 2560%nat.
Proof. by vm_compute. Qed.

(** ** Lemmas on the loops *)

(** Comparing two NUL-terminated strings compares the bytes before the NULs. *)
Lemma str_eq_spec a b r r' :
  0 ∉ a → 0 ∉ b → str_eq (a ++ 0 :: r) (b ++ 0 :: r') = Some (bool_decide (a = b)).
Proof.
  revert b. induction a as [|x a IH]; intros [|y b] Ha Hb.
  - done.
  - rewrite not_elem_of_cons in Hb. simpl. destruct y; [naive_solver|done|done].
  - simpl. rewrite not_elem_of_cons in Ha. replace (truth x && truth 0) with false by (by destruct (truth x)).
    rewrite (proj2 (Z.eqb_neq x 0)) by naive_solver. done.
  - rewrite not_elem_of_cons in Ha, Hb. simpl.
    rewrite (proj2 (truth_nonzero x)), (proj2 (truth_nonzero y)) by naive_solver. simpl.
    destruct (Z.eqb_spec x y) as [->|Hne]; simpl.
    + rewrite IH by tauto. f_equal. apply bool_decide_ext. naive_solver.
    + rewrite bool_decide_eq_false_2; [done|]. naive_solver.
Qed.

Lemma copy_bytes_spec n b tmp c dst :
  (b + n <= length tmp)%nat → (c + b + n <= length dst)%nat → Z.of_nat (length dst) < 2 ^ 32 →
  copy_bytes n (Z.of_nat b) tmp (Z.of_nat c) dst =
    Some (take (c + b) dst ++ take n (drop b tmp) ++ drop (c + b + n) dst).
Proof.
  revert b dst. induction n as [|n IH]; intros b dst Hb Hd Hlen; cbn [copy_bytes].
  { rewrite take_0, Nat.add_0_r. simpl. by rewrite take_drop. }
  destruct (lookup_lt_is_Some_2 tmp b) as [v Hv]; [lia|]. rewrite Nat2Z.id, Hv. simpl.
  rewrite u32_id by (unfold in_u; lia). unfold store.
  replace ((0 <=? Z.of_nat c + Z.of_nat b) && (Z.of_nat c + Z.of_nat b <? Z.of_nat (length dst)))
    with true by (symmetry; apply andb_true_iff; split; [apply Z.leb_le|apply Z.ltb_lt]; lia).
  simpl. replace (Z.of_nat b + 1) with (Z.of_nat (S b)) by lia. rewrite IH by (rewrite ?zset_length; lia).
  f_equal. unfold zset. replace (Z.to_nat (Z.of_nat c + Z.of_nat b)) with (c + b)%nat by lia.
  replace (c + S b)%nat with (S (c + b)) by lia. rewrite (drop_S _ _ _ Hv). cbn [take].
  rewrite insert_take_drop by lia.
  assert (length (take (c + b) dst) = (c + b)%nat) as El by (rewrite length_take; lia).
  rewrite take_app, drop_app, !El, take_ge, (drop_ge (take _ _)) by lia.
  replace (S (c + b) - (c + b))%nat with 1%nat by lia.
  replace (S (c + b) + n - (c + b))%nat with (S n) by lia. cbn [take drop].
  rewrite <- app_assoc. simpl. rewrite drop_drop. do 4 f_equal. simpl. do 2 f_equal. lia.
Qed.

Lemma sectors_of_bounds n : 0 <= n → 512 * sectors_of n - 512 < n <= 512 * sectors_of n.
Proof. intros. unfold sectors_of, SECTOR_SIZE. div_lia. Qed.

(** ** A disk that holds files *)

Section spec.
Variable read_sector : Z → option (list Z).

(** Sectors [start ..] hold the bytes of [data]. *)
Definition data_at (start : Z) (data : list Z) : Prop :=
  ∀ s : nat, Z.of_nat s < sectors_of (Z.of_nat (length data)) →
  ∃ sec, read_sector (u32 (start + Z.of_nat s)) = Some sec ∧
    (length sec = 512)%nat ∧ ∃ rest, sec = take 512 (drop (512 * s) data) ++ rest.

(** The directory entry at [off] of a sector describes the file [f]. *)
Definition entry_at (sector : list Z) (off : Z) (f : file) : Prop :=
  (∃ rest, dirent_name sector off = f_name f ++ 0 :: rest) ∧ (0 ∉ f_name f) ∧
  dirent_size_bytes sector off = Z.of_nat (length (f_data f)) ∧
  Z.of_nat (length (f_data f)) <= 2 ^ 32 - SECTOR_SIZE ∧
  data_at (dirent_start_sector sector off) (f_data f).

Definition disk_holds (b : superblock) (fs : list file) : Prop :=
  sb_file_count b = Z.of_nat (length fs) ∧ Z.of_nat (length fs) < 2 ^ 32 ∧
  in_u 32 (sb_dir_start_sector b) ∧
  ∀ j, 8 * j < Z.of_nat (length fs) → 0 <= j → ∃ sector,
    read_sector (u32 (sb_dir_start_sector b + j)) = Some sector ∧
    ∀ (i : nat) f, (i < 8)%nat → fs !! (Z.to_nat (8 * j) + i)%nat = Some f →
      entry_at sector (Z.of_nat i * DIR_ENTRY_SIZE) f.

(** Reading the data: the first [to_copy] bytes of the buffer become those of the
    file, the rest is untouched. *)
Lemma read_data_spec fuel start data buf (tc s : nat) :
  data_at start data → Z.of_nat (length data) <= 2 ^ 32 - 512 → (tc <= length data)%nat →
  (tc <= length buf)%nat → Z.of_nat (length buf) < 2 ^ 32 →
  (Z.to_nat (sectors_of (Z.of_nat (length data))) <= s + fuel)%nat →
  let c := Nat.min (512 * s) tc in
  read_data read_sector fuel start (sectors_of (Z.of_nat (length data))) (Z.of_nat tc)
    (Z.of_nat s) (Z.of_nat c) (take c data ++ drop c buf) =
  Some (true, take tc data ++ drop tc buf).
Proof.
  intros Hdata Hsz Htc Hbuf Hlen. revert s. induction fuel as [|fuel IH]; intros s Hf c.
  - pose proof (sectors_of_bounds (Z.of_nat (length data)) ltac:(lia)). simpl.
    rewrite (proj2 (Z.ltb_ge (Z.of_nat s) _)) by lia. simpl.
    assert (c = tc) as -> by (unfold c; lia). done.
  - pose proof (sectors_of_bounds (Z.of_nat (length data)) ltac:(lia)) as Hb. cbn [read_data].
    destruct (Z.ltb_spec (Z.of_nat c) (Z.of_nat tc)) as [Hc|Hc]; simpl.
    2:{ rewrite andb_false_r. assert (c = tc) as -> by (unfold c in *; lia). done. }
    assert (c = 512 * s)%nat as Ec by (unfold c in *; lia).
    rewrite (proj2 (Z.ltb_lt (Z.of_nat s) _)) by lia. simpl.
    destruct (Hdata s) as (sec & -> & Hsl & rest & Hsec); [lia|].
    rewrite (u32_id (Z.of_nat tc - Z.of_nat c)) by (unfold in_u; lia).
    set (n := Nat.min 512 (tc - c)).
    replace (if SECTOR_SIZE <? Z.of_nat tc - Z.of_nat c then SECTOR_SIZE else Z.of_nat tc - Z.of_nat c)
      with (Z.of_nat n).
    2:{ unfold SECTOR_SIZE, n. destruct (Z.ltb_spec 512 (Z.of_nat tc - Z.of_nat c)); lia. }
    rewrite Nat2Z.id. pose proof (copy_bytes_spec n 0 sec c (take c data ++ drop c buf)) as Hcp.
    rewrite length_app, length_take, length_drop in Hcp. change (Z.of_nat 0) with 0 in Hcp.
    rewrite Hcp by lia. simpl.
    rewrite (u32_id (Z.of_nat s + 1)), (u32_id (Z.of_nat c + Z.of_nat n)) by (unfold in_u; lia).
    replace (Z.of_nat s + 1) with (Z.of_nat (S s)) by lia.
    replace (Z.of_nat c + Z.of_nat n) with (Z.of_nat (c + n)) by lia.
    specialize (IH (S s) ltac:(lia)). cbv zeta in IH.
    replace (Nat.min (512 * S s) tc) with (c + n)%nat in IH by lia. rewrite <- IH. f_equal.
    rewrite Nat.add_0_r, drop_0, (take_app_length' (take c data)) by (rewrite length_take; lia).
    rewrite drop_app, (drop_ge (take c data)), length_take, drop_drop by (rewrite length_take; lia).
    rewrite app_nil_l. replace (c + (c + n - Nat.min c (length data)))%nat with (c + n)%nat by lia.
    rewrite app_assoc. f_equal. rewrite <- (take_take_drop data c n). f_equal.
    rewrite Hsec, take_app_le by (rewrite length_take, length_drop; lia).
    rewrite take_take, <- Ec. f_equal. lia.
Qed.

(** The specification of a read: the first file of that name. *)
Fixpoint lookup_file (name : list Z) (fs : list file) : option file :=
  match fs with
  | [] => None
  | f :: fs => if decide (f_name f = name) then Some f else lookup_file name fs
  end.

Lemma lookup_file_app name fs gs :
  lookup_file name (fs ++ gs) =
  match lookup_file name fs with Some f => Some f | None => lookup_file name gs end.
Proof. induction fs as [|f fs IH]; simpl; [done|]. by destruct (decide _). Qed.

Definition read_spec (fs : list file) (name buf : list Z) (buf_size : Z) (out_size : option Z) :
    read_result :=
  match lookup_file name fs with
  | None => (false, buf, out_size)
  | Some f =>
      let n := Nat.min (Z.to_nat buf_size) (length (f_data f)) in
      (true, take n (f_data f) ++ drop n buf, (λ _, Z.of_nat (length (f_data f))) <$> out_size)
  end.

Section scan.
Context (name r buf : list Z) (buf_size : Z) (out_size : option Z).
Context (Hname : 0 ∉ name) (Hsize : 0 <= buf_size <= Z.of_nat (length buf))
        (Hbuf : Z.of_nat (length buf) < 2 ^ 32).

Lemma read_found_spec sector off f :
  entry_at sector off f →
  read_found read_sector sector off buf buf_size out_size =
    let n := Nat.min (Z.to_nat buf_size) (length (f_data f)) in
    Some (true, take n (f_data f) ++ drop n buf, (λ _, Z.of_nat (length (f_data f))) <$> out_size).
Proof.
  intros (_ & _ & Hsz & Hle & Hdata). unfold read_found. rewrite Hsz. unfold SECTOR_SIZE in Hle.
  rewrite u32_id by (unfold in_u, SECTOR_SIZE; lia).
  set (n := Nat.min (Z.to_nat buf_size) (length (f_data f))).
  replace (if Z.of_nat (length (f_data f)) <? buf_size then Z.of_nat (length (f_data f)) else buf_size)
    with (Z.of_nat n).
  2:{ unfold n. destruct (Z.ltb_spec (Z.of_nat (length (f_data f))) buf_size); lia. }
  fold (sectors_of (Z.of_nat (length (f_data f)))).
  pose proof (read_data_spec (Z.to_nat (sectors_of (Z.of_nat (length (f_data f)))))
    _ _ buf n 0 Hdata ltac:(lia) ltac:(lia) ltac:(lia) Hbuf ltac:(lia)) as E.
  cbv zeta in E. rewrite Nat.mul_0_r, Nat.min_0_l, take_0, drop_0 in E. simpl in E. change (Z.of_nat 0) with 0 in E.
  by rewrite E.
Qed.

(** The entries of one sector, from number [i] on. *)
Lemma scan_spec sector fs (i : nat) :
  (∀ k f, fs !! k = Some f → entry_at sector (Z.of_nat (i + k) * DIR_ENTRY_SIZE) f) →
  for_ret_n (length fs) (Z.of_nat i) (scan_body read_sector sector (name ++ 0 :: r) buf buf_size out_size) () =
  match lookup_file name fs with
  | None => Continue ()
  | Some _ => Return (Some (read_spec fs name buf buf_size out_size))
  end.
Proof.
  revert i. induction fs as [|f fs IH]; intros i He; [done|].
  pose proof (He 0%nat f eq_refl) as Hf. rewrite Nat.add_0_r in Hf.
  pose proof Hf as ((rest & Hn) & Hn0 & _). unfold read_spec. simpl.
  unfold scan_body at 1. rewrite Hn, str_eq_spec by done.
  destruct (decide (f_name f = name)) as [->|Hne].
  - rewrite bool_decide_eq_true_2 by done. by rewrite (read_found_spec _ _ _ Hf).
  - rewrite bool_decide_eq_false_2 by done. replace (Z.of_nat i + 1) with (Z.of_nat (S i)) by lia.
    rewrite IH; [done|]. intros k g Hk. replace (S i + k)%nat with (i + S k)%nat by lia. by apply He.
Qed.

Lemma dir_loop_spec dstart fs fuel j :
  0 <= j → (length fs <= fuel)%nat →
  (∀ j', 8 * j' < Z.of_nat (length fs) → 0 <= j' → ∃ sector,
    read_sector (u32 (dstart + (j + j'))) = Some sector ∧
    ∀ (i : nat) f, (i < 8)%nat → fs !! (Z.to_nat (8 * j') + i)%nat = Some f →
      entry_at sector (Z.of_nat i * DIR_ENTRY_SIZE) f) →
  dir_loop read_sector fuel (Z.of_nat (length fs)) (u32 (dstart + j)) (name ++ 0 :: r) buf buf_size out_size
  = Some (read_spec fs name buf buf_size out_size).
Proof.
  revert fs j. induction fuel as [|fuel IH]; intros fs j Hj Hf Hdir.
  { destruct fs; [done|simpl in Hf; lia]. }
  cbn [dir_loop]. destruct (Z.ltb_spec 0 (Z.of_nat (length fs))) as [Hpos|Hz].
  2:{ by destruct fs; [|simpl in Hz; lia]. }
  destruct (Hdir 0) as (sector & E & Hsec); [lia|lia|]. rewrite Z.add_0_r in E. rewrite E.
  set (n := Nat.min 8 (length fs)).
  replace (if Z.of_nat (length fs) <? ENTRIES_PER_SECTOR then Z.of_nat (length fs) else ENTRIES_PER_SECTOR)
    with (Z.of_nat n).
  2:{ change ENTRIES_PER_SECTOR with 8. destruct (Z.ltb_spec (Z.of_nat (length fs)) 8); lia. }
  unfold for_ret. rewrite Z.sub_0_r, Nat2Z.id.
  pose proof (scan_spec sector (take n fs) 0) as Hscan. rewrite length_take in Hscan.
  replace (Nat.min n (length fs)) with n in Hscan by lia. change (Z.of_nat 0) with 0 in Hscan.
  rewrite Hscan. clear Hscan.
  2:{ intros k f Hk. assert (k < n)%nat by (apply lookup_lt_Some in Hk; rewrite length_take in Hk; lia).
      rewrite lookup_take_lt in Hk by done. apply Hsec; [lia|done]. }
  assert (read_spec fs name buf buf_size out_size =
    match lookup_file name (take n fs) with
    | None => read_spec (drop n fs) name buf buf_size out_size
    | Some _ => read_spec (take n fs) name buf buf_size out_size
    end) as ->.
  { unfold read_spec. rewrite <- (take_drop n fs) at 1. rewrite lookup_file_app.
    by destruct (lookup_file name (take n fs)). }
  destruct (lookup_file name (take n fs)); [done|].
  replace (Z.of_nat (length fs) - Z.of_nat n) with (Z.of_nat (length (drop n fs))) by (rewrite length_drop; lia).
  replace (u32 (u32 (dstart + j) + 1)) with (u32 (dstart + (j + 1))).
  2:{ unfold u32. rewrite Zplus_mod_idemp_l. f_equal. lia. }
  apply IH; [lia|rewrite length_drop; lia|]. intros j' Hj' Hj0. rewrite length_drop in Hj'.
  destruct (Hdir (j' + 1)) as (sec & E' & Hsec'); [lia|lia|]. exists sec.
  replace (j + 1 + j') with (j + (j' + 1)) by lia. split; [done|]. intros i f Hi Hl.
  apply Hsec'; [done|]. rewrite lookup_drop in Hl. rewrite <- Hl. f_equal. lia.
Qed.

Lemma vfs_read_spec b fs :
  disk_holds b fs →
  vfs_read_file read_sector (mk_vfs true b) (name ++ 0 :: r) buf buf_size out_size =
  Some (read_spec fs name buf buf_size out_size).
Proof.
  intros (Hc & Hlt & Hds & Hdir). unfold vfs_read_file. simpl. rewrite Hc, Nat2Z.id.
  rewrite <- (u32_id (sb_dir_start_sector b)) by done.
  rewrite <- (Z.add_0_r (sb_dir_start_sector b)). by apply dir_loop_spec.
Qed.
End scan.
End spec.

(** ** The images mkfs builds *)

Lemma length_pack32 x : length (pack32 x) = 4%nat.
Proof. done. Qed.
Lemma length_zeros n : length (zeros n) = Z.to_nat n.
Proof. apply length_replicate. Qed.
Lemma length_ljust n l : Z.of_nat (length l) <= n → Z.of_nat (length (ljust n l)) = n.
Proof. intros. unfold ljust. rewrite length_app, length_zeros. lia. Qed.

(** A packed integer is read back at its offset. *)
Lemma le32_pack a x b :
  0 <= x < 2 ^ 32 → le32 (a ++ pack32 x ++ b) (Z.of_nat (length a)) = x.
Proof.
  intros Hx. unfold le32, zget.
  assert (∀ (i : nat) v, pack32 x !! i = Some v →
    (a ++ pack32 x ++ b) !!! Z.to_nat (Z.of_nat (length a) + Z.of_nat i) = v) as Hget.
  { intros i v Hi. apply list_lookup_total_correct.
    replace (Z.to_nat (Z.of_nat (length a) + Z.of_nat i)) with (length a + i)%nat by lia.
    rewrite lookup_app_r, Nat.add_sub' by lia. by apply lookup_app_l_Some. }
  pose proof (Hget 0%nat _ eq_refl) as H0. pose proof (Hget 1%nat _ eq_refl) as H1.
  pose proof (Hget 2%nat _ eq_refl) as H2. pose proof (Hget 3%nat _ eq_refl) as H3.
  rewrite Z.add_0_r in H0. change (Z.of_nat 1) with 1 in H1. change (Z.of_nat 2) with 2 in H2.
  change (Z.of_nat 3) with 3 in H3. rewrite H0, H1, H2, H3. clear Hget H0 H1 H2 H3.
  div_lia.
Qed.

Lemma le32_at a x b l off :
  l = a ++ pack32 x ++ b → off = Z.of_nat (length a) → 0 <= x < 2 ^ 32 → le32 l off = x.
Proof. intros -> ->. apply le32_pack. Qed.

Lemma le32_drop l off k : 0 <= off → 0 <= k → le32 l (off + k) = le32 (drop (Z.to_nat off) l) k.
Proof.
  intros. unfold le32, zget. rewrite !list_lookup_total_alt, !lookup_drop.
  rewrite <- !Z.add_assoc, !Z2Nat.inj_add by lia. done.
Qed.

(** Entry number [k] of a table of entries of [m] bytes. *)
Lemma concat_drop {A} (m k : nat) (ls : list (list A)) x :
  Forall (λ l, length l = m) ls → ls !! k = Some x → ∃ rest, drop (m * k) (concat ls) = x ++ rest.
Proof.
  revert k. induction ls as [|l ls IH]; intros k HF Hk; [done|].
  apply Forall_cons in HF as [Hl HF]. destruct k as [|k]; simpl in *.
  - simplify_eq. rewrite Nat.mul_0_r. by eexists.
  - destruct (IH k HF Hk) as [rest E]. exists rest.
    rewrite drop_app, drop_ge by lia. simpl. rewrite <- E. f_equal. lia.
Qed.

Lemma length_concat_const {A} (m : nat) (ls : list (list A)) :
  Forall (λ l, length l = m) ls → length (concat ls) = (m * length ls)%nat.
Proof. induction 1; simpl; [lia|]. rewrite length_app. lia. Qed.

(** The first data sector of file [k], relative to the first one of the image. *)
Definition data_offset (fs : list file) (k : nat) : Z :=
  foldr (λ f n, sectors_of (Z.of_nat (length (f_data f))) + n) 0 (take k fs).

Lemma mkfs_entries_lookup fs cursor k f :
  fs !! k = Some f →
  mkfs_entries cursor fs !! k =
    Some (take 31 (f_name f), cursor + data_offset fs k, Z.of_nat (length (f_data f))).
Proof.
  revert cursor k. induction fs as [|g fs IH]; intros cursor k Hk; [done|].
  destruct k as [|k]; simpl in *; [simplify_eq; unfold data_offset; simpl; by rewrite Z.add_0_r|].
  rewrite (IH _ _ Hk). do 3 f_equal. unfold data_offset. simpl. lia.
Qed.

Lemma length_mkfs_entries fs cursor : length (mkfs_entries cursor fs) = length fs.
Proof. revert cursor. induction fs; intros; simpl; auto. Qed.

Lemma pack_entry_length name start size :
  (length name <= 31)%nat → length (pack_entry (name, start, size)) = 64%nat.
Proof.
  intros. apply Nat2Z.inj. unfold pack_entry. rewrite length_ljust; [done|].
  rewrite !length_app, !length_pack32. unfold DIR_ENTRY_SIZE.
  pose proof (length_ljust NAME_LEN name ltac:(unfold NAME_LEN; lia)). unfold NAME_LEN in *. lia.
Qed.

Lemma sectors_of_nonneg n : 0 <= n → 0 <= sectors_of n.
Proof. intros. unfold sectors_of, SECTOR_SIZE. div_lia. Qed.

Lemma length_pad_data d : Z.of_nat (length (pad_data d)) = 512 * sectors_of (Z.of_nat (length d)).
Proof.
  unfold pad_data, sectors_of, SECTOR_SIZE. rewrite length_app, length_zeros, Nat2Z.inj_add.
  rewrite Z2Nat.id by (apply Z.mod_pos_bound; lia). div_lia.
Qed.

Lemma data_offset_nonneg fs k : 0 <= data_offset fs k.
Proof.
  unfold data_offset. generalize (take k fs). intros l. induction l as [|x l IH]; simpl; [lia|].
  pose proof (sectors_of_nonneg (Z.of_nat (length (f_data x))) ltac:(lia)). lia.
Qed.

(** The data of file [k] starts at its sector of the data area. *)
Lemma data_drop fs k f :
  fs !! k = Some f →
  ∃ rest, drop (512 * Z.to_nat (data_offset fs k)) (concat (pad_data ∘ f_data <$> fs)) =
    pad_data (f_data f) ++ rest.
Proof.
  revert k. induction fs as [|g fs IH]; intros k Hk; [done|]. destruct k as [|k]; simpl in *.
  - simplify_eq. by eexists.
  - destruct (IH k Hk) as [rest E]. exists rest. rewrite <- E.
    assert (data_offset (g :: fs) (S k) =
      sectors_of (Z.of_nat (length (f_data g))) + data_offset fs k) as -> by done.
    pose proof (length_pad_data (f_data g)) as Hl. pose proof (data_offset_nonneg fs k).
    pose proof (sectors_of_nonneg (Z.of_nat (length (f_data g))) ltac:(lia)).
    rewrite drop_app, drop_ge by (unfold compose; lia). simpl. f_equal. lia.
Qed.

Lemma data_offset_cons g fs k :
  data_offset (g :: fs) (S k) = sectors_of (Z.of_nat (length (f_data g))) + data_offset fs k.
Proof. done. Qed.

Lemma length_blobs fs :
  Z.of_nat (length (concat (pad_data ∘ f_data <$> fs))) = 512 * data_offset fs (length fs).
Proof.
  induction fs as [|g fs IH]; [done|]. cbn [length]. rewrite data_offset_cons, fmap_cons.
  simpl concat. rewrite length_app, Nat2Z.inj_add, length_pad_data, IH. lia.
Qed.

Lemma data_offset_le fs k f :
  fs !! k = Some f →
  data_offset fs k + sectors_of (Z.of_nat (length (f_data f))) <= data_offset fs (length fs).
Proof.
  revert k. induction fs as [|g fs IH]; intros k Hk; [done|]. cbn [length].
  rewrite data_offset_cons. pose proof (data_offset_nonneg fs (length fs)).
  destruct k as [|k]; simpl in Hk; [simplify_eq; unfold data_offset at 1; simpl; lia|].
  rewrite data_offset_cons. specialize (IH k Hk). lia.
Qed.

(** The inputs mkfs can represent: names of at most 31 bytes without NULs, sizes for
    which the size computation of the reader does not wrap, and an image whose
    sector numbers fit in 32 bits. *)
Record mkfs_ok (fs : list file) : Prop := {
  mo_names : ∀ f, f ∈ fs → (0 ∉ f_name f) ∧ (length (f_name f) <= 31)%nat;
  mo_sizes : ∀ f, f ∈ fs → Z.of_nat (length (f_data f)) <= 2 ^ 32 - 512;
  mo_count : Z.of_nat (length fs) < 2 ^ 32;
  mo_total : 1 + sectors_of (Z.of_nat (length fs) * 64) + data_offset fs (length fs) < 2 ^ 32
}.

Section image.
Context (fs : list file) (Hok : mkfs_ok fs).
Let ds : Z := sectors_of (Z.of_nat (length fs) * 64).
Let super : list Z := ljust SECTOR_SIZE
  (pack32 MKFS_MAGIC ++ pack32 (Z.of_nat (length fs)) ++ pack32 1 ++ pack32 (1 + ds)).
Let dirs : list (list Z) := pack_entry <$> mkfs_entries (1 + ds) fs.
Let blobs : list Z := concat (pad_data ∘ f_data <$> fs).

Lemma mkfs_parts : mkfs fs = super ++ ljust (ds * SECTOR_SIZE) (concat dirs) ++ blobs.
Proof. done. Qed.

Lemma ds_bounds : 0 <= ds ∧ 64 * Z.of_nat (length fs) <= 512 * ds ∧ Z.of_nat (length fs) < 2 ^ 32.
Proof.
  pose proof (sectors_of_bounds (Z.of_nat (length fs) * 64) ltac:(lia)).
  pose proof (sectors_of_nonneg (Z.of_nat (length fs) * 64) ltac:(lia)).
  pose proof (mo_count fs Hok). unfold ds. lia.
Qed.

Lemma length_super : length super = 512%nat.
Proof. apply Nat2Z.inj. unfold super. by rewrite length_ljust. Qed.

Lemma dirs_64 : Forall (λ l, length l = 64%nat) dirs.
Proof.
  unfold dirs. apply Forall_fmap, Forall_lookup. intros k e He.
  destruct (fs !! k) as [f|] eqn:Hf.
  - rewrite (mkfs_entries_lookup _ _ _ _ Hf) in He. simplify_eq. apply pack_entry_length.
    rewrite length_take. lia.
  - apply lookup_ge_None in Hf. apply lookup_lt_Some in He. rewrite length_mkfs_entries in He. lia.
Qed.

Lemma length_dir_area : Z.of_nat (length (ljust (ds * SECTOR_SIZE) (concat dirs))) = ds * SECTOR_SIZE.
Proof.
  apply length_ljust. rewrite (length_concat_const 64) by apply dirs_64.
  unfold dirs. rewrite length_fmap, length_mkfs_entries. pose proof ds_bounds. unfold SECTOR_SIZE. lia.
Qed.

Lemma length_image : Z.of_nat (length (mkfs fs)) = 512 * (1 + ds + data_offset fs (length fs)).
Proof.
  rewrite mkfs_parts, !length_app, length_super. pose proof length_dir_area. pose proof (length_blobs fs).
  unfold SECTOR_SIZE, blobs in *. lia.
Qed.

(** Every sector of the image can be read. *)
Lemma image_sector_read lba :
  0 <= lba < 1 + ds + data_offset fs (length fs) →
  image_sector (mkfs fs) lba = Some (take 512 (drop (512 * Z.to_nat lba) (mkfs fs))) ∧
  (length (take 512 (drop (512 * Z.to_nat lba) (mkfs fs))) = 512)%nat.
Proof.
  intros Hl. pose proof length_image as Hlen. unfold image_sector.
  rewrite (proj2 (Z.leb_le _ _)) by (unfold SECTOR_SIZE; lia). split.
  - do 3 f_equal. unfold SECTOR_SIZE. lia.
  - rewrite length_take, length_drop. lia.
Qed.

(** The entry of file [k], wherever its sector ends. *)
Lemma image_entry k f :
  fs !! k = Some f →
  ∃ rest, drop (512 + 64 * k) (mkfs fs) =
    pack_entry (f_name f, 1 + ds + data_offset fs k, Z.of_nat (length (f_data f))) ++ rest.
Proof.
  intros Hk. rewrite mkfs_parts, <- drop_drop, drop_app_length' by apply length_super.
  destruct (concat_drop 64 k dirs (pack_entry (take 31 (f_name f), 1 + ds + data_offset fs k,
    Z.of_nat (length (f_data f)))) dirs_64) as [rest E].
  { unfold dirs. rewrite list_lookup_fmap. by rewrite (mkfs_entries_lookup _ _ _ _ Hk). }
  destruct (mo_names fs Hok f) as [_ Hlen]; [by eapply list_elem_of_lookup_2|].
  rewrite take_ge in E by lia. pose proof (lookup_lt_Some _ _ _ Hk).
  unfold ljust at 1. rewrite <- app_assoc, drop_app_le.
  - rewrite E, <- app_assoc. by eexists.
  - rewrite (length_concat_const 64) by apply dirs_64. unfold dirs.
    rewrite length_fmap, length_mkfs_entries. lia.
Qed.

Lemma image_data k f :
  fs !! k = Some f → data_at (image_sector (mkfs fs)) (1 + ds + data_offset fs k) (f_data f).
Proof.
  intros Hk s Hs. pose proof (data_offset_le _ _ _ Hk). pose proof (data_offset_nonneg fs k).
  pose proof ds_bounds. pose proof (mo_total fs Hok) as Htot. fold ds in Htot.
  rewrite u32_id by (unfold in_u; lia).
  destruct (image_sector_read (1 + ds + data_offset fs k + Z.of_nat s)) as [-> Hl]; [lia|].
  eexists. split; [done|]. split; [done|].
  destruct (data_drop fs k f Hk) as [rest E].
  replace (512 * Z.to_nat (1 + ds + data_offset fs k + Z.of_nat s))%nat with
    (512 + (Z.to_nat (ds * SECTOR_SIZE) + (512 * Z.to_nat (data_offset fs k) + 512 * s)))%nat
    by (unfold SECTOR_SIZE; lia).
  rewrite mkfs_parts, <- drop_drop, drop_app_length' by apply length_super.
  pose proof length_dir_area. rewrite <- drop_drop, drop_app_length' by lia.
  rewrite <- drop_drop. unfold blobs. rewrite E. unfold pad_data. rewrite <- app_assoc.
  pose proof (sectors_of_bounds (Z.of_nat (length (f_data f))) ltac:(lia)).
  rewrite drop_app_le by lia. rewrite take_app. by eexists.
Qed.

(** The fields of an entry built by mkfs, at offset [off] of a sector. *)
Lemma packed_entry_at sector off f start rest :
  0 <= off → drop (Z.to_nat off) sector = pack_entry (f_name f, start, Z.of_nat (length (f_data f))) ++ rest →
  f ∈ fs → 0 <= start < 2 ^ 32 → data_at (image_sector (mkfs fs)) start (f_data f) →
  entry_at (image_sector (mkfs fs)) sector off f.
Proof.
  intros Hoff E Hf Hst Hdata. destruct (mo_names fs Hok f Hf) as [H0 Hlen].
  pose proof (mo_sizes fs Hok f Hf) as Hsz.
  set (size := Z.of_nat (length (f_data f))) in *.
  set (tail := zeros (DIR_ENTRY_SIZE - Z.of_nat (length (ljust NAME_LEN (f_name f) ++ pack32 start ++ pack32 size))) ++ rest).
  assert (drop (Z.to_nat off) sector = ljust NAME_LEN (f_name f) ++ pack32 start ++ pack32 size ++ tail) as E2.
  { rewrite E. unfold pack_entry, tail. unfold ljust at 1. by rewrite <- !app_assoc. }
  assert (Z.of_nat (length (ljust NAME_LEN (f_name f))) = 32) as H32.
  { apply length_ljust. unfold NAME_LEN. lia. }
  assert (dirent_start_sector sector off = start) as Es.
  { unfold dirent_start_sector. rewrite le32_drop, E2 by (unfold NAME_LEN; lia).
    change NAME_LEN with 32 at 2. rewrite <- H32. by apply le32_pack. }
  unfold entry_at. rewrite Es. split_and!; [|done| |unfold SECTOR_SIZE; lia|done].
  - unfold dirent_name. rewrite E2. unfold ljust, zeros.
    replace (Z.to_nat (NAME_LEN - Z.of_nat (length (f_name f))))
      with (S (31 - length (f_name f)))%nat by (unfold NAME_LEN; lia).
    rewrite <- app_assoc. simpl. by eexists.
  - unfold dirent_size_bytes. rewrite <- Z.add_assoc, le32_drop, E2 by (unfold NAME_LEN; lia).
    rewrite (app_assoc (ljust _ _)). replace (NAME_LEN + 4) with
      (Z.of_nat (length (ljust NAME_LEN (f_name f) ++ pack32 start))).
    + apply le32_pack. lia.
    + rewrite length_app, Nat2Z.inj_add, H32. done.
Qed.

Lemma image_holds :
  disk_holds (image_sector (mkfs fs)) (mk_superblock MKFS_MAGIC (Z.of_nat (length fs)) 1 (1 + ds)) fs.
Proof.
  pose proof ds_bounds as (Hds & Hdl & Hcount). pose proof (mo_total fs Hok) as Htot. fold ds in Htot.
  pose proof (data_offset_nonneg fs (length fs)).
  split; [done|]. split; [done|]. split; [unfold in_u; simpl; lia|]. simpl.
  intros j Hj Hj0. rewrite u32_id by (unfold in_u; lia).
  destruct (image_sector_read (1 + j)) as [-> Hl]; [lia|]. eexists. split; [done|].
  intros i f Hi Hk. destruct (image_entry _ _ Hk) as [rest E].
  apply (packed_entry_at _ _ _ (1 + ds + data_offset fs (Z.to_nat (8 * j) + i)) (take (512 - 64 * i - 64) rest)).
  - unfold DIR_ENTRY_SIZE. lia.
  - unfold DIR_ENTRY_SIZE. replace (Z.to_nat (Z.of_nat i * 64)) with (64 * i)%nat by lia.
    replace 512%nat with (64 * i + (512 - 64 * i))%nat at 1 by lia.
    rewrite <- take_drop_commute, drop_drop.
    replace (512 * Z.to_nat (1 + j) + 64 * i)%nat with (512 + 64 * (Z.to_nat (8 * j) + i))%nat by lia.
    rewrite E, take_app, pack_entry_length, take_ge.
    + done.
    + rewrite pack_entry_length; [lia|]. apply (mo_names fs Hok). by eapply list_elem_of_lookup_2.
    + apply (mo_names fs Hok). by eapply list_elem_of_lookup_2.
  - by eapply list_elem_of_lookup_2.
  - pose proof (data_offset_le _ _ _ Hk). pose proof (data_offset_nonneg fs (Z.to_nat (8 * j) + i)).
    pose proof (sectors_of_nonneg (Z.of_nat (length (f_data f))) ltac:(lia)). lia.
  - by apply image_data.
Qed.

(** vfs_init accepts the image and reads its superblock. *)
Lemma image_init v :
  vfs_init true (image_sector (mkfs fs)) v =
  mk_vfs true (mk_superblock MKFS_MAGIC (Z.of_nat (length fs)) 1 (1 + ds)).
Proof.
  pose proof ds_bounds as (Hds & Hdl & Hcount). pose proof (mo_total fs Hok) as Htot. fold ds in Htot.
  pose proof (data_offset_nonneg fs (length fs)). unfold vfs_init. cbn [negb].
  destruct (image_sector_read 0) as [-> _]; [lia|].
  assert (take 512 (drop (512 * Z.to_nat 0) (mkfs fs)) = super) as ->.
  { rewrite drop_0, mkfs_parts. by apply take_app_length'; rewrite length_super. }
  assert (read_superblock super = mk_superblock MKFS_MAGIC (Z.of_nat (length fs)) 1 (1 + ds)) as ->; [|done].
  set (tail := zeros (SECTOR_SIZE - Z.of_nat (length
    (pack32 MKFS_MAGIC ++ pack32 (Z.of_nat (length fs)) ++ pack32 1 ++ pack32 (1 + ds))))).
  assert (super = pack32 MKFS_MAGIC ++ pack32 (Z.of_nat (length fs)) ++ pack32 1 ++ pack32 (1 + ds) ++ tail) as ->.
  { unfold super, ljust. fold tail. by rewrite <- !app_assoc. }
  unfold read_superblock. f_equal.
  - apply (le32_at (pack32 MKFS_MAGIC) (Z.of_nat (length fs)) (pack32 1 ++ pack32 (1 + ds) ++ tail)); [done|done|lia].
  - apply (le32_at (pack32 MKFS_MAGIC ++ pack32 (Z.of_nat (length fs)) ++ pack32 1) (1 + ds) tail); [done|done|lia].
Qed.
End image.

(** ** Properties *)

(** C10: round trip of the image builder and the reader.  On the image mkfs builds from
    [fs], vfs_init makes the filesystem available, and reading a name gives the
    first [buf_size] bytes of the first file of that name and its size, or fails
    without an effect when there is no such file. *)
Theorem mkfs_vfs_roundtrip fs name r buf buf_size out_size v :
  mkfs_ok fs → 0 ∉ name → 0 <= buf_size <= Z.of_nat (length buf) → Z.of_nat (length buf) < 2 ^ 32 →
  let disk := image_sector (mkfs fs) in
  let v1 := vfs_init true disk v in
  vfs_available v1 = true ∧
  vfs_read_file disk v1 (name ++ 0 :: r) buf buf_size out_size =
    Some (read_spec fs name buf buf_size out_size).
Proof.
  intros Hok Hname Hsize Hbuf disk v1. unfold v1, disk. rewrite image_init by done.
  split; [done|]. apply vfs_read_spec; [done..|]. by apply image_holds.
Qed.

Lemma mkfs_vfs_roundtrip_witness :
  let fs := [mk_file [104; 105] [1; 2; 3]; mk_file [120] (replicate 600 7)] in
  let disk := image_sector (mkfs fs) in
  vfs_read_file disk (vfs_init true disk vfs_reset) ([104; 105] ++ 0 :: []) (replicate 5 9) 5 (Some 0)
  = Some (true, [1; 2; 3; 9; 9], Some 3).
Proof.
  intros fs disk.
  refine (proj2 (mkfs_vfs_roundtrip fs [104; 105] [] (replicate 5 9) 5 (Some 0) vfs_reset _ _ _ _)).
  - split; [| |simpl; lia|by vm_compute].
    + intros f Hf. apply elem_of_cons in Hf as [->| ->%list_elem_of_singleton];
        (split; [apply (bool_decide_eq_true_1 _); by vm_compute|simpl; lia]).
    + intros f Hf. apply elem_of_cons in Hf as [->| ->%list_elem_of_singleton]; simpl; lia.
  - apply (bool_decide_eq_true_1 _). by vm_compute.
  - simpl. lia.
  - simpl. lia.
Defined.

(** ** Reading an arbitrary disk *)

Lemma str_eq_total a b : (0 ∈ take (length a) b) → is_Some (str_eq a b).
Proof.
  revert b. induction a as [|x a IH]; intros [|y b]; simpl; [set_solver..|]. intros [<-|Hin]%elem_of_cons.
  - replace (truth x && truth 0) with false by (by destruct (truth x)). by eexists.
  - destruct (truth x && truth y); [|by eexists]. case_if; [by eexists|auto].
Qed.

(** [buf'] is [buf] except for its first [n] bytes. *)
Definition written_below (n : Z) (buf buf' : list Z) : Prop :=
  length buf' = length buf ∧ drop (Z.to_nat n) buf' = drop (Z.to_nat n) buf.

Section robust.
Variable read_sector : Z → option (list Z).
Definition disk_wf : Prop :=
  ∀ lba sec, read_sector lba = Some sec → length sec = 512%nat ∧ Forall (in_u 8) sec.
Context (Hdisk : disk_wf).

Lemma read_data_safe fuel start needed (tc : nat) s (c : nat) dst :
  0 <= s → 0 <= needed < 2 ^ 32 → (c <= tc <= length dst)%nat → Z.of_nat (length dst) < 2 ^ 32 →
  needed <= s + Z.of_nat fuel →
  ∃ ok dst', read_data read_sector fuel start needed (Z.of_nat tc) s (Z.of_nat c) dst = Some (ok, dst') ∧
    written_below (Z.of_nat tc) dst dst'.
Proof.
  intros Hs Hn Hc Hlen Hf. revert s c dst Hs Hc Hlen Hf.
  induction fuel as [|fuel IH]; intros s c dst Hs Hc Hlen Hf; cbn [read_data].
  - rewrite (proj2 (Z.ltb_ge s _)) by lia. simpl. by eexists _, _.
  - destruct ((s <? needed) && (Z.of_nat c <? Z.of_nat tc)) eqn:E; [|by eexists _, _]. bool_to_prop.
    destruct (read_sector (u32 (start + s))) as [sec|] eqn:Er; [|by eexists _, _].
    destruct (Hdisk _ _ Er) as [Hsl _].
    rewrite (u32_id (Z.of_nat tc - Z.of_nat c)) by (unfold in_u; lia).
    set (n := Nat.min 512 (tc - c)).
    replace (if SECTOR_SIZE <? Z.of_nat tc - Z.of_nat c then SECTOR_SIZE else Z.of_nat tc - Z.of_nat c)
      with (Z.of_nat n).
    2:{ unfold SECTOR_SIZE, n. destruct (Z.ltb_spec 512 (Z.of_nat tc - Z.of_nat c)); lia. }
    rewrite Nat2Z.id. pose proof (copy_bytes_spec n 0 sec c dst) as Hcp.
    change (Z.of_nat 0) with 0 in Hcp. rewrite Hcp by lia. simpl. clear Hcp.
    rewrite (u32_id (s + 1)), (u32_id (Z.of_nat c + Z.of_nat n)) by (unfold in_u; lia).
    rewrite Nat.add_0_r, drop_0, <- Nat2Z.inj_add.
    set (dst1 := take c dst ++ take n sec ++ drop (c + n) dst).
    assert (length dst1 = length dst) as Hl1.
    { unfold dst1. rewrite !length_app, !length_take, length_drop. lia. }
    destruct (IH (s + 1) (c + n)%nat dst1) as (ok & dst' & -> & Hl' & Hd'); [lia..|].
    exists ok, dst'. split; [done|]. split; [lia|]. rewrite Hd', Nat2Z.id. unfold dst1.
    rewrite app_assoc, drop_app, drop_ge, drop_drop by (rewrite length_app, !length_take; lia).
    simpl. f_equal. rewrite length_app, !length_take. lia.
Qed.

Lemma le32_range l off : Forall (in_u 8) l → in_u 32 (le32 l off).
Proof.
  intros HF. assert (∀ i, in_u 8 (zget l i)) as Hb.
  { intros i. unfold zget. rewrite list_lookup_total_alt. destruct (l !! _) as [x|] eqn:E; simpl.
    - by eapply Forall_lookup_1.
    - done. }
  unfold le32. pose proof (Hb off). pose proof (Hb (off + 1)). pose proof (Hb (off + 2)).
  pose proof (Hb (off + 3)). unfold in_u in *. lia.
Qed.

Section reader.
Context (name r buf : list Z) (buf_size : Z) (out_size : option Z).
Context (Hname : (length name <= 63)%nat) (Hsize : 0 <= buf_size <= Z.of_nat (length buf))
        (Hbuf : Z.of_nat (length buf) < 2 ^ 32).

(** A result that wrote nothing past the first [buf_size] bytes. *)
Definition safe_result (res : option read_result) : Prop :=
  ∃ ok buf' out', res = Some (ok, buf', out') ∧ written_below buf_size buf buf' ∧
    (out' = out_size ∨ ∃ sz, 0 <= sz ∧ out' = (λ _, sz) <$> out_size).

Lemma read_found_safe sector off :
  Forall (in_u 8) sector → safe_result (read_found read_sector sector off buf buf_size out_size).
Proof.
  intros HF. unfold read_found, safe_result. unfold dirent_size_bytes.
  pose proof (le32_range sector (off + NAME_LEN + 4) HF) as Hs. unfold in_u in Hs.
  set (size := le32 _ _) in *. set (needed := u32 (size + SECTOR_SIZE - 1) / SECTOR_SIZE).
  assert (0 <= needed < 2 ^ 32) as Hn.
  { pose proof (u32_range (size + SECTOR_SIZE - 1)). unfold needed, SECTOR_SIZE, in_u in *. div_lia. }
  set (tc := Z.to_nat (if size <? buf_size then size else buf_size)).
  replace (if size <? buf_size then size else buf_size) with (Z.of_nat tc)
    by (unfold tc; destruct (Z.ltb_spec size buf_size); lia).
  assert (Z.of_nat tc <= buf_size) by (unfold tc; destruct (Z.ltb_spec size buf_size); lia).
  destruct (read_data_safe (Z.to_nat needed) (dirent_start_sector sector off) needed tc 0 0 buf)
    as (ok & buf' & E & Hl & Hd); [lia..|]. change (Z.of_nat 0) with 0 in E. rewrite E. simpl.
  assert (written_below buf_size buf buf') as Hw.
  { split; [done|]. replace (Z.to_nat buf_size) with (tc + (Z.to_nat buf_size - tc))%nat by lia.
    rewrite <- !drop_drop. rewrite Nat2Z.id in Hd. by rewrite Hd. }
  case_if; eexists _, _, _; (split; [done|]); split; [done|by left|done|].
  right. exists size. split; [lia|done].
Qed.

Lemma scan_safe sector n i :
  length sector = 512%nat → Forall (in_u 8) sector → 0 <= i → i + Z.of_nat n <= 8 →
  match for_ret_n n i (scan_body read_sector sector (name ++ 0 :: r) buf buf_size out_size) () with
  | Continue _ => True
  | Return res => safe_result res
  end.
Proof.
  intros Hl HF Hi Hn.
  apply (for_ret_n_inv (λ _ _, True) safe_result); [done|]. intros j [] Hj _. unfold scan_body.
  destruct (str_eq_total (dirent_name sector (j * DIR_ENTRY_SIZE)) (name ++ 0 :: r)) as [b Hb].
  { unfold dirent_name. rewrite length_drop, Hl. apply elem_of_take. exists (length name).
    split; [by rewrite lookup_app_r, Nat.sub_diag by lia|]. unfold DIR_ENTRY_SIZE. lia. }
  rewrite Hb. destruct b; [|done]. by apply read_found_safe.
Qed.

Lemma dir_loop_safe fuel remaining dir_sector :
  remaining <= Z.of_nat fuel →
  safe_result (dir_loop read_sector fuel remaining dir_sector (name ++ 0 :: r) buf buf_size out_size).
Proof.
  assert (safe_result (Some (false, buf, out_size))) as Hfail
    by (eexists _, _, _; split; [done|]; split; [done|by left]).
  revert remaining dir_sector. induction fuel as [|fuel IH]; intros rem d Hf; cbn [dir_loop].
  - by rewrite (proj2 (Z.ltb_ge 0 rem)) by lia.
  - destruct (Z.ltb_spec 0 rem) as [Hpos|]; [|done].
    destruct (read_sector d) as [sector|] eqn:Er; [|done]. destruct (Hdisk _ _ Er) as [Hl HF].
    set (n := if rem <? ENTRIES_PER_SECTOR then rem else ENTRIES_PER_SECTOR).
    assert (0 < n <= 8 ∧ n <= rem) as Hn.
    { unfold n. change ENTRIES_PER_SECTOR with 8. destruct (Z.ltb_spec rem 8); lia. }
    pose proof (scan_safe sector (Z.to_nat (n - 0)) 0 Hl HF ltac:(lia) ltac:(lia)) as Hscan.
    unfold for_ret. destruct (for_ret_n _ _ _ _) as [?|res]; [|done]. apply IH. lia.
Qed.

Lemma read_file_safe v : safe_result (vfs_read_file read_sector v (name ++ 0 :: r) buf buf_size out_size).
Proof.
  unfold vfs_read_file. case_if; [eexists _, _, _; split; [done|]; split; [done|by left]|].
  apply dir_loop_safe. lia.
Qed.
End reader.
End robust.

(** C25: safety on arbitrary disks.  Whatever the disk holds (a corrupt directory, names
    without NUL, any sizes and sector numbers, failing reads), reading a name of at most
    63 bytes terminates, reads no name past its sector and writes only the first
    [buf_size] bytes of the buffer. *)
Theorem vfs_read_file_safe read_sector v name r buf buf_size out_size :
  disk_wf read_sector → (length name <= 63)%nat → 0 <= buf_size <= Z.of_nat (length buf) →
  Z.of_nat (length buf) < 2 ^ 32 →
  ∃ ok buf' out', vfs_read_file read_sector v (name ++ 0 :: r) buf buf_size out_size = Some (ok, buf', out') ∧
    written_below buf_size buf buf'.
Proof.
  intros Hdisk Hname Hsize Hbuf.
  destruct (read_file_safe read_sector Hdisk name r buf buf_size out_size Hname Hsize Hbuf v)
    as (ok & buf' & out' & E & Hw & _). eauto.
Qed.

Lemma vfs_read_file_safe_witness :
  let disk := λ lba, Some (replicate 512 0xFF) in
  ∃ ok buf' out', vfs_read_file disk (mk_vfs true (mk_superblock MKFS_MAGIC 3 1 2)) ([120] ++ 0 :: [])
    [1; 2; 3; 4] 2 None = Some (ok, buf', out') ∧ written_below 2 [1; 2; 3; 4] buf'.
Proof.
  intros disk. apply vfs_read_file_safe; [|simpl; lia..].
  intros lba sec E. injection E as <-. split; [reflexivity|].
  apply (bool_decide_eq_true_1 _). vm_compute. reflexivity.
Defined.

(** The size computation wraps.  A directory entry whose size is within 511 bytes of
    2^32 is reported as read, with its size, though not one byte was copied. *)
Theorem vfs_read_wraps_near_2_32 read_sector sector off buf buf_size out_size :
  2 ^ 32 - SECTOR_SIZE < dirent_size_bytes sector off < 2 ^ 32 →
  read_found read_sector sector off buf buf_size out_size =
    Some (true, buf, (λ _, dirent_size_bytes sector off) <$> out_size).
Proof.
  intros Hs. unfold read_found.
  assert (u32 (dirent_size_bytes sector off + SECTOR_SIZE - 1) / SECTOR_SIZE = 0) as ->.
  { unfold u32, SECTOR_SIZE in *. div_lia. }
  done.
Qed.

Lemma vfs_read_wraps_near_2_32_witness :
  let sector := pack_entry ([120], 2, 2 ^ 32 - 5) in
  read_found (λ _, None) sector 0 [9; 9] 2 (Some 0) = Some (true, [9; 9], Some (2 ^ 32 - 5)).
Proof.
  intros sector. apply (vfs_read_wraps_near_2_32 (λ _, None) sector 0 [9; 9] 2 (Some 0)).
  split; by vm_compute.
Defined.
