(* ===== verification/Font.v ===== *)
(** * The 8x8 font: arch/x86_64/drivers/font8x8.c and its copy in arch/aarch64

    One definition per glyph array (eight rows, most significant bit leftmost) and
    the lookup function.  The aarch64 file is the same text. *)

From S2P Require Import Prelude.

Definition glyph_blank : list Z := [0; 0; 0; 0; 0; 0; 0; 0].
Definition glyph_space : list Z := [0x00; 0x00; 0x00; 0x00; 0x00; 0x00; 0x00; 0x00].
Definition glyph_excl : list Z := [0x20; 0x20; 0x20; 0x20; 0x20; 0x00; 0x20; 0x00].
Definition glyph_comma : list Z := [0x00; 0x00; 0x00; 0x00; 0x00; 0x30; 0x30; 0x40].
Definition glyph_minus : list Z := [0x00; 0x00; 0x00; 0xFC; 0x00; 0x00; 0x00; 0x00].
Definition glyph_dot : list Z := [0x00; 0x00; 0x00; 0x00; 0x00; 0x30; 0x30; 0x00].
Definition glyph_colon : list Z := [0x00; 0x30; 0x30; 0x00; 0x30; 0x30; 0x00; 0x00].
Definition glyph_0 : list Z := [0x78; 0x84; 0x84; 0x84; 0x84; 0x84; 0x78; 0x00].
Definition glyph_1 : list Z := [0x20; 0x60; 0x20; 0x20; 0x20; 0x20; 0x70; 0x00].
Definition glyph_2 : list Z := [0x78; 0x84; 0x04; 0x08; 0x10; 0x20; 0xFC; 0x00].
Definition glyph_3 : list Z := [0x78; 0x84; 0x04; 0x38; 0x04; 0x84; 0x78; 0x00].
Definition glyph_4 : list Z := [0x18; 0x28; 0x48; 0x88; 0xFC; 0x08; 0x08; 0x00].
Definition glyph_5 : list Z := [0xFC; 0x80; 0xF8; 0x04; 0x04; 0x84; 0x78; 0x00].
Definition glyph_6 : list Z := [0x78; 0x80; 0x80; 0xF8; 0x84; 0x84; 0x78; 0x00].
Definition glyph_7 : list Z := [0xFC; 0x04; 0x08; 0x10; 0x20; 0x20; 0x20; 0x00].
Definition glyph_8 : list Z := [0x78; 0x84; 0x84; 0x78; 0x84; 0x84; 0x78; 0x00].
Definition glyph_9 : list Z := [0x78; 0x84; 0x84; 0x7C; 0x04; 0x04; 0x78; 0x00].
Definition glyph_A : list Z := [0x30; 0x48; 0x84; 0x84; 0xFC; 0x84; 0x84; 0x00].
Definition glyph_B : list Z := [0xF8; 0x84; 0x84; 0xF8; 0x84; 0x84; 0xF8; 0x00].
Definition glyph_C : list Z := [0x78; 0x84; 0x80; 0x80; 0x80; 0x84; 0x78; 0x00].
Definition glyph_D : list Z := [0xF8; 0x84; 0x84; 0x84; 0x84; 0x84; 0xF8; 0x00].
Definition glyph_E : list Z := [0xFC; 0x80; 0x80; 0xF8; 0x80; 0x80; 0xFC; 0x00].
Definition glyph_F : list Z := [0xFC; 0x80; 0x80; 0xF8; 0x80; 0x80; 0x80; 0x00].
Definition glyph_G : list Z := [0x78; 0x84; 0x80; 0x9C; 0x84; 0x84; 0x78; 0x00].
Definition glyph_H : list Z := [0x84; 0x84; 0x84; 0xFC; 0x84; 0x84; 0x84; 0x00].
Definition glyph_I : list Z := [0x70; 0x20; 0x20; 0x20; 0x20; 0x20; 0x70; 0x00].
Definition glyph_J : list Z := [0x18; 0x08; 0x08; 0x08; 0x88; 0x88; 0x70; 0x00].
Definition glyph_K : list Z := [0x88; 0x90; 0xA0; 0xC0; 0xA0; 0x90; 0x88; 0x00].
Definition glyph_L : list Z := [0x80; 0x80; 0x80; 0x80; 0x80; 0x80; 0xFC; 0x00].
Definition glyph_M : list Z := [0x82; 0xC6; 0xAA; 0x92; 0x82; 0x82; 0x82; 0x00].
Definition glyph_N : list Z := [0x82; 0xC2; 0xA2; 0x92; 0x8A; 0x86; 0x82; 0x00].
Definition glyph_O : list Z := [0x78; 0x84; 0x84; 0x84; 0x84; 0x84; 0x78; 0x00].
Definition glyph_P : list Z := [0xF8; 0x84; 0x84; 0xF8; 0x80; 0x80; 0x80; 0x00].
Definition glyph_Q : list Z := [0x78; 0x84; 0x84; 0x84; 0x84; 0x88; 0x7A; 0x00].
Definition glyph_R : list Z := [0xF8; 0x84; 0x84; 0xF8; 0x90; 0x88; 0x84; 0x00].
Definition glyph_S : list Z := [0x78; 0x80; 0x80; 0x78; 0x04; 0x04; 0xF8; 0x00].
Definition glyph_T : list Z := [0xFC; 0x20; 0x20; 0x20; 0x20; 0x20; 0x20; 0x00].
Definition glyph_U : list Z := [0x84; 0x84; 0x84; 0x84; 0x84; 0x84; 0x78; 0x00].
Definition glyph_V : list Z := [0x84; 0x84; 0x84; 0x84; 0x48; 0x48; 0x30; 0x00].
Definition glyph_W : list Z := [0x82; 0x82; 0x82; 0x92; 0xAA; 0xC6; 0x82; 0x00].
Definition glyph_X : list Z := [0x84; 0x48; 0x30; 0x30; 0x48; 0x84; 0x84; 0x00].
Definition glyph_Y : list Z := [0x84; 0x48; 0x30; 0x20; 0x20; 0x20; 0x20; 0x00].
Definition glyph_Z : list Z := [0xFC; 0x04; 0x08; 0x10; 0x20; 0x40; 0xFC; 0x00].

(** [c] is a [char]; the letters below are its value. *)
Definition font8x8_glyph (c : Z) : list Z :=
  let c := if (97 <=? c) && (c <=? 122) then i8 (c - 32) else c in
  match c with
  | 32 => glyph_space
  | 33 => glyph_excl
  | 44 => glyph_comma
  | 45 => glyph_minus
  | 46 => glyph_dot
  | 58 => glyph_colon
  | 48 => glyph_0
  | 49 => glyph_1
  | 50 => glyph_2
  | 51 => glyph_3
  | 52 => glyph_4
  | 53 => glyph_5
  | 54 => glyph_6
  | 55 => glyph_7
  | 56 => glyph_8
  | 57 => glyph_9
  | 65 => glyph_A
  | 66 => glyph_B
  | 67 => glyph_C
  | 68 => glyph_D
  | 69 => glyph_E
  | 70 => glyph_F
  | 71 => glyph_G
  | 72 => glyph_H
  | 73 => glyph_I
  | 74 => glyph_J
  | 75 => glyph_K
  | 76 => glyph_L
  | 77 => glyph_M
  | 78 => glyph_N
  | 79 => glyph_O
  | 80 => glyph_P
  | 81 => glyph_Q
  | 82 => glyph_R
  | 83 => glyph_S
  | 84 => glyph_T
  | 85 => glyph_U
  | 86 => glyph_V
  | 87 => glyph_W
  | 88 => glyph_X
  | 89 => glyph_Y
  | 90 => glyph_Z
  | _ => glyph_blank
  end.

(** arch/aarch64/drivers/font8x8.c. *)
Definition font8x8_glyph_a64 (c : Z) : list Z := font8x8_glyph c.

Lemma font8x8_glyph_length c : length (font8x8_glyph c) = 8%nat.
Proof.
  unfold font8x8_glyph. generalize (if (97 <=? c) && (c <=? 122) then i8 (c - 32) else c). intros d.
  destruct d as [|p|p]; [done| |done]. do 7 (destruct p as [p|p|]; try done).
Qed.
