(* ===== verification/Framebuffer.v ===== *)
(** * The framebuffer primitives: drivers/framebuffer.c of both architectures

    The two files share the drawing code; x86_64 reaches its description through a
    pointer that is NULL until fb_init, aarch64 through a structure that is all
    zeros until then.  The drawing functions are written once over an optional
    description ([None] is the NULL pointer) and instantiated in the modules [X86]
    and [A64].  Video memory maps the address of a 32-bit store to its value. *)

From S2P Require Import Prelude.
From S2P Require Import Font.

(** ** Data *)

Record fb_info := mk_fb {
  fb_present : bool;
  fb_addr : Z;
  fb_pitch : Z;
  fb_w : Z;
  fb_h : Z
}.

Abbreviation video := (gmap Z Z).

(** ** Drawing *)

Section draw.
Variable fb : option fb_info.

Definition available : bool := match fb with Some i => fb_present i | None => false end.
Definition width : Z := match fb with Some i => fb_w i | None => 0 end.
Definition height : Z := match fb with Some i => fb_h i | None => 0 end.

(** Stores wrap at 64 bits as the pointer arithmetic does. *)
Definition put_pixel (x y rgb : Z) (m : video) : video :=
  match fb with
  | None => m
  | Some i =>
      if negb (fb_present i) || (fb_w i <=? x) || (fb_h i <=? y) then m
      else
        let row := u64 (fb_addr i + y * fb_pitch i) in
        <[u64 (row + x * 4) := rgb .& 0x00FFFFFF]> m
  end.

(** The inner loop of fb_fill_rect: [p] is the moving pointer. *)
Definition fill_col (color : Z) (_ : Z) (st : Z * video) : Z * video :=
  let '(p, m) := st in (u64 (p + 4), <[p := color]> m).

Definition fill_row (i : fb_info) (x x1 color row : Z) (m : video) : video :=
  snd (for_up x x1 (fill_col color) (u64 (fb_addr i + row * fb_pitch i + x * 4), m)).

Definition fill_rect (x y w h rgb : Z) (m : video) : video :=
  match fb with
  | None => m
  | Some i =>
      if negb (fb_present i) then m else
      let x1 := u32 (x + w) in
      let y1 := u32 (y + h) in
      let x1 := if fb_w i <? x1 then fb_w i else x1 in
      let y1 := if fb_h i <? y1 then fb_h i else y1 in
      if (x1 <=? x) || (y1 <=? y) then m else
      let color := rgb .& 0x00FFFFFF in
      for_up y y1 (fill_row i x x1 color) m
  end.

Definition clear (rgb : Z) (m : video) : video :=
  if negb available then m else fill_rect 0 0 width height rgb m.

(** The loop of fb_draw_line, with the fuel that bounds its iterations. *)
Fixpoint line_loop {S} (plot : Z → Z → S → S) (fuel : nat) (dx sx dy sy x1 y1 : Z)
    (x0 y0 err : Z) (s : S) : option S :=
  let s := plot x0 y0 s in
  if (x0 =? x1) && (y0 =? y1) then Some s else
  match fuel with
  | O => None
  | S fuel =>
      let e2 := i32 (2 * err) in
      let '(err, x0) := if dy <=? e2 then (i32 (err + dy), i32 (x0 + sx)) else (err, x0) in
      let '(err, y0) := if e2 <=? dx then (i32 (err + dx), i32 (y0 + sy)) else (err, y0) in
      line_loop plot fuel dx sx dy sy x1 y1 x0 y0 err s
  end.

Definition line {S} (plot : Z → Z → S → S) (fuel : nat) (x0 y0 x1 y1 : Z) (s : S) : option S :=
  let dx := if x0 <? x1 then i32 (x1 - x0) else i32 (x0 - x1) in
  let sx := if x0 <? x1 then 1 else -1 in
  let dy := if y0 <? y1 then i32 (y0 - y1) else i32 (y1 - y0) in
  let sy := if y0 <? y1 then 1 else -1 in
  line_loop plot fuel dx sx dy sy x1 y1 x0 y0 (i32 (dx + dy)) s.

Definition draw_line (fuel : nat) (x0 y0 x1 y1 rgb : Z) (m : video) : option video :=
  line (λ x y, put_pixel (u32 x) (u32 y) rgb) fuel x0 y0 x1 y1 m.

(** The same loop where only the first [fuel] iterations are of interest, whether it has
    ended by then or not: what the line has drawn so far. *)
Fixpoint line_so_far {S} (plot : Z → Z → S → S) (fuel : nat) (dx sx dy sy x1 y1 : Z)
    (x0 y0 err : Z) (s : S) : S :=
  let s := plot x0 y0 s in
  if (x0 =? x1) && (y0 =? y1) then s else
  match fuel with
  | O => s
  | S fuel =>
      let e2 := i32 (2 * err) in
      let '(err, x0) := if dy <=? e2 then (i32 (err + dy), i32 (x0 + sx)) else (err, x0) in
      let '(err, y0) := if e2 <=? dx then (i32 (err + dx), i32 (y0 + sy)) else (err, y0) in
      line_so_far plot fuel dx sx dy sy x1 y1 x0 y0 err s
  end.

Definition draw_line_so_far (fuel : nat) (x0 y0 x1 y1 rgb : Z) (m : video) : video :=
  let dx := if x0 <? x1 then i32 (x1 - x0) else i32 (x0 - x1) in
  let sx := if x0 <? x1 then 1 else -1 in
  let dy := if y0 <? y1 then i32 (y0 - y1) else i32 (y1 - y0) in
  let sy := if y0 <? y1 then 1 else -1 in
  line_so_far (λ x y, put_pixel (u32 x) (u32 y) rgb) fuel dx sx dy sy x1 y1 x0 y0 (i32 (dx + dy)) m.

Definition draw_char (glyph : Z → list Z) (x y c fg bg : Z) (m : video) : video :=
  let g := glyph c in
  for_up 0 8 (λ row m,
    let bits := zget g row in
    for_up 0 8 (λ col m,
      let on := truth ((bits ≫ (7 - col)) .& 1) in
      put_pixel (u32 (x + col)) (u32 (y + row)) (if on then fg else bg) m) m) m.

(** The bytes of the string, without its NUL. *)
Fixpoint draw_string_from (glyph : Z → list Z) (x cx cy fg bg : Z) (s : list Z) (m : video) : video :=
  match s with
  | [] => m
  | c :: s =>
      if c =? 10 then draw_string_from glyph x x (u32 (cy + 8)) fg bg s m
      else draw_string_from glyph x (u32 (cx + 8)) cy fg bg s (draw_char glyph cx cy c fg bg m)
  end.
Definition draw_string (glyph : Z → list Z) (x y fg bg : Z) (s : list Z) (m : video) : video :=
  draw_string_from glyph x x y fg bg s m.
End draw.

(** ** The two drivers *)

Module X86.
Definition fb_available (fb : option fb_info) : bool := available fb.
Definition fb_width (fb : option fb_info) : Z := width fb.
Definition fb_height (fb : option fb_info) : Z := height fb.
Definition fb_put_pixel (fb : option fb_info) := put_pixel fb.
Definition fb_fill_rect (fb : option fb_info) := fill_rect fb.
Definition fb_clear (fb : option fb_info) := clear fb.
Definition fb_draw_line (fb : option fb_info) := draw_line fb.
Definition fb_draw_char (fb : option fb_info) := draw_char fb font8x8_glyph.
Definition fb_draw_string (fb : option fb_info) := draw_string fb font8x8_glyph.
End X86.

Module A64.
Definition fb_available (fb : fb_info) : bool := available (Some fb).
Definition fb_width (fb : fb_info) : Z := width (Some fb).
Definition fb_height (fb : fb_info) : Z := height (Some fb).
Definition fb_put_pixel (fb : fb_info) := put_pixel (Some fb).
Definition fb_fill_rect (fb : fb_info) := fill_rect (Some fb).
Definition fb_clear (fb : fb_info) := clear (Some fb).
Definition fb_draw_line (fb : fb_info) := draw_line (Some fb).
Definition fb_draw_char (fb : fb_info) := draw_char (Some fb) font8x8_glyph_a64.
Definition fb_draw_string (fb : fb_info) := draw_string (Some fb) font8x8_glyph_a64.
End A64.

(** ** Bresenham's line *)

(** The points [P], plotted in order. *)
Definition plot_all {S} (plot : Z → Z → S → S) (P : list (Z * Z)) (s : S) : S :=
  fold_left (λ s p, plot (fst p) (snd p) s) P s.

Section line.
Context {S : Type} (plot : Z → Z → S → S) (x0 y0 a b sx sy : Z).
Context (Ha : 0 <= a <= 2 ^ 29) (Hb : 0 <= b <= 2 ^ 29).
Context (Hsx : sx = 1 ∨ sx = -1) (Hsy : sy = 1 ∨ sy = -1).
Context (Hx0 : - 2 ^ 28 <= x0 <= 2 ^ 28) (Hy0 : - 2 ^ 28 <= y0 <= 2 ^ 28).
Context (Hx1 : - 2 ^ 28 <= x0 + sx * a <= 2 ^ 28) (Hy1 : - 2 ^ 28 <= y0 + sy * b <= 2 ^ 28).

(** The loop at the point [i] steps in x and [j] steps in y from the start. *)
Definition at_point (fuel : nat) (i j : Z) (s : S) : option S :=
  line_loop plot fuel a sx (- b) sy (x0 + sx * a) (y0 + sy * b)
    (x0 + sx * i) (y0 + sy * j) (a * j - b * i + a - b) s.

(** One iteration away from the end point. *)
Lemma at_point_step fuel i j s :
  0 <= i <= a → 0 <= j <= b → (i < a ∨ j < b) →
  - Z.max a b <= 2 * (a * j - b * i) <= Z.max a b →
  at_point (Datatypes.S fuel) i j s =
  at_point fuel (if b - 2 * a <=? 2 * (a * j - b * i) then i + 1 else i)
                (if 2 * (a * j - b * i) <=? 2 * b - a then j + 1 else j)
                (plot (x0 + sx * i) (y0 + sy * j) s).
Proof.
  intros Hi Hj Hne HD. unfold at_point. cbn [line_loop].
  set (D := a * j - b * i) in *.
  replace ((x0 + sx * i =? x0 + sx * a) && (y0 + sy * j =? y0 + sy * b)) with false.
  2:{ symmetry. apply andb_false_iff. rewrite !Z.eqb_neq. destruct Hsx as [-> | ->], Hsy as [-> | ->]; lia. }
  rewrite (i32_id (2 * (D + a - b))) by (unfold in_i; lia).
  replace (- b <=? 2 * (D + a - b)) with (b - 2 * a <=? 2 * D)
    by (destruct (Z.leb_spec (b - 2 * a) (2 * D)), (Z.leb_spec (- b) (2 * (D + a - b))); lia).
  assert (∀ v, - 2 ^ 28 <= v <= 2 ^ 28 → ∀ d, d = 1 ∨ d = -1 → i32 (v + d) = v + d) as Hstep
    by (intros; apply i32_id; unfold in_i; lia).
  destruct (Z.leb_spec (b - 2 * a) (2 * D)) as [E1|E1].
  - rewrite (i32_id (D + a - b + - b)) by (unfold in_i; lia).
    rewrite (Hstep (x0 + sx * i)) by (destruct Hsx as [-> | ->]; lia || done).
    replace (2 * (D + a - b) <=? a) with (2 * D <=? 2 * b - a)
      by (destruct (Z.leb_spec (2 * D) (2 * b - a)), (Z.leb_spec (2 * (D + a - b)) a); lia).
    destruct (Z.leb_spec (2 * D) (2 * b - a)) as [E2|E2].
    + rewrite (i32_id (D + a - b + - b + a)) by (unfold in_i; lia).
      rewrite (Hstep (y0 + sy * j)) by (destruct Hsy as [-> | ->]; lia || done).
      f_equal; unfold D; lia.
    + f_equal; unfold D; lia.
  - replace (2 * (D + a - b) <=? a) with (2 * D <=? 2 * b - a)
      by (destruct (Z.leb_spec (2 * D) (2 * b - a)), (Z.leb_spec (2 * (D + a - b)) a); lia).
    destruct (Z.leb_spec (2 * D) (2 * b - a)) as [E2|E2]; [|exfalso; lia].
    rewrite (i32_id (D + a - b + a)) by (unfold in_i; lia).
    rewrite (Hstep (y0 + sy * j)) by (destruct Hsy as [-> | ->]; lia || done).
    f_equal; unfold D; lia.
Qed.

Lemma at_point_end fuel s :
  at_point fuel a b s = Some (plot (x0 + sx * a) (y0 + sy * b) s).
Proof. unfold at_point. destruct fuel; cbn [line_loop]; by rewrite !Z.eqb_refl. Qed.

(** The shape of the points plotted from step [n0] on: after [n] steps along the
    longer side the point is within half a pixel of the ideal line. *)
Definition near (n : Z) (p : Z * Z) : Prop :=
  ∃ i j, p = (x0 + sx * i, y0 + sy * j) ∧ 0 <= i <= a ∧ 0 <= j <= b ∧
    (if b <=? a then i = n else j = n) ∧ 2 * Z.abs (a * j - b * i) <= Z.max a b.

Definition run_from (n0 : Z) (k : nat) (r : option S) (s : S) : Prop :=
  ∃ P, r = Some (plot_all plot P s) ∧ length P = Datatypes.S k ∧
    ∀ n p, P !! n = Some p → near (n0 + Z.of_nat n) p.

Lemma run_cons n0 k p r s :
  near n0 p → run_from (n0 + 1) k r (plot (fst p) (snd p) s) → run_from n0 (Datatypes.S k) r s.
Proof.
  intros Hp (P & Hr & Hl & HP). exists (p :: P). split; [exact Hr|]. split; [simpl; lia|].
  intros [|n] q Hq; simpl in Hq.
  - simplify_eq. by rewrite Z.add_0_r.
  - replace (n0 + Z.of_nat (Datatypes.S n)) with (n0 + 1 + Z.of_nat n) by lia. by apply HP.
Qed.

Lemma run_end n0 fuel s : near n0 (x0 + sx * a, y0 + sy * b) → run_from n0 0 (at_point fuel a b s) s.
Proof.
  intros Hn. exists [(x0 + sx * a, y0 + sy * b)]. rewrite at_point_end. split_and!; [done|done|].
  intros [|n] p Hp; [|done]. injection Hp as <-. by rewrite Z.add_0_r.
Qed.

(** The x coordinate leads. *)
Lemma x_major k : 0 < a → b <= a → ∀ fuel i j s,
  i + Z.of_nat k = a → 0 <= i → - a < 2 * (a * j - b * i) <= a → (k <= fuel)%nat →
  run_from i k (at_point fuel i j s) s.
Proof.
  intros Hpos Hba. induction k as [|k IH]; intros fuel i j s Hik Hi HD Hf.
  - assert (i = a) as -> by lia. assert (j = b) as -> by nia. apply run_end.
    exists a, b. rewrite (proj2 (Z.leb_le _ _)) by done. split_and!; [done|lia..].
  - assert (0 <= j <= b) as Hj by nia. destruct fuel as [|fuel]; [lia|].
    rewrite at_point_step by lia. rewrite (proj2 (Z.leb_le (b - 2 * a) _)) by lia.
    apply run_cons with (x0 + sx * i, y0 + sy * j).
    + exists i, j. rewrite (proj2 (Z.leb_le b a)) by done. split_and!; [done|lia..].
    + apply IH; [lia|lia| |lia].
      destruct (Z.leb_spec (2 * (a * j - b * i)) (2 * b - a)); lia.
Qed.

(** The y coordinate leads. *)
Lemma y_major k : a < b → ∀ fuel i j s,
  j + Z.of_nat k = b → 0 <= j → - b <= 2 * (a * j - b * i) < b → (k <= fuel)%nat →
  run_from j k (at_point fuel i j s) s.
Proof.
  intros Hab. induction k as [|k IH]; intros fuel i j s Hjk Hj HD Hf.
  - assert (j = b) as -> by lia. assert (i = a) as -> by nia. apply run_end.
    exists a, b. rewrite (proj2 (Z.leb_gt _ _)) by done. split_and!; [done|lia..].
  - assert (0 <= i <= a) as Hi by nia. destruct fuel as [|fuel]; [lia|].
    rewrite at_point_step by lia. rewrite (proj2 (Z.leb_le _ (2 * b - a))) by lia.
    apply run_cons with (x0 + sx * i, y0 + sy * j).
    + exists i, j. rewrite (proj2 (Z.leb_gt b a)) by done. split_and!; [done|lia..].
    + apply IH; [lia|lia| |lia].
      destruct (Z.leb_spec (b - 2 * a) (2 * (a * j - b * i))); lia.
Qed.

Lemma line_run fuel s :
  (Z.to_nat (Z.max a b) <= fuel)%nat → run_from 0 (Z.to_nat (Z.max a b)) (at_point fuel 0 0 s) s.
Proof.
  intros Hf. destruct (Z.leb_spec b a).
  - destruct (decide (a = 0)) as [E|].
    + assert (b = 0) as Eb by lia. replace (Z.to_nat (Z.max a b)) with 0%nat by lia.
      assert (at_point fuel 0 0 s = at_point fuel a b s) as -> by (by rewrite E, Eb).
      apply run_end. exists a, b. rewrite (proj2 (Z.leb_le _ _)) by done. split_and!; [done|lia..].
    + apply x_major; lia.
  - apply y_major; lia.
Qed.
End line.

(** ** Filled rectangles *)

(** The reference definition: every pixel of the rectangle, one by one. *)
Definition fill_pixels (fb : option fb_info) (x y w h rgb : Z) (m : video) : video :=
  for_up y (y + h) (λ row m, for_up x (x + w) (λ col m, put_pixel fb col row rgb m) m) m.

Lemma for_up_nop {St} lo hi (body : Z → St → St) s :
  (∀ i t, lo <= i < hi → body i t = t) → for_up lo hi body s = s.
Proof.
  intros H. pose proof (for_up_inv (λ _ t, t = s) body lo hi s eq_refl) as Hi. apply Hi.
  intros i t Hr ->. by apply H.
Qed.

Lemma for_n_app {St} n k i (body : Z → St → St) s :
  for_n (n + k) i body s = for_n k (i + Z.of_nat n) body (for_n n i body s).
Proof.
  revert i s. induction n as [|n IH]; intros i s; simpl; [by rewrite Z.add_0_r|].
  rewrite IH. f_equal. lia.
Qed.

Lemma for_up_split {St} lo mid hi (body : Z → St → St) s :
  lo <= mid <= hi → for_up lo hi body s = for_up mid hi body (for_up lo mid body s).
Proof.
  intros H. unfold for_up. replace (Z.to_nat (hi - lo)) with (Z.to_nat (mid - lo) + Z.to_nat (hi - mid))%nat by lia.
  rewrite for_n_app. f_equal. lia.
Qed.

(** Iterations past [k] that do nothing can be dropped. *)
Lemma for_up_clip {St} lo hi k (body : Z → St → St) s :
  (∀ i t, k <= i < hi → body i t = t) → for_up lo hi body s = for_up lo (Z.min hi k) body s.
Proof.
  intros H. destruct (Z.le_gt_cases hi k); [by rewrite Z.min_l by lia|]. rewrite Z.min_r by lia.
  destruct (Z.le_gt_cases lo k).
  - rewrite (for_up_split lo k hi) by lia. by apply for_up_nop.
  - rewrite (for_up_nop lo k) by lia. apply for_up_nop. intros i t Hi. apply H. lia.
Qed.

Lemma put_pixel_off i x y rgb m :
  fb_w i <= x ∨ fb_h i <= y → put_pixel (Some i) x y rgb m = m.
Proof.
  intros [H|H]; unfold put_pixel; rewrite (proj2 (Z.leb_le _ _) H), ?orb_true_r; done.
Qed.

(** A row: the moving pointer stays on the pixels [put_pixel] addresses. *)
Lemma fill_row_pixels i x x1 row rgb m :
  fb_present i = true → row < fb_h i → x1 <= fb_w i →
  fill_row i x x1 (rgb .& 0x00FFFFFF) row m =
  for_up x x1 (λ col m, put_pixel (Some i) col row rgb m) m.
Proof.
  intros Hp Hrow Hx1. unfold fill_row. destruct (Z.le_gt_cases x1 x) as [Hle|Hlt].
  { unfold for_up. by replace (Z.to_nat (x1 - x)) with 0%nat by lia. }
  assert (∀ n col p t, p = u64 (u64 (fb_addr i + row * fb_pitch i) + col * 4) →
    col + Z.of_nat n <= x1 →
    snd (for_n n col (fill_col (rgb .& 16777215)) (p, t)) =
    for_n n col (λ col m, put_pixel (Some i) col row rgb m) t) as Hn.
  { induction n as [|n IH]; intros col p t Hptr Hcol; [done|]. cbn [for_n fill_col].
    rewrite (IH (col + 1)); [|rewrite Hptr|lia].
    - f_equal. unfold put_pixel. rewrite Hp, (proj2 (Z.leb_gt _ _)), (proj2 (Z.leb_gt _ _)) by lia.
      simpl. by rewrite Hptr.
    - unfold u64. rewrite Zplus_mod_idemp_l, <- Z.add_assoc. f_equal. f_equal. lia. }
  apply Hn; [|lia]. unfold u64. by rewrite Zplus_mod_idemp_l.
Qed.

Lemma fill_rect_pixels fb x y w h rgb m :
  in_u 32 x → in_u 32 y → x + w < 2 ^ 32 → y + h < 2 ^ 32 → 0 <= w → 0 <= h →
  fill_rect fb x y w h rgb m = fill_pixels fb x y w h rgb m.
Proof.
  intros Hx Hy Hxw Hyh Hw Hh. unfold fill_rect, fill_pixels. destruct fb as [i|].
  2:{ symmetry. apply for_up_nop. intros. by apply for_up_nop. }
  destruct (fb_present i) eqn:Hp; simpl.
  2:{ symmetry. apply for_up_nop. intros. apply for_up_nop. intros. unfold put_pixel. by rewrite Hp. }
  unfold in_u in *. rewrite !u32_id by (unfold in_u; lia).
  replace (if fb_w i <? x + w then fb_w i else x + w) with (Z.min (x + w) (fb_w i))
    by (destruct (Z.ltb_spec (fb_w i) (x + w)); lia).
  replace (if fb_h i <? y + h then fb_h i else y + h) with (Z.min (y + h) (fb_h i))
    by (destruct (Z.ltb_spec (fb_h i) (y + h)); lia).
  rewrite (for_up_clip y (y + h) (fb_h i)).
  2:{ intros r t Hr. apply for_up_nop. intros. apply put_pixel_off. lia. }
  destruct ((Z.min (x + w) (fb_w i) <=? x) || (Z.min (y + h) (fb_h i) <=? y)) eqn:E.
  - symmetry. apply for_up_nop. intros r t Hr. rewrite (for_up_clip x (x + w) (fb_w i))
      by (intros; apply put_pixel_off; lia).
    apply for_up_nop. intros c t' Hc. apply orb_true_iff in E. bool_to_prop. lia.
  - apply for_up_ext. intros r t Hr. rewrite (for_up_clip x (x + w) (fb_w i))
      by (intros; apply put_pixel_off; lia).
    apply fill_row_pixels; [done|lia|lia].
Qed.

(** ** Where the stores go *)

(** The addresses of the pixels on the screen. *)
Definition on_screen (i : fb_info) (a : Z) : Prop :=
  ∃ x y, 0 <= x < fb_w i ∧ 0 <= y < fb_h i ∧ a = u64 (fb_addr i + y * fb_pitch i + x * 4).

Definition stays_on_screen (i : fb_info) (m m' : video) : Prop :=
  ∀ a, m' !! a ≠ m !! a → on_screen i a.

#[export] Instance stays_preorder i : PreOrder (stays_on_screen i).
Proof.
  split; [by intros m a|]. intros m1 m2 m3 H12 H23 a Ha.
  destruct (decide (m2 !! a = m1 !! a)) as [E|]; [|by apply H12]. apply H23. congruence.
Qed.

Lemma put_pixel_stays i x y rgb m :
  0 <= x → 0 <= y → stays_on_screen i m (put_pixel (Some i) x y rgb m).
Proof.
  intros Hx Hy. unfold put_pixel. destruct (_ || _ || _) eqn:E; [done|]. bool_to_prop.
  intros a Ha. destruct (decide (a = u64 (u64 (fb_addr i + y * fb_pitch i) + x * 4))) as [->|].
  - exists x, y. split_and!; [lia..|]. unfold u64. by rewrite Zplus_mod_idemp_l.
  - cbv zeta in Ha. by rewrite lookup_insert_ne in Ha.
Qed.

Lemma for_up_stays i lo hi (body : Z → video → video) m :
  (∀ j t, lo <= j < hi → stays_on_screen i t (body j t)) → stays_on_screen i m (for_up lo hi body m).
Proof.
  intros H. apply (for_up_inv (λ _ t, stays_on_screen i m t)); [done|].
  intros j t Hj Ht. etrans; [done|by apply H].
Qed.

Lemma fill_rect_stays i x y w h rgb m :
  0 <= x → 0 <= y → stays_on_screen i m (fill_rect (Some i) x y w h rgb m).
Proof.
  intros Hx Hy. unfold fill_rect. destruct (fb_present i) eqn:Hp; simpl; [|done].
  set (x1 := if fb_w i <? u32 (x + w) then _ else _). set (y1 := if fb_h i <? u32 (y + h) then _ else _).
  case_if; [done|]. apply for_up_stays. intros row t Hrow.
  assert (x1 <= fb_w i) by (unfold x1; destruct (Z.ltb_spec (fb_w i) (u32 (x + w))); lia).
  assert (y1 <= fb_h i) by (unfold y1; destruct (Z.ltb_spec (fb_h i) (u32 (y + h))); lia).
  rewrite fill_row_pixels by (done || lia). apply for_up_stays. intros col t' Hcol.
  apply put_pixel_stays; lia.
Qed.

Lemma draw_char_stays i glyph x y c fg bg m :
  stays_on_screen i m (draw_char (Some i) glyph x y c fg bg m).
Proof.
  unfold draw_char. apply for_up_stays. intros row t _. apply for_up_stays. intros col t' _.
  apply put_pixel_stays; apply u32_range.
Qed.

Lemma draw_string_stays i glyph x y fg bg s m :
  stays_on_screen i m (draw_string (Some i) glyph x y fg bg s m).
Proof.
  unfold draw_string. generalize x at 2 as cx. revert y m.
  induction s as [|c s IH]; intros cy m cx; simpl; [done|]. case_if; [by apply IH|].
  etrans; [apply draw_char_stays|apply IH].
Qed.

Lemma line_so_far_stays i fuel dx sx dy sy x1 y1 x0 y0 err rgb m :
  stays_on_screen i m
    (line_so_far (λ x y, put_pixel (Some i) (u32 x) (u32 y) rgb) fuel dx sx dy sy x1 y1 x0 y0 err m).
Proof.
  revert x0 y0 err m. induction fuel as [|fuel IH]; intros x0 y0 err m; cbn [line_so_far];
    (case_if; [apply put_pixel_stays; apply u32_range|]); [apply put_pixel_stays; apply u32_range|].
  destruct (dy <=? i32 (2 * err)), (i32 (2 * err) <=? dx);
    (etrans; [apply put_pixel_stays; apply u32_range|apply IH]).
Qed.

(** A line that has ended is what it has drawn. *)
Lemma line_loop_so_far {S} (plot : Z → Z → S → S) fuel dx sx dy sy x1 y1 x0 y0 err s s' :
  line_loop plot fuel dx sx dy sy x1 y1 x0 y0 err s = Some s' →
  line_so_far plot fuel dx sx dy sy x1 y1 x0 y0 err s = s'.
Proof.
  revert x0 y0 err s. induction fuel as [|fuel IH]; intros x0 y0 err s; cbn [line_loop line_so_far];
    (case_if; [by intros [= <-]|]); [done|].
  destruct (dy <=? i32 (2 * err)), (i32 (2 * err) <=? dx); apply IH.
Qed.

(** A drawing call of the interface (coordinates as the callers pass them). *)
Inductive draw_op :=
  | PutPixel (x y rgb : Z)
  | FillRect (x y w h rgb : Z)
  | Clear (rgb : Z)
  | DrawLine (x0 y0 x1 y1 rgb : Z)
  | DrawString (x y fg bg : Z) (s : list Z).

(** The call on the x86_64 driver; a line is given [fuel] iterations. *)
Definition run_op (fb : option fb_info) (fuel : nat) (op : draw_op) (m : video) : option video :=
  match op with
  | PutPixel x y rgb => Some (X86.fb_put_pixel fb (u32 x) (u32 y) rgb m)
  | FillRect x y w h rgb => Some (X86.fb_fill_rect fb (u32 x) (u32 y) (u32 w) (u32 h) rgb m)
  | Clear rgb => Some (X86.fb_clear fb rgb m)
  | DrawLine x0 y0 x1 y1 rgb => X86.fb_draw_line fb fuel (i32 x0) (i32 y0) (i32 x1) (i32 y1) rgb m
  | DrawString x y fg bg s => Some (X86.fb_draw_string fb (u32 x) (u32 y) fg bg s m)
  end.

(** The call with its line cut off after [fuel] iterations. *)
Definition op_so_far (fb : option fb_info) (fuel : nat) (op : draw_op) (m : video) : video :=
  match op with
  | PutPixel x y rgb => X86.fb_put_pixel fb (u32 x) (u32 y) rgb m
  | FillRect x y w h rgb => X86.fb_fill_rect fb (u32 x) (u32 y) (u32 w) (u32 h) rgb m
  | Clear rgb => X86.fb_clear fb rgb m
  | DrawLine x0 y0 x1 y1 rgb => draw_line_so_far fb fuel (i32 x0) (i32 y0) (i32 x1) (i32 y1) rgb m
  | DrawString x y fg bg s => X86.fb_draw_string fb (u32 x) (u32 y) fg bg s m
  end.

Lemma op_so_far_stays i fuel op m : stays_on_screen i m (op_so_far (Some i) fuel op m).
Proof.
  destruct op as [x y rgb|x y w h rgb|rgb|x0 y0 x1 y1 rgb|x y fg bg s]; cbn [op_so_far].
  - apply put_pixel_stays; apply u32_range.
  - apply fill_rect_stays; apply u32_range.
  - unfold X86.fb_clear, clear. case_if; [done|]. by apply fill_rect_stays.
  - apply line_so_far_stays.
  - apply draw_string_stays.
Qed.

Lemma run_op_so_far fb fuel op m m' : run_op fb fuel op m = Some m' → op_so_far fb fuel op m = m'.
Proof. destruct op; [by intros [= <-]..| |by intros [= <-]]. apply line_loop_so_far. Qed.

Lemma run_op_stays i fuel op m m' : run_op (Some i) fuel op m = Some m' → stays_on_screen i m m'.
Proof. intros <-%run_op_so_far. apply op_so_far_stays. Qed.

(** ** Properties *)

(** C31: Bresenham.  For end points within 2^28 of the origin the loop of fb_draw_line
    ends after max(|dx|, |dy|) + 1 pixels (fuel for as many iterations is enough).
    The first pixel is the start, the last one the end, and pixel number [n] is [n]
    steps along the longer side and within half a pixel of the ideal line:
    2 |dx * j - dy * i| <= max(dx, dy) for a point [i] steps across and [j] down. *)
Theorem fb_draw_line_spec fb fuel x0 y0 x1 y1 rgb m :
  - 2 ^ 28 <= x0 <= 2 ^ 28 → - 2 ^ 28 <= y0 <= 2 ^ 28 →
  - 2 ^ 28 <= x1 <= 2 ^ 28 → - 2 ^ 28 <= y1 <= 2 ^ 28 →
  let a := Z.abs (x1 - x0) in let b := Z.abs (y1 - y0) in
  (Z.to_nat (Z.max a b) <= fuel)%nat →
  ∃ P, X86.fb_draw_line fb fuel x0 y0 x1 y1 rgb m =
      Some (plot_all (λ x y, X86.fb_put_pixel fb (u32 x) (u32 y) rgb) P m) ∧
    length P = S (Z.to_nat (Z.max a b)) ∧
    P !! 0%nat = Some (x0, y0) ∧ P !! Z.to_nat (Z.max a b) = Some (x1, y1) ∧
    ∀ n p, P !! n = Some p →
      near x0 y0 a b (if x0 <? x1 then 1 else -1) (if y0 <? y1 then 1 else -1) (Z.of_nat n) p.
Proof.
  intros Hx0 Hy0 Hx1 Hy1 a b Hf.
  set (sx := if x0 <? x1 then 1 else -1). set (sy := if y0 <? y1 then 1 else -1).
  assert (x0 + sx * a = x1) as Ex by (unfold sx, a; destruct (Z.ltb_spec x0 x1); lia).
  assert (y0 + sy * b = y1) as Ey by (unfold sy, b; destruct (Z.ltb_spec y0 y1); lia).
  destruct (line_run (λ x y, put_pixel fb (u32 x) (u32 y) rgb) x0 y0 a b sx sy) with (fuel := fuel) (s := m)
    as (P & E & Hl & HP); try lia.
  { unfold sx. destruct (x0 <? x1); auto. }
  { unfold sy. destruct (y0 <? y1); auto. }
  exists P. split_and!.
  - unfold X86.fb_put_pixel. rewrite <- E. unfold X86.fb_draw_line, draw_line, line, at_point. rewrite Ex, Ey.
    replace (if x0 <? x1 then i32 (x1 - x0) else i32 (x0 - x1)) with a
      by (unfold a; destruct (Z.ltb_spec x0 x1); rewrite i32_id by (unfold in_i; lia); lia).
    replace (if y0 <? y1 then i32 (y0 - y1) else i32 (y1 - y0)) with (- b)
      by (unfold b; destruct (Z.ltb_spec y0 y1); rewrite i32_id by (unfold in_i; lia); lia).
    rewrite (i32_id (a + - b)) by (unfold in_i; lia). f_equal; lia.
  - done.
  - destruct (P !! 0%nat) as [p|] eqn:Ep; [|apply lookup_ge_None in Ep; lia].
    destruct (HP _ _ Ep) as (i & j & -> & ? & ? & Hlead & Hd). do 3 f_equal; revert Hlead Hd; case_if;
      bool_to_prop; intros; (assert (i = 0) as -> by nia; assert (j = 0) as -> by nia; lia).
  - destruct (P !! Z.to_nat (Z.max a b)) as [p|] eqn:Ep; [|apply lookup_ge_None in Ep; lia].
    destruct (HP _ _ Ep) as (i & j & -> & Hi & Hj & Hlead & Hd). rewrite <- Ex, <- Ey.
    assert (i = a ∧ j = b) as [-> ->]; [|done].
    clear -Hlead Hd Hi Hj Hx0. clearbody a b.
    destruct (Z.leb_spec b a); [assert (i = a) as -> by lia|assert (j = b) as -> by lia]; split; (done || nia).
  - exact HP.
Qed.

Lemma fb_draw_line_spec_witness :
  ∃ P, X86.fb_draw_line None 5 10 20 14 17 0xFF ∅ =
      Some (plot_all (λ x y, X86.fb_put_pixel None (u32 x) (u32 y) 0xFF) P ∅) ∧
    length P = 5%nat ∧ P !! 0%nat = Some (10, 20) ∧ P !! 4%nat = Some (14, 17).
Proof.
  destruct (fb_draw_line_spec None 5 10 20 14 17 0xFF ∅) as (P & E & Hl & H0 & H1 & _);
    [lia..|simpl; lia|].
  exists P. split; [exact E|]. split; [exact Hl|]. split; [exact H0|exact H1].
Defined.

(** Fb_fill_rect, which clips once and walks a pointer along each row, does the
    same as painting every pixel of the rectangle with fb_put_pixel, for any
    rectangle whose corner coordinates fit in 32 bits. *)
Lemma fb_fill_rect_is_pixels fb x y w h rgb m :
  in_u 32 x → in_u 32 y → x + w < 2 ^ 32 → y + h < 2 ^ 32 → 0 <= w → 0 <= h →
  X86.fb_fill_rect fb x y w h rgb m =
  for_up y (y + h) (λ row m, for_up x (x + w) (λ col m, X86.fb_put_pixel fb col row rgb m) m) m.
Proof. apply fill_rect_pixels. Qed.

Definition example_fb : fb_info := mk_fb true 0xFD000000 64 16 8.

Lemma fb_fill_rect_is_pixels_witness :
  X86.fb_fill_rect (Some example_fb) 14 6 5 1 0xFF1234 ∅ =
    {[0xFD0001B8 := 0xFF1234; 0xFD0001BC := 0xFF1234]} ∧
  X86.fb_fill_rect (Some example_fb) 14 6 5 1 0xFF1234 ∅ =
  for_up 6 7 (λ row m, for_up 14 19 (λ col m, X86.fb_put_pixel (Some example_fb) col row 0xFF1234 m) m) ∅.
Proof.
  split; [by vm_compute|].
  apply (fb_fill_rect_is_pixels (Some example_fb) 14 6 5 1 0xFF1234 ∅); unfold in_u; lia.
Defined.

(** C32: no drawing call stores outside the framebuffer.  Whatever coordinates and
    sizes the calls get, video memory changes only at addresses of visible pixels, and
    when a scanline has room for [width] pixels and the framebuffer does not reach
    the end of the address space these lie in
    [addr, addr + pitch * height - 4].  This holds at any moment of fb_draw_line: [calls]
    gives each call a number of iterations after which a line is looked at, also a line
    that has not ended or never does; and of calls that return it says the same. *)
Theorem fb_stores_on_screen i calls m :
  0 <= fb_addr i → 4 * fb_w i <= fb_pitch i → fb_addr i + fb_pitch i * fb_h i < 2 ^ 64 →
  let m' := foldl (λ m '(fuel, op), op_so_far (Some i) fuel op m) m calls in
  (∀ a, m' !! a ≠ m !! a →
    on_screen i a ∧ fb_addr i <= a <= fb_addr i + fb_pitch i * fb_h i - 4) ∧
  ∀ r, foldl (λ r '(fuel, op), r ≫= run_op (Some i) fuel op) (Some m) calls = Some r → r = m'.
Proof.
  intros H0 Hpitch Htop m'. split.
  - assert (stays_on_screen i m m') as Hs.
    { unfold m'. clear m'. revert m. induction calls as [|[fuel op] calls IH]; intros m; [done|].
      etrans; [apply op_so_far_stays|apply IH]. }
    intros a Ha. pose proof (Hs a Ha) as Hon. split; [done|]. destruct Hon as (x & y & Hx & Hy & ->).
    rewrite u64_id; unfold in_u; nia.
  - intros r. unfold m'. clear m'. revert m. induction calls as [|[fuel op] calls IH]; intros m; cbn; [congruence|].
    destruct (run_op (Some i) fuel op m) as [m1|] eqn:E.
    + apply run_op_so_far in E as <-. apply IH.
    + intros H. exfalso. clear -H. by induction calls as [|[]].
Qed.

(** The second line starts at the corner of the 32-bit range, where the differences wrap;
    it is looked at after 3 iterations. *)
Definition example_calls : list (nat * draw_op) :=
  [(0%nat, FillRect (-3) 2 9 9 0xFF); (100%nat, DrawLine (-5) (-5) 20 3 1);
   (3%nat, DrawLine (2 ^ 31 - 1) 0 (- 2 ^ 31) 5 2); (0%nat, DrawString 2 2 1 0 [72])].

Lemma fb_stores_on_screen_witness :
  let m := foldl (λ m '(fuel, op), op_so_far (Some example_fb) fuel op m) ∅ example_calls in
  run_op (Some example_fb) 3 (DrawLine (2 ^ 31 - 1) 0 (- 2 ^ 31) 5 2) ∅ = None ∧
  ∀ a, m !! a ≠ None → on_screen example_fb a.
Proof.
  split; [vm_compute; reflexivity|]. intros a Ha.
  apply (fb_stores_on_screen example_fb example_calls ∅); [simpl; lia..|].
  rewrite lookup_empty. exact Ha.
Defined.

(** A rectangle whose right edge wraps past 2^32 is not clipped but dropped: a
    rectangle that starts left of the screen (a negative coordinate cast to 32 bits
    unsigned) and reaches into it leaves the screen unchanged. *)
Theorem fb_fill_rect_left_of_screen fb (x : Z) y w h rgb m :
  - 2 ^ 31 <= x < 0 → 0 <= x + w < 2 ^ 31 →
  X86.fb_fill_rect fb (u32 x) y w h rgb m = m.
Proof.
  intros Hx Hxw. unfold X86.fb_fill_rect, fill_rect. destruct fb as [i|]; [|done].
  case_if; [done|]. assert (u32 (u32 x + w) = x + w) as ->.
  { unfold u32. rewrite Zplus_mod_idemp_l. apply Z.mod_small. lia. }
  assert (u32 x = x + 2 ^ 32) as ->.
  { unfold u32. rewrite <- (Z.mod_add x 1), Z.mul_1_l, Z.mod_small; lia. }
  rewrite (proj2 (Z.leb_le _ (x + 2 ^ 32))); [done|]. case_if; bool_to_prop; lia.
Qed.

Lemma fb_fill_rect_left_of_screen_witness :
  X86.fb_fill_rect (Some example_fb) (u32 (-3)) 2 10 4 0xFF ∅ = ∅ ∧
  X86.fb_fill_rect (Some example_fb) 0 2 7 4 0xFF ∅ ≠ ∅.
Proof.
  split; [|vm_compute; discriminate].
  apply (fb_fill_rect_left_of_screen (Some example_fb) (-3) 2 10 4 0xFF ∅); lia.
Defined.
