(* ===== verification/Gui.v ===== *)
(** * The compositor: gui/gui.c

    The window array and the static variables are one record; the drawing calls an
    update makes are the list of [draw_op] it returns, in order.  The outside world
    of one update is a record: whether there is a framebuffer, its size, what the
    mouse driver reports and the tick count. *)

From S2P Require Import Prelude.
From S2P Require Import Font.
From S2P Require Import Framebuffer.

(** ** Data *)

Definition GUI_MAX_WINDOWS : Z := 4.
Definition TITLEBAR_HEIGHT : Z := 20.
Definition CURSOR_SIZE : Z := 10.

Record window := mk_window { wx : Z; wy : Z; ww : Z; wh : Z; wcolor : Z; wtitle : list Z }.
#[export] Instance window_inhabited : Inhabited window := populate (mk_window 0 0 0 0 0 []).
#[export] Instance window_eq_dec : EqDecision window.
Proof. solve_decision. Defined.

Record gui := mk_gui {
  windows : list window;
  window_count : Z;
  cursor_x : Z;
  cursor_y : Z;
  cursor_buttons : Z;
  prev_left_down : bool;
  drag_window : Z;
  drag_offset_x : Z;
  drag_offset_y : Z;
  last_redraw_tick : Z
}.

(** The static initialisers. *)
Definition gui_boot : gui :=
  mk_gui (replicate 4 (mk_window 0 0 0 0 0 [])) 0 0 0 0 false (-1) 0 0 0.

Record outside := mk_outside {
  gfx_available : bool;
  gfx_width : Z;
  gfx_height : Z;
  mouse : option (Z * Z * Z);
  ticks : Z
}.

Definition wget (ws : list window) (i : Z) : window := ws !!! Z.to_nat i.
Definition wset (ws : list window) (i : Z) (w : window) : list window := <[Z.to_nat i := w]> ws.

Definition set_windows (g : gui) (ws : list window) : gui :=
  mk_gui ws (window_count g) (cursor_x g) (cursor_y g) (cursor_buttons g) (prev_left_down g)
    (drag_window g) (drag_offset_x g) (drag_offset_y g) (last_redraw_tick g).
Definition set_drag (g : gui) (d : Z) : gui :=
  mk_gui (windows g) (window_count g) (cursor_x g) (cursor_y g) (cursor_buttons g)
    (prev_left_down g) d (drag_offset_x g) (drag_offset_y g) (last_redraw_tick g).
Definition set_offset (g : gui) (dx dy : Z) : gui :=
  mk_gui (windows g) (window_count g) (cursor_x g) (cursor_y g) (cursor_buttons g)
    (prev_left_down g) (drag_window g) dx dy (last_redraw_tick g).
Definition set_cursor (g : gui) (x y b : Z) : gui :=
  mk_gui (windows g) (window_count g) x y b (prev_left_down g)
    (drag_window g) (drag_offset_x g) (drag_offset_y g) (last_redraw_tick g).
Definition set_prev (g : gui) (b : bool) : gui :=
  mk_gui (windows g) (window_count g) (cursor_x g) (cursor_y g) (cursor_buttons g) b
    (drag_window g) (drag_offset_x g) (drag_offset_y g) (last_redraw_tick g).
Definition set_redraw (g : gui) (t : Z) : gui :=
  mk_gui (windows g) (window_count g) (cursor_x g) (cursor_y g) (cursor_buttons g)
    (prev_left_down g) (drag_window g) (drag_offset_x g) (drag_offset_y g) t.

Definition moved (w : window) (x y : Z) : window := mk_window x y (ww w) (wh w) (wcolor w) (wtitle w).
Definition recolored (w : window) : window :=
  mk_window (wx w) (wy w) (ww w) (wh w) (wcolor w .^ 0x00202020) (wtitle w).

(** ** Operations *)

Definition raise_window (index : Z) (g : gui) : gui :=
  let tmp := wget (windows g) index in
  let ws := for_up index (window_count g - 1) (λ j ws, wset ws j (wget ws (j + 1))) (windows g) in
  set_windows g (wset ws (window_count g - 1) tmp).

Definition in_win (g : gui) (w : window) : bool :=
  (wx w <=? cursor_x g) && (cursor_x g <? i32 (wx w + i32 (ww w))) &&
  (wy w <=? cursor_y g) && (cursor_y g <? i32 (wy w + i32 (wh w))).

(** The loop over the windows from the top one down; [n] is the number left. *)
Fixpoint click_loop (n : nat) (g : gui) : gui :=
  match n with
  | O => g
  | S n =>
      let i := Z.of_nat n in
      let w := wget (windows g) i in
      if negb (in_win g w) then click_loop n g else
      let g := if cursor_y g <? i32 (wy w + TITLEBAR_HEIGHT)
               then set_offset g (i32 (cursor_x g - wx w)) (i32 (cursor_y g - wy w))
               else set_windows g (wset (windows g) i (recolored w)) in
      let g := raise_window i g in
      set_drag g (window_count g - 1)
  end.

Definition handle_click (g : gui) : gui := click_loop (Z.to_nat (window_count g)) g.

Definition draw_window (w : window) : list draw_op :=
  [FillRect (wx w) (wy w) (ww w) (wh w) (wcolor w);
   FillRect (wx w) (wy w) (ww w) TITLEBAR_HEIGHT 0x00222222;
   DrawString (u32 (u32 (wx w) + 4)) (u32 (u32 (wy w) + 6)) 0x00FFFFFF 0x00222222 (wtitle w)].

Definition draw_cursor (g : gui) : list draw_op :=
  [FillRect (cursor_x g) (cursor_y g) CURSOR_SIZE CURSOR_SIZE 0x00FFFFFF;
   FillRect (u32 (u32 (cursor_x g) + 1)) (u32 (u32 (cursor_y g) + 1))
     (CURSOR_SIZE - 2) (CURSOR_SIZE - 2) 0x00000000].

Definition gui_init (o : outside) (g : gui) : gui :=
  if negb (gfx_available o) then g else
  let g := set_cursor g (i32 (gfx_width o / 2)) (i32 (gfx_height o / 2)) (cursor_buttons g) in
  let ws := wset (windows g) 0 (mk_window 40 40 220 140 0x00335577 [77; 69; 71; 75; 69; 82]) in
  let ws := wset ws 1 (mk_window 300 100 200 120 0x00553333 [87; 73; 78; 68; 79; 87; 32; 50]) in
  mk_gui ws 2 (cursor_x g) (cursor_y g) (cursor_buttons g) (prev_left_down g)
    (drag_window g) (drag_offset_x g) (drag_offset_y g) (last_redraw_tick g).

(** The input half of gui_update. *)
Definition gui_input (o : outside) (g : gui) : gui :=
  let g := match mouse o with Some (mx, my, mbtn) => set_cursor g mx my mbtn | None => g end in
  let left_down := truth (cursor_buttons g .& 0x01) in
  let g := if left_down && negb (prev_left_down g) then handle_click g else g in
  let g := if negb left_down then set_drag g (-1) else g in
  let g := set_prev g left_down in
  if 0 <=? drag_window g
  then set_windows g (wset (windows g) (drag_window g)
         (moved (wget (windows g) (drag_window g))
            (i32 (cursor_x g - drag_offset_x g)) (i32 (cursor_y g - drag_offset_y g))))
  else g.

(** The other half: the redraw, three ticks after the last one. *)
Definition gui_redraw (o : outside) (g : gui) : gui * list draw_op :=
  let now := ticks o in
  if u64 (now - last_redraw_tick g) <? 3 then (g, []) else
  let g := set_redraw g now in
  (g, FillRect 0 0 (gfx_width o) (gfx_height o) 0x00102030 ::
      concat (draw_window <$> take (Z.to_nat (window_count g)) (windows g)) ++ draw_cursor g).

Definition gui_update (o : outside) (g : gui) : gui * list draw_op :=
  if negb (gfx_available o) then (g, []) else gui_redraw o (gui_input o g).

(** ** Lemmas *)

Record gui_wf (g : gui) : Prop := {
  gw_length : length (windows g) = 4%nat;
  gw_count : 0 <= window_count g <= 4;
  gw_drag : drag_window g = -1 ∨ (0 < window_count g ∧ drag_window g = window_count g - 1)
}.

Lemma wget_middle A w B : wget (A ++ w :: B) (Z.of_nat (length A)) = w.
Proof. unfold wget. rewrite Nat2Z.id. by rewrite list_lookup_total_middle. Qed.

Lemma wset_middle A w w' B : wset (A ++ w :: B) (Z.of_nat (length A)) w' = A ++ w' :: B.
Proof.
  unfold wset. rewrite Nat2Z.id. rewrite insert_app_r_alt, Nat.sub_diag by lia. done.
Qed.

(** The loop of raise_window moves [k] windows down one place. *)
Lemma shift_loop k A x B :
  (k <= length B)%nat →
  ∃ y, for_n k (Z.of_nat (length A)) (λ j ws, wset ws j (wget ws (j + 1))) (A ++ x :: B) =
    A ++ take k B ++ y :: drop k B.
Proof.
  revert A x B. induction k as [|k IH]; intros A x B Hk; [by exists x|].
  destruct B as [|b B]; simpl in Hk; [lia|]. cbn [for_n].
  assert (wget (A ++ x :: b :: B) (Z.of_nat (length A) + 1) = b) as ->.
  { replace (Z.of_nat (length A) + 1) with (Z.of_nat (length (A ++ [x]))) by (rewrite length_app; simpl; lia).
    replace (A ++ x :: b :: B) with ((A ++ [x]) ++ b :: B) by (by rewrite <- app_assoc).
    apply wget_middle. }
  rewrite wset_middle. replace (Z.of_nat (length A) + 1) with (Z.of_nat (length (A ++ [b])))
    by (rewrite length_app; simpl; lia).
  replace (A ++ b :: b :: B) with ((A ++ [b]) ++ b :: B) by (by rewrite <- app_assoc).
  destruct (IH (A ++ [b]) b B ltac:(lia)) as [y Ey]. exists y.
  rewrite Ey, <- app_assoc. done.
Qed.

Lemma raise_window_spec g A w B C :
  windows g = A ++ w :: B ++ C → window_count g = Z.of_nat (length A + S (length B)) →
  raise_window (Z.of_nat (length A)) g = set_windows g (A ++ B ++ w :: C).
Proof.
  intros Hw Hc. unfold raise_window. rewrite Hw, Hc, wget_middle. f_equal. unfold for_up.
  replace (Z.to_nat (Z.of_nat (length A + S (length B)) - 1 - Z.of_nat (length A))) with (length B) by lia.
  destruct (shift_loop (length B) A w (B ++ C)) as [y Ey]; [rewrite length_app; lia|].
  rewrite Ey, take_app_length, drop_app_length, app_assoc.
  replace (Z.of_nat (length A + S (length B)) - 1) with (Z.of_nat (length (A ++ B)))
    by (rewrite length_app; lia).
  by rewrite wset_middle, <- app_assoc.
Qed.

(** What a click does, by the topmost window under the cursor. *)
Definition clicked (g : gui) (w : window) : gui :=
  if cursor_y g <? i32 (wy w + TITLEBAR_HEIGHT)
  then set_offset g (i32 (cursor_x g - wx w)) (i32 (cursor_y g - wy w)) else g.
Definition clicked_window (g : gui) (w : window) : window :=
  if cursor_y g <? i32 (wy w + TITLEBAR_HEIGHT) then w else recolored w.

Lemma click_loop_spec g A T C :
  windows g = A ++ T ++ C → window_count g = Z.of_nat (length A + length T) →
  Forall (λ w, in_win g w = false) T →
  (click_loop (length A) g = g ∧ Forall (λ w, in_win g w = false) (A ++ T)) ∨
  ∃ A1 w B, A ++ T = A1 ++ w :: B ∧ in_win g w = true ∧ Forall (λ w, in_win g w = false) B ∧
    click_loop (length A) g =
      set_drag (set_windows (clicked g w) (A1 ++ B ++ clicked_window g w :: C)) (window_count g - 1).
Proof.
  revert T. induction A as [|w A IH] using rev_ind; intros T Hw Hc HT.
  { left. simpl. by split. }
  rewrite length_app in Hc |- *. simpl. rewrite Nat.add_1_r. cbn [click_loop].
  assert (windows g = A ++ w :: T ++ C) as Hw' by (by rewrite Hw, <- app_assoc).
  rewrite Hw', wget_middle. destruct (in_win g w) eqn:Ein; simpl.
  - right. exists A, w, T. rewrite <- app_assoc. split_and!; [done..|].
    unfold clicked, clicked_window. destruct (cursor_y g <? i32 (wy w + TITLEBAR_HEIGHT)).
    + rewrite (raise_window_spec _ A w T C); [done|done|simpl; simpl in Hc; lia].
    + rewrite wset_middle. rewrite (raise_window_spec _ A (recolored w) T C); [done|done|simpl; simpl in Hc; lia].
  - replace ((A ++ [w]) ++ T) with (A ++ w :: T) by (by rewrite <- app_assoc).
    apply (IH (w :: T)); [done|simpl in *; lia|by constructor].
Qed.

Lemma handle_click_cases g :
  gui_wf g →
  let n := Z.to_nat (window_count g) in
  (handle_click g = g ∧ Forall (λ w, in_win g w = false) (take n (windows g))) ∨
  ∃ A w B, take n (windows g) = A ++ w :: B ∧ in_win g w = true ∧
    Forall (λ w, in_win g w = false) B ∧
    handle_click g = set_drag (set_windows (clicked g w)
      (A ++ B ++ clicked_window g w :: drop n (windows g))) (window_count g - 1).
Proof.
  intros [Hl Hc _] n. unfold handle_click. fold n.
  assert (length (take n (windows g)) = n) as El by (rewrite length_take; lia).
  destruct (click_loop_spec g (take n (windows g)) [] (drop n (windows g))) as [[E HF]|(A & w & B & E & Hin & HB & Hr)].
  - simpl. by rewrite take_drop.
  - rewrite El. simpl. lia.
  - constructor.
  - left. rewrite El in E. rewrite app_nil_r in HF. done.
  - right. rewrite app_nil_r in E. rewrite El in Hr. eauto 10.
Qed.

Lemma handle_click_wf g : gui_wf g → gui_wf (handle_click g).
Proof.
  intros Hwf. pose proof Hwf as [Hl Hc Hd].
  destruct (handle_click_cases g Hwf) as [[-> _]|(A & w & B & E & _ & _ & ->)]; [done|].
  pose proof (f_equal length E) as El. rewrite length_take, length_app in El. simpl in El.
  assert (window_count (clicked g w) = window_count g) as Ecnt by (unfold clicked; by case_if).
  split; simpl.
  - rewrite !length_app. simpl. rewrite length_drop. lia.
  - by rewrite Ecnt.
  - right. rewrite Ecnt. split; [lia|done].
Qed.

Lemma gui_input_wf o g : gui_wf g → gui_wf (gui_input o g).
Proof.
  intros Hwf. unfold gui_input.
  set (g1 := match mouse o with Some (mx, my, mbtn) => set_cursor g mx my mbtn | None => g end).
  assert (gui_wf g1) as H1 by (unfold g1; destruct (mouse o) as [[[??]?]|]; by destruct Hwf).
  set (left_down := truth (cursor_buttons g1 .& 1)).
  set (g2 := if left_down && negb (prev_left_down g1) then handle_click g1 else g1).
  assert (gui_wf g2) as H2 by (unfold g2; case_if; [by apply handle_click_wf|done]).
  set (g3 := if negb left_down then set_drag g2 (-1) else g2).
  assert (gui_wf g3) as H3.
  { unfold g3. case_if; [|done]. destruct H2. split; simpl; auto. }
  case_if; [|by destruct H3]. destruct H3. split; simpl; [|done|done].
  unfold wset. by rewrite length_insert.
Qed.

Lemma gui_redraw_wf o g : gui_wf g → gui_wf (fst (gui_redraw o g)).
Proof. intros Hwf. unfold gui_redraw. case_if; [done|]. by destruct Hwf. Qed.

Lemma gui_update_wf o g : gui_wf g → gui_wf (fst (gui_update o g)).
Proof. intros Hwf. unfold gui_update. case_if; [done|]. by apply gui_redraw_wf, gui_input_wf. Qed.

Lemma gui_boot_wf : gui_wf gui_boot.
Proof. split; simpl; [done|lia|by left]. Qed.

Lemma gui_init_wf o : gui_wf (gui_init o gui_boot).
Proof.
  unfold gui_init. case_if; [apply gui_boot_wf|]. split; simpl; [done|lia|by left].
Qed.

(** The topmost window under the cursor is unique. *)
Lemma top_hit_unique (P : window → bool) A w B A' w' B' :
  A ++ w :: B = A' ++ w' :: B' → P w = true → P w' = true →
  Forall (λ x, P x = false) B → Forall (λ x, P x = false) B' → A = A' ∧ w = w' ∧ B = B'.
Proof.
  intros E Hw Hw' HB HB'.
  assert (∀ (C D : list window) x y CC DD, C ++ x :: CC = D ++ y :: DD → (length C < length D)%nat →
    y ∈ CC) as Hin.
  { intros C D x y CC DD EE Hlt.
    assert ((C ++ x :: CC) !! length D = Some y) as Hlk by (rewrite EE; by apply list_lookup_middle).
    rewrite lookup_app_r in Hlk by lia. destruct (length D - length C)%nat as [|k] eqn:Ek; [lia|].
    simpl in Hlk. by eapply list_elem_of_lookup_2. }
  rewrite Forall_forall in HB, HB'.
  destruct (Nat.lt_trichotomy (length A) (length A')) as [Hlt|[Heq|Hlt]].
  - specialize (HB _ (Hin _ _ _ _ _ _ E Hlt)). congruence.
  - apply app_inj_1 in E as [-> E]; [|done]. by injection E as -> ->.
  - specialize (HB' _ (Hin _ _ _ _ _ _ (eq_sym E) Hlt)). congruence.
Qed.

(** Pressing the left button over a window. *)
Definition pressed (g : gui) (o : outside) (mx my b : Z) (A : list window) (w : window) (B : list window) : Prop :=
  gui_wf g ∧ prev_left_down g = false ∧ mouse o = Some (mx, my, b) ∧ Z.testbit b 0 = true ∧
  take (Z.to_nat (window_count g)) (windows g) = A ++ w :: B ∧
  in_win (set_cursor g mx my b) w = true ∧
  Forall (λ w, in_win (set_cursor g mx my b) w = false) B.

Lemma gui_input_press g o mx my b A w B :
  pressed g o mx my b A w B →
  let g1 := set_cursor g mx my b in
  let ox := drag_offset_x (clicked g1 w) in
  let oy := drag_offset_y (clicked g1 w) in
  gui_input o g =
    mk_gui (A ++ B ++ moved (clicked_window g1 w) (i32 (mx - ox)) (i32 (my - oy)) ::
              drop (Z.to_nat (window_count g)) (windows g))
      (window_count g) mx my b true (window_count g - 1) ox oy (last_redraw_tick g).
Proof.
  intros (Hwf & Hprev & Hm & Hbit & Ht & Hin & HB) g1 ox oy.
  assert (gui_wf g1) as Hwf1 by (by destruct Hwf).
  destruct (handle_click_cases g1 Hwf1) as [[_ HF]|(A' & w' & B' & Ht' & Hin' & HB' & E)].
  { exfalso. simpl in HF. rewrite Ht in HF. rewrite Forall_forall in HF.
    change (in_win g1 w = true) in Hin. rewrite HF in Hin; [done|]. set_solver. }
  simpl in Ht'. rewrite Ht in Ht'.
  destruct (top_hit_unique (in_win g1) _ _ _ _ _ _ Ht' Hin Hin' HB HB') as (<- & <- & <-).
  pose proof (f_equal length Ht) as El. destruct Hwf as [Hl Hc _].
  rewrite length_take, length_app in El. simpl in El.
  unfold gui_input. rewrite Hm. fold g1. replace (truth (cursor_buttons g1 .& 1)) with true
    by (by rewrite truth_testbit_0). replace (prev_left_down g1) with false by done. simpl.
  rewrite E. simpl. rewrite (proj2 (Z.leb_le _ _)) by lia. simpl.
  rewrite app_assoc. replace (window_count g - 1) with (Z.of_nat (length (A ++ B))) by (rewrite length_app; lia).
  rewrite wget_middle, wset_middle, <- !app_assoc.
  unfold ox, oy, clicked. case_if; done.
Qed.

Lemma handle_click_redraw g : last_redraw_tick (handle_click g) = last_redraw_tick g.
Proof.
  unfold handle_click. induction (Z.to_nat (window_count g)) as [|k IH]; [done|]. cbn [click_loop].
  unfold raise_window. repeat case_if; done || apply IH.
Qed.

Lemma gui_input_redraw o g : last_redraw_tick (gui_input o g) = last_redraw_tick g.
Proof.
  unfold gui_input. destruct (mouse o) as [[[??]?]|]; repeat case_if; simpl;
    by rewrite ?handle_click_redraw.
Qed.

(** The cursor is where the mouse last reported it. *)
Lemma handle_click_cursor g :
  cursor_x (handle_click g) = cursor_x g ∧ cursor_y (handle_click g) = cursor_y g.
Proof.
  unfold handle_click. induction (Z.to_nat (window_count g)) as [|k IH]; [done|]. cbn [click_loop].
  unfold raise_window. repeat case_if; done || apply IH.
Qed.

Lemma gui_input_cursor o g :
  (cursor_x (gui_input o g), cursor_y (gui_input o g)) =
  match mouse o with Some (mx, my, _) => (mx, my) | None => (cursor_x g, cursor_y g) end.
Proof.
  unfold gui_input. destruct (mouse o) as [[[mx my] b]|];
    match goal with |- context [handle_click ?g1] => destruct (handle_click_cursor g1) as [Hx Hy] end;
    repeat case_if; simpl; by rewrite ?Hx, ?Hy.
Qed.

(** A redraw makes no line. *)
Definition no_line (op : draw_op) : bool := match op with DrawLine _ _ _ _ _ => false | _ => true end.

Lemma gui_redraw_no_line o g : Forall no_line (snd (gui_redraw o g)).
Proof.
  unfold gui_redraw. case_if; [constructor|]. constructor; [done|]. apply Forall_app. split; [|by repeat constructor].
  apply Forall_concat, Forall_fmap, Forall_true. intros w. by repeat constructor.
Qed.

(** ** Properties *)

(** C33: a click acts on the topmost window under the cursor only.  If there is none
    nothing changes.  Otherwise that window goes to the top, the windows above it
    move down one place keeping their order, the rest stays; it becomes the dragged
    window; in the title bar the grab point is recorded, below it the colour flips. *)
Theorem handle_click_raises_topmost g :
  gui_wf g →
  let n := Z.to_nat (window_count g) in
  (handle_click g = g ∧ Forall (λ w, in_win g w = false) (take n (windows g))) ∨
  ∃ A w B, take n (windows g) = A ++ w :: B ∧ in_win g w = true ∧
    Forall (λ w, in_win g w = false) B ∧
    handle_click g = set_drag (set_windows (clicked g w)
      (A ++ B ++ clicked_window g w :: drop n (windows g))) (window_count g - 1).
Proof. apply handle_click_cases. Qed.

Definition example_screen (m : option (Z * Z * Z)) (t : Z) : outside := mk_outside true 800 600 m t.
Definition example_gui : gui := gui_init (example_screen None 0) gui_boot.

Lemma example_gui_wf : gui_wf example_gui.
Proof. apply gui_init_wf. Defined.

Lemma handle_click_raises_topmost_witness :
  let g := set_cursor example_gui 50 50 1 in
  drag_window (handle_click g) = 1 ∧
  ((handle_click g = g ∧ Forall (λ w, in_win g w = false) (take 2 (windows g))) ∨
   ∃ A w B, take 2 (windows g) = A ++ w :: B ∧ in_win g w = true ∧
    Forall (λ w, in_win g w = false) B ∧
    handle_click g = set_drag (set_windows (clicked g w)
      (A ++ B ++ clicked_window g w :: drop 2 (windows g))) 1).
Proof.
  intros g. split; [by vm_compute|]. apply (handle_click_raises_topmost g). by destruct example_gui_wf.
Defined.

(** C34: the compositor's invariant.  After gui_init and any sequence of gui_update
    calls, whatever the mouse reports and the clock shows, the window count and the
    dragged index stay inside the array; and a redraw happens only three ticks or more
    after the last one and paints the background first, then every window from the
    bottom one up, then the cursor. *)
Theorem gui_update_safe o0 os o :
  let g := fold_left (λ g o, fst (gui_update o g)) os (gui_init o0 gui_boot) in
  let '(g', ops) := gui_update o g in
  gui_wf g ∧ gui_wf g' ∧
  (ops = [] ∨
   gfx_available o = true ∧ last_redraw_tick g' = ticks o ∧
   3 <= u64 (ticks o - last_redraw_tick g) ∧
   ops = FillRect 0 0 (gfx_width o) (gfx_height o) 0x00102030 ::
     concat (draw_window <$> take (Z.to_nat (window_count g')) (windows g')) ++ draw_cursor g').
Proof.
  set (g := fold_left _ _ _). assert (gui_wf g) as Hwf.
  { unfold g. generalize (gui_init_wf o0). generalize (gui_init o0 gui_boot).
    induction os as [|o1 os IH]; intros g0 H0; simpl; [done|]. by apply IH, gui_update_wf. }
  simpl. pose proof (gui_update_wf o g Hwf) as Hwf'. unfold gui_update, gui_redraw in *.
  destruct (gfx_available o) eqn:Ha; simpl in *; [|by auto].
  destruct (u64 (ticks o - last_redraw_tick (gui_input o g)) <? 3) eqn:Et; simpl in *; [by auto|].
  split; [done|]. split; [done|]. right. rewrite gui_input_redraw in Et. bool_to_prop. split_and!; [done|done|lia|done].
Qed.

Lemma gui_update_safe_witness :
  let g := fold_left (λ g o, fst (gui_update o g))
    [example_screen (Some (50, 50, 1)) 2; example_screen (Some (60, 55, 1)) 4]
    (gui_init (example_screen None 0) gui_boot) in
  drag_window g = 1 ∧ gui_wf g.
Proof.
  intros g. split; [by vm_compute|].
  pose proof (gui_update_safe (example_screen None 0)
    [example_screen (Some (50, 50, 1)) 2; example_screen (Some (60, 55, 1)) 4] (example_screen None 5)) as H.
  cbv zeta in H. fold g in H. destruct (gui_update (example_screen None 5) g) as [g' ops]. by destruct H.
Defined.

(** Dragging by the title bar.  When the button goes down on the title bar of the
    topmost window under the cursor and the cursor then moves with the button held,
    the window (now on top) moves by exactly the cursor's displacement and keeps its
    size, colour and title. *)
Lemma titlebar_drag_follows_cursor g o mx my b A w B o2 mx2 my2 b2 :
  pressed g o mx my b A w B → my < wy w + TITLEBAR_HEIGHT →
  mouse o2 = Some (mx2, my2, b2) → Z.testbit b2 0 = true →
  (∀ v, v ∈ [mx; my; mx2; my2; wx w; wy w] → - 2 ^ 28 <= v <= 2 ^ 28) →
  let g2 := gui_input o2 (gui_input o g) in
  windows g2 = A ++ B ++ moved w (wx w + (mx2 - mx)) (wy w + (my2 - my)) ::
                 drop (Z.to_nat (window_count g)) (windows g) ∧
  drag_window g2 = window_count g - 1.
Proof.
  intros Hp Htitle Hm2 Hb2 Hbnd g2. pose proof (gui_input_press _ _ _ _ _ _ _ _ Hp) as E.
  assert (- 2 ^ 28 <= mx <= 2 ^ 28 ∧ - 2 ^ 28 <= my <= 2 ^ 28 ∧ - 2 ^ 28 <= mx2 <= 2 ^ 28 ∧
          - 2 ^ 28 <= my2 <= 2 ^ 28 ∧ - 2 ^ 28 <= wx w <= 2 ^ 28 ∧ - 2 ^ 28 <= wy w <= 2 ^ 28)
    as (B1 & B2 & B3 & B4 & B5 & B6) by (split_and!; apply Hbnd; set_solver).
  unfold clicked, clicked_window in E. simpl in E. unfold TITLEBAR_HEIGHT in *.
  rewrite (i32_id (wy w + 20)) in E by (unfold in_i; lia).
  rewrite (proj2 (Z.ltb_lt _ _) Htitle) in E. simpl in E.
  rewrite (i32_id (mx - wx w)), (i32_id (my - wy w)), (i32_id (mx - (mx - wx w))),
    (i32_id (my - (my - wy w))) in E by (unfold in_i; lia).
  destruct Hp as ([Hl Hc _] & _ & _ & _ & Ht & _). pose proof (f_equal length Ht) as El.
  rewrite length_take, length_app in El. simpl in El.
  unfold g2. rewrite E. unfold gui_input. rewrite Hm2. simpl.
  rewrite truth_testbit_0, Hb2. simpl. rewrite (proj2 (Z.leb_le _ _)) by lia. simpl. split; [|done].
  rewrite app_assoc. replace (window_count g - 1) with (Z.of_nat (length (A ++ B))) by (rewrite length_app; lia).
  rewrite wget_middle, wset_middle, <- app_assoc. unfold moved; simpl.
  rewrite (i32_id (mx2 - (mx - wx w))), (i32_id (my2 - (my - wy w))) by (unfold in_i; lia).
  do 4 f_equal; lia.
Qed.

Lemma example_press (x y : Z) (w : window) A :
  take 2 (windows example_gui) = A ++ [w] →
  in_win (set_cursor example_gui x y 1) w = true →
  pressed example_gui (example_screen (Some (x, y, 1)) 1) x y 1 A w [].
Proof. intros Ht Hin. unfold pressed. split_and!; try done. apply example_gui_wf. Qed.

Lemma titlebar_drag_follows_cursor_witness :
  windows (gui_input (example_screen (Some (330, 150, 1)) 2)
    (gui_input (example_screen (Some (310, 110, 1)) 1) example_gui)) !! 1%nat
  = Some (mk_window 320 140 200 120 0x00553333 [87; 73; 78; 68; 79; 87; 32; 50]).
Proof.
  destruct (titlebar_drag_follows_cursor example_gui _ 310 110 1
    [mk_window 40 40 220 140 0x00335577 [77; 69; 71; 75; 69; 82]]
    (mk_window 300 100 200 120 0x00553333 [87; 73; 78; 68; 79; 87; 32; 50]) []
    (example_screen (Some (330, 150, 1)) 2) 330 150 1
    (example_press 310 110 _ [_] eq_refl eq_refl)) as [E _].
  - by vm_compute.
  - done.
  - done.
  - intros v Hv. do 6 (apply elem_of_cons in Hv as [->|Hv]; [simpl; lia|]). set_solver.
  - by rewrite E.
Defined.

(** A press below the title bar drags too, with the grab point of the last title-bar
    press (or 0, 0 at boot): the window jumps so that its origin is the cursor minus
    that stale offset. *)
Theorem body_press_jumps_to_stale_offset g o mx my b A w B :
  pressed g o mx my b A w B → i32 (wy w + TITLEBAR_HEIGHT) <= my →
  windows (gui_input o g) = A ++ B ++
    moved (recolored w) (i32 (mx - drag_offset_x g)) (i32 (my - drag_offset_y g)) ::
    drop (Z.to_nat (window_count g)) (windows g) ∧
  drag_window (gui_input o g) = window_count g - 1.
Proof.
  intros Hp Hbody. rewrite (gui_input_press _ _ _ _ _ _ _ _ Hp). simpl.
  unfold clicked, clicked_window. simpl. by rewrite (proj2 (Z.ltb_ge _ _) Hbody).
Qed.

(** At boot the offset is 0: clicking into the window at (300, 100) moves its corner
    to the cursor. *)
Lemma body_press_jumps_to_stale_offset_witness :
  windows (gui_input (example_screen (Some (350, 180, 1)) 1) example_gui) !! 1%nat
  = Some (mk_window 350 180 200 120 0x00751313 [87; 73; 78; 68; 79; 87; 32; 50]).
Proof.
  destruct (body_press_jumps_to_stale_offset example_gui _ 350 180 1
    [mk_window 40 40 220 140 0x00335577 [77; 69; 71; 75; 69; 82]]
    (mk_window 300 100 200 120 0x00553333 [87; 73; 78; 68; 79; 87; 32; 50]) []
    (example_press 350 180 _ [_] eq_refl eq_refl)) as [E _].
  - by vm_compute.
  - rewrite E. by vm_compute.
Defined.
