(* ===== verification/Console.v ===== *)
(** * The VGA text console: arch/x86_64/drivers/console.c

    Video memory is the list of its 2000 sixteen-bit cells.  A [char] is its value,
    from -128 to 127 (plain [char] is signed on x86_64). *)

From S2P Require Import Prelude.

(** ** Data *)

Definition VGA_COLS : Z := 80.
Definition VGA_ROWS : Z := 25.
Definition VGA_COLOR : Z := 0x0F.

Record console := mk_console { vga : list Z; cursor_row : Z; cursor_col : Z }.

Definition vga_char (c color : Z) : Z := u16 (u16 c .| u16 (color ≪ 8)).

(** ** Operations *)

Definition arch_console_clear (s : console) : console :=
  let v := for_up 0 VGA_ROWS (λ r v, for_up 0 VGA_COLS (λ c v,
    zset v (r * VGA_COLS + c) (vga_char 32 VGA_COLOR)) v) (vga s) in
  mk_console v 0 0.

Definition scroll (s : console) : console :=
  let v := for_up 1 VGA_ROWS (λ r v, for_up 0 VGA_COLS (λ c v,
    zset v ((r - 1) * VGA_COLS + c) (zget v (r * VGA_COLS + c))) v) (vga s) in
  let v := for_up 0 VGA_COLS (λ c v,
    zset v ((VGA_ROWS - 1) * VGA_COLS + c) (vga_char 32 VGA_COLOR)) v in
  mk_console v (VGA_ROWS - 1) (cursor_col s).

(** The character itself, before wrapping and scrolling. *)
Definition putc_char (c : Z) (s : console) : console :=
  if c =? 10 then mk_console (vga s) (u32 (cursor_row s + 1)) 0
  else if c =? 13 then mk_console (vga s) (cursor_row s) 0
  else if c =? 9 then mk_console (vga s) (cursor_row s) (ALIGN_UP 32 (u32 (cursor_col s + 1)) 4)
  else mk_console (zset (vga s) (u32 (cursor_row s * VGA_COLS + cursor_col s)) (vga_char c VGA_COLOR))
         (cursor_row s) (u32 (cursor_col s + 1)).

Definition arch_console_putc (c : Z) (s : console) : console :=
  let s := putc_char c s in
  let s := if VGA_COLS <=? cursor_col s
           then mk_console (vga s) (u32 (cursor_row s + 1)) 0 else s in
  if VGA_ROWS <=? cursor_row s then scroll s else s.

Definition arch_console_init (s : console) : console := arch_console_clear s.

(** ** The screen the console stands for: 25 lines of 80 cells *)

(** A cell of the hardware: the character in the low byte, white on black (0x0F) in the
    high one. *)
Definition cell (c : Z) : Z := 0x0F * 256 + c.
Definition blank : Z := cell 32.
Definition blank_line : list Z := replicate 80 blank.

Record screen := mk_screen { lines : list (list Z); at_row : nat; at_col : nat }.

(** The line feed: past the last line the first one disappears. *)
Definition line_feed (t : screen) : screen :=
  if decide (at_row t = 24%nat) then mk_screen (tail (lines t) ++ [blank_line]) 24 (at_col t)
  else mk_screen (lines t) (S (at_row t)) (at_col t).

Definition carriage_return (t : screen) : screen := mk_screen (lines t) (at_row t) 0.
Definition new_line (t : screen) : screen := line_feed (carriage_return t).

(** Moving to column [n], to the next line when it is past the last column. *)
Definition move_to (n : nat) (t : screen) : screen :=
  if decide (n = 80%nat) then new_line t else mk_screen (lines t) (at_row t) n.

Definition write_cell (x : Z) (t : screen) : screen :=
  mk_screen (alter (λ l, <[at_col t := x]> l) (at_row t) (lines t)) (at_row t) (at_col t).

Definition screen_putc (c : Z) (t : screen) : screen :=
  if c =? 10 then new_line t
  else if c =? 13 then carriage_return t
  else if c =? 9 then move_to (4 * (at_col t / 4 + 1)) t
  else move_to (S (at_col t)) (write_cell (cell c) t).

(** A character whose code is below 128; [vga_char_high_bit] says what becomes of the others. *)
Definition ascii (c : Z) : Prop := 0 <= c < 128.

(** The console [s] shows the screen [t]. *)
Record shows (s : console) (t : screen) : Prop := {
  sh_lines : length (lines t) = 25%nat ∧ Forall (λ l, length l = 80%nat) (lines t);
  sh_cells : vga s = concat (lines t);
  sh_row : cursor_row s = Z.of_nat (at_row t) ∧ (at_row t < 25)%nat;
  sh_col : cursor_col s = Z.of_nat (at_col t) ∧ (at_col t < 80)%nat
}.

(** ** Lemmas *)

Lemma vga_char_ascii c : ascii c → vga_char c VGA_COLOR = cell c.
Proof.
  intros Hc. unfold ascii in Hc. unfold vga_char, cell, VGA_COLOR.
  rewrite (u16_id c), (u16_id (15 ≪ 8)) by (unfold in_u; lia || done). rewrite Z.lor_comm, lor_shiftl_low by lia.
  apply u16_id. unfold in_u. change (2 ^ 8) with 256. lia.
Qed.

Lemma list_eq_zget (l l' : list Z) :
  length l = length l' → (∀ k, 0 <= k < Z.of_nat (length l) → zget l k = zget l' k) → l = l'.
Proof.
  intros Hl H. apply list_eq. intros i. destruct (decide (i < length l)%nat) as [Hi|Hi].
  - destruct (lookup_lt_is_Some_2 l i Hi) as [x Hx].
    destruct (lookup_lt_is_Some_2 l' i ltac:(lia)) as [y Hy].
    specialize (H (Z.of_nat i) ltac:(lia)). unfold zget in H. rewrite Nat2Z.id in H.
    rewrite (list_lookup_total_correct _ _ _ Hx), (list_lookup_total_correct _ _ _ Hy) in H. congruence.
  - rewrite !lookup_ge_None_2; [done|lia|lia].
Qed.

Lemma length_concat_lines (ls : list (list Z)) :
  Forall (λ l, length l = 80%nat) ls → length (concat ls) = (80 * length ls)%nat.
Proof. induction 1; simpl; [done|]. rewrite length_app. lia. Qed.

(** Writing cell [c] of line [r] of the flat buffer. *)
Lemma insert_concat (ls : list (list Z)) r c x :
  Forall (λ l, length l = 80%nat) ls → (r < length ls)%nat → (c < 80)%nat →
  <[(80 * r + c)%nat := x]> (concat ls) = concat (alter (λ l, <[c := x]> l) r ls).
Proof.
  intros HF. revert r. induction HF as [|l ls Hl HF IH]; intros r Hr Hc; cbn [length] in Hr; [lia|].
  cbn [concat]. destruct r as [|r].
  - by rewrite insert_app_l by lia.
  - rewrite insert_app_r_alt by lia. transitivity (l ++ <[(80 * r + c)%nat := x]> (concat ls)).
    + do 2 f_equal. lia.
    + by rewrite IH by lia.
Qed.

Lemma alter_lines (ls : list (list Z)) r c x :
  Forall (λ l, length l = 80%nat) ls →
  Forall (λ l, length l = 80%nat) (alter (λ l, <[c := x]> l) r ls).
Proof.
  intros HF. apply Forall_alter; [done|]. intros l Hl. by rewrite length_insert.
Qed.

(** The double loop of scroll moves every cell up by one line. *)
Lemma scroll_up v0 :
  length v0 = 2000%nat →
  let v := for_up 1 VGA_ROWS (λ r v, for_up 0 VGA_COLS (λ c v,
    zset v ((r - 1) * VGA_COLS + c) (zget v (r * VGA_COLS + c))) v) v0 in
  length v = 2000%nat ∧
  ∀ k, 0 <= k < 2000 → zget v k = zget v0 (if k <? 1920 then k + 80 else k).
Proof.
  intros Hl. set (done_to n v := length v = 2000%nat ∧
    ∀ k, 0 <= k < 2000 → zget v k = zget v0 (if k <? n then k + 80 else k)).
  change (done_to 1920 (for_up 1 25 (λ r v, for_up 0 80 (λ c v,
    zset v ((r - 1) * 80 + c) (zget v (r * 80 + c))) v) v0)).
  apply (for_up_inv (λ r v, done_to ((r - 1) * 80) v)).
  { split; [done|]. intros k Hk. by rewrite (proj2 (Z.ltb_ge _ _)) by lia. }
  intros r v Hr Hv. replace ((r + 1 - 1) * 80) with ((r - 1) * 80 + 80) by lia.
  apply (for_up_inv (λ c v, done_to ((r - 1) * 80 + c) v)); [by rewrite Z.add_0_r|].
  intros c v' Hc [Hl' Hv']. split; [by rewrite zset_length|]. intros k Hk.
  rewrite zget_zset by lia. destruct (Z.eqb_spec k ((r - 1) * 80 + c)) as [->|Hne].
  - rewrite Hv' by lia. rewrite (proj2 (Z.ltb_ge _ _)), (proj2 (Z.ltb_lt _ _)) by lia. f_equal. lia.
  - rewrite Hv' by lia. destruct (Z.ltb_spec k ((r - 1) * 80 + c)), (Z.ltb_spec k ((r - 1) * 80 + (c + 1))); lia || done.
Qed.

(** A loop that stores [x] to [n] consecutive cells. *)
Lemma fill_cells v0 base n x :
  0 <= base → base + n <= Z.of_nat (length v0) → 0 <= n →
  let v := for_up 0 n (λ c v, zset v (base + c) x) v0 in
  length v = length v0 ∧
  ∀ k, 0 <= k < Z.of_nat (length v0) → zget v k = if (base <=? k) && (k <? base + n) then x else zget v0 k.
Proof.
  intros Hb Hn Hn0. set (filled m v := length v = length v0 ∧ ∀ k, 0 <= k < Z.of_nat (length v0) →
    zget v k = if (base <=? k) && (k <? base + m) then x else zget v0 k).
  pose proof (for_up_inv filled (λ c v, zset v (base + c) x) 0 n v0) as H.
  rewrite Z.max_r in H by lia. apply H.
  - split; [done|]. intros k Hk. destruct (Z.leb_spec base k), (Z.ltb_spec k (base + 0)); simpl; lia || done.
  - intros c v Hc [Hl Hv]. split; [by rewrite zset_length|]. intros k Hk. rewrite zget_zset by lia.
    rewrite Hv by lia. destruct (Z.eqb_spec k (base + c)), (Z.leb_spec base k), (Z.ltb_spec k (base + c)),
      (Z.ltb_spec k (base + (c + 1))); simpl; lia || done.
Qed.

Lemma zget_app l1 l2 k :
  0 <= k → zget (l1 ++ l2) k =
    if k <? Z.of_nat (length l1) then zget l1 k else zget l2 (k - Z.of_nat (length l1)).
Proof.
  intros Hk. unfold zget. rewrite !list_lookup_total_alt. destruct (Z.ltb_spec k (Z.of_nat (length l1))).
  - by rewrite lookup_app_l by lia.
  - rewrite lookup_app_r by lia. do 2 f_equal. lia.
Qed.

Lemma zget_drop l n k : 0 <= k → zget (drop n l) k = zget l (Z.of_nat n + k).
Proof.
  intros Hk. unfold zget. rewrite !list_lookup_total_alt, lookup_drop. do 2 f_equal. lia.
Qed.

(** scroll drops the first line and adds a blank one. *)
Lemma scroll_spec s :
  length (vga s) = 2000%nat →
  scroll s = mk_console (drop 80 (vga s) ++ blank_line) 24 (cursor_col s).
Proof.
  intros Hl. unfold scroll. f_equal. destruct (scroll_up _ Hl) as [Hl1 Hv1].
  match goal with |- for_up _ _ _ ?v = _ => set (v1 := v) in * end.
  destruct (fill_cells v1 1920 80 blank) as [Hl2 Hv2]; [lia|lia|lia|].
  apply list_eq_zget.
  - rewrite length_app, length_drop, Hl. change (for_up 0 VGA_COLS _ v1) with
      (for_up 0 80 (λ c v, zset v (1920 + c) blank) v1). rewrite Hl2, Hl1. done.
  - change (for_up 0 VGA_COLS _ v1) with (for_up 0 80 (λ c v, zset v (1920 + c) blank) v1).
    intros k Hk. rewrite Hl2, Hl1 in Hk. rewrite Hv2, zget_app, length_drop, Hl by lia.
    destruct (Z.leb_spec 1920 k), (Z.ltb_spec k (1920 + 80)), (Z.ltb_spec k (Z.of_nat (2000 - 80))); simpl; try lia.
    + unfold blank_line. by rewrite zget_replicate by lia.
    + rewrite Hv1, zget_drop by lia. rewrite (proj2 (Z.ltb_lt _ _)) by lia. f_equal. lia.
Qed.

(** ** The console refines the screen *)

Definition grid (ls : list (list Z)) : Prop :=
  length ls = 25%nat ∧ Forall (λ l, length l = 80%nat) ls.

Definition finish (s : console) : console := if VGA_ROWS <=? cursor_row s then scroll s else s.

Lemma finish_same ls r c :
  grid ls → (r < 25)%nat → (c < 80)%nat →
  shows (finish (mk_console (concat ls) (Z.of_nat r) (Z.of_nat c))) (mk_screen ls r c).
Proof.
  intros Hg Hr Hc. unfold finish. simpl. rewrite (proj2 (Z.leb_gt _ _)) by (unfold VGA_ROWS; lia).
  by split.
Qed.

Lemma finish_feed ls r c :
  grid ls → (r < 25)%nat → (c < 80)%nat →
  shows (finish (mk_console (concat ls) (Z.of_nat r + 1) (Z.of_nat c))) (line_feed (mk_screen ls r c)).
Proof.
  intros [Hl HF] Hr Hc. unfold finish, line_feed, VGA_ROWS. simpl.
  destruct (decide (r = 24%nat)) as [->|Hne].
  - rewrite (proj2 (Z.leb_le _ _)) by lia. rewrite scroll_spec by (simpl; rewrite length_concat_lines by done; lia).
    simpl. destruct ls as [|l ls]; [done|]. simpl in Hl. apply Forall_cons in HF as [Hl0 HF]. split; simpl.
    + rewrite length_app. simpl. split; [lia|]. apply Forall_app. split; [done|]. by constructor.
    + rewrite drop_app_length' by done. by rewrite concat_app.
    + done.
    + done.
  - rewrite (proj2 (Z.leb_gt _ _)) by lia. split; simpl; [done|done|lia|done].
Qed.

Lemma putc_refines c s t : ascii c → shows s t → shows (arch_console_putc c s) (screen_putc c t).
Proof.
  intros Hasc%vga_char_ascii [Hg Hcells [Hrow Hr] [Hcol Hc]]. destruct s as [v row col], t as [ls r cc]. simpl in *. subst.
  assert (∀ ls', grid ls' → ∀ n, (n <= 80)%nat →
    shows (finish (if VGA_COLS <=? Z.of_nat n then mk_console (concat ls') (u32 (Z.of_nat r + 1)) 0
                   else mk_console (concat ls') (Z.of_nat r) (Z.of_nat n)))
          (move_to n (mk_screen ls' r cc))) as Hmove.
  { intros ls' Hg' n Hn. unfold move_to, VGA_COLS. destruct (decide (n = 80%nat)) as [->|Hne].
    - rewrite (proj2 (Z.leb_le _ _)), u32_id by (unfold in_u; lia). change 0 with (Z.of_nat 0).
      by apply finish_feed; [|done|lia].
    - rewrite (proj2 (Z.leb_gt _ _)) by lia. apply finish_same; [done|done|lia]. }
  assert (4 * (cc / 4 + 1) <= 80)%nat as Htab by (pose proof (Nat.div_mod_eq cc 4); lia).
  unfold arch_console_putc, screen_putc, putc_char. simpl.
  destruct (Z.eqb_spec c 10); [|destruct (Z.eqb_spec c 13); [|destruct (Z.eqb_spec c 9)]]; simpl.
  - rewrite u32_id by (unfold in_u; lia). change (Z.of_nat r + 1) with (Z.of_nat r + 1).
    change 0 with (Z.of_nat 0). apply finish_feed; [done|done|lia].
  - change 0 with (Z.of_nat 0). apply finish_same; [done|done|lia].
  - assert (ALIGN_UP 32 (u32 (Z.of_nat cc + 1)) 4 = Z.of_nat (4 * (cc / 4 + 1))) as ->.
    { rewrite u32_id by (unfold in_u; lia). change 4 with (2 ^ 2) at 1.
      rewrite ALIGN_UP_pow2 by lia. change (2 ^ 2) with 4.
      rewrite Nat2Z.inj_mul, Nat2Z.inj_add, Nat2Z.inj_div. div_lia. }
    apply Hmove; [done|exact Htab].
  - rewrite (u32_id (Z.of_nat cc + 1)), (u32_id (Z.of_nat r * VGA_COLS + Z.of_nat cc))
      by (unfold in_u, VGA_COLS; lia).
    replace (Z.of_nat cc + 1) with (Z.of_nat (S cc)) by lia.
    rewrite Hasc. assert (zset (concat ls) (Z.of_nat r * VGA_COLS + Z.of_nat cc) (cell c) =
      concat (alter (λ l, <[cc := cell c]> l) r ls)) as ->.
    { unfold zset. destruct Hg as [Hl HF]. rewrite <- insert_concat by (done || lia). f_equal. unfold VGA_COLS. lia. }
    apply (Hmove (alter (λ l, <[cc := cell c]> l) r ls)); [|lia].
    destruct Hg. split; [by rewrite length_alter|by apply alter_lines].
Qed.

Lemma puts_refines cs s t :
  Forall ascii cs → shows s t → shows (fold_left (λ s c, arch_console_putc c s) cs s) (fold_left (λ t c, screen_putc c t) cs t).
Proof. intros Hcs. revert s t. induction Hcs as [|c cs Hc _ IH]; intros s t H; simpl; [done|]. by apply IH, putc_refines. Qed.

Definition blank_screen : screen := mk_screen (replicate 25 blank_line) 0 0.

Lemma clear_shows s : length (vga s) = 2000%nat → shows (arch_console_clear s) blank_screen.
Proof.
  intros Hl. assert (vga (arch_console_clear s) = replicate 2000 blank) as E.
  { change (vga (arch_console_clear s)) with
      (for_up 0 25 (λ r v, for_up 0 80 (λ c v, zset v (r * 80 + c) blank) v) (vga s)).
    set (done_to n v := length v = 2000%nat ∧ ∀ k, 0 <= k < n → zget v k = blank).
    assert (done_to 2000 (for_up 0 25 (λ r v, for_up 0 80 (λ c v, zset v (r * 80 + c) blank) v) (vga s))) as [Hl' Hv].
    { apply (for_up_inv (λ r v, done_to (r * 80) v)); [split; [done|lia]|].
      intros r v Hr [Hlv Hv]. destruct (fill_cells v (r * 80) 80 blank) as [Hl2 Hv2]; [lia|lia|lia|].
      split; [by rewrite Hl2|]. intros k Hk. rewrite Hv2 by lia.
      destruct (Z.leb_spec (r * 80) k), (Z.ltb_spec k (r * 80 + 80)); simpl; try (lia || done).
      apply Hv. lia. }
    apply list_eq_zget; [by rewrite Hl', length_replicate|]. intros k Hk.
    rewrite Hl' in Hk. rewrite zget_replicate by lia. apply Hv. lia. }
  assert (arch_console_clear s = mk_console (replicate 2000 blank) 0 0) as ->
    by exact (f_equal (λ v, mk_console v 0 0) E).
  split; [by repeat constructor|by vm_compute|simpl; lia|simpl; lia].
Qed.

(** ** Properties *)

(** C16: the console implements a 25 by 80 scrolling screen.  After arch_console_init and
    any ASCII characters written with arch_console_putc, the flat video buffer is the
    lines of the abstract screen and the cursor is on it: characters go to the
    cursor, white on black, newline and wrapping move to the next line, and at the bottom
    the first line disappears and a blank one comes in.  No store leaves the buffer. *)
Theorem console_refines_screen s cs :
  length (vga s) = 2000%nat → Forall ascii cs →
  shows (fold_left (λ s c, arch_console_putc c s) cs (arch_console_init s))
        (fold_left (λ t c, screen_putc c t) cs blank_screen).
Proof. intros Hl Hcs. by apply puts_refines, clear_shows. Qed.

Lemma console_refines_screen_witness :
  let s := fold_left (λ s c, arch_console_putc c s) [72; 10; 105]
             (arch_console_init (mk_console (replicate 2000 0) 0 0)) in
  zget (vga s) 80 = 0x0F69 ∧ cursor_row s = 1 ∧ cursor_col s = 1.
Proof.
  intros s. pose proof (console_refines_screen (mk_console (replicate 2000 0) 0 0) [72; 10; 105]) as H.
  fold s in H. destruct (H (length_replicate 2000 0)) as [_ Hc [Hr _] [Hcol _]];
    [repeat (apply Forall_cons; split; [unfold ascii; lia|]); by apply Forall_nil|].
  rewrite Hc, Hr, Hcol. split_and!; vm_compute; reflexivity.
Defined.

(** A character with the high bit set destroys the colour: [(u16)c] sign-extends a
    plain [char], so the attribute byte becomes 0xFF whatever the colour. *)
Theorem vga_char_high_bit c color :
  -128 <= c < 0 → in_u 8 color → vga_char c color = 0xFF00 + u8 c.
Proof.
  intros Hc Hcol.
  assert (Forall (λ c, Forall (λ color, vga_char c color = 0xFF00 + u8 c) (seqZ 0 256)) (seqZ (-128) 128))
    as HF by (apply (bool_decide_eq_true_1 _); by vm_compute).
  rewrite Forall_forall in HF. specialize (HF c ltac:(apply elem_of_seqZ; lia)).
  rewrite Forall_forall in HF. apply HF, elem_of_seqZ. unfold in_u in Hcol. lia.
Qed.

Lemma vga_char_high_bit_witness : vga_char (-23) 0x0F = 0xFFE9.
Proof. apply (vga_char_high_bit (-23) 0x0F); [lia|unfold in_u; lia]. Defined.
