(* ===== verification/Kernel.v ===== *)
(** * The kernel's main file: kernel/kernel.c

    [kernel_boot] is kernel_main up to its idle loop, composed from the models of
    the heap, the filesystem, the compositor and the scheduler; [kernel_idle] is
    one turn of the loop.  What the kernel does to the outside (console characters,
    drawing calls, the arch_* calls whose effect is not modelled here) is a list of
    events, in order.  arch_late_init is a call of the architecture layer that works on
    the heap, the registers and the stacks, and may panic: the boot is a function of the
    layer ([ArchLate]), its theorems rest on what the layer promises ([late_keeps]), and
    Arch.v shows that the x86_64 layer keeps the promise. *)

From S2P Require Import Prelude.
From S2P Require Import FrameAlloc.
From S2P Require Import Pmm.
From S2P Require Import Heap.
From S2P Require Import Switch.
From S2P Require Import Sched.
From S2P Require Import Vfs.
From S2P Require Import Font.
From S2P Require Import Framebuffer.
From S2P Require Import Gui.

(** ** Data *)

Inductive kernel_state_t := KERNEL_STATE_BOOT | KERNEL_STATE_RUNNING | KERNEL_STATE_PANIC | KERNEL_STATE_HALT.

Inductive event :=
  | Putc (c : Z)
  | Draw (op : draw_op)
  | Arch (name : string).

(** ** Console output *)

(** A string literal, which has its NUL. *)
Definition puts (s : list Z) : list event := Putc <$> s.

Definition console_puts (s : list Z) : option (list event) := puts <$> c_string s.

(** The loop of console_put_dec, and the position it ends at. *)
Fixpoint put_dec_loop (fuel : nat) (value i : Z) (buf : list Z) : option (Z * list Z) :=
  if 0 <? value then
    match fuel with
    | O => None
    | S fuel =>
        buf ← store buf (i - 1) (48 + value mod 10);
        put_dec_loop fuel (value / 10) (i - 1) buf
    end
  else Some (i, buf).

Definition console_put_dec (value : Z) (buf : list Z) : option (list event) :=
  let i := 20 in
  buf ← store buf i 0;
  if value =? 0 then Some [Putc 48] else
  '(i, buf) ← put_dec_loop 20 value i buf;
  console_puts (drop (Z.to_nat i) buf).

(** ** The blinker thread: one turn of its loop *)

Record blinker := mk_blinker { bl_on : bool; bl_last_tick : Z }.

Definition blinker_turn (o : outside) (b : blinker) : blinker * list event :=
  let now := ticks o in
  let '(b, ev) :=
    if 100 <=? u64 (now - bl_last_tick b) then
      let on := negb (bl_on b) in
      (mk_blinker on now,
       if gfx_available o
       then [Draw (FillRect (u32 (gfx_width o - 20)) 10 10 10 (if on then 0x0000FF00 else 0x00FF0000))]
       else [])
    else (b, []) in
  (b, ev ++ [Arch "arch_cpu_relax"]).

(** ** The architecture layer *)

(** How arch_late_init ends: it returns, or it panics and never does. *)
Inductive late := Returned | Panicked (msg : list Z).

(** What arch_late_init works on that the kernel works on too. *)
Record core (St R : Type) := mk_core {
  co_heap : heap St;
  co_cpu : context R;
  co_stacks : Switch.memory
}.
Arguments mk_core {St R}. Arguments co_heap {St R}. Arguments co_cpu {St R}. Arguments co_stacks {St R}.

(** arch_late_init of the layer; [None] is a fault. *)
Class ArchLate (St R : Type) := arch_late_init : core St R → option (late * core St R).

Section kernel.
Context {St : Type} `{!FrameOps St} {R : Type} `{!SwitchOps R}.

(** The heap is the one of the scheduler's state. *)
Record kernel := mk_kernel {
  kernel_state : kernel_state_t;
  k_sched : sched St R;
  k_vfs : vfs;
  k_gui : gui
}.

Definition with_core (s : sched St R) (c : core St R) : sched St R :=
  mk_sched (threads s) (current s) (next_id s) (sched_enabled s) (co_heap c) (co_cpu c) (co_stacks c).

(** What the boot finds outside: the display, the memory size, the disk and the
    uninitialised buffers of kernel_main's stack frames. *)
Record platform := mk_platform {
  display : outside;
  total_ram : Z;
  p_disk_available : bool;
  p_read_sector : Z → option (list Z);
  garbage : list Z
}.

Definition blinker_entry : Z := 0xB11C.

(** The filesystem part of the boot: the events, or a fault. *)
Definition boot_vfs (p : platform) (v : vfs) : option (list event) :=
  let gfx := gfx_available (display p) in
  if vfs_available v then
    let filebuf := take 128 (garbage p) in
    '(ok, filebuf, filesize) ← vfs_read_file (p_read_sector p) v (bytes "hello.txt" ++ [0]) filebuf 127 (Some 0);
    filesize ← filesize;
    filebuf ← (if (ok : bool) then
                 let shown := if filesize <? 127 then filesize else 127 in
                 store filebuf shown 0
               else Some filebuf);
    msg ← (if (ok : bool) then c_string filebuf else Some (bytes "VFS: READ FAILED"));
    if gfx then
      Some [Draw (DrawString 10 30 (if (ok : bool) then 0x0000FFFF else 0x00FF0000) 0x00102030
             msg)]
    else Some (puts (msg ++ (if (ok : bool) then [] else [10])))
  else if gfx then Some [Draw (DrawString 10 30 0x00FF0000 0x00102030 (bytes "VFS: NOT AVAILABLE"))]
  else Some [].

(** The heap check of the boot. *)
Definition boot_heap_check (h : heap St) : option (list event * heap St) :=
  let h := heap_init h in
  '(heap_check, h) ← kmalloc 64 h;
  let ev := puts (bytes "Heap: ") ++
            puts (if negb (heap_check =? 0) then bytes "OK" else bytes "FAIL") ++ [Putc 10] in
  h ← kfree heap_check h;
  Some (ev, h).

Definition kernel_panic (msg : list Z) (k : kernel) : option (kernel * list event) :=
  out ← console_puts msg;
  Some (mk_kernel KERNEL_STATE_PANIC (k_sched k) (k_vfs k) (k_gui k),
        [Arch "arch_interrupts_disable"] ++ puts (bytes "PANIC: ") ++ out ++ [Arch "arch_cpu_halt"]).

(** kernel_main, up to the idle loop, or to the halt of a panic in arch_late_init. *)
Definition kernel_boot `{LATE : !ArchLate St R} (p : platform) (k : kernel) : option (kernel * list event) :=
  let ev := [Arch "arch_early_init"; Arch "arch_console_init"] ++
            [Putc 10] ++ puts (bytes "MegKer") ++ [Putc 10] ++
            [Arch "arch_mm_init"] ++ puts (bytes "RAM: ") in
  dec ← console_put_dec (total_ram p / (1024 * 1024)) (take 21 (garbage p));
  let ev := ev ++ dec ++ puts (bytes " MB") ++ [Putc 10] in
  '(ev_heap, h) ← boot_heap_check (s_heap (k_sched k));
  let ev := ev ++ ev_heap ++
            [Arch "arch_interrupts_init"; Arch "arch_interrupts_enable";
             Arch "arch_timer_init 100"; Arch "arch_late_init"] in
  '(out, c) ← arch_late_init (mk_core h (cpu (k_sched k)) (mem (k_sched k)));
  let k := mk_kernel (kernel_state k) (with_core (k_sched k) c) (k_vfs k) (k_gui k) in
  match out with
  | Panicked msg =>
      '(k, ev_panic) ← kernel_panic (msg ++ [0]) k;
      Some (k, ev ++ ev_panic)
  | Returned =>
      let v := vfs_init (p_disk_available p) (p_read_sector p) (k_vfs k) in
      ev_vfs ← boot_vfs p v;
      let g := gui_init (display p) (k_gui k) in
      s ← sched_init (k_sched k);
      '(_, s) ← thread_create blinker_entry 0 s;
      Some (mk_kernel KERNEL_STATE_RUNNING s v g, ev ++ ev_vfs)
  end.

(** One turn of the idle loop; [key] is what arch_keyboard_getchar returns. *)
Definition kernel_idle (o : outside) (key : Z) (k : kernel) : kernel * list event :=
  let '(k, ev) :=
    if gfx_available o then
      let '(g, ops) := gui_update o (k_gui k) in
      (mk_kernel (kernel_state k) (k_sched k) (k_vfs k) g, Draw <$> ops)
    else (k, if truth key then [Putc key] else []) in
  (k, ev ++ [Arch "arch_cpu_relax"]).
End kernel.
Arguments kernel : clear implicits.

(** ** Decimal output *)

(** The number a string of decimal digits stands for. *)
Definition decimal (ds : list Z) : Z := fold_left (λ n c, 10 * n + (c - 48)) ds 0.

Lemma fold_decimal ds n : fold_left (λ n c, 10 * n + (c - 48)) ds n = n * 10 ^ Z.of_nat (length ds) + decimal ds.
Proof.
  unfold decimal. revert n. induction ds as [|d ds IH]; intros n; cbn [fold_left length].
  - simpl. lia.
  - rewrite IH, (IH (10 * 0 + _)). rewrite Nat2Z.inj_succ, Z.pow_succ_r by lia. lia.
Qed.

Lemma decimal_cons d ds : decimal (d :: ds) = (d - 48) * 10 ^ Z.of_nat (length ds) + decimal ds.
Proof. unfold decimal at 1. cbn [fold_left]. rewrite fold_decimal. lia. Qed.

Definition digits (ds : list Z) : Prop := Forall (λ c, 48 <= c <= 57) ds.

(** The loop: the digits of [value] go in front of those already written. *)
Lemma put_dec_loop_spec fuel value pre ds tl :
  0 <= value < 10 ^ Z.of_nat fuel → (fuel <= length pre)%nat → digits ds →
  (0 < value ∨ head ds ≠ Some 48) →
  ∃ i pre' ds', put_dec_loop fuel value (Z.of_nat (length pre)) (pre ++ ds ++ tl) =
      Some (i, pre' ++ ds' ++ tl) ∧ i = Z.of_nat (length pre') ∧ digits ds' ∧
    decimal ds' = value * 10 ^ Z.of_nat (length ds) + decimal ds ∧ head ds' ≠ Some 48 ∧
    (length ds' <= length ds + fuel)%nat ∧ (0 < value ∨ ds ≠ [] → ds' ≠ []).
Proof.
  revert value pre ds. induction fuel as [|fuel IH]; intros value pre ds Hv Hp Hd Hh; cbn [put_dec_loop].
  - assert (value = 0) as -> by (simpl in Hv; lia). simpl.
    exists (Z.of_nat (length pre)), pre, ds. split_and!; try done; [naive_solver lia|lia|naive_solver lia].
  - destruct (Z.ltb_spec 0 value) as [Hpos|Hz].
    2:{ assert (value = 0) as -> by lia. exists (Z.of_nat (length pre)), pre, ds.
        split_and!; try done; [naive_solver lia|lia|naive_solver lia]. }
    destruct (decide (length pre = 0)%nat); [lia|].
    destruct pre as [|x pre _] using rev_ind; [done|].
    rewrite length_app in *. simpl in *. unfold store.
    replace (Z.of_nat (length pre + 1) - 1) with (Z.of_nat (length pre)) by lia.
    replace ((0 <=? Z.of_nat (length pre)) && _) with true.
    2:{ symmetry. apply andb_true_iff. rewrite Z.leb_le, Z.ltb_lt, !length_app. simpl. lia. }
    simpl. unfold zset. rewrite Nat2Z.id, <- app_assoc. simpl.
    rewrite insert_app_r_alt, Nat.sub_diag by lia. simpl.
    rewrite Nat2Z.inj_succ, Z.pow_succ_r in Hv by lia.
    destruct (IH (value / 10) pre ((48 + value mod 10) :: ds)) as (i & pre' & ds' & E & Hi & Hd' & Hval & Hh' & Hl' & Hne).
    + div_lia.
    + lia.
    + constructor; [div_lia|done].
    + simpl. destruct (decide (0 < value / 10)); [by left|right]. intros [= H]. div_lia.
    + exists i, pre', ds'. simpl in *. split_and!; [exact E|done|done| |done|lia|].
      * rewrite Hval, decimal_cons. replace (length (48 + value mod 10 :: ds)) with (S (length ds)) by done.
        rewrite Nat2Z.inj_succ, Z.pow_succ_r by lia. rewrite (Z.div_mod value 10) at 3 by lia. lia.
      * intros _. apply Hne. by right.
Qed.

(** ** The boot *)

Section proofs.
Context {St : Type} `{!FrameOps St, !FrameLaws St} {R : Type} `{!SwitchOps R, !SwitchLaws R}.
Implicit Types (k : kernel St R).

Lemma boot_heap_check_rep s0 :
  fa_wf s0 → ∃ ev h AL, boot_heap_check (boot_heap s0) = Some (ev, h) ∧ heap_rep h AL ∧
    fa_managed (frames h) = fa_managed s0 ∧
    ∃ ok : bool, ev = puts (bytes "Heap: " ++ bytes (if ok then "OK" else "FAIL") ++ [10]).
Proof.
  intros Hw. destruct (heap_init_rep s0 Hw) as (AL & Hr & _). unfold boot_heap_check.
  assert (fa_managed (frames (heap_init (boot_heap s0))) = fa_managed s0) as Hm0.
  { exact (grow_heap_managed _ _ 0 (proj1 (boot_rep s0 Hw)) ltac:(lia)). }
  destruct (kmalloc_rep _ _ 64 Hr ltac:(lia)) as (p & h1 & AL1 & E & Hr1 & Hres). rewrite E. simpl.
  pose proof (kmalloc_managed _ _ 64 _ _ Hr ltac:(lia) E) as Hm1. rewrite Hm0 in Hm1.
  destruct Hres as [[-> ->]|(Hp & _ & _ & m & _ & Hlive)].
  - simpl. eexists _, _, _. split; [done|]. split; [exact Hr|]. split; [done|by exists false].
  - rewrite (proj2 (Z.eqb_neq p 0)) by done. simpl.
    destruct (kfree_fits h1 AL1 p m Hr1) as (h2 & AL2 & E2 & Hr2 & _ & Hf & _); [apply Hlive; auto|].
    rewrite E2. simpl. eexists _, _, _. split; [done|]. split; [exact Hr2|].
    split; [by rewrite Hf|by exists true].
Qed.

Lemma boot_vfs_total p v :
  disk_wf (p_read_sector p) → (128 <= length (garbage p))%nat → is_Some (boot_vfs p v).
Proof.
  intros Hdisk Hg. unfold boot_vfs. destruct (vfs_available v); [|by case_if].
  assert (length (take 128 (garbage p)) = 128)%nat as Hl by (rewrite length_take; lia).
  destruct (read_file_safe (p_read_sector p) Hdisk (bytes "hello.txt") [] (take 128 (garbage p)) 127 (Some 0))
    with (v := v) as (ok & buf & out & E & [Hlb _] & Hout);
    [apply Nat.leb_le; reflexivity|lia|lia|].
  change (bytes "hello.txt" ++ [0]) with (bytes "hello.txt" ++ 0 :: []). rewrite E. simpl.
  assert (∃ sz, out = Some sz ∧ 0 <= sz) as (sz & -> & Hsz) by (destruct Hout as [->|(sz & ? & ->)]; eauto with lia).
  simpl. destruct ok; simpl; [|by case_if].
  set (shown := if sz <? 127 then sz else 127).
  assert (0 <= shown < 128) as Hs by (unfold shown; destruct (Z.ltb_spec sz 127); lia).
  unfold store. replace ((0 <=? shown) && (shown <? Z.of_nat (length buf))) with true.
  2:{ symmetry. apply andb_true_iff. rewrite Z.leb_le, Z.ltb_lt. lia. }
  simpl. destruct (c_string_total (zset buf shown 0)) as [msg ->]; [|by case_if].
  unfold zset. apply list_elem_of_lookup_2 with (Z.to_nat shown). apply list_lookup_insert_eq. lia.
Qed.

(** The three allocations the boot makes for its threads. *)
Definition boot_memory (h : heap St) (t0 t1 b : Z) : Prop :=
  ∃ h1 h2 h3, kmalloc sizeof_thread h = Some (t0, h1) ∧ t0 ≠ 0 ∧
    kmalloc sizeof_thread h1 = Some (t1, h2) ∧ t1 ≠ 0 ∧
    kmalloc THREAD_STACK_SIZE h2 = Some (b, h3) ∧ b ≠ 0.

Lemma boot_threads s AL t0 t1 b lo hi :
  heap_rep (s_heap s) AL → boot_memory (s_heap s) t0 t1 b →
  lo + frame_size <= c_sp (cpu s) <= hi →
  (∀ x, lo <= x < hi → x / PAGE ∉ fa_managed (frames (s_heap s))) →
  ∃ s1 s2, sched_init s = Some s1 ∧ thread_create blinker_entry 0 s1 = Some (t1, s2) ∧
    sched_rep s2 (mk_entry t0 (cpu s) lo hi)
      [mk_entry t1 (entry_context (b + THREAD_STACK_SIZE) blinker_entry 0) b (b + THREAD_STACK_SIZE)].
Proof.
  intros Hr (h1 & h2 & h3 & E0 & H0 & E1 & H1 & E2 & H2) Hsp Hboot.
  destruct (sched_init_rep s AL t0 h1 lo hi Hr E0 H0 Hsp Hboot) as (s1 & Es & Eh & Ec & _ & Hs).
  rewrite <- Eh in E1.
  destruct (thread_create_rep s1 _ [] blinker_entry 0 t1 h2 b h3 Hs E1 H1 E2 H2) as (s2 & Ecr & _ & Hs2).
  by exists s1, s2.
Qed.

(** ** Properties *)

#[local] Arguments put_dec_loop : simpl never.

Lemma put_dec_correct value buf :
  0 <= value < 2 ^ 64 → length buf = 21%nat →
  ∃ ds, console_put_dec value buf = Some (puts ds) ∧ digits ds ∧ decimal ds = value ∧
    (length ds <= 20)%nat ∧ ds ≠ [] ∧ (value = 0 ∨ head ds ≠ Some 48).
Proof.
  intros Hv Hl. unfold console_put_dec, store. rewrite Hl. simpl.
  destruct (Z.eqb_spec value 0) as [->|Hne].
  { exists [48]. split_and!; [done|by repeat constructor|done|simpl; lia|done|by left]. }
  assert (zset buf 20 0 = take 20 buf ++ [] ++ [0]) as ->.
  { unfold zset. rewrite insert_take_drop by (simpl; lia). change (Z.to_nat 20) with 20%nat.
    by rewrite drop_ge by lia. }
  assert (length (take 20 buf) = 20%nat) as Ht by (rewrite length_take; lia).
  destruct (put_dec_loop_spec 20 value (take 20 buf) [] [0])
    as (i & pre & ds & E & Hi & Hd & Hval & Hh & Hlen & Hne2).
  - simpl. lia.
  - lia.
  - constructor.
  - left. lia.
  - rewrite Ht in E. change (Z.of_nat 20) with 20 in E. rewrite E. simpl.
    rewrite Hi, Nat2Z.id, drop_app_length. unfold console_puts. rewrite c_string_app.
    + exists ds. split_and!; [done|done| |simpl in Hlen; lia|apply Hne2; left; lia|by right].
      rewrite Hval. simpl. change (decimal []) with 0. lia.
    + apply (Forall_impl _ _ _ Hd). lia.
Qed.

(** Console_put_dec writes the decimal representation of any 64-bit value: digits
    only, the right value, no leading zero, and it never leaves its 21-byte buffer. *)
Lemma console_put_dec_spec value buf :
  0 <= value < 2 ^ 64 → length buf = 21%nat →
  ∃ ds, console_put_dec value buf = Some (puts ds) ∧ digits ds ∧ decimal ds = value ∧
    (length ds <= 20)%nat ∧ ds ≠ [] ∧ (value = 0 ∨ head ds ≠ Some 48).
Proof. apply put_dec_correct. Qed.

(** What the kernel relies on from arch_late_init, called with the heap [h], the registers
    [c] and the stacks [m]: it returns, the heap is still one, over the same managed frames,
    the caller's registers are as before, and there is memory for the two threads. *)
Definition late_keeps `{LATE : !ArchLate St R} h (c : context R) m t0 t1 b : Prop :=
  ∃ h' m' AL, arch_late_init (mk_core h c m) = Some (Returned, mk_core h' c m') ∧
    heap_rep h' AL ∧ fa_managed (frames h') = fa_managed (frames h) ∧ boot_memory h' t0 t1 b.

(** What the boot has called and printed when arch_late_init returns or panics. *)
Definition boot_events (ds : list Z) (ok : bool) : list event :=
  [Arch "arch_early_init"; Arch "arch_console_init"] ++
  puts (10 :: bytes "MegKer" ++ [10]) ++ [Arch "arch_mm_init"] ++
  puts (bytes "RAM: " ++ ds ++ bytes " MB" ++ [10]) ++
  puts (bytes "Heap: " ++ bytes (if ok then "OK" else "FAIL") ++ [10]) ++
  [Arch "arch_interrupts_init"; Arch "arch_interrupts_enable";
   Arch "arch_timer_init 100"; Arch "arch_late_init"].

Section boot.
Context `{LATE : !ArchLate St R}.

(** The boot as far as arch_late_init. *)
Lemma boot_until_late p v g s0 nid c m :
  fa_wf s0 → (128 <= length (garbage p))%nat → 0 <= total_ram p < 2 ^ 64 →
  ∃ h AL evh ds ok, boot_heap_check (boot_heap s0) = Some (evh, h) ∧ heap_rep h AL ∧
    fa_managed (frames h) = fa_managed s0 ∧ digits ds ∧ decimal ds = total_ram p / 2 ^ 20 ∧
    kernel_boot p (mk_kernel KERNEL_STATE_BOOT (mk_sched ∅ 0 nid false (boot_heap s0) c m) v g) =
      '(out, co) ← arch_late_init (mk_core h c m);
      let k := mk_kernel KERNEL_STATE_BOOT (with_core (mk_sched ∅ 0 nid false (boot_heap s0) c m) co) v g in
      match out with
      | Panicked msg =>
          '(k, ev_panic) ← kernel_panic (msg ++ [0]) k; Some (k, boot_events ds ok ++ ev_panic)
      | Returned =>
          let v := vfs_init (p_disk_available p) (p_read_sector p) v in
          ev_vfs ← boot_vfs p v;
          s ← sched_init (k_sched k);
          '(_, s) ← thread_create blinker_entry 0 s;
          Some (mk_kernel KERNEL_STATE_RUNNING s v (gui_init (display p) g), boot_events ds ok ++ ev_vfs)
      end.
Proof.
  intros Hw Hg Hram.
  destruct (boot_heap_check_rep s0 Hw) as (evh & h & AL & Eh & Hr & Hm & ok & Hev).
  destruct (put_dec_correct (total_ram p / 2 ^ 20) (take 21 (garbage p))) as (ds & Ed & Hds & Hval & _);
    [split; div_lia|rewrite length_take; lia|].
  exists h, AL, evh, ds, ok. do 5 (split; [done|]). unfold kernel_boot.
  change (1024 * 1024) with (2 ^ 20). rewrite Ed. cbn [mbind option_bind].
  cbn [s_heap k_sched]. rewrite Eh. cbn [mbind option_bind].
  assert (∀ l, (([Arch "arch_early_init"; Arch "arch_console_init"] ++ [Putc 10] ++ puts (bytes "MegKer") ++ [Putc 10] ++
      [Arch "arch_mm_init"] ++ puts (bytes "RAM: ")) ++ puts ds ++ puts (bytes " MB") ++ [Putc 10]) ++ evh ++ l =
    [Arch "arch_early_init"; Arch "arch_console_init"] ++
      puts (10 :: bytes "MegKer" ++ [10]) ++ [Arch "arch_mm_init"] ++
      puts (bytes "RAM: " ++ ds ++ bytes " MB" ++ [10]) ++
      puts (bytes "Heap: " ++ bytes (if ok then "OK" else "FAIL") ++ [10]) ++ l) as Hl.
  { intros l. subst evh. unfold puts. rewrite !fmap_app. simpl. rewrite <- !app_assoc. simpl.
    rewrite <- ?app_assoc. by destruct ok. }
  rewrite Hl. reflexivity.
Qed.

Lemma boot_reaches_idle p v g s0 nid c m t0 t1 b lo hi :
  fa_wf s0 → disk_wf (p_read_sector p) → (128 <= length (garbage p))%nat →
  0 <= total_ram p < 2 ^ 64 →
  lo + frame_size <= c_sp c <= hi → (∀ x, lo <= x < hi → x / PAGE ∉ fa_managed s0) →
  (∀ ev h, boot_heap_check (boot_heap s0) = Some (ev, h) → late_keeps h c m t0 t1 b) →
  ∃ k ds ok rest,
    kernel_boot p (mk_kernel KERNEL_STATE_BOOT (mk_sched ∅ 0 nid false (boot_heap s0) c m) v g) =
      Some (k, boot_events ds ok ++ rest) ∧
    kernel_state k = KERNEL_STATE_RUNNING ∧ k_gui k = gui_init (display p) g ∧
    sched_rep (k_sched k) (mk_entry t0 c lo hi)
      [mk_entry t1 (entry_context (b + THREAD_STACK_SIZE) blinker_entry 0) b (b + THREAD_STACK_SIZE)] ∧
    digits ds ∧ decimal ds = total_ram p / 2 ^ 20.
Proof.
  intros Hw Hdisk Hg Hram Hsp Hboot Hmem.
  destruct (boot_until_late p v g s0 nid c m Hw Hg Hram) as (h & AL & evh & ds & ok & Eh & _ & Hm & Hds & Hval & E).
  destruct (Hmem _ _ Eh) as (h' & m' & AL' & El & Hr & Hm' & Hbm).
  destruct (boot_vfs_total p (vfs_init (p_disk_available p) (p_read_sector p) v) Hdisk Hg) as [evv Ev].
  set (s := with_core (mk_sched ∅ 0 nid false (boot_heap s0) c m) (mk_core h' c m')).
  destruct (boot_threads s AL' t0 t1 b lo hi Hr Hbm Hsp) as (s1 & s2 & Es & Ec & Hs2).
  { cbn. by rewrite Hm', Hm. }
  rewrite E, El. cbn [mbind option_bind k_sched]. fold s. rewrite Ev. cbn [mbind option_bind].
  rewrite Es. cbn [mbind option_bind]. rewrite Ec. cbn [mbind option_bind].
  by exists (mk_kernel KERNEL_STATE_RUNNING s2 (vfs_init (p_disk_available p) (p_read_sector p) v) (gui_init (display p) g)),
    ds, ok, evv.
Qed.

(** C17: how the boot ends.  With a well-formed frame allocator, any disk and any memory
    size, kernel_main runs without a fault, and the console shows the memory size in decimal
    and the heap check.  When arch_late_init returns with the registers and the heap in
    order and the heap has memory for both threads (thread_create does not look at what
    kmalloc gave it), kernel_main reaches its idle loop: the kernel state is RUNNING, the
    boot context is the running thread, and the blinker, which will enter its function at
    the trampoline on a stack of its own, is the only other one in the ring.  When
    arch_late_init panics, the message is the last that is printed, the state is PANIC and
    the processor halts, with no thread created. *)
Theorem kernel_boot_reaches_idle p v g s0 nid c m :
  fa_wf s0 → disk_wf (p_read_sector p) → (128 <= length (garbage p))%nat →
  0 <= total_ram p < 2 ^ 64 →
  let boot := kernel_boot p (mk_kernel KERNEL_STATE_BOOT (mk_sched ∅ 0 nid false (boot_heap s0) c m) v g) in
  (∀ t0 t1 b lo hi,
     lo + frame_size <= c_sp c <= hi → (∀ x, lo <= x < hi → x / PAGE ∉ fa_managed s0) →
     (∀ ev h, boot_heap_check (boot_heap s0) = Some (ev, h) → late_keeps h c m t0 t1 b) →
     ∃ k ds ok rest, boot = Some (k, boot_events ds ok ++ rest) ∧ kernel_state k = KERNEL_STATE_RUNNING ∧
       sched_rep (k_sched k) (mk_entry t0 c lo hi)
         [mk_entry t1 (entry_context (b + THREAD_STACK_SIZE) blinker_entry 0) b (b + THREAD_STACK_SIZE)] ∧
       digits ds ∧ decimal ds = total_ram p / 2 ^ 20) ∧
  (∀ msg co, 0 ∉ msg →
     (∀ ev h, boot_heap_check (boot_heap s0) = Some (ev, h) → arch_late_init (mk_core h c m) = Some (Panicked msg, co)) →
     ∃ k ds ok,
       boot = Some (k, boot_events ds ok ++ [Arch "arch_interrupts_disable"] ++
                       puts (bytes "PANIC: " ++ msg) ++ [Arch "arch_cpu_halt"]) ∧
       kernel_state k = KERNEL_STATE_PANIC ∧ threads (k_sched k) = ∅ ∧ k_vfs k = v ∧ k_gui k = g ∧
       digits ds ∧ decimal ds = total_ram p / 2 ^ 20).
Proof.
  intros Hw Hdisk Hg Hram boot. split.
  - intros t0 t1 b lo hi Hsp Hboot Hmem.
    destruct (boot_reaches_idle p v g s0 nid c m t0 t1 b lo hi Hw Hdisk Hg Hram Hsp Hboot Hmem)
      as (k & ds & ok & rest & E & Hst & _ & H). by exists k, ds, ok, rest.
  - intros msg co H0 Hlate.
    destruct (boot_until_late p v g s0 nid c m Hw Hg Hram) as (h & AL & evh & ds & ok & Eh & _ & _ & Hds & Hval & E).
    unfold boot. rewrite E, (Hlate _ _ Eh). cbn [mbind option_bind]. unfold kernel_panic, console_puts.
    assert (Forall (λ ch, ch ≠ 0) msg) as Hmsg by (apply Forall_forall; intros ch Hch ->; done).
    rewrite (c_string_app msg []) by exact Hmsg.
    cbn [fmap option_fmap option_map mbind option_bind]. eexists _, ds, ok. split; [|split_and!].
    { unfold puts. rewrite fmap_app, <- !app_assoc. reflexivity. }
    all: done.
Qed.
End boot.
End proofs.

(** When the disk is an image mkfs built and it holds hello.txt with text in it, the boot
    draws the first 127 bytes of exactly that text, whatever was in the stack buffer. *)
Lemma boot_shows p v fs f :
  p_read_sector p = image_sector (mkfs fs) → p_disk_available p = true → mkfs_ok fs →
  lookup_file (bytes "hello.txt") fs = Some f → 0 ∉ f_data f →
  (128 <= length (garbage p))%nat → gfx_available (display p) = true →
  boot_vfs p (vfs_init (p_disk_available p) (p_read_sector p) v) =
  Some [Draw (DrawString 10 30 0x0000FFFF 0x00102030 (take 127 (f_data f)))].
Proof.
  intros Hrs Hda Hok Hlk H0 Hg Hgfx. rewrite Hrs, Hda, image_init by done. unfold boot_vfs.
  cbn [vfs_available available]. rewrite Hrs, Hgfx.
  assert (length (take 128 (garbage p)) = 128)%nat as Hl by (rewrite length_take; lia).
  change (bytes "hello.txt" ++ [0]) with (bytes "hello.txt" ++ 0 :: []).
  rewrite (vfs_read_spec _ (bytes "hello.txt") [] (take 128 (garbage p)) 127 (Some 0))
    with (fs := fs);
    [|by apply (bool_decide_eq_true_1 _); vm_compute|lia|lia|by apply image_holds].
  unfold read_spec. rewrite Hlk. cbn [mbind option_bind fmap option_fmap option_map].
  set (n := Nat.min (Z.to_nat 127) (length (f_data f))).
  replace (if Z.of_nat (length (f_data f)) <? 127 then Z.of_nat (length (f_data f)) else 127)
    with (Z.of_nat n) by (unfold n; destruct (Z.ltb_spec (Z.of_nat (length (f_data f))) 127); lia).
  assert (length (take n (f_data f)) = n) as Hn by (rewrite length_take; lia).
  unfold store. rewrite length_app, length_drop, Hn, Hl.
  replace ((0 <=? Z.of_nat n) && (Z.of_nat n <? Z.of_nat (n + (128 - n)))) with true
    by (symmetry; apply andb_true_iff; rewrite Z.leb_le, Z.ltb_lt; lia).
  cbn [mbind option_bind]. unfold zset. rewrite Nat2Z.id.
  destruct (drop n (take 128 (garbage p))) as [|x tl] eqn:Ed.
  { apply (f_equal length) in Ed. rewrite length_drop, Hl in Ed. simpl in Ed. lia. }
  rewrite insert_app_r_alt, Hn, Nat.sub_diag by lia. cbn.
  rewrite c_string_app.
  - do 4 f_equal. unfold n. change (Z.to_nat 127) with 127%nat.
    destruct (Nat.le_ge_cases (length (f_data f)) 127).
    + by rewrite Nat.min_r, !take_ge by lia.
    + by rewrite Nat.min_l by lia.
  - apply Forall_forall. intros y Hy ->. apply H0. by eapply elem_of_take in Hy as (? & ?%list_elem_of_lookup_2 & _).
Qed.

(** ** Witnesses *)

Definition example_fs : list file := [mk_file (bytes "hello.txt") (bytes "Hi")].
Definition example_platform : platform :=
  mk_platform (mk_outside true 800 600 None 0) (64 * 2 ^ 20) true
    (image_sector (mkfs example_fs)) (replicate 128 0xCC).

Lemma example_fs_ok : mkfs_ok example_fs.
Proof.
  split; [| |simpl; lia|by vm_compute].
  - intros f ->%list_elem_of_singleton. split; [apply (bool_decide_eq_true_1 _); by vm_compute|].
    apply Nat.leb_le. reflexivity.
  - intros f ->%list_elem_of_singleton. by vm_compute.
Qed.

Lemma example_disk_wf : disk_wf (p_read_sector example_platform).
Proof.
  intros lba sec. cbn [p_read_sector example_platform]. unfold image_sector. case_if; [|done].
  intros [= <-]. bool_to_prop.
  assert (length (mkfs example_fs) = 1536%nat) as El by reflexivity. rewrite El in E.
  unfold SECTOR_SIZE in *. split; [rewrite length_take, length_drop, El; lia|].
  apply Forall_take, Forall_drop. apply (bool_decide_eq_true_1 _). vm_compute. reflexivity.
Qed.

(** The heap after the boot's heap check. *)
Definition checked_heap : heap pmm :=
  match boot_heap_check (boot_heap example_frames) with Some (_, h) => h | None => example_heap end.

(** A layer that allocates and frees a block and pushes on the stack it is called on. *)
Definition example_late : ArchLate pmm regs_x86 := λ co,
  '(p, h) ← kmalloc 4096 (co_heap co); h ← kfree p h;
  Some (Returned, mk_core h (co_cpu co) ((co_stacks co)⟦c_sp (co_cpu co) - 8 := 1⟧)).

(** The heap it leaves. *)
Definition late_heap : heap pmm :=
  match example_late (mk_core checked_heap boot_cpu (λ _, 0)) with Some (_, co) => co_heap co | None => example_heap end.

Lemma example_late_keeps ev h :
  boot_heap_check (boot_heap example_frames) = Some (ev, h) →
  late_keeps (LATE := example_late) h boot_cpu (λ _, 0) 0x1030 0x1078 0x10C0.
Proof.
  intros E. assert (h = checked_heap) as -> by (unfold checked_heap; by rewrite E).
  destruct (boot_heap_check_rep example_frames example_frames_wf) as (ev' & h & AL & E' & Hr & Hm & _).
  assert (h = checked_heap) as -> by (unfold checked_heap; by rewrite E').
  destruct (kmalloc_rep _ _ 4096 Hr ltac:(lia)) as (p & h1 & AL1 & E1 & Hr1 & Hres).
  pose proof (kmalloc_managed _ _ 4096 _ _ Hr ltac:(lia) E1) as Hm1.
  destruct Hres as [[-> ->]|(Hp & _ & _ & n & _ & Hlive)].
  { exfalso. assert ((fst <$> kmalloc 4096 checked_heap) = Some 0x1030) as E0 by (vm_compute; reflexivity).
    rewrite E1 in E0. discriminate E0. }
  destruct (kfree_fits h1 AL1 p n Hr1) as (h2 & AL2 & E2 & Hr2 & _ & Hf & _); [apply Hlive; auto|].
  assert (h2 = late_heap) as ->.
  { unfold late_heap, example_late. cbn [co_heap]. rewrite E1. cbn [mbind option_bind]. by rewrite E2. }
  exists late_heap, ((λ _, 0)⟦c_sp boot_cpu - 8 := 1⟧), AL2. split; [|split; [exact Hr2|split]].
  - unfold arch_late_init, example_late. cbn [co_heap co_cpu co_stacks]. rewrite E1. cbn [mbind option_bind]. by rewrite E2.
  - by rewrite Hf.
  - exists (heap_after sizeof_thread late_heap),
      (heap_after sizeof_thread (heap_after sizeof_thread late_heap)),
      (heap_after THREAD_STACK_SIZE (heap_after sizeof_thread (heap_after sizeof_thread late_heap))).
    split_and!; try (vm_compute; reflexivity); done.
Qed.

(** A layer whose self-test fails. *)
Definition failing_late : ArchLate pmm regs_x86 := λ co, Some (Panicked (bytes "VMM self-test failed"), co).

#[local] Instance example_switch : SwitchOps regs_x86 := switch_ops_x86 0x77.
#[local] Instance example_switch_laws : SwitchLaws regs_x86 := switch_laws_x86 0x77.

Definition boot_kernel : kernel pmm regs_x86 :=
  mk_kernel KERNEL_STATE_BOOT (mk_sched ∅ 0 0 false (boot_heap example_frames) boot_cpu (λ _, 0)) vfs_reset gui_boot.

Lemma kernel_boot_reaches_idle_witness :
  (∃ k ev, kernel_boot (LATE := example_late) example_platform boot_kernel = Some (k, ev) ∧
    kernel_state k = KERNEL_STATE_RUNNING ∧ sched_current (k_sched k) = 0x1030) ∧
  ∃ k ev, kernel_boot (LATE := failing_late) example_platform boot_kernel = Some (k, ev) ∧
    kernel_state k = KERNEL_STATE_PANIC ∧ last ev = Some (Arch "arch_cpu_halt").
Proof.
  split.
  - destruct (kernel_boot_reaches_idle (LATE := example_late) example_platform vfs_reset gui_boot example_frames 0 boot_cpu
      (λ _, 0) example_frames_wf example_disk_wf) as [H _]; [apply Nat.leb_le; reflexivity|simpl; lia|].
    destruct (H 0x1030 0x1078 0x10C0 0x3F000 0x40000) as (k & ds & ok & rest & E & Hst & Hs & _).
    + simpl. lia.
    + intros x Hx. change (fa_managed example_frames) with (frame_range 0 40).
      rewrite elem_of_frame_range. unfold PAGE. div_lia.
    + apply example_late_keeps.
    + exists k, (boot_events ds ok ++ rest). split; [exact E|]. split; [exact Hst|]. apply (sr_current _ _ _ Hs).
  - destruct (kernel_boot_reaches_idle (LATE := failing_late) example_platform vfs_reset gui_boot example_frames 0 boot_cpu
      (λ _, 0) example_frames_wf example_disk_wf) as [_ H]; [apply Nat.leb_le; reflexivity|simpl; lia|].
    destruct (H (bytes "VMM self-test failed") (mk_core checked_heap boot_cpu (λ _, 0))) as (k & ds & ok & E & Hst & _).
    + apply (bool_decide_eq_true_1 _). vm_compute. reflexivity.
    + intros ev h E. unfold checked_heap. by rewrite E.
    + eexists k, _. split; [exact E|]. split; [exact Hst|]. rewrite !(assoc_L (++)). apply last_snoc.
Defined.

Lemma console_put_dec_spec_witness :
  ∃ ds, console_put_dec 1024 (replicate 21 7) = Some (puts ds) ∧ decimal ds = 1024.
Proof.
  destruct (console_put_dec_spec 1024 (replicate 21 7)) as (ds & E & _ & Hd & _);
    [lia|reflexivity|eauto].
Defined.
