(* ===== verification/Text.v ===== *)
(** * Text on the framebuffer: what fb_draw_string leaves on the screen

    The reference is a typesetting of the string: [layout] gives every character a
    line and a column, a cell of 8 by 8 pixels belongs to each, and the pixels of a
    cell are the bits of the character's glyph.  The first theorem says
    the drawing code of Framebuffer.v does exactly that; the second composes it with
    the boot of Kernel.v, from the sectors of the disk to the pixels. *)

From S2P Require Import Prelude.
From S2P Require Import Vfs.
From S2P Require Import Font.
From S2P Require Import Framebuffer.
From S2P Require Import Gui.
From S2P Require Import Kernel.

(** ** The reference *)

(** The characters of a string with their line and column. *)
Fixpoint layout (line col : Z) (s : list Z) : list (Z * Z * Z) :=
  match s with
  | [] => []
  | c :: s => if c =? 10 then layout (line + 1) 0 s else (line, col, c) :: layout line (col + 1) s
  end.

(** The pixel (x, y) of the screen. *)
Definition pixel (i : fb_info) (m : video) (x y : Z) : option Z :=
  m !! u64 (u64 (fb_addr i + y * fb_pitch i) + x * 4).

(** A framebuffer whose scanlines have room for their pixels and which ends before
    the address space does. *)
Record frame_ok (i : fb_info) : Prop := {
  fo_present : fb_present i = true;
  fo_addr : 0 <= fb_addr i;
  fo_pitch : 4 * fb_w i <= fb_pitch i;
  fo_end : fb_addr i + fb_pitch i * fb_h i < 2 ^ 64;
  fo_width : fb_w i <= 2 ^ 32;
  fo_height : fb_h i <= 2 ^ 32
}.

(** The colour of the glyph's pixel in row [r] and column [k]. *)
Definition ink (glyph : Z → list Z) (fg bg c r k : Z) : Z :=
  (if Z.testbit (zget (glyph c) r) (7 - k) then fg else bg) .& 0x00FFFFFF.

(** The distance of [a] from [b] in the coordinates' 32 bits. *)
Definition rel (a b : Z) : Z := u32 (a - b).

(** The screen position (px, py) is in the cell at [line], [col] of a text at (x, y). *)
Definition in_cell (x y px py line col : Z) : Prop :=
  rel px (x + 8 * col) < 8 ∧ rel py (y + 8 * line) < 8.

(** The screen after the events of the boot: its drawing calls, on the x86_64 driver (none
    of them is a line, the only call with fuel). *)
Definition boot_screen (i : fb_info) (ev : list event) (m : video) : option video :=
  foldl (λ r e, m ← r; match e with Draw op => run_op (Some i) 0 op m | _ => Some m end) (Some m) ev.

(** ** One character *)

Lemma rel_offset p x k : in_u 32 p → in_u 32 k → (u32 (x + k) =? p) = (k =? rel p x).
Proof.
  unfold in_u, rel, u32. intros Hp Hk. apply eq_true_iff_eq. rewrite !Z.eqb_eq. split; intros; div_lia.
Qed.

Lemma ltb_succ n k : (n <? k + 1) = (k =? n) || (n <? k).
Proof. destruct (Z.eqb_spec k n), (Z.ltb_spec n k), (Z.ltb_spec n (k + 1)); simpl; lia. Qed.

Section screen.
Context (i : fb_info) (Hok : frame_ok i) (glyph : Z → list Z).
Context (px py : Z) (Hpx : 0 <= px < fb_w i) (Hpy : 0 <= py < fb_h i).

Lemma px_range : in_u 32 px.
Proof. destruct Hok. unfold in_u. lia. Qed.

Lemma py_range : in_u 32 py.
Proof. destruct Hok. unfold in_u. lia. Qed.

Lemma pixel_address x y :
  0 <= x < fb_w i → 0 <= y < fb_h i →
  u64 (u64 (fb_addr i + y * fb_pitch i) + x * 4) = fb_addr i + y * fb_pitch i + x * 4.
Proof. intros Hx Hy. destruct Hok. rewrite (u64_id (_ + y * _)) by (unfold in_u; nia). apply u64_id. unfold in_u. nia. Qed.

Lemma pixel_apart x y :
  0 <= x < fb_w i → 0 <= y < fb_h i → (x, y) ≠ (px, py) →
  u64 (u64 (fb_addr i + y * fb_pitch i) + x * 4) ≠ u64 (u64 (fb_addr i + py * fb_pitch i) + px * 4).
Proof.
  intros Hx Hy Hne E. rewrite !pixel_address in E by done. destruct Hok. apply Hne.
  assert (y = py) as -> by nia. f_equal. lia.
Qed.

Lemma put_pixel_at x y rgb m :
  0 <= x → 0 <= y →
  pixel i (put_pixel (Some i) x y rgb m) px py =
  if (x =? px) && (y =? py) then Some (rgb .& 0x00FFFFFF) else pixel i m px py.
Proof.
  intros Hx Hy. unfold put_pixel, pixel. rewrite (fo_present _ Hok). simpl.
  destruct (decide ((x, y) = (px, py))) as [[= -> ->]|Hne].
  - rewrite !Z.eqb_refl, (proj2 (Z.leb_gt _ px)), (proj2 (Z.leb_gt _ py)) by lia. simpl.
    by rewrite lookup_insert_eq.
  - replace ((x =? px) && (y =? py)) with false.
    2:{ symmetry. apply andb_false_iff. rewrite !Z.eqb_neq. destruct (decide (x = px)); [right|by left]. congruence. }
    destruct (_ || _) eqn:E; [done|]. bool_to_prop. rewrite lookup_insert_ne; [done|]. apply pixel_apart; lia || done.
Qed.

(** The inner loop of fb_draw_char, and the whole of it. *)
Lemma char_row_at x y (colour : Z → Z) m :
  0 <= y →
  pixel i (for_up 0 8 (λ col m, put_pixel (Some i) (u32 (x + col)) y (colour col) m) m) px py =
  if (rel px x <? 8) && (y =? py) then Some (colour (rel px x) .& 0x00FFFFFF) else pixel i m px py.
Proof.
  intros Hy.
  apply (for_up_inv (λ j t, pixel i t px py =
    if (rel px x <? j) && (y =? py) then Some (colour (rel px x) .& 0x00FFFFFF) else pixel i m px py)
    (λ col m, put_pixel (Some i) (u32 (x + col)) y (colour col) m) 0 8).
  - rewrite (proj2 (Z.ltb_ge _ 0)) by apply u32_range. done.
  - intros k t Hk Ht. rewrite put_pixel_at, rel_offset by (done || apply u32_range || apply px_range || (unfold in_u; lia)).
    rewrite Ht, ltb_succ. destruct (Z.eqb_spec k (rel px x)) as [->|]; simpl; [|done].
    rewrite Z.ltb_irrefl. by destruct (y =? py).
Qed.

Lemma draw_char_at x y c fg bg m :
  pixel i (draw_char (Some i) glyph x y c fg bg m) px py =
  if (rel px x <? 8) && (rel py y <? 8) then Some (ink glyph fg bg c (rel py y) (rel px x))
  else pixel i m px py.
Proof.
  unfold draw_char. cbv zeta.
  apply (for_up_inv (λ j t, pixel i t px py =
    if (rel px x <? 8) && (rel py y <? j) then Some (ink glyph fg bg c (rel py y) (rel px x))
    else pixel i m px py) (λ row m, for_up 0 8 (λ col m, put_pixel (Some i) (u32 (x + col)) (u32 (y + row))
      (if truth ((zget (glyph c) row ≫ (7 - col)) .& 1) then fg else bg) m) m) 0 8).
  - rewrite (proj2 (Z.ltb_ge (rel py y) 0)), andb_false_r by apply u32_range. done.
  - intros k t Hk Ht.
    rewrite (char_row_at x (u32 (y + k)) (λ col, if truth ((zget (glyph c) k ≫ (7 - col)) .& 1) then fg else bg))
      by apply u32_range.
    rewrite rel_offset by (apply py_range || (unfold in_u; lia)). rewrite Ht, ltb_succ.
    pose proof (u32_range (px - x)) as Hr. fold (rel px x) in Hr.
    destruct (Z.ltb_spec (rel px x) 8); simpl; [|done].
    destruct (Z.eqb_spec k (rel py y)) as [->|]; simpl; [|done].
    unfold ink. by rewrite truth_testbit_0, Z.shiftr_spec, Z.add_0_l by lia.
Qed.

(** ** The string *)

Lemma u32_add_l a b : u32 (u32 a + b) = u32 (a + b).
Proof. unfold u32. apply Zplus_mod_idemp_l. Qed.

Lemma rel_u32 a b : rel a (u32 b) = rel a b.
Proof. unfold rel, u32. by rewrite Zminus_mod_idemp_r. Qed.

Context (x y fg bg : Z) (Hx : in_u 32 x).

(** [draw_string_from] with the cursor at a line and a column of the text. *)
Definition draw_from (line col : Z) (s : list Z) (m : video) : video :=
  draw_string_from (Some i) glyph x (u32 (x + 8 * col)) (u32 (y + 8 * line)) fg bg s m.

Lemma draw_from_char line col c s m :
  c ≠ 10 →
  draw_from line col (c :: s) m =
  draw_from line (col + 1) s (draw_char (Some i) glyph (u32 (x + 8 * col)) (u32 (y + 8 * line)) c fg bg m).
Proof.
  intros Hc. unfold draw_from. cbn [draw_string_from]. rewrite (proj2 (Z.eqb_neq c 10)) by done.
  rewrite u32_add_l. by replace (x + 8 * col + 8) with (x + 8 * (col + 1)) by lia.
Qed.

Lemma draw_from_newline line col s m : draw_from line col (10 :: s) m = draw_from (line + 1) 0 s m.
Proof.
  unfold draw_from. cbn [draw_string_from]. simpl (10 =? 10).
  rewrite u32_add_l, (u32_id (x + 8 * 0)) by (unfold in_u in *; lia).
  by replace (x + 8 * 0) with x by lia; replace (y + 8 * line + 8) with (y + 8 * (line + 1)) by lia.
Qed.

Lemma char_inside l k c m :
  in_cell x y px py l k →
  pixel i (draw_char (Some i) glyph (u32 (x + 8 * k)) (u32 (y + 8 * l)) c fg bg m) px py =
  Some (ink glyph fg bg c (rel py (y + 8 * l)) (rel px (x + 8 * k))).
Proof. intros [H1 H2]. by rewrite draw_char_at, !rel_u32, (proj2 (Z.ltb_lt _ _) H1), (proj2 (Z.ltb_lt _ _) H2). Qed.

Lemma char_outside l k c m :
  ¬ in_cell x y px py l k →
  pixel i (draw_char (Some i) glyph (u32 (x + 8 * k)) (u32 (y + 8 * l)) c fg bg m) px py = pixel i m px py.
Proof.
  intros H. rewrite draw_char_at, !rel_u32. destruct (_ && _) eqn:E; [|done].
  exfalso. apply H. bool_to_prop. by split.
Qed.

Lemma string_outside s : ∀ line col m,
  (∀ l k c, (l, k, c) ∈ layout line col s → ¬ in_cell x y px py l k) →
  pixel i (draw_from line col s m) px py = pixel i m px py.
Proof.
  induction s as [|c s IH]; intros line col m H; [done|]. cbn [layout] in H.
  destruct (Z.eqb_spec c 10) as [->|Hc]; [rewrite draw_from_newline; by apply IH|].
  rewrite draw_from_char, IH by (done || set_solver). apply char_outside. apply (H _ _ c). set_solver.
Qed.

(** Later characters are on later lines or further right. *)
Lemma layout_after s : ∀ line col l k c, (l, k, c) ∈ layout line col s → 0 <= line → 0 <= col →
  0 <= k ∧ l <= line + Z.of_nat (length s) ∧ k <= col + Z.of_nat (length s) ∧
  (line < l ∨ line = l ∧ col <= k).
Proof.
  induction s as [|d s IH]; intros line col l k c; cbn [layout length]; [by intros ?%not_elem_of_nil|].
  destruct (d =? 10).
  - intros H ? ?. apply IH in H; lia.
  - intros [[= -> -> ->]|H]%elem_of_cons ? ?; [lia|]. apply IH in H; lia.
Qed.

(** Cells less than 2^29 apart share no pixel. *)
Lemma cell_unique l1 k1 l2 k2 :
  in_cell x y px py l1 k1 → in_cell x y px py l2 k2 →
  Z.abs (l1 - l2) < 2 ^ 29 → Z.abs (k1 - k2) < 2 ^ 29 → l1 = l2 ∧ k1 = k2.
Proof. unfold in_cell, rel, u32. intros [] [] ? ?. split; div_lia. Qed.

Lemma string_inside s : ∀ line col m l k c,
  (l, k, c) ∈ layout line col s → in_cell x y px py l k → 0 <= line → 0 <= col →
  line + Z.of_nat (length s) < 2 ^ 29 → col + Z.of_nat (length s) < 2 ^ 29 →
  pixel i (draw_from line col s m) px py =
  Some (ink glyph fg bg c (rel py (y + 8 * l)) (rel px (x + 8 * k))).
Proof.
  induction s as [|d s IH]; intros line col m l k c; cbn [layout length]; [by intros ?%not_elem_of_nil|].
  intros Hin Hc Hl Hk Hll Hkk. destruct (Z.eqb_spec d 10) as [->|Hd].
  - rewrite draw_from_newline. apply IH; lia || done.
  - rewrite draw_from_char by done. apply elem_of_cons in Hin as [[= -> -> ->]|Hin]; [|apply IH; lia || done].
    rewrite string_outside; [by apply char_inside|]. intros l' k' c' H Hc'.
    apply layout_after in H; [|lia..]. destruct (cell_unique _ _ _ _ Hc Hc'); lia.
Qed.
End screen.

(** ** Properties *)

Lemma drawn_inside i glyph x y fg bg s m l k c r j :
  frame_ok i → in_u 32 x → in_u 32 y → Z.of_nat (length s) < 2 ^ 29 →
  (l, k, c) ∈ layout 0 0 s → 0 <= r < 8 → 0 <= j < 8 →
  u32 (x + 8 * k + j) < fb_w i → u32 (y + 8 * l + r) < fb_h i →
  pixel i (draw_string (Some i) glyph x y fg bg s m) (u32 (x + 8 * k + j)) (u32 (y + 8 * l + r)) =
  Some (ink glyph fg bg c r j).
Proof.
  intros Hok Hx Hy Hs Hin Hr Hj Hpx Hpy.
  assert (∀ a d, 0 <= d < 8 → rel (u32 (a + d)) a = d) as Hrel by (intros; unfold rel, u32; div_lia).
  pose proof (string_inside i Hok glyph (u32 (x + 8 * k + j)) (u32 (y + 8 * l + r))) as H.
  specialize (H ltac:(split; [apply u32_range|done]) ltac:(split; [apply u32_range|done])).
  specialize (H x y fg bg Hx s 0 0 m l k c Hin). rewrite !Hrel in H by done.
  rewrite <- H; [|unfold in_cell; rewrite !Hrel by done; lia|lia..].
  unfold draw_string, draw_from. by rewrite !Z.mul_0_r, !Z.add_0_r, (u32_id x), (u32_id y) by done.
Qed.

Lemma drawn_outside i glyph x y fg bg s m px py :
  frame_ok i → in_u 32 x → in_u 32 y → 0 <= px < fb_w i → 0 <= py < fb_h i →
  (∀ l k c, (l, k, c) ∈ layout 0 0 s → ¬ in_cell x y px py l k) →
  pixel i (draw_string (Some i) glyph x y fg bg s m) px py = pixel i m px py.
Proof.
  intros Hok Hx Hy Hpx Hpy H. rewrite <- (string_outside i Hok glyph px py Hpx Hpy x y fg bg Hx s 0 0 m H).
  unfold draw_string, draw_from. by rewrite !Z.mul_0_r, !Z.add_0_r, (u32_id x), (u32_id y) by done.
Qed.

(** Text.  On a framebuffer whose scanlines have room for their pixels,
    fb_draw_string sets the visible pixels of every character's cell (8 pixels to the right per
    column, 8 down per line, modulo the 32 bits of the coordinates) to the foreground
    or the background colour as the bits of its glyph say, and no other
    pixel.  No cell overwrites another one, for strings shorter than 2^29 bytes.  The two
    architectures draw the same. *)
Lemma fb_draw_string_paints i x y fg bg s m :
  frame_ok i → in_u 32 x → in_u 32 y → Z.of_nat (length s) < 2 ^ 29 →
  let m' := X86.fb_draw_string (Some i) x y fg bg s m in
  A64.fb_draw_string i x y fg bg s m = m' ∧
  (∀ l k c r j, (l, k, c) ∈ layout 0 0 s → 0 <= r < 8 → 0 <= j < 8 →
     let px := u32 (x + 8 * k + j) in let py := u32 (y + 8 * l + r) in
     px < fb_w i → py < fb_h i → pixel i m' px py = Some (ink font8x8_glyph fg bg c r j)) ∧
  (∀ px py, 0 <= px < fb_w i → 0 <= py < fb_h i →
     (∀ l k c, (l, k, c) ∈ layout 0 0 s → ¬ in_cell x y px py l k) →
     pixel i m' px py = pixel i m px py).
Proof.
  intros Hok Hx Hy Hs m'. split_and!; [done| |].
  - intros l k c r j Hin Hr Hj px py Hpx Hpy. by apply drawn_inside.
  - intros px py Hpx Hpy H. by apply drawn_outside.
Qed.

(** C18: from the disk to the pixels.  When the disk is an image mkfs built and it holds
    hello.txt with text in it, the filesystem part of the boot leaves the first 127
    bytes of that text on the screen: every visible pixel of the cells of the text at
    (10, 30) is cyan or the background's blue as the font says, every other pixel
    is as it was. *)
Theorem boot_paints_hello_txt p v fs f i m :
  p_read_sector p = image_sector (mkfs fs) → p_disk_available p = true → mkfs_ok fs →
  lookup_file (bytes "hello.txt") fs = Some f → 0 ∉ f_data f →
  (128 <= length (garbage p))%nat → gfx_available (display p) = true → frame_ok i →
  let text := layout 0 0 (take 127 (f_data f)) in
  ∃ ev m', boot_vfs p (vfs_init (p_disk_available p) (p_read_sector p) v) = Some ev ∧
    boot_screen i ev m = Some m' ∧
    (∀ l k c r j, (l, k, c) ∈ text → 0 <= r < 8 → 0 <= j < 8 →
       10 + 8 * k + j < fb_w i → 30 + 8 * l + r < fb_h i →
       pixel i m' (10 + 8 * k + j) (30 + 8 * l + r) =
       Some (if Z.testbit (zget (font8x8_glyph c) r) (7 - j) then 0x0000FFFF else 0x00102030)) ∧
    (∀ px py, 0 <= px < fb_w i → 0 <= py < fb_h i →
       (∀ l k c, (l, k, c) ∈ text → ¬ in_cell 10 30 px py l k) →
       pixel i m' px py = pixel i m px py).
Proof.
  intros Hrs Hda Hok Hlk H0 Hg Hgfx Hi text.
  set (d := take 127 (f_data f)) in *.
  assert (Z.of_nat (length d) <= 127) as Hd by (unfold d; rewrite length_take; lia).
  exists [Draw (DrawString 10 30 0x0000FFFF 0x00102030 d)],
    (X86.fb_draw_string (Some i) 10 30 0x0000FFFF 0x00102030 d m).
  split; [by apply boot_shows with fs|]. split; [reflexivity|]. split.
  - intros l k c r j Hin Hr Hj Hpx Hpy. pose proof (layout_after _ _ _ _ _ _ Hin ltac:(lia) ltac:(lia)).
    pose proof (drawn_inside i font8x8_glyph 10 30 0x0000FFFF 0x00102030 d m l k c r j Hi) as H1.
    rewrite !u32_id in H1 by (unfold in_u; lia).
    unfold X86.fb_draw_string. rewrite H1 by (done || unfold in_u; lia). unfold ink. by destruct (Z.testbit _ _).
  - intros px py Hpx Hpy H. apply drawn_outside; done || (unfold in_u; lia).
Qed.

(** ** Witnesses *)

Definition text_fb : fb_info := mk_fb true 0xFD000000 256 64 48.

Lemma text_fb_ok : frame_ok text_fb.
Proof. constructor; simpl; lia || done. Qed.

(** "A", a new line and "B" near the left edge: a pixel of the first letter, one of
    the second line, one between. *)
Lemma fb_draw_string_paints_witness :
  let m := X86.fb_draw_string (Some text_fb) 2 3 0xFF 0 [65; 10; 66] ∅ in
  pixel text_fb m 4 3 = Some 0xFF ∧ pixel text_fb m 2 11 = Some 0xFF ∧ pixel text_fb m 40 3 = None.
Proof.
  destruct (fb_draw_string_paints text_fb 2 3 0xFF 0 [65; 10; 66] ∅ text_fb_ok) as (_ & Hin & Hout);
    [unfold in_u; lia..|simpl; lia|].
  split_and!.
  - apply (Hin 0 0 65 0 2); [left|lia|lia|reflexivity|reflexivity].
  - apply (Hin 1 0 66 0 0); [right; left|lia|lia|reflexivity|reflexivity].
  - rewrite Hout; [reflexivity|simpl; lia|simpl; lia|].
    intros l k c [[= -> -> ->]|[[= -> -> ->]|[]%not_elem_of_nil]%elem_of_cons]%elem_of_cons [H _];
      apply Z.ltb_lt in H; discriminate H.
Defined.

Lemma boot_paints_hello_txt_witness :
  ∃ ev m', boot_vfs example_platform (vfs_init true (image_sector (mkfs example_fs)) vfs_reset) = Some ev ∧
    boot_screen text_fb ev ∅ = Some m' ∧ pixel text_fb m' 10 30 = Some 0x0000FFFF ∧
    pixel text_fb m' 9 30 = None.
Proof.
  destruct (boot_paints_hello_txt example_platform vfs_reset example_fs
    (mk_file (bytes "hello.txt") (bytes "Hi")) text_fb ∅) as (ev & m' & E & Es & Hin & Hout);
    [done|done|apply example_fs_ok|by vm_compute| |simpl; lia|done|apply text_fb_ok|].
  { apply (bool_decide_eq_true_1 _). by vm_compute. }
  exists ev, m'. split; [exact E|]. split; [exact Es|]. split.
  - apply (Hin 0 0 72 0 0); [left|lia|lia|reflexivity|reflexivity].
  - rewrite Hout; [reflexivity|simpl; lia|simpl; lia|].
    intros l k c Hc [H _].
    change (layout 0 0 (take 127 (f_data _))) with [(0, 0, 72); (0, 1, 105)] in Hc.
    apply elem_of_cons in Hc as [[= -> -> ->]|[[= -> -> ->]|[]%not_elem_of_nil]%elem_of_cons];
      apply Z.ltb_lt in H; discriminate H.
Defined.
