(* ===== verification/PageTable.v ===== *)
(** * Page tables: the memory they live in and the tree they form

    arch/x86_64/mm/vmm.c and arch/aarch64/mm/vmm.c are two copies of the same four
    walks (map, unmap/translate, clone, free) over 512-entry tables, with 4 levels and
    3 levels and with different entry formats.  This file has what they share: the
    memory, the walks as recursive functions over a format [PtFormat] whose laws are
    [PtLaws], and their correctness.  VmmX86.v and VmmA64.v have the code and show it
    equal to these walks.  Levels count from 0, the last one. *)

From S2P Require Import Prelude.
From S2P Require Import FrameAlloc.

(** ** Memory

    Physical memory as 64-bit words by word number; the kernel runs identity mapped, so
    a pointer is a physical address.  Bytes are little-endian within their word. *)

Abbreviation memory := (gmap Z Z).

Definition ld64 (m : memory) (a : Z) : Z := default 0 (m !! (a / 8)).
Definition st64 (m : memory) (a x : Z) : memory := <[a / 8 := x]> m.
Definition ld8 (m : memory) (a : Z) : Z := ld64 m a / 2 ^ (8 * (a mod 8)) mod 2 ^ 8.
Definition st8 (m : memory) (a x : Z) : memory :=
  st64 m a (ld64 m a + (x - ld8 m a) * 2 ^ (8 * (a mod 8))).

(** Entry [i] of the table at [t]. *)
Definition ent (m : memory) (t i : Z) : Z := ld64 m (t + 8 * i).

(** Memory and the frame allocator, which the page-table code works on. *)
Record pm (St : Type) := mk_pm { words : memory; pool : St }.
Arguments mk_pm {St}. Arguments words {St}. Arguments pool {St}.

Definition store64 {St} (a x : Z) (s : pm St) : pm St := mk_pm (st64 (words s) a x) (pool s).

(** The loop both files write as zeroed_table. *)
Definition zeroed_table (frame : Z) (m : memory) : memory :=
  for_up 0 512 (λ i m, st64 m (frame + 8 * i) 0) m.

#[global] Arguments zeroed_table : simpl never.
#[global] Arguments seqZ : simpl never.

Definition page_aligned (t : Z) : Prop := t mod PAGE = 0.
Definition index (i : Z) : Prop := 0 <= i < 512.

Lemma ent_st64 m t i u j x :
  page_aligned t → page_aligned u → index i → index j →
  ent (st64 m (t + 8 * i) x) u j = if (u =? t) && (j =? i) then x else ent m u j.
Proof.
  unfold ent, ld64, st64, page_aligned, index, PAGE. intros Ht Hu Hi Hj.
  destruct (Z.eqb_spec u t) as [->|Hne]; simpl.
  - destruct (Z.eqb_spec j i) as [->|Hne].
    + by rewrite lookup_insert_eq.
    + rewrite lookup_insert_ne by div_lia. done.
  - rewrite lookup_insert_ne by div_lia. done.
Qed.

Lemma ent_st64_eq m t i x : page_aligned t → index i → ent (st64 m (t + 8 * i) x) t i = x.
Proof. intros. by rewrite ent_st64, !Z.eqb_refl. Qed.

Lemma ent_st64_ne m t i u j x :
  page_aligned t → page_aligned u → index i → index j → u ≠ t ∨ j ≠ i →
  ent (st64 m (t + 8 * i) x) u j = ent m u j.
Proof.
  intros ???? Hne. rewrite ent_st64 by done.
  destruct (Z.eqb_spec u t), (Z.eqb_spec j i); simpl; try done; lia.
Qed.

Lemma ent_zeroed m t u j :
  page_aligned t → page_aligned u → index j →
  ent (zeroed_table t m) u j = if u =? t then 0 else ent m u j.
Proof.
  intros Ht Hu Hj. unfold zeroed_table.
  destruct (for_up_inv (λ i m', 0 <= i ∧
      ent m' u j = if (u =? t) && (j <? i) then 0 else ent m u j)
    (λ i m, st64 m (t + 8 * i) 0) 0 512 m) as [_ ->].
  - split; [lia|]. by destruct (Z.ltb_spec j 0), (u =? t); unfold index in *; try lia.
  - intros i m' Hi [_ IH]. split; [lia|]. rewrite ent_st64, IH by done.
    destruct (u =? t); simpl; [|done].
    destruct (Z.eqb_spec j i), (Z.ltb_spec j i), (Z.ltb_spec j (i + 1)); simpl; try done; lia.
  - unfold index in *. destruct (Z.ltb_spec j (Z.max 0 512)); [|lia]. by rewrite andb_true_r.
Qed.

(** ** Entry formats *)

(** [e_valid]: the present bit; [e_table]: an entry above the last level that refers to
    a child table; [e_block]: one that a mapping cannot go through; [e_link flags a]:
    the entry made for a new table at [a]; [e_widen flags e]: what a mapping does to an
    entry it goes through; [e_clone c e]: the copy of [e] that refers to the table [c].
    [e_frames] bounds the frames an entry can refer to. *)
Class PtFormat := {
  e_valid : Z → bool;
  e_table : Z → bool;
  e_block : Z → bool;
  e_addr : Z → Z;
  e_link : Z → Z → Z;
  e_widen : Z → Z → Z;
  e_clone : Z → Z → Z;
  e_frames : Z
}.

Class PtLaws `{!PtFormat} : Prop := {
  e_zero : e_valid 0 = false ∧ e_table 0 = false ∧ e_block 0 = false;
  e_table_valid e : e_table e = true → e_valid e = true ∧ e_block e = false;
  e_valid_cases e : e_valid e = true → e_block e = false → e_table e = true;
  e_addr_aligned e : page_aligned (e_addr e);
  e_link_law fl f : 0 <= f < e_frames →
    e_table (e_link fl (f * PAGE)) = true ∧ e_addr (e_link fl (f * PAGE)) = f * PAGE;
  e_widen_law fl e : e_table e = true →
    e_table (e_widen fl e) = true ∧ e_addr (e_widen fl e) = e_addr e;
  e_clone_law e f : 0 <= f < e_frames → e_table e = true →
    e_table (e_clone (f * PAGE) e) = true ∧ e_addr (e_clone (f * PAGE) e) = f * PAGE
}.

(** ** The walks *)

Section walks.
Context `{!PtFormat}.

(** The last-level entry a walk ends at, 0 when there is no valid one. *)
Fixpoint walk (n : nat) (m : memory) (t : Z) (ix : nat → Z) : Z :=
  let e := ent m t (ix n) in
  match n with
  | O => if e_valid e then e else 0
  | S n => if e_table e then walk n m (e_addr e) ix else 0
  end.

(** The tables of the tree whose root is [t]. *)
Fixpoint tables (n : nat) (m : memory) (t : Z) : list Z :=
  t :: match n with
       | O => []
       | S n => i ← seqZ 0 512;
                let e := ent m t i in
                if e_table e then tables n m (e_addr e) else []
       end.

(** A mapping for [ix] can go down from [t]: it meets no block. *)
Fixpoint path_open (n : nat) (m : memory) (t : Z) (ix : nat → Z) : bool :=
  match n with
  | O => true
  | S n => let e := ent m t (ix (S n)) in
           negb (e_block e) && (if e_valid e then path_open n m (e_addr e) ix else true)
  end.

Section ops.
Context {St : Type} `{!FrameOps St}.

Definition get_or_create (fl parent i : Z) (s : pm St) : Z * pm St :=
  let e := ent (words s) parent i in
  if e_block e then (0, s)
  else if negb (e_valid e) then
    let '(frame, pool) := alloc_frame (pool s) in
    let m := zeroed_table frame (words s) in
    let m := st64 m (parent + 8 * i) (e_link fl frame) in
    (e_addr (ent m parent i), mk_pm m pool)
  else
    let m := st64 (words s) (parent + 8 * i) (e_widen fl e) in
    (e_addr (ent m parent i), mk_pm m (pool s)).

Fixpoint pt_map (n : nat) (fl t : Z) (ix : nat → Z) (leaf : option Z) (s : pm St) : pm St :=
  match n with
  | O => match leaf with Some x => store64 (t + 8 * ix O) x s | None => s end
  | S n => let '(c, s) := get_or_create fl t (ix (S n)) s in
           if c =? 0 then s else pt_map n fl c ix leaf s
  end.

Fixpoint pt_unmap (n : nat) (t : Z) (ix : nat → Z) (s : pm St) : pm St :=
  match n with
  | O => store64 (t + 8 * ix O) 0 s
  | S n => let e := ent (words s) t (ix (S n)) in
           if e_table e then pt_unmap n (e_addr e) ix s else s
  end.

Fixpoint pt_clone (n : nat) (src : Z) (s : pm St) : Z * pm St :=
  let '(dst, pool) := alloc_frame (pool s) in
  let s := mk_pm (zeroed_table dst (words s)) pool in
  (dst, for_up 0 512 (λ i s,
     let e := ent (words s) src i in
     if negb (e_valid e) then s
     else match n with
          | O => store64 (dst + 8 * i) e s
          | S n =>
              if e_table e then
                let '(c, s) := pt_clone n (e_addr e) s in
                store64 (dst + 8 * i) (e_clone c (ent (words s) src i)) s
              else store64 (dst + 8 * i) e s
          end) s).

Fixpoint pt_free (n : nat) (t : Z) (s : pm St) : pm St :=
  let s := match n with
           | O => s
           | S n => for_up 0 512 (λ i s,
               let e := ent (words s) t i in
               if e_table e then pt_free n (e_addr e) s else s) s
           end in
  mk_pm (words s) (free_frame t (pool s)).
End ops.
End walks.

(** ** Trees *)

Section trees.
Context `{FMT : !PtFormat, LAWS : !PtLaws}.

Definition sub (n : nat) (m : memory) (t i : Z) : list Z :=
  let e := ent m t i in if e_table e then tables n m (e_addr e) else [].

Lemma tables_S n m t : tables (S n) m t = t :: (i ← seqZ 0 512; sub n m t i).
Proof. done. Qed.

Lemma elem_of_tables_S n m t u :
  u ∈ tables (S n) m t ↔ u = t ∨ ∃ i, index i ∧ u ∈ sub n m t i.
Proof.
  rewrite tables_S, elem_of_cons, list_elem_of_bind. unfold index.
  setoid_rewrite elem_of_seqZ. naive_solver.
Qed.

Lemma tables_root n m t : t ∈ tables n m t.
Proof. destruct n; left. Qed.

Lemma sub_aligned n m t i u : (∀ m t u, page_aligned t → u ∈ tables n m t → page_aligned u) →
  u ∈ sub n m t i → page_aligned u.
Proof. unfold sub. intros IH. case_if; [|set_solver]. apply IH, e_addr_aligned. Qed.

Lemma tables_aligned n m t u : page_aligned t → u ∈ tables n m t → page_aligned u.
Proof.
  revert m t u. induction n as [|n IH]; intros m t u Ht.
  - by intros ->%list_elem_of_singleton.
  - intros [->|(i & _ & Hi)]%elem_of_tables_S; [done|]. by eapply sub_aligned.
Qed.

(** [m'] has the same entries as [m] in the tables [T], respectively outside them. *)
Definition same (T : list Z) (m m' : memory) : Prop :=
  ∀ t i, t ∈ T → index i → ent m' t i = ent m t i.
Definition outside (T : list Z) (m m' : memory) : Prop :=
  ∀ t i, page_aligned t → t ∉ T → index i → ent m' t i = ent m t i.

Definition indices (n : nat) (ix : nat → Z) : Prop := ∀ k, (k <= n)%nat → index (ix k).

Lemma indices_S n ix : indices (S n) ix → index (ix (S n)) ∧ indices n ix.
Proof. intros H. split; [by apply H|]. intros k Hk. apply H. lia. Qed.

Lemma same_sub n m m' t i T :
  same T m m' → index i → t ∈ T → (∀ u, u ∈ sub n m t i → u ∈ T) →
  ent m' t i = ent m t i ∧
  (e_table (ent m t i) = true → same (tables n m (e_addr (ent m t i))) m m').
Proof.
  intros H Hi Ht Hsub. split; [by apply H|]. intros He u j Hu. apply H, Hsub.
  unfold sub. by rewrite He.
Qed.

Lemma same_tables n m m' t : same (tables n m t) m m' → tables n m' t = tables n m t.
Proof.
  revert t. induction n as [|n IH]; intros t H; [done|]. rewrite !tables_S. f_equal.
  apply bind_ext_in. intros i Hi%elem_of_seqZ. unfold sub.
  destruct (same_sub n m m' t i _ H) as [-> Hs]; [unfold index; lia|apply tables_root| |].
  { intros u Hu. apply elem_of_tables_S. right. exists i. split; [unfold index; lia|done]. }
  case_if; [|done]. by apply IH, Hs.
Qed.

Lemma same_walk n m m' t ix :
  same (tables n m t) m m' → indices n ix → walk n m' t ix = walk n m t ix.
Proof.
  revert t. induction n as [|n IH]; intros t H Hix; simpl.
  - rewrite (H t (ix O)); [done|apply tables_root|by apply Hix].
  - apply indices_S in Hix as [Hi Hix].
    destruct (same_sub n m m' t (ix (S n)) _ H Hi (tables_root _ _ _)) as [-> Hs].
    { intros u Hu. apply elem_of_tables_S. eauto. }
    case_if; [|done]. by apply IH; [apply Hs|].
Qed.

Lemma same_path_open n m m' t ix :
  same (tables n m t) m m' → indices n ix → path_open n m' t ix = path_open n m t ix.
Proof.
  revert t. induction n as [|n IH]; intros t H Hix; [done|]. cbn [path_open].
  apply indices_S in Hix as [Hi Hix].
  destruct (same_sub n m m' t (ix (S n)) _ H Hi (tables_root _ _ _)) as [-> Hs].
  { intros u Hu. apply elem_of_tables_S. eauto. }
  destruct (e_block (ent m t (ix (S n)))) eqn:Eb; [done|]. simpl.
  destruct (e_valid (ent m t (ix (S n)))) eqn:Ev; [|done].
  apply IH; [|done]. apply Hs. by apply e_valid_cases.
Qed.

Lemma outside_same T T' m m' :
  outside T m m' → Forall page_aligned T' → (∀ t, t ∈ T' → t ∉ T) → same T' m m'.
Proof. intros H Ha Hd t i Ht Hi. rewrite Forall_forall in Ha. by apply H; auto. Qed.

Lemma outside_refl T m : outside T m m.
Proof. by intros t i. Qed.

Lemma outside_trans T T1 T2 m m1 m2 :
  outside T1 m m1 → outside T2 m1 m2 → (∀ t, t ∈ T1 ∨ t ∈ T2 → t ∈ T) → outside T m m2.
Proof. intros H1 H2 Hsub t i Ha Ht Hi. rewrite H2, H1 by naive_solver. done. Qed.

(** The subtrees of a tree without sharing are without sharing, and disjoint. *)
Lemma NoDup_sub n m t i : NoDup (tables (S n) m t) → index i → NoDup (sub n m t i) ∧ t ∉ sub n m t i.
Proof.
  rewrite tables_S. intros [Ht Hnd]%NoDup_cons Hi.
  assert (i ∈ seqZ 0 512) as Hin by (apply elem_of_seqZ; unfold index in Hi; lia).
  split; [|intros H; apply Ht, list_elem_of_bind; eauto].
  apply list_elem_of_split in Hin as (l1 & l2 & Eq). rewrite Eq, bind_app, bind_cons in Hnd.
  by apply NoDup_app in Hnd as (_ & _ & [? _]%NoDup_app).
Qed.

Lemma NoDup_sub_ne n m t i j u :
  NoDup (tables (S n) m t) → index i → index j → i ≠ j → u ∈ sub n m t i → u ∉ sub n m t j.
Proof.
  assert (∀ i j, index i → i < j < 512 → NoDup (tables (S n) m t) → u ∈ sub n m t i →
    u ∉ sub n m t j) as H.
  { clear i j. unfold index. intros i j Hi Hj. rewrite tables_S. intros [_ Hnd]%NoDup_cons Hu Hu'.
    replace 512 with ((i + 1) + (511 - i)) in Hnd by lia.
    rewrite seqZ_app, bind_app in Hnd by lia. apply NoDup_app in Hnd as (_ & Hd & _).
    apply (Hd u); apply list_elem_of_bind; [exists i|exists j]; (split; [done|apply elem_of_seqZ; lia]). }
  unfold index. intros Hnd Hi Hj Hij Hu Hu'. destruct (Z.lt_total i j) as [?|[?|?]]; [|done|].
  - exact (H i j Hi ltac:(lia) Hnd Hu Hu').
  - exact (H j i Hj ltac:(lia) Hnd Hu' Hu).
Qed.

(** When only the subtree under slot [i] grows, by [new], so does the tree. *)
Lemma tables_update n m m' t i new :
  index i → (∀ j, index j → j ≠ i → sub n m' t j = sub n m t j) →
  sub n m' t i ≡ₚ new ++ sub n m t i → tables (S n) m' t ≡ₚ new ++ tables (S n) m t.
Proof.
  unfold index. intros Hi Hj Hnew. rewrite !tables_S, <- Permutation_middle. f_equiv.
  assert (512 = i + (1 + (511 - i))) as E512 by lia. rewrite E512. clear E512. rewrite !seqZ_app by lia.
  change (seqZ (0 + i) 1) with [0 + i]. rewrite !bind_app, !bind_cons, !app_nil_r.
  rewrite (Z.add_0_l i).
  assert (∀ lo k, (∀ j, lo <= j < lo + k → 0 <= j < 512 ∧ j ≠ i) →
    (x ← seqZ lo k; sub n m' t x) = (x ← seqZ lo k; sub n m t x)) as Hext.
  { intros lo k Hk. apply bind_ext_in. intros j ?%elem_of_seqZ. destruct (Hk j); [lia|]. by apply Hj. }
  rewrite !Hext by lia. rewrite Hnew. solve_Permutation.
Qed.
End trees.

(** ** Growing a tree *)

Section proofs.
Context `{FMT : !PtFormat, LAWS : !PtLaws} {St : Type} `{OPS : !FrameOps St, FL : !FrameLaws St}.
Implicit Types (s : pm St) (t c : Z) (T new : list Z).

Definition pool_ok (p : St) : Prop := fa_wf p ∧ ∀ f, f ∈ fa_managed p → f < e_frames.

(** The frames of the tables [T]. *)
Definition frames_of T : gset Z := list_to_set ((λ t, t / PAGE) <$> T).

Lemma elem_of_frames_of f T : f ∈ frames_of T ↔ ∃ t, t ∈ T ∧ f = t / PAGE.
Proof.
  unfold frames_of. rewrite elem_of_list_to_set, list_elem_of_fmap. naive_solver.
Qed.

Lemma frames_of_app T T' : frames_of (T ++ T') = frames_of T ∪ frames_of T'.
Proof. unfold frames_of. by rewrite fmap_app, list_to_set_app_L. Qed.

(** Frames in use: managed, not free, and not frame 0. *)
Definition owned (p : St) T : Prop :=
  ∀ t, t ∈ T → page_aligned t ∧ t / PAGE ∈ fa_managed p ∧ (t / PAGE ∉ fa_free p) ∧ t / PAGE ≠ 0.

Lemma owned_nonzero (p : St) T t : owned p T → t ∈ T → t ≠ 0.
Proof. intros HT Ht ->. by destruct (HT 0 Ht) as (_ & _ & _ & []). Qed.

Lemma aligned_frame t : page_aligned t → t = t / PAGE * PAGE.
Proof. unfold page_aligned, PAGE. div_lia. Qed.

Lemma frame_aligned f : page_aligned (f * PAGE) ∧ f * PAGE / PAGE = f.
Proof. unfold page_aligned, PAGE. split; [apply Z.mod_mul|apply Z.div_mul]; lia. Qed.

(** [s'] is [s] after tables were added: [new] are the pages taken from the allocator,
    and only they and [T] were written. *)
Record grows T new s s' : Prop := {
  gr_ok : pool_ok (pool s');
  gr_managed : fa_managed (pool s') = fa_managed (pool s);
  gr_free : fa_free (pool s') = fa_free (pool s) ∖ frames_of new;
  gr_new : ∀ c, c ∈ new → page_aligned c ∧ c / PAGE ∈ fa_free (pool s);
  gr_nodup : NoDup new;
  gr_outside : outside (new ++ T) (words s) (words s')
}.

Lemma grows_refl T s s' :
  pool_ok (pool s) → pool s' = pool s → outside T (words s) (words s') → grows T [] s s'.
Proof.
  intros Hok Hp Ho. split; rewrite ?Hp; try done.
  - unfold frames_of. simpl. set_solver.
  - set_solver.
  - constructor.
Qed.

Lemma grows_owned T new s s' U :
  pool_ok (pool s) → grows T new s s' → owned (pool s) U → owned (pool s') (new ++ U).
Proof.
  intros [Hw _] H HU c [Hc|Hc]%elem_of_app.
  - destruct (gr_new _ _ _ _ H c Hc) as [Ha Hf]. split_and!; [done| | |].
    + rewrite (gr_managed _ _ _ _ H). by apply fa_free_managed.
    + rewrite (gr_free _ _ _ _ H), not_elem_of_difference. right. apply elem_of_frames_of. eauto.
    + intros E. rewrite E in Hf. by apply (fa_zero (pool s)).
  - destruct (HU c Hc) as (Ha & Hm & Hf & H0). split_and!; try done.
    + by rewrite (gr_managed _ _ _ _ H).
    + rewrite (gr_free _ _ _ _ H). set_solver.
Qed.

Lemma grows_fresh T new s s' U :
  grows T new s s' → owned (pool s) U → ∀ t, t ∈ U → t ∉ new.
Proof.
  intros H HU t Ht Hn. destruct (HU t Ht) as (_ & _ & Hf & _). by apply Hf, (gr_new _ _ _ _ H).
Qed.

Lemma grows_trans T T' new1 new2 s s1 s2 :
  grows T new1 s s1 → grows T' new2 s1 s2 → (∀ t, t ∈ T' → t ∈ new1 ++ T) →
  grows T (new2 ++ new1) s s2.
Proof.
  intros H1 H2 Hsub. split.
  - apply (gr_ok _ _ _ _ H2).
  - by rewrite (gr_managed _ _ _ _ H2), (gr_managed _ _ _ _ H1).
  - rewrite (gr_free _ _ _ _ H2), (gr_free _ _ _ _ H1), frames_of_app. set_solver.
  - intros c [Hc|Hc]%elem_of_app; [|by apply (gr_new _ _ _ _ H1)].
    destruct (gr_new _ _ _ _ H2 c Hc) as [Ha Hf]. split; [done|].
    rewrite (gr_free _ _ _ _ H1) in Hf. set_solver.
  - apply NoDup_app. split; [apply (gr_nodup _ _ _ _ H2)|]. split; [|apply (gr_nodup _ _ _ _ H1)].
    intros c Hc Hc'. destruct (gr_new _ _ _ _ H2 c Hc) as [_ Hf].
    rewrite (gr_free _ _ _ _ H1), elem_of_difference, elem_of_frames_of in Hf. naive_solver.
  - eapply outside_trans; [apply (gr_outside _ _ _ _ H1)|apply (gr_outside _ _ _ _ H2)|].
    intros t. specialize (Hsub t). rewrite !elem_of_app in *. naive_solver.
Qed.

Lemma grows_size T new s s' :
  grows T new s s' → size (fa_free (pool s)) = (length new + size (fa_free (pool s')))%nat.
Proof.
  intros H. rewrite (gr_free _ _ _ _ H).
  assert (frames_of new ⊆ fa_free (pool s)) as Hsub.
  { intros f (c & Hc & ->)%elem_of_frames_of. by apply (gr_new _ _ _ _ H). }
  rewrite size_difference by done. apply subseteq_size in Hsub.
  assert (size (frames_of new) = length new) as E; [|lia].
  unfold frames_of. rewrite size_list_to_set, length_fmap; [done|].
  apply NoDup_fmap_2_strong; [|apply (gr_nodup _ _ _ _ H)].
  intros x y Hx Hy Exy. rewrite (aligned_frame x), (aligned_frame y), Exy; [done| |];
    by apply (gr_new _ _ _ _ H).
Qed.

(** A new table, zeroed. *)
Definition new_table s : Z * pm St :=
  let '(f, p) := alloc_frame (pool s) in (f, mk_pm (zeroed_table f (words s)) p).

Lemma new_table_grows s :
  pool_ok (pool s) → (1 <= size (fa_free (pool s)))%nat →
  ∃ c s', new_table s = (c, s') ∧ grows [] [c] s s' ∧ 0 <= c / PAGE < e_frames ∧
    page_aligned c ∧ ∀ j, index j → ent (words s') c j = 0.
Proof.
  intros [Hw Hb] Hsz. unfold new_table.
  destruct (alloc_frame_law (pool s) Hw) as [[E _]|(f & p & Hf & -> & Hw' & Hm & Hfr)].
  { rewrite E, size_empty in Hsz. lia. }
  destruct (frame_aligned f) as [Ha Hdiv].
  pose proof (fa_free_managed _ Hw f Hf) as Hfm. pose proof (fa_bounds _ f Hw Hfm) as Hfb.
  exists (f * PAGE), (mk_pm (zeroed_table (f * PAGE) (words s)) p). split; [done|]. rewrite Hdiv.
  split_and!; [|lia|by apply Hb|done|].
  - split; simpl.
    + split; [done|]. by rewrite Hm.
    + done.
    + rewrite Hfr. f_equal. unfold frames_of. simpl. rewrite Hdiv. set_solver.
    + intros c ->%list_elem_of_singleton. by rewrite Hdiv.
    + apply NoDup_singleton.
    + intros u j Hu Hn Hj. rewrite ent_zeroed by done. destruct (Z.eqb_spec u (f * PAGE)); [set_solver|done].
  - intros j Hj. simpl. rewrite ent_zeroed by done. by rewrite Z.eqb_refl.
Qed.

Lemma empty_table n m t :
  (∀ j, index j → ent m t j = 0) →
  tables n m t = [t] ∧ (∀ ix, indices n ix → walk n m t ix = 0 ∧ path_open n m t ix = true).
Proof.
  intros H. destruct e_zero as (Hv & Ht & Hb). split.
  - destruct n as [|n]; [done|]. rewrite tables_S. f_equal.
    rewrite (bind_ext_in _ (λ _, [])).
    + by induction (seqZ 0 512).
    + intros i Hi%elem_of_seqZ. unfold sub. by rewrite H, Ht by (unfold index; lia).
  - intros ix Hix. destruct n; cbn [walk path_open]; rewrite H by (by apply Hix).
    + by rewrite Hv.
    + by rewrite Ht, Hb, Hv.
Qed.

(** A tree whose tables are in use and not shared. *)
Definition tree n s t : Prop :=
  page_aligned t ∧ NoDup (tables n (words s) t) ∧ owned (pool s) (tables n (words s) t).

Lemma tree_aligned n s t : tree n s t → Forall page_aligned (tables n (words s) t).
Proof. intros (Ha & _ & _). apply Forall_forall. intros u. by apply tables_aligned. Qed.

Lemma tree_sub n s t i :
  tree (S n) s t → index i → e_table (ent (words s) t i) = true → tree n s (e_addr (ent (words s) t i)).
Proof.
  intros (Ha & Hnd & Ho) Hi He. destruct (NoDup_sub _ _ _ _ Hnd Hi) as [Hs _]. unfold sub in Hs.
  rewrite He in Hs. split; [apply e_addr_aligned|]. split; [done|].
  intros u Hu. apply Ho, elem_of_tables_S. right. exists i. split; [done|]. unfold sub. by rewrite He.
Qed.

Lemma sub_in_tables n m t i u : index i → u ∈ sub n m t i → u ∈ tables (S n) m t.
Proof. intros. apply elem_of_tables_S. eauto. Qed.

(** What get_or_create leaves for the subtree under slot [i] of [t]: the table [c], a new
    one when the slot was empty. *)
Definition slot_opened n t i s c s1 (new : list Z) : Prop :=
  grows [t] new s s1 ∧ (length new <= 1)%nat ∧ c ≠ 0 ∧
  e_table (ent (words s1) t i) = true ∧ e_addr (ent (words s1) t i) = c ∧
  (∀ j, index j → j ≠ i → ent (words s1) t j = ent (words s) t j) ∧
  tables n (words s1) c = new ++ sub n (words s) t i ∧
  (if e_valid (ent (words s) t i)
   then c = e_addr (ent (words s) t i) ∧ same (tables n (words s) c) (words s) (words s1)
   else ∀ j, index j → ent (words s1) c j = 0) ∧
  ∀ ix, indices n ix →
    walk n (words s1) c ix =
      (if e_table (ent (words s) t i) then walk n (words s) (e_addr (ent (words s) t i)) ix else 0) ∧
    path_open n (words s1) c ix =
      (if e_valid (ent (words s) t i) then path_open n (words s) (e_addr (ent (words s) t i)) ix else true).

(** The table is there. *)
Lemma get_or_create_there n fl t i s :
  pool_ok (pool s) → tree (S n) s t → index i → e_block (ent (words s) t i) = false →
  e_valid (ent (words s) t i) = true →
  ∃ c s1, get_or_create fl t i s = (c, s1) ∧ slot_opened n t i s c s1 [].
Proof.
  intros Hok Htree Hi Hb Hv. pose proof Htree as (Ha & Hnd & Ho). unfold get_or_create, slot_opened. rewrite Hb.
  set (e := ent (words s) t i) in *. rewrite Hv. cbn [negb].
  pose proof (e_valid_cases e Hv Hb) as He. destruct (e_widen_law fl e He) as [Hwt Hwa].
  rewrite ent_st64_eq, Hwa by done.
  pose proof (tree_sub _ _ _ _ Htree Hi He) as (Hca & Hcn & Hco).
  assert (same (tables n (words s) (e_addr e)) (words s) (st64 (words s) (t + 8 * i) (e_widen fl e)))
    as Hsame.
  { intros u j Hu Hj. apply ent_st64_ne; try done; [exact (tables_aligned _ _ _ _ Hca Hu)|]. left. intros ->.
    destruct (NoDup_sub _ _ _ _ Hnd Hi) as [_ []]. unfold sub. fold e. by rewrite He. }
  eexists _, _. split; [done|]. cbn [words pool app length]. split_and!.
  + apply grows_refl; [done|done|]. intros u j Hu Hn Hj. apply ent_st64_ne; try done. left. intros ->. apply Hn. left.
  + lia.
  + by apply (owned_nonzero _ _ _ Hco), tables_root.
  + by rewrite ent_st64_eq.
  + by rewrite ent_st64_eq.
  + intros j Hj Hne. apply ent_st64_ne; auto.
  + unfold sub. fold e. rewrite He. by apply same_tables.
  + done.
  + done.
  + intros ix Hix. rewrite He. split; [by apply same_walk|by apply same_path_open].
Qed.

(** A new one is made. *)
Lemma get_or_create_new n fl t i s :
  pool_ok (pool s) → tree (S n) s t → index i → e_block (ent (words s) t i) = false →
  (1 <= size (fa_free (pool s)))%nat → e_valid (ent (words s) t i) = false →
  ∃ c s1, get_or_create fl t i s = (c, s1) ∧ slot_opened n t i s c s1 [c].
Proof.
  intros Hok Htree Hi Hb Hsz Hv. pose proof Htree as (Ha & Hnd & Ho). unfold get_or_create, slot_opened. rewrite Hb.
  set (e := ent (words s) t i) in *. rewrite Hv. cbn [negb].
  destruct (new_table_grows s Hok Hsz) as (c & s1 & E & Hg & Hc & Hca & Hz). unfold new_table in E.
  destruct (alloc_frame (pool s)) as [f p]. injection E as -> <-. simpl in Hz.
  destruct (e_link_law fl _ Hc) as [Hlt Hla]. rewrite <- (aligned_frame c Hca) in Hlt, Hla.
  assert (c ≠ t) as Hct.
  { intros <-. destruct (gr_new _ _ _ _ Hg c) as [_ Hf]; [left|].
    by destruct (Ho c (tables_root _ _ _)) as (_ & _ & ? & _). }
  rewrite ent_st64_eq, Hla by done.
  assert (e_table e = false) as He by (destruct (e_table e) eqn:He; [apply e_table_valid in He as [? _]; congruence|done]).
  destruct (empty_table n (st64 (zeroed_table c (words s)) (t + 8 * i) (e_link fl c)) c)
    as [Htab Hwalk].
  { intros j Hj. rewrite ent_st64_ne by auto. by apply Hz. }
  eexists _, _. split; [done|]. cbn [words pool app length]. split_and!.
  + apply (grows_trans [t] [t] [c] [] s (mk_pm (zeroed_table c (words s)) p)); [|apply grows_refl|by intros u Hu; right].
    * destruct Hg; split; try done. eapply outside_trans; [done|apply outside_refl with (T := [])|]. intros u [Hu|Hu]; [|by apply not_elem_of_nil in Hu].
      apply elem_of_app in Hu as [Hu|Hu]; [apply elem_of_app; by left|by apply not_elem_of_nil in Hu].
    * apply (gr_ok _ _ _ _ Hg).
    * done.
    * intros u j Hu Hn Hj. apply ent_st64_ne; try done. left. intros ->. apply Hn. left.
  + lia.
  + intros ->. destruct (gr_new _ _ _ _ Hg 0) as [_ Hf]; [left|]. exact (fa_zero (pool s) (proj1 Hok) Hf).
  + by rewrite ent_st64_eq.
  + by rewrite ent_st64_eq.
  + intros j Hj Hne. rewrite ent_st64_ne by auto. apply (gr_outside _ _ _ _ Hg); [done| |done].
    intros Hu. apply Hct. apply elem_of_app in Hu as [Hu%list_elem_of_singleton|Hu%not_elem_of_nil]; done.
  + unfold sub. fold e. by rewrite He.
  + intros j Hj. rewrite ent_st64_ne by auto. by apply Hz.
  + intros ix Hix. rewrite He. by apply Hwalk.
Qed.

Lemma get_or_create_spec n fl t i s :
  pool_ok (pool s) → tree (S n) s t → index i → e_block (ent (words s) t i) = false →
  (1 <= size (fa_free (pool s)))%nat →
  ∃ c s1 new, get_or_create fl t i s = (c, s1) ∧ slot_opened n t i s c s1 new.
Proof.
  intros Hok Htree Hi Hb Hsz. destruct (e_valid (ent (words s) t i)) eqn:Hv.
  - destruct (get_or_create_there n fl t i s) as (c & s1 & ? & ?); eauto 6.
  - destruct (get_or_create_new n fl t i s) as (c & s1 & ? & ?); eauto 6.
Qed.

Lemma grows_weaken T T' new s s' : grows T new s s' → (∀ t, t ∈ T → t ∈ T') → grows T' new s s'.
Proof.
  intros H Hsub. destruct H as [??????]. split; try done.
  intros t i Ha Hn Hi. apply gr_outside0; [done| |done]. rewrite elem_of_app in *. naive_solver.
Qed.

(** Changes to the table [t] at other slots, to new pages and to the subtree under slot
    [i] leave the subtree under slot [j] alone. *)
Lemma other_slot n s t i j new m' :
  tree (S n) s t → index i → index j → j ≠ i →
  (∀ u, u ∈ tables (S n) (words s) t → u ∉ new) →
  outside (new ++ t :: sub n (words s) t i) (words s) m' → ent m' t j = ent (words s) t j →
  sub n m' t j = sub n (words s) t j ∧
  (e_table (ent (words s) t j) = true → same (tables n (words s) (e_addr (ent (words s) t j))) (words s) m').
Proof.
  intros Htree Hi Hj Hne Hfresh Hout He. pose proof Htree as (Ha & Hnd & _).
  assert (e_table (ent (words s) t j) = true →
    same (tables n (words s) (e_addr (ent (words s) t j))) (words s) m') as Hs; [|split; [|done]].
  - intros Htb. apply (outside_same _ _ _ _ Hout).
    + by eapply tree_aligned, tree_sub.
    + intros u Hu Hin. assert (u ∈ sub n (words s) t j) as Hsub by (unfold sub; by rewrite Htb).
      apply elem_of_app in Hin as [Hin|[->|Hin]%elem_of_cons].
      * by apply (Hfresh u); [eapply sub_in_tables|].
      * by destruct (NoDup_sub _ _ _ _ Hnd Hj) as [_ []].
      * exact (NoDup_sub_ne _ _ _ _ _ _ Hnd Hj Hi Hne Hsub Hin).
  - unfold sub. rewrite He. case_if; [|done]. by apply same_tables, Hs.
Qed.

Lemma grown_NoDup T new s s' U :
  grows T new s s' → owned (pool s) U → NoDup U → NoDup (new ++ U).
Proof.
  intros H HU Hnd. apply NoDup_app. split; [apply (gr_nodup _ _ _ _ H)|]. split; [|done].
  intros u Hn Hu. exact (grows_fresh _ _ _ _ _ H HU u Hu Hn).
Qed.

Lemma grown_tree n T new s s' t' :
  pool_ok (pool s) → grows T new s s' → page_aligned t' →
  (∃ U, tables n (words s') t' ≡ₚ new ++ U ∧ owned (pool s) U ∧ NoDup U) → tree n s' t'.
Proof.
  intros Hok H Ha (U & HP & HU & Hnd). split; [done|]. split.
  - rewrite HP. by eapply grown_NoDup.
  - intros u. rewrite HP. by apply (grows_owned _ _ _ _ _ Hok H).
Qed.

(** What a mapping does: it may add up to [n] tables, it sets the entry of [ix], and it
    leaves every other entry of the space alone. *)
Record mapped n t ix (leaf : option Z) new s s' : Prop := {
  md_grows : grows (tables n (words s) t) new s s';
  md_tables : tables n (words s') t ≡ₚ new ++ tables n (words s) t;
  md_count : (length new <= n)%nat;
  md_here : walk n (words s') t ix =
    match leaf with Some x => if e_valid x then x else 0 | None => walk n (words s) t ix end;
  md_others ix' : indices n ix' → (∃ k, (k <= n)%nat ∧ ix' k ≠ ix k) →
    walk n (words s') t ix' = walk n (words s) t ix';
  md_open ix' : indices n ix' → path_open n (words s') t ix' = path_open n (words s) t ix'
}.

Lemma map_leaf t ix leaf s :
  pool_ok (pool s) → page_aligned t → index (ix O) →
  mapped 0 t ix leaf [] s (match leaf with Some x => store64 (t + 8 * ix O) x s | None => s end).
Proof.
  intros Hok Ha Hi. destruct leaf as [x|]; split; simpl; try done.
  - apply grows_refl; [done|done|]. intros u j Hu Hn Hj. apply ent_st64_ne; try done. left. intros ->.
    apply Hn. left.
  - by rewrite ent_st64_eq.
  - intros ix' Hix' (k & Hk & Hne). assert (k = O) as -> by lia.
    rewrite ent_st64_ne; [done|done|done|done|by apply Hix'|by right].
  - apply grows_refl; [done|done|apply outside_refl].
Qed.

(** From the subtree to the tree: growing the one under slot [i]. *)
Lemma subtree_step n t i s c s1 new1 s2 new2 :
  pool_ok (pool s) → tree (S n) s t → index i →
  grows [t] new1 s s1 → e_table (ent (words s1) t i) = true → e_addr (ent (words s1) t i) = c →
  (∀ j, index j → j ≠ i → ent (words s1) t j = ent (words s) t j) →
  tables n (words s1) c = new1 ++ sub n (words s) t i →
  grows (tables n (words s1) c) new2 s1 s2 → tables n (words s2) c ≡ₚ new2 ++ tables n (words s1) c →
  grows (tables (S n) (words s) t) (new2 ++ new1) s s2 ∧
  tables (S n) (words s2) t ≡ₚ (new2 ++ new1) ++ tables (S n) (words s) t ∧
  ent (words s2) t i = ent (words s1) t i ∧
  ∀ j, index j → j ≠ i → ent (words s2) t j = ent (words s) t j ∧
    (e_table (ent (words s) t j) = true → same (tables n (words s) (e_addr (ent (words s) t j))) (words s) (words s2)).
Proof.
  intros Hok Htree Hi Hg1 Htb Hc Hoth Htab Hg2 HP. pose proof Htree as (Ha & Hnd & Ho).
  set (T := t :: sub n (words s) t i).
  assert (grows T (new2 ++ new1) s s2) as Hg.
  { eapply grows_trans; [|exact Hg2|].
    - apply (grows_weaken _ _ _ _ _ Hg1). intros u ->%list_elem_of_singleton. left.
    - intros u. rewrite Htab, !elem_of_app. intros [?|?]; [by left|right; by right]. }
  pose proof (grows_fresh _ _ _ _ _ Hg Ho) as Hfresh.
  assert (∀ j, index j → ent (words s2) t j = ent (words s1) t j) as Hrow.
  { intros j Hj. apply (gr_outside _ _ _ _ Hg2); [done| |done]. rewrite Htab.
    pose proof (Hfresh t (tables_root _ _ _)) as Hf. destruct (NoDup_sub _ _ _ _ Hnd Hi) as [_ Ht].
    intros [Hu|[Hu|Hu]%elem_of_app]%elem_of_app; [|by apply Hf, elem_of_app; right|done].
    by apply Hf, elem_of_app; left. }
  assert (∀ j, index j → j ≠ i → ent (words s2) t j = ent (words s) t j ∧
    sub n (words s2) t j = sub n (words s) t j ∧
    (e_table (ent (words s) t j) = true →
      same (tables n (words s) (e_addr (ent (words s) t j))) (words s) (words s2))) as Hsub.
  { intros j Hj Hne. assert (ent (words s2) t j = ent (words s) t j) as E by (rewrite Hrow; auto).
    split; [done|]. apply (other_slot n s t i j (new2 ++ new1)); auto. apply (gr_outside _ _ _ _ Hg). }
  split; [|split; [|split; [by apply Hrow|intros j Hj Hne; by destruct (Hsub j Hj Hne) as (? & _ & ?)]]].
  - apply (grows_weaken _ _ _ _ _ Hg). intros u [->|Hu]%elem_of_cons; [apply tables_root|by eapply sub_in_tables].
  - apply tables_update with i; [done|apply Hsub|]. unfold sub at 1. rewrite Hrow, Htb, Hc by done.
    rewrite HP, Htab. by rewrite (assoc_L (++)).
Qed.

Lemma map_step n t ix leaf s c s1 new1 s2 new2 :
  pool_ok (pool s) → tree (S n) s t → indices (S n) ix →
  grows [t] new1 s s1 → (length new1 <= 1)%nat →
  e_table (ent (words s1) t (ix (S n))) = true → e_addr (ent (words s1) t (ix (S n))) = c →
  (∀ j, index j → j ≠ ix (S n) → ent (words s1) t j = ent (words s) t j) →
  tables n (words s1) c = new1 ++ sub n (words s) t (ix (S n)) →
  (∀ ix', indices n ix' → walk n (words s1) c ix' =
     (if e_table (ent (words s) t (ix (S n))) then walk n (words s) (e_addr (ent (words s) t (ix (S n)))) ix' else 0) ∧
     path_open n (words s1) c ix' =
     (if e_valid (ent (words s) t (ix (S n))) then path_open n (words s) (e_addr (ent (words s) t (ix (S n)))) ix' else true)) →
  e_block (ent (words s) t (ix (S n))) = false →
  mapped n c ix leaf new2 s1 s2 →
  mapped (S n) t ix leaf (new2 ++ new1) s s2.
Proof.
  intros Hok Htree Hix Hg1 Hlen1 Htb Hc Hoth Htab Hwalk Hblock [Hg2 HP Hlen2 Hhere Hothers Hopen].
  apply indices_S in Hix as [Hi Hixn]. set (i := ix (S n)) in *.
  destruct (subtree_step n t i s c s1 new1 s2 new2) as (Hg & HPt & Hrow & Hsub); try done.
  split; [exact Hg|exact HPt|rewrite length_app; lia|..].
  - cbn [walk]. fold i. rewrite Hrow, Htb, Hc, Hhere. destruct leaf; [done|]. by apply Hwalk.
  - intros ix' Hix' (k & Hk & Hne). apply indices_S in Hix' as [Hi' Hixn'].
    destruct (decide (ix' (S n) = i)) as [E|E]; cbn [walk].
    + rewrite E, Hrow, Htb, Hc, Hothers, (proj1 (Hwalk _ Hixn')); auto. exists k. split; [|done].
      destruct (decide (k = S n)) as [->|]; [done|lia].
    + destruct (Hsub _ Hi' E) as (-> & Hs). case_if; [|done]. by apply same_walk; [apply Hs|].
  - intros ix' Hix'. apply indices_S in Hix' as [Hi' Hixn'].
    destruct (decide (ix' (S n) = i)) as [E|E]; cbn [path_open].
    + destruct (e_table_valid _ Htb) as [Hv1 Hb1].
      rewrite E, Hrow, Hv1, Hb1, Hc, Hopen, Hblock by done. cbn [negb andb]. by apply Hwalk.
    + destruct (Hsub _ Hi' E) as (-> & Hs). destruct (e_block (ent (words s) t (ix' (S n)))) eqn:Eb; [done|].
      destruct (e_valid (ent (words s) t (ix' (S n)))) eqn:Ev; [|done]. cbn [negb andb].
      by apply same_path_open; [apply Hs, e_valid_cases|].
Qed.

Lemma child_tree n t i s c s1 new1 :
  pool_ok (pool s) → tree (S n) s t → index i → grows [t] new1 s s1 → e_addr (ent (words s1) t i) = c →
  tables n (words s1) c = new1 ++ sub n (words s) t i → tree n s1 c.
Proof.
  intros Hok (_ & Hnd & Ho) Hi Hg Hc Htab.
  apply (grown_tree n [t] new1 s _); [done|done|rewrite <- Hc; apply e_addr_aligned|].
  exists (sub n (words s) t i). split_and!; [by rewrite Htab| |by apply NoDup_sub].
  intros u Hu. apply Ho. by eapply sub_in_tables.
Qed.

Lemma pt_map_spec n fl t ix leaf s :
  pool_ok (pool s) → tree n s t → indices n ix → path_open n (words s) t ix = true →
  (n <= size (fa_free (pool s)))%nat →
  ∃ new, mapped n t ix leaf new s (pt_map n fl t ix leaf s).
Proof.
  revert t s. induction n as [|n IH]; intros t s Hok Htree Hix Hopen Hsz.
  - exists []. apply (map_leaf t ix leaf s Hok (proj1 Htree)). by apply Hix.
  - cbn [path_open] in Hopen. apply andb_true_iff in Hopen as [Hb Hopen]. apply negb_true_iff in Hb.
    destruct (indices_S _ _ Hix) as [Hi Hixn].
    destruct (get_or_create_spec n fl t (ix (S n)) s Hok Htree Hi Hb) as
      (c & s1 & new1 & E & Hg & Hlen & Hc0 & Htb & Hc & Hoth & Htab & _ & Hwalk); [lia|].
    cbn [pt_map]. rewrite E, (proj2 (Z.eqb_neq c 0)) by done.
    assert (tree n s1 c) as Htree1 by (by apply (child_tree n t (ix (S n)) s c s1 new1)).
    destruct (IH c s1) as [new2 Hmd]; [apply (gr_ok _ _ _ _ Hg)|done|done| | |].
    + by rewrite (proj2 (Hwalk _ Hixn)).
    + pose proof (grows_size _ _ _ _ Hg). lia.
    + exists (new2 ++ new1). eapply map_step; eauto.
Qed.

(** ** Unmapping *)

Lemma pt_unmap_spec n t ix s :
  pool_ok (pool s) → tree n s t → indices n ix →
  mapped n t ix (Some 0) [] s (pt_unmap n t ix s) ∧ pool (pt_unmap n t ix s) = pool s.
Proof.
  destruct e_zero as (Hv0 & _ & _).
  revert t. induction n as [|n IH]; intros t Hok Htree Hix.
  - split; [|done]. apply (map_leaf t ix (Some 0) s Hok (proj1 Htree)). by apply Hix.
  - cbn [pt_unmap]. destruct (indices_S _ _ Hix) as [Hi Hixn].
    destruct (e_table (ent (words s) t (ix (S n)))) eqn:Htb.
    + destruct (IH _ Hok (tree_sub _ _ _ _ Htree Hi Htb) Hixn) as [Hmd Hp]. split; [|done].
      apply (map_step n t ix (Some 0) s _ s [] _ [] Hok Htree Hix) in Hmd; try done.
      * by apply grows_refl.
      * simpl. lia.
      * unfold sub. by rewrite Htb.
      * intros ix' _. destruct (e_table_valid _ Htb) as [Hv _]. by rewrite Htb, Hv.
      * apply (e_table_valid _ Htb).
    + split; [|done]. split; try done.
      * by apply grows_refl.
      * simpl. lia.
      * rewrite Hv0. cbn [walk]. by rewrite Htb.
Qed.

(** ** Giving a tree back *)

Record freed T s s' : Prop := {
  fd_ok : pool_ok (pool s');
  fd_managed : fa_managed (pool s') = fa_managed (pool s);
  fd_free : fa_free (pool s') = frames_of T ∪ fa_free (pool s);
  fd_words : words s' = words s
}.

Lemma freed_refl s : pool_ok (pool s) → freed [] s s.
Proof. intros. split; try done. unfold frames_of. simpl. by rewrite (left_id_L ∅ (∪)). Qed.

Lemma freed_trans T1 T2 s s1 s2 : freed T1 s s1 → freed T2 s1 s2 → freed (T1 ++ T2) s s2.
Proof.
  intros [? Hm1 Hf1 Hw1] [Hok Hm2 Hf2 Hw2]. split; [done|congruence| |congruence].
  rewrite Hf2, Hf1, frames_of_app. set_solver.
Qed.

Lemma freed_perm T T' s s' : T ≡ₚ T' → freed T s s' → freed T' s s'.
Proof.
  intros HP [? ? Hf ?]. split; try done. rewrite Hf. f_equal. apply set_eq. intros f.
  rewrite !elem_of_frames_of. by setoid_rewrite HP.
Qed.

(** Tables in use that are not among the freed ones stay in use. *)
Lemma freed_owned T U s s' :
  freed T s s' → owned (pool s) T → owned (pool s) U → (∀ u, u ∈ U → u ∉ T) → owned (pool s') U.
Proof.
  intros [_ Hm Hf _] HT HU Hd u Hu. destruct (HU u Hu) as (Ha & Hmu & Hfu & H0).
  split; [done|]. rewrite Hm, Hf. split_and!; [done| |done].
  intros [(t & Ht & E)%elem_of_frames_of|?]%elem_of_union; [|done].
  apply (Hd u Hu). rewrite (aligned_frame u Ha), E, <- (aligned_frame t); [done|]. by apply HT.
Qed.

Lemma free_table_freed t s :
  pool_ok (pool s) → owned (pool s) [t] → freed [t] s (mk_pm (words s) (free_frame t (pool s))).
Proof.
  intros [Hw Hb] Ho. destruct (Ho t) as (Ha & Hm & _ & H0); [left|].
  destruct (free_frame_law (pool s) (t / PAGE) Hw Hm H0) as (Hw' & Hm' & Hf').
  rewrite <- (aligned_frame t Ha) in *. split; simpl; try done.
  - split; [done|]. by rewrite Hm'.
  - rewrite Hf'. unfold frames_of. simpl. by rewrite (right_id_L ∅ (∪)).
Qed.

Lemma bind_seqZ_snoc {A} (f : Z → list A) i :
  0 <= i → (seqZ 0 (i + 1) ≫= f) = (seqZ 0 i ≫= f) ++ f i.
Proof.
  intros. rewrite seqZ_app, bind_app by lia. change (seqZ (0 + i) 1) with [0 + i].
  rewrite bind_cons, Z.add_0_l. f_equal. apply app_nil_r.
Qed.

(** The subtrees under the first [i] slots. *)
Definition subs n m t i : list Z := seqZ 0 i ≫= sub n m t.

Lemma elem_of_subs n m t i u : u ∈ subs n m t i ↔ ∃ j, 0 <= j < i ∧ u ∈ sub n m t j.
Proof. unfold subs. rewrite list_elem_of_bind. setoid_rewrite elem_of_seqZ. naive_solver. Qed.

Lemma tree_slot n s t i :
  tree (S n) s t → 0 <= i < 512 →
  owned (pool s) (subs n (words s) t i) ∧ owned (pool s) (sub n (words s) t i) ∧
  ∀ u, u ∈ sub n (words s) t i → u ∉ subs n (words s) t i.
Proof.
  intros (Ha & Hnd & Ho) Hi. split_and!.
  - intros u (j & Hj & Hu)%elem_of_subs. apply Ho. eapply sub_in_tables; [|done]. unfold index. lia.
  - intros u Hu. apply Ho. by eapply sub_in_tables.
  - intros u Hu (j & Hj & Hu')%elem_of_subs. unfold index in *.
    refine (NoDup_sub_ne _ _ _ _ _ _ Hnd _ _ _ Hu Hu'); unfold index; lia.
Qed.

Lemma pt_free_spec n t s :
  pool_ok (pool s) → tree n s t → freed (tables n (words s) t) s (pt_free n t s).
Proof.
  revert t s. induction n as [|n IH]; intros t s Hok Htree.
  { apply free_table_freed; [done|]. apply Htree. }
  cbn [pt_free]. pose proof Htree as (Ha & Hnd & Ho).
  set (body := λ i s, _ : pm St). set (s1 := for_up 0 512 body s).
  assert (freed (subs n (words s) t 512) s s1) as H1.
  { apply (for_up_inv (λ i si, 0 <= i <= 512 ∧ freed (subs n (words s) t i) s si) body 0 512 s).
    - split; [lia|]. by apply freed_refl.
    - intros i si Hi [_ Hfr]. split; [lia|]. destruct (tree_slot n s t i Htree Hi) as (Ho1 & Ho2 & Hd).
      unfold subs. rewrite bind_seqZ_snoc by lia. apply (freed_trans _ _ _ si _ Hfr). unfold body, sub.
      rewrite (fd_words _ _ _ Hfr). case_if; [|apply freed_refl, (fd_ok _ _ _ Hfr)].
      rewrite <- (fd_words _ _ _ Hfr). apply IH; [apply (fd_ok _ _ _ Hfr)|].
      destruct (tree_sub _ _ _ i Htree Hi ltac:(done)) as (Hca & Hcn & _).
      unfold tree. rewrite (fd_words _ _ _ Hfr). split_and!; [done..|].
      apply (freed_owned _ _ _ _ Hfr Ho1).
      + intros u Hu. apply Ho2. unfold sub. by rewrite E.
      + intros u Hu. apply Hd. unfold sub. by rewrite E. }
  assert (owned (pool s1) [t]) as Ht.
  { apply (freed_owned _ _ _ _ H1).
    - intros u (j & Hj & Hu)%elem_of_subs. apply Ho. by eapply sub_in_tables.
    - intros u ->%list_elem_of_singleton. apply Ho, tables_root.
    - intros u ->%list_elem_of_singleton (j & Hj & Hu)%elem_of_subs. by destruct (NoDup_sub _ _ _ j Hnd Hj). }
  eapply freed_perm; [|eapply freed_trans; [exact H1|apply free_table_freed; [apply (fd_ok _ _ _ H1)|exact Ht]]].
  rewrite tables_S. apply Permutation_app_comm.
Qed.

(** ** Cloning *)

(** The clone [c] of the tree at [src]: the same entries through tables of its own, all
    taken from the allocator. *)
Record cloned n src s c s' : Prop := {
  cl_grows : grows [] (tables n (words s') c) s s';
  cl_frame : page_aligned c ∧ 0 <= c / PAGE < e_frames;
  cl_count : length (tables n (words s') c) = length (tables n (words s) src);
  cl_walk ix : indices n ix → walk n (words s') c ix = walk n (words s) src ix;
  cl_open ix : indices n ix → path_open n (words s) src ix = true → path_open n (words s') c ix = true
}.

Lemma grows_perm T new new' s s' : new ≡ₚ new' → grows T new s s' → grows T new' s s'.
Proof.
  intros HP H. split.
  - apply (gr_ok _ _ _ _ H).
  - apply (gr_managed _ _ _ _ H).
  - rewrite (gr_free _ _ _ _ H). f_equal. apply set_eq. intros f.
    rewrite !elem_of_frames_of. by setoid_rewrite HP.
  - intros c. rewrite <- HP. apply (gr_new _ _ _ _ H).
  - rewrite <- HP. apply (gr_nodup _ _ _ _ H).
  - intros t i Ha Hi. apply (gr_outside _ _ _ _ H); [done|]. by rewrite HP.
Qed.

(** The tree at [src] after the allocator and memory changed elsewhere. *)
Lemma grows_tree n T new s s' t :
  pool_ok (pool s) → grows T new s s' → tree n s t → (∀ u, u ∈ tables n (words s) t → u ∉ T) →
  same (tables n (words s) t) (words s) (words s') ∧ tree n s' t.
Proof.
  intros Hok Hg Htree HT. pose proof Htree as (Ha & Hnd & Ho).
  assert (same (tables n (words s) t) (words s) (words s')) as Hs.
  { apply (outside_same _ _ _ _ (gr_outside _ _ _ _ Hg)); [by apply tree_aligned|].
    intros u Hu [Hn|Hn]%elem_of_app; [|by apply (HT u)].
    by apply (grows_fresh _ _ _ _ _ Hg Ho u Hu). }
  split; [done|]. split; [done|]. rewrite (same_tables _ _ _ _ Hs). split; [done|].
  intros u Hu. apply (grows_owned _ _ _ _ _ Hok Hg Ho). apply elem_of_app. by right.
Qed.

(** The last level: the loop copies the valid entries. *)
Lemma clone_leaf src s c s0 :
  new_table s = (c, s0) → grows [] [c] s s0 → page_aligned c → page_aligned src → src ≠ c →
  0 <= c / PAGE < e_frames → (∀ j, index j → ent (words s0) c j = 0) →
  cloned 0 src s c (for_up 0 512 (λ i s,
    let e := ent (words s) src i in
    if negb (e_valid e) then s else store64 (c + 8 * i) e s) s0).
Proof.
  intros _ Hg Hca Hsa Hne Hcb Hz. destruct e_zero as (Hv0 & _).
  set (body := λ i s, _ : pm St). set (s1 := for_up 0 512 body s0).
  assert (∀ j, index j → ent (words s0) src j = ent (words s) src j) as Hsrc.
  { intros j Hj. apply (gr_outside _ _ _ _ Hg); [done| |done]. by intros ->%list_elem_of_singleton. }
  assert (pool s1 = pool s0 ∧ outside [c] (words s0) (words s1) ∧
    ∀ j, index j → ent (words s1) c j = if e_valid (ent (words s) src j) then ent (words s) src j else 0)
    as (Hp & Hout & Hcopy).
  { destruct (for_up_inv (λ i si, 0 <= i <= 512 ∧ pool si = pool s0 ∧ outside [c] (words s0) (words si) ∧
      ∀ j, index j → ent (words si) c j =
        if (j <? i) && e_valid (ent (words s) src j) then ent (words s) src j else 0) body 0 512 s0)
      as (_ & ? & ? & Hc).
    - split; [lia|]. split_and!; [done|apply outside_refl|]. intros j Hj. rewrite Hz by done.
      destruct (Z.ltb_spec j 0); [unfold index in Hj; lia|done].
    - intros i si Hi (_ & Hp & Ho & Hc). split; [lia|]. unfold body.
      rewrite (Ho src i) by (done || by intros ->%list_elem_of_singleton). rewrite Hsrc by done.
      assert (∀ j, j ≠ i → (j <? i + 1) = (j <? i)) as Hlt
        by (intros j ?; destruct (Z.ltb_spec j i), (Z.ltb_spec j (i + 1)); lia).
      assert ((i <? i + 1) = true) as Hii by (apply Z.ltb_lt; lia).
      assert ((i <? i) = false) as Hii' by (apply Z.ltb_irrefl).
      destruct (e_valid (ent (words s) src i)) eqn:Ev; simpl; (split; [done|]); split.
      + intros u j Hu Hn Hj. rewrite ent_st64_ne; [by apply Ho|done..|]. left. intros ->. apply Hn. left.
      + intros j Hj. rewrite ent_st64, Hc, Z.eqb_refl by done. simpl.
        destruct (Z.eqb_spec j i) as [->|?]; [by rewrite Hii, Ev|by rewrite Hlt].
      + done.
      + intros j Hj. rewrite Hc by done. destruct (decide (j = i)) as [->|?]; [|by rewrite Hlt].
        by rewrite Hii, Hii', Ev.
    - split_and!; [done..|]. intros j Hj. unfold s1. rewrite Hc by done.
      destruct (Z.ltb_spec j (Z.max 0 512)); [done|unfold index in Hj; lia]. }
  split; [|done|done| |done].
  - apply (grows_trans [] [c] [c] [] s s0 s1 Hg).
    + apply grows_refl; [apply (gr_ok _ _ _ _ Hg)|done|done].
    + intros u Hu. by rewrite app_nil_r.
  - intros ix Hix. cbn [walk]. rewrite Hcopy by (by apply Hix).
    destruct (e_valid (ent (words s) src (ix O))) eqn:E; [by rewrite E|by rewrite Hv0].
Qed.

(** One slot of an upper level: [slot_cloned m m' j] when slot [j] of [c] in [m'] has the
    subtree of slot [j] of [src] in [m]. *)
Definition slot_walk n m t j ix : Z := if e_table (ent m t j) then walk n m (e_addr (ent m t j)) ix else 0.

Definition slot_open n m t j ix : bool :=
  negb (e_block (ent m t j)) && (if e_valid (ent m t j) then path_open n m (e_addr (ent m t j)) ix else true).

Definition slot_cloned n m src m' c j : Prop :=
  length (sub n m' c j) = length (sub n m src j) ∧
  ∀ ix, indices n ix → slot_walk n m' c j ix = slot_walk n m src j ix ∧
    (slot_open n m src j ix = true → slot_open n m' c j ix = true).

(** The loop invariant: the first [i] slots are cloned, the others are still 0. *)
Record cloning n src s c i si : Prop := {
  cg_grows : grows [] (c :: subs n (words si) c i) s si;
  cg_done j : 0 <= j < i → slot_cloned n (words s) src (words si) c j;
  cg_todo j : i <= j < 512 → ent (words si) c j = 0
}.

Lemma sub_of_zero n m t j : ent m t j = 0 → sub n m t j = [].
Proof. intros E. unfold sub. destruct e_zero as (_ & Ht & _). by rewrite E, Ht. Qed.

Lemma slot_same n m m' t j :
  ent m' t j = ent m t j → same (sub n m t j) m m' →
  sub n m' t j = sub n m t j ∧
  ∀ ix, indices n ix → slot_walk n m' t j ix = slot_walk n m t j ix ∧ slot_open n m' t j ix = slot_open n m t j ix.
Proof.
  unfold sub, slot_walk, slot_open. intros -> Hs. destruct (e_table (ent m t j)) eqn:Et.
  - split; [by apply same_tables|]. intros ix Hix. by rewrite (same_walk _ _ _ _ _ Hs Hix), (same_path_open _ _ _ _ _ Hs Hix).
  - split; [done|]. intros ix Hix. split; [done|].
    destruct (e_block (ent m t j)) eqn:Eb; [done|]. destruct (e_valid (ent m t j)) eqn:Ev; [|done].
    by rewrite (e_valid_cases _ Ev Eb) in Et.
Qed.

Lemma slot_cloned_same n m src m1 m2 c j :
  slot_cloned n m src m1 c j → ent m2 c j = ent m1 c j → same (sub n m1 c j) m1 m2 →
  slot_cloned n m src m2 c j ∧ sub n m2 c j = sub n m1 c j.
Proof.
  intros [Hl Hw] He Hs. destruct (slot_same n m1 m2 c j He Hs) as [Hsub Hwalk].
  split; [|done]. split; [by rewrite Hsub|]. intros ix Hix. destruct (Hwalk ix Hix) as [-> ->]. by apply Hw.
Qed.

Lemma subs_ext n m m' t i :
  (∀ j, 0 <= j < i → sub n m' t j = sub n m t j) → subs n m' t i = subs n m t i.
Proof. intros H. apply bind_ext_in. intros j Hj%elem_of_seqZ. apply H. lia. Qed.

Lemma subs_count n m src m' c i :
  0 <= i → (∀ j, 0 <= j < i → slot_cloned n m src m' c j) →
  length (subs n m' c i) = length (subs n m src i).
Proof.
  intros Hi. pattern i. apply natlike_ind; [done| |done]. clear i Hi. intros i Hi IH H. unfold subs.
  rewrite <- Z.add_1_r, !bind_seqZ_snoc, !length_app by done. f_equal.
  - apply IH. intros j Hj. apply H. lia.
  - apply H. lia.
Qed.

Lemma subs_le n m t i : 0 <= i < 512 → (length (subs n m t i) + length (sub n m t i) < length (tables (S n) m t))%nat.
Proof.
  intros Hi. rewrite tables_S. cbn [length]. change (i ← seqZ 0 512; sub n m t i) with (subs n m t 512).
  unfold subs. replace 512 with ((i + 1) + (511 - i)) by lia.
  rewrite (seqZ_app 0 (i + 1)), bind_app, length_app, bind_seqZ_snoc, length_app by lia. lia.
Qed.

(** A step that writes slot [i] of [c], after which [new] pages hold its subtree. *)
Lemma cloning_step n src s c i si s1 e new :
  pool_ok (pool s) → page_aligned c → 0 <= i < 512 → cloning n src s c i si → grows [] new si s1 →
  let s2 := store64 (c + 8 * i) e s1 in
  sub n (words s2) c i ≡ₚ new →
  slot_cloned n (words s) src (words s2) c i →
  cloning n src s c (i + 1) s2.
Proof.
  intros Hok Hca Hi [Hg Hdone Htodo] Hg1 s2 Hsub Hslot.
  pose proof (grows_trans _ _ _ _ _ _ _ Hg Hg1) as Hg'.
  specialize (Hg' ltac:(intros t Ht; by apply not_elem_of_nil in Ht)).
  assert (owned (pool si) (c :: subs n (words si) c i)) as Hown.
  { rewrite <- (app_nil_r (_ :: _)). apply (grows_owned _ _ _ _ _ Hok Hg). intros u Hu. by apply not_elem_of_nil in Hu. }
  pose proof (grows_fresh _ _ _ _ _ Hg1 Hown) as Hfresh.
  assert (c ∉ subs n (words si) c i) as Hcs by (pose proof (gr_nodup _ _ _ _ Hg) as [? _]%NoDup_cons; done).
  assert (∀ j, index j → j ≠ i → ent (words s2) c j = ent (words si) c j) as Hrow.
  { intros j Hj Hne. unfold s2. simpl. rewrite ent_st64_ne; [|done..|unfold index; lia|done|by right].
    apply (gr_outside _ _ _ _ Hg1); [done| |done]. rewrite app_nil_r. apply Hfresh. left. }
  assert (∀ j, 0 <= j < i → same (sub n (words si) c j) (words si) (words s2)) as Hsame.
  { intros j Hj u k Hu Hk. assert (u ∈ subs n (words si) c i) as Hu' by (apply elem_of_subs; eauto).
    destruct (Hown u) as (Hua & _); [by right|]. unfold s2. simpl.
    rewrite ent_st64_ne; [|done..|unfold index; lia|done|left; by intros ->].
    apply (gr_outside _ _ _ _ Hg1); [done| |done]. rewrite app_nil_r. apply Hfresh. by right. }
  assert (∀ j, 0 <= j < i → slot_cloned n (words s) src (words s2) c j ∧ sub n (words s2) c j = sub n (words si) c j) as Hold.
  { intros j Hj. apply slot_cloned_same; [by apply Hdone|apply Hrow; unfold index; lia|by apply Hsame]. }
  split.
  - apply grows_perm with (new ++ c :: subs n (words si) c i).
    + unfold subs. rewrite bind_seqZ_snoc by lia.
      change (seqZ 0 i ≫= sub n (words s2) c) with (subs n (words s2) c i).
      rewrite Hsub, (subs_ext n (words si) (words s2)) by apply Hold. unfold subs. solve_Permutation.
    + destruct Hg' as [H1 H2 H3 H4 H5 H6]. split; try done.
      intros u k Hua Hn Hk. unfold s2. simpl. rewrite ent_st64_ne; [by apply H6|done..|unfold index; lia|done|].
      left. intros ->. apply Hn. rewrite app_nil_r. apply elem_of_app. right. left.
  - intros j Hj. destruct (decide (j = i)) as [->|]; [done|]. apply Hold. lia.
  - intros j Hj. rewrite Hrow by (unfold index; lia). apply Htodo. lia.
Qed.

Lemma cloning_src n src s c i si :
  tree (S n) s src → cloning n src s c i si →
  ∀ u, u ∈ tables (S n) (words s) src → ∀ j, index j → ent (words si) u j = ent (words s) u j.
Proof.
  intros Htree [Hg _ _] u Hu j Hj. pose proof (tree_aligned _ _ _ Htree) as Hal.
  rewrite Forall_forall in Hal. destruct Htree as (_ & _ & Ho).
  apply (gr_outside _ _ _ _ Hg); [by apply Hal| |done]. rewrite app_nil_r. by apply (grows_fresh _ _ _ _ _ Hg Ho).
Qed.

Lemma cloning_skip n src s c i si :
  0 <= i < 512 → cloning n src s c i si → e_table (ent (words s) src i) = false →
  cloning n src s c (i + 1) si.
Proof.
  intros Hi [Hg Hdone Htodo] He. assert (sub n (words si) c i = []) as Hs by (apply sub_of_zero, Htodo; lia).
  split.
  - unfold subs. rewrite bind_seqZ_snoc, Hs, app_nil_r by lia. done.
  - intros j Hj. destruct (decide (j = i)) as [->|]; [|apply Hdone; lia].
    split; [rewrite Hs; unfold sub; by rewrite He|]. intros ix _. unfold slot_walk, slot_open.
    rewrite He, Htodo by lia. by destruct e_zero as (-> & -> & ->).
  - intros j Hj. apply Htodo. lia.
Qed.

Lemma cloning_leaf n src s c i si :
  pool_ok (pool s) → page_aligned c → 0 <= i < 512 → cloning n src s c i si →
  e_table (ent (words s) src i) = false →
  cloning n src s c (i + 1) (store64 (c + 8 * i) (ent (words s) src i) si).
Proof.
  intros Hok Hca Hi Hcg He. pose proof Hcg as [Hg _ _].
  assert (ent (words (store64 (c + 8 * i) (ent (words s) src i) si)) c i = ent (words s) src i) as E
    by (by apply ent_st64_eq).
  apply (cloning_step _ _ _ _ _ si si (ent (words s) src i) []); try done.
  - by apply grows_refl; [apply (gr_ok _ _ _ _ Hg)| |].
  - unfold sub. by rewrite E, He.
  - split; [unfold sub; by rewrite E, He|]. intros ix _. unfold slot_walk, slot_open. rewrite E, He. split; [done|].
    destruct (e_block (ent (words s) src i)) eqn:Eb; [done|]. destruct (e_valid (ent (words s) src i)) eqn:Ev; [|done].
    by rewrite (e_valid_cases _ Ev Eb) in He.
Qed.

Lemma cloning_table n src s c i si d s1 :
  pool_ok (pool s) → page_aligned c → 0 <= i < 512 → tree (S n) s src → cloning n src s c i si →
  e_table (ent (words s) src i) = true → cloned n (e_addr (ent (words s) src i)) si d s1 →
  cloning n src s c (i + 1) (store64 (c + 8 * i) (e_clone d (ent (words s1) src i)) s1).
Proof.
  intros Hok Hca Hi Htree Hcg He [Hg1 [Hda Hdb] Hcount Hwalk Hopen]. pose proof Hcg as [Hg _ _].
  pose proof (cloning_src _ _ _ _ _ _ Htree Hcg) as Hsrc. set (e := ent (words s) src i) in *.
  assert (same (tables n (words s) (e_addr e)) (words s) (words si)) as Hsub.
  { intros u j Hu Hj. apply Hsrc; [|done]. apply elem_of_tables_S. right. exists i.
    split; [done|]. unfold sub. fold e. by rewrite He. }
  assert (owned (pool si) (c :: subs n (words si) c i ++ tables (S n) (words s) src)) as Hown.
  { rewrite app_comm_cons. apply (grows_owned _ _ _ _ _ Hok Hg), Htree. }
  pose proof (grows_fresh _ _ _ _ _ Hg1 Hown) as Hfresh.
  assert (ent (words s1) src i = e) as ->.
  { rewrite (gr_outside _ _ _ _ Hg1); [exact (Hsrc src (tables_root _ _ _) i Hi)|exact (proj1 Htree)| |done].
    rewrite app_nil_r. apply Hfresh. right. apply elem_of_app. right. apply tables_root. }
  destruct (e_clone_law e _ Hdb He) as [Ht Ha]. rewrite <- (aligned_frame d Hda) in Ht, Ha.
  set (s2 := store64 (c + 8 * i) (e_clone d e) s1).
  assert (ent (words s2) c i = e_clone d e) as E by (by apply ent_st64_eq).
  assert (same (tables n (words s1) d) (words s1) (words s2)) as Hs.
  { intros u j Hu Hj. apply ent_st64_ne; [done| |done|done|].
    - exact (tables_aligned _ _ _ _ Hda Hu).
    - left. intros ->. apply (Hfresh c); [left|done]. }
  apply (cloning_step _ _ _ _ _ si s1 (e_clone d e) (tables n (words s1) d)); try done; fold s2.
  - unfold sub. by rewrite E, Ht, Ha, (same_tables _ _ _ _ Hs).
  - split.
    + unfold sub. fold e. rewrite E, Ht, Ha, He, (same_tables _ _ _ _ Hs), Hcount. by rewrite (same_tables _ _ _ _ Hsub).
    + intros ix Hix. unfold slot_walk, slot_open. fold e. destruct (e_table_valid _ Ht) as [Hv1 Hb1].
      destruct (e_table_valid _ He) as [Hv Hb].
      rewrite E, Ht, Ha, He, Hv1, Hb1, Hv, Hb, (same_walk _ _ _ _ _ Hs Hix), (same_path_open _ _ _ _ _ Hs Hix), Hwalk by done.
      split; [by apply same_walk|]. cbn [negb andb]. rewrite <- (same_path_open _ _ _ _ _ Hsub Hix). by apply Hopen.
Qed.

Lemma cloning_end n src s c s' :
  cloning n src s c 512 s' → page_aligned c → 0 <= c / PAGE < e_frames → cloned (S n) src s c s'.
Proof.
  intros [Hg Hdone _] Hca Hcb. split; [done|done| | |].
  - rewrite !tables_S. cbn [length]. f_equal. by apply (subs_count n (words s) src (words s') c 512).
  - intros ix Hix. apply indices_S in Hix as [Hi Hixn]. by apply (proj2 (Hdone (ix (S n)) Hi)).
  - intros ix Hix. apply indices_S in Hix as [Hi Hixn]. by apply (proj2 (Hdone (ix (S n)) Hi)).
Qed.

Lemma pt_clone_spec n src s :
  pool_ok (pool s) → tree n s src → (length (tables n (words s) src) <= size (fa_free (pool s)))%nat →
  ∃ c s', pt_clone n src s = (c, s') ∧ cloned n src s c s'.
Proof.
  revert src s. induction n as [|n IH]; intros src s Hok Htree Hsz; cbn [pt_clone].
  all: destruct (new_table_grows s Hok) as (c & s0 & E & Hg & Hcb & Hca & Hz);
    [etrans; [|exact Hsz]; destruct (tables _ _ _) eqn:Et; [by destruct (not_elem_of_nil src); rewrite <- Et; apply tables_root|simpl; lia]|].
  all: pose proof E as E'; unfold new_table in E'; destruct (alloc_frame (pool s)) as [f p]; injection E' as -> ->.
  - eexists _, _. split; [done|]. apply clone_leaf; try done; [exact (proj1 Htree)|].
    intros ->. destruct Htree as (_ & _ & Ho).
    by apply (grows_fresh _ _ _ _ _ Hg Ho c (tables_root _ _ _)); left.
  - eexists _, _. split; [done|]. apply cloning_end; [|done..].
    destruct (for_up_inv (λ i si, 0 <= i <= 512 ∧ cloning n src s c i si) (λ i s,
      if negb (e_valid (ent (words s) src i)) then s
      else if e_table (ent (words s) src i) then
        let '(d, s) := pt_clone n (e_addr (ent (words s) src i)) s in
        store64 (c + 8 * i) (e_clone d (ent (words s) src i)) s
      else store64 (c + 8 * i) (ent (words s) src i) s) 0 512 s0) as [_ H]; [| |exact H].
    + split; [lia|]. split; [done|lia|by intros; apply Hz].
    + intros i si Hi [_ Hcg]. split; [lia|].
      rewrite (cloning_src _ _ _ _ _ _ Htree Hcg src (tables_root _ _ _) i Hi).
      set (e := ent (words s) src i). destruct (e_table e) eqn:He.
      * destruct (e_table_valid e He) as [-> _]. cbn [negb]. pose proof (cg_grows _ _ _ _ _ _ Hcg) as Hgi.
        destruct (grows_tree n [] _ s si (e_addr e) Hok Hgi (tree_sub _ _ _ _ Htree Hi He)) as [Hsm Htr];
          [intros u _; apply not_elem_of_nil|].
        destruct (IH (e_addr e) si) as (d & s1 & -> & Hcl); [apply (gr_ok _ _ _ _ Hgi)|done| |exact (cloning_table n src s c i si d s1 Hok Hca Hi Htree Hcg He Hcl)].
        rewrite (same_tables _ _ _ _ Hsm). pose proof (grows_size _ _ _ _ Hgi) as Hs. cbn [length] in Hs.
        rewrite (subs_count n (words s) src (words si) c i ltac:(lia) (cg_done _ _ _ _ _ _ Hcg)) in Hs.
        pose proof (subs_le n (words s) src i Hi) as Hle. unfold sub in Hle. fold e in Hle. rewrite He in Hle. lia.
      * destruct (e_valid e); cbn [negb]; [by apply cloning_leaf|by apply cloning_skip].
Qed.
End proofs.

(** ** Virtual addresses *)

(** The index of a virtual address at level [k]. *)
Definition va_index (v : Z) (k : nat) : Z := (v ≫ (12 + 9 * Z.of_nat k)) .& 0x1FF.

Lemma va_index_range v n : indices n (va_index v).
Proof.
  intros k _. unfold va_index, index. change 0x1FF with (Z.ones 9). rewrite Z.land_ones by lia. apply Z.mod_pos_bound. lia.
Qed.

Lemma va_index_digit v k : va_index v k = v / 4096 / 512 ^ Z.of_nat k mod 512.
Proof.
  unfold va_index. change 0x1FF with (Z.ones 9). rewrite Z.land_ones, Z.shiftr_div_pow2 by lia.
  rewrite Z.pow_add_r, Z.pow_mul_r by lia. rewrite Z.div_div; [done|lia|apply Z.pow_pos_nonneg; lia].
Qed.

Lemma digits_inj n x y :
  0 <= x < 512 ^ Z.of_nat (S n) → 0 <= y < 512 ^ Z.of_nat (S n) →
  (∀ k, (k <= n)%nat → x / 512 ^ Z.of_nat k mod 512 = y / 512 ^ Z.of_nat k mod 512) → x = y.
Proof.
  revert x y. induction n as [|n IH]; intros x y Hx Hy H.
  - specialize (H O ltac:(lia)). change (512 ^ Z.of_nat 1) with 512 in *. simpl in H.
    rewrite !Z.div_1_r, !Z.mod_small in H by lia. done.
  - rewrite Nat2Z.inj_succ, Z.pow_succ_r in Hx, Hy by lia.
    assert (x / 512 = y / 512) as Eq.
    { apply IH; [div_lia|div_lia|]. intros k Hk. specialize (H (S k) ltac:(lia)).
      rewrite Nat2Z.inj_succ, Z.pow_succ_r in H by lia. by rewrite !Z.div_div by lia. }
    specialize (H O ltac:(lia)). simpl in H. rewrite !Z.div_1_r in H. div_lia.
Qed.

(** Two pages of the space with [n + 1] levels differ at some level. *)
Lemma va_index_differ n v w :
  0 <= v < 4096 * 512 ^ Z.of_nat (S n) → 0 <= w < 4096 * 512 ^ Z.of_nat (S n) →
  v / PAGE ≠ w / PAGE → ∃ k, (k <= n)%nat ∧ va_index w k ≠ va_index v k.
Proof.
  unfold PAGE. intros Hv Hw Hne.
  destruct (decide (Forall (λ k, va_index w k = va_index v k) (seq 0 (S n)))) as [HF|HF].
  - destruct Hne. apply (digits_inj n); [div_lia|div_lia|]. intros k Hk.
    rewrite Forall_forall in HF. specialize (HF k ltac:(apply elem_of_seq; lia)).
    rewrite !va_index_digit in HF. exact (eq_sym HF).
  - apply not_Forall_Exists in HF; [|apply _]. apply Exists_exists in HF as (k & Hk & H).
    apply elem_of_seq in Hk. exists k. split; [lia|done].
Qed.

(** ** Bits of entries *)

(** A page address and flag bits do not overlap. *)
Lemma land_page_low f k : 0 <= k < PAGE → (f * PAGE) .& k = 0.
Proof.
  unfold PAGE. intros Hk. apply Z.bits_inj'. intros n Hn. rewrite Z.land_spec, Z.bits_0.
  destruct (Z.lt_ge_cases n 12).
  - replace (f * 4096) with (f ≪ 12) by (rewrite Z.shiftl_mul_pow2; lia). by rewrite Z.shiftl_spec_low.
  - destruct (decide (k = 0)) as [->|]; [by rewrite Z.bits_0, andb_false_r|].
    rewrite (Z.bits_above_log2 k), andb_false_r; [done|lia|].
    apply Z.lt_le_trans with 12; [|done]. apply Z.log2_lt_pow2; lia.
Qed.

Lemma land_page_mask b f : 0 <= b → 0 <= f < 2 ^ b → (f * PAGE) .& (Z.ones b ≪ 12) = f * PAGE.
Proof.
  intros Hb Hf. unfold PAGE. replace (f * 4096) with (f ≪ 12) by (rewrite Z.shiftl_mul_pow2; lia).
  rewrite <- Z.shiftl_land, Z.land_ones, Z.mod_small by lia. done.
Qed.

Lemma land_mask_aligned b e : page_aligned (e .& (Z.ones b ≪ 12)).
Proof.
  unfold page_aligned. change PAGE with (2 ^ 12). rewrite <- Z.land_ones, <- Z.land_assoc by lia.
  assert ((Z.ones b ≪ 12) .& Z.ones 12 = 0) as ->; [|by rewrite Z.land_0_r].
  rewrite Z.land_ones, Z.shiftl_mul_pow2 by lia. by apply Z.mod_mul.
Qed.

(** Storing an entry that is there changes nothing. *)
Lemma st64_same m a : ld64 m a ≠ 0 → st64 m a (ld64 m a) = m.
Proof.
  unfold st64, ld64. destruct (m !! (a / 8)) as [x|] eqn:E; [|done]. intros _. by apply insert_id.
Qed.
