(* ===== verification/AddressSpace.v ===== *)
(** * Address spaces

    The part of the two vmm.c files above their page-table walks: address_space_t
    objects on the kernel heap, each with a page-table tree of its own, over the frame
    allocator.  The operations are stated over the walks of PageTable.v, with [n + 1]
    levels; VmmX86.v and VmmA64.v show their code equal to them.

    The abstract view of the state is one translation function per address space; the
    refinement theorems say that create copies the kernel's, map and unmap change one
    page of one space, destroy removes one, and that no operation can be seen from
    another space. *)

From S2P Require Import Prelude.
From S2P Require Import FrameAlloc.
From S2P Require Import Heap.
From S2P Require Import PageTable.

(** ** The heap and its frames, seen from code that allocates frames itself *)

Section heap_frames.
Context {St : Type} `{OPS : !FrameOps St, FL : !FrameLaws St}.
Implicit Types (h : heap St) (F : gset Z).

(** None of the frames [F] is in an arena. *)
Definition heap_clear h F : Prop :=
  ∀ b a, arenas h !! b = Some a → F ## frame_range (b / PAGE) (b / PAGE + ha_frame_count a).

Lemma heap_clear_mono h F F' : heap_clear h F → F' ⊆ F → heap_clear h F'.
Proof. intros H Hsub b a Hb. specialize (H b a Hb). set_solver. Qed.

Lemma heap_clear_union h F F' : heap_clear h F → heap_clear h F' → heap_clear h (F ∪ F').
Proof. intros H H' b a Hb. specialize (H b a Hb). specialize (H' b a Hb). set_solver. Qed.

Lemma arena_links_lookup ars p AL L :
  arena_links ars p AL → L ∈ AL → ∃ a, ars !! al_base L = Some a ∧ ha_frame_count a = al_count L.
Proof.
  revert p. induction AL as [|L1 AL IH]; intros p; [intros _ []%elem_of_nil|].
  intros (-> & a & Ha & Hc & _ & Hrest) [->|HL]%elem_of_cons; [by exists a|by eapply IH].
Qed.

(** Frames that are not the heap's may become free under it. *)
Lemma heap_set_frames h AL s F :
  heap_rep h AL → fa_wf s → fa_managed s = fa_managed (frames h) → heap_clear h F →
  fa_free s ⊆ fa_free (frames h) ∪ F → heap_rep (set_frames h s) AL.
Proof.
  intros [Hw Hl Hc Ho Hd] Hw' Hm Hcl Hf. split; try done. simpl. rewrite Hm.
  apply Forall_forall. intros L HL. rewrite Forall_forall in Ho.
  destruct (Ho L HL) as (f & Hb & Hpos & Hn & Hsub). exists f. split_and!; [done..|].
  destruct (arena_links_lookup _ _ _ _ Hl HL) as (a & Ha & Hcount). specialize (Hcl _ _ Ha).
  rewrite Hb, Hcount in Hcl. rewrite Z.div_mul in Hcl by done. set_solver.
Qed.

Lemma kfree_frames h p h' : kfree p h = Some h' → arenas h' = arenas h ∧ frames h' = frames h.
Proof.
  unfold kfree. case_if; [by intros [= <-]|]. destruct (blocks h !! _) as [b|]; [|done]. cbn -[u64 set_block].
  case_if; [by intros [= <-]|]. destruct (_ !! hb_next b) as [nb|]; [|done]. cbn -[u64 set_block].
  case_if; by intros [= <-].
Qed.

(** kmalloc only takes free frames, and its arenas are clear of all others. *)
Definition frames_taken h h' : Prop :=
  fa_free (frames h') ⊆ fa_free (frames h) ∧
  ∀ F, heap_clear h F → F ## fa_free (frames h) ∖ fa_free (frames h') → heap_clear h' F.

Lemma frames_taken_same h h' : arenas h' = arenas h → frames h' = frames h → frames_taken h h'.
Proof. intros Ha Hf. unfold frames_taken, heap_clear. by rewrite Ha, Hf. Qed.

Lemma grow_heap_frames h AL bytes :
  heap_rep h AL → 0 <= bytes < 2 ^ 63 → frames_taken h (snd (grow_heap bytes h)).
Proof.
  intros Hr Hb. unfold grow_heap.
  rewrite (u64_id (sizeof_arena + sizeof_block + bytes)) by (unfold in_u, sizeof_arena, sizeof_block; lia).
  rewrite (u64_id (sizeof_arena + sizeof_block + bytes + PAGE - 1))
    by (unfold in_u, sizeof_arena, sizeof_block, PAGE; lia).
  set (k := (sizeof_arena + sizeof_block + bytes + PAGE - 1) / PAGE).
  assert (k < 2 ^ 64) by (unfold k, sizeof_arena, sizeof_block, PAGE; div_lia).
  destruct (alloc_frames_law (frames h) (if k <? HEAP_MIN_ARENA_FRAMES then HEAP_MIN_ARENA_FRAMES else k)
    (hr_frames _ _ Hr)) as [->|(f & s' & Hsub & -> & _ & _ & Hfr)];
    [|by apply frames_taken_same|].
  - unfold HEAP_MIN_ARENA_FRAMES. destruct (Z.ltb_spec k 16); lia.
  - case_if; cbn; (split; [cbn; rewrite Hfr; set_solver|]; intros F Hcl HF); [done|].
    intros b a. cbn in *. intros [[<- <-]|[_ Hba]]%lookup_insert_Some; [|by apply Hcl].
    cbn. rewrite Z.div_mul by done. set_solver.
Qed.

Lemma kmalloc_frames h AL sz p h' :
  heap_rep h AL → 0 < sz < 2 ^ 63 - 8 → kmalloc sz h = Some (p, h') → frames_taken h h'.
Proof.
  intros Hr Hsz. unfold kmalloc. rewrite (proj2 (Z.eqb_neq _ _)) by lia.
  destruct (align_up_ok sz ltac:(lia)) as (Hn & _ & Hle).
  set (n := align_up sz HEAP_ALIGN) in *. destruct (find_block _ _ _ _) as [r|]; [|done]. simpl.
  destruct (r =? 0); simpl.
  - pose proof (grow_heap_frames h AL n Hr ltac:(lia)) as H.
    destruct (grow_heap n h) as [arena h1]. simpl in H. case_if; [by intros [= _ <-]|].
    destruct (arenas h1 !! arena) as [a|]; [|done]. simpl.
    intros [E1 E2]%alloc_from_block_frame. unfold frames_taken, heap_clear in *. by rewrite E1, E2.
  - intros [E1 E2]%alloc_from_block_frame. by apply frames_taken_same.
Qed.
End heap_frames.

(** ** State and operations *)

(** A pointer to an address_space_t: the static one, or one from kmalloc. *)
Inductive as_ptr := kernel_space | user_space (p : Z).
#[export] Instance as_ptr_eq_dec : EqDecision as_ptr.
Proof. solve_decision. Defined.

(** Physical memory, the heap with the frame allocator under it, the root table in each
    address_space_t object on the heap, the one in the static kernel_space, and the
    CPU's root register (CR3, TTBR0_EL1). *)
Record vmm (St : Type) := mk_vmm {
  v_mem : memory;
  v_heap : heap St;
  v_spaces : gmap Z Z;
  v_kernel : Z;
  v_active : Z
}.
Arguments mk_vmm {St}. Arguments v_mem {St}. Arguments v_heap {St}. Arguments v_spaces {St}.
Arguments v_kernel {St}. Arguments v_active {St}.

Section ops.
Context {St : Type}.
Implicit Types (s : vmm St).

Definition v_pm s : pm St := mk_pm (v_mem s) (frames (v_heap s)).
Definition with_pm s (p : pm St) : vmm St :=
  mk_vmm (words p) (set_frames (v_heap s) (pool p)) (v_spaces s) (v_kernel s) (v_active s).

(** [as->pml4_phys]; [None] when there is no such object. *)
Definition as_root s (as_ : as_ptr) : option Z :=
  match as_ with kernel_space => Some (v_kernel s) | user_space p => v_spaces s !! p end.

Definition sizeof_address_space : Z := 8.

Context `{!PtFormat, !FrameOps St}.

Definition as_create (n : nat) s : option (as_ptr * vmm St) :=
  let '(root, p) := pt_clone n (v_kernel s) (v_pm s) in
  let s := with_pm s p in
  '(a, h) ← kmalloc sizeof_address_space (v_heap s);
  Some (user_space a, mk_vmm (v_mem s) h (<[a := root]> (v_spaces s)) (v_kernel s) (v_active s)).

Definition as_destroy (n : nat) (as_ : as_ptr) s : option (vmm St) :=
  match as_ with
  | kernel_space => Some s
  | user_space p =>
      root ← v_spaces s !! p;
      let s := with_pm s (pt_free n root (v_pm s)) in
      h ← kfree p (v_heap s);
      Some (mk_vmm (v_mem s) h (delete p (v_spaces s)) (v_kernel s) (v_active s))
  end.

Definition as_map (n : nat) (as_ : as_ptr) (virt fl : Z) (leaf : option Z) s : option (vmm St) :=
  root ← as_root s as_; Some (with_pm s (pt_map n fl root (va_index virt) leaf (v_pm s))).

Definition as_unmap (n : nat) (as_ : as_ptr) (virt : Z) s : option (vmm St) :=
  root ← as_root s as_; Some (with_pm s (pt_unmap n root (va_index virt) (v_pm s))).

(** The physical address an entry of the last level gives to [virt]. *)
Definition entry_phys (e virt : Z) : Z := if e_valid e then e_addr e .| (virt .& 0xFFF) else 0.

Definition as_translate (n : nat) (as_ : as_ptr) (virt : Z) s : option Z :=
  root ← as_root s as_; Some (entry_phys (walk n (v_mem s) root (va_index virt)) virt).
End ops.

(** ** The invariant *)

Section proofs.
Context `{FMT : !PtFormat, LAWS : !PtLaws} {St : Type} `{OPS : !FrameOps St, FL : !FrameLaws St}.
Context (n : nat).
Implicit Types (s : vmm St) (h : heap St) (x y : as_ptr) (t r : Z).

Abbreviation tabs s r := (tables n (v_mem s) r).

(** Every space has a tree of its own, which shares no table with the other spaces nor
    with the heap, and every object is a live allocation. *)
Record spaces_rep s AL : Prop := {
  sp_heap : heap_rep (v_heap s) AL;
  sp_pool : pool_ok (frames (v_heap s));
  sp_tree x r : as_root s x = Some r → tree n (v_pm s) r;
  sp_disjoint x y r r' : as_root s x = Some r → as_root s y = Some r' → x ≠ y →
    ∀ t, t ∈ tabs s r → t ∉ tabs s r';
  sp_free : heap_clear (v_heap s) (fa_free (frames (v_heap s)));
  sp_clear x r : as_root s x = Some r → heap_clear (v_heap s) (frames_of (tabs s r));
  sp_live p r : v_spaces s !! p = Some r → ∃ m, live (v_heap s) AL p m
}.

Lemma as_root_with_pm s p x : as_root (with_pm s p) x = as_root s x.
Proof. by destruct x. Qed.

Lemma tabs_aligned s AL x r : spaces_rep s AL → as_root s x = Some r → Forall page_aligned (tabs s r).
Proof. intros Hs Hr. exact (tree_aligned n (v_pm s) r (sp_tree _ _ Hs x r Hr)). Qed.

(** Another space is as it was after tables were added to [x]. *)
Lemma other_space s AL x y r r' new p :
  spaces_rep s AL → as_root s x = Some r → as_root s y = Some r' → x ≠ y →
  grows (tabs s r) new (v_pm s) p → same (tabs s r') (v_mem s) (words p).
Proof.
  intros Hs Hx Hy Hne Hg.
  apply (outside_same _ _ _ _ (gr_outside _ _ _ _ Hg)); [by eapply tabs_aligned|].
  intros t Ht [Hn|Hr]%elem_of_app.
  - destruct (sp_tree _ _ Hs y r' Hy) as (_ & _ & Ho). exact (grows_fresh _ _ _ _ _ Hg Ho t Ht Hn).
  - exact (sp_disjoint _ _ Hs x y r r' Hx Hy Hne t Hr Ht).
Qed.


(** *** Map and unmap *)

Definition leaf_phys (leaf : option Z) (old w : Z) : Z :=
  match leaf with Some e => entry_phys e w | None => old end.

(** The invariant after [x] gained tables. *)
Lemma grown_rep s AL x r new p :
  spaces_rep s AL → as_root s x = Some r → grows (tabs s r) new (v_pm s) p →
  tables n (words p) r ≡ₚ new ++ tabs s r → spaces_rep (with_pm s p) AL.
Proof.
  intros Hs Hx Hg HP. assert (pool_ok (pool (v_pm s))) as Hok by apply (sp_pool _ _ Hs).
  pose proof (sp_tree _ _ Hs x r Hx) as (Ha & Hnd & Ho).
  assert (frames_of new ⊆ fa_free (frames (v_heap s))) as Hnew.
  { intros f (c & Hc & ->)%elem_of_frames_of. by apply (gr_new _ _ _ _ Hg). }
  assert (∀ y r', as_root s y = Some r' →
    tree n p r' ∧ (∀ t, t ∈ tables n (words p) r' → t ∈ tabs s r' ∨ x = y ∧ t ∈ new)) as Hall.
  { intros y r' Hy. destruct (decide (x = y)) as [<-|Hne].
    - rewrite Hx in Hy. injection Hy as <-. split.
      + exact (grown_tree n _ _ (v_pm s) _ _ Hok Hg Ha (ex_intro _ _ (conj HP (conj Ho Hnd)))).
      + intros t. rewrite HP, elem_of_app. tauto.
    - destruct (grows_tree n _ _ _ _ r' Hok Hg (sp_tree _ _ Hs y r' Hy)) as [Hsame Htree].
      { intros t Ht Ht'. exact (sp_disjoint _ _ Hs x y r r' Hx Hy Hne t Ht' Ht). }
      split; [done|]. intros t Ht. left. by rewrite (same_tables _ _ _ _ Hsame) in Ht. }
  split.
  - apply heap_set_frames with (F := ∅); [apply (sp_heap _ _ Hs)|apply (gr_ok _ _ _ _ Hg)|apply (gr_managed _ _ _ _ Hg)| |].
    + intros b a _. apply disjoint_empty_l.
    + rewrite (gr_free _ _ _ _ Hg). intros f [Hf _]%elem_of_difference. by apply elem_of_union_l.
  - apply (gr_ok _ _ _ _ Hg).
  - intros y r'. rewrite as_root_with_pm. intros Hy. by apply Hall in Hy as [? _].
  - intros y z ry rz. rewrite !as_root_with_pm. intros Hy Hz Hne t Hty Htz.
    destruct (Hall _ _ Hy) as [_ H1]. destruct (Hall _ _ Hz) as [_ H2].
    destruct (H1 t Hty) as [Ht1|[<- Ht1]], (H2 t Htz) as [Ht2|[<- Ht2]]; [| | |done].
    + exact (sp_disjoint _ _ Hs y z ry rz Hy Hz Hne t Ht1 Ht2).
    + destruct (sp_tree _ _ Hs y ry Hy) as (_ & _ & Hoy). exact (grows_fresh _ _ _ _ _ Hg Hoy t Ht1 Ht2).
    + destruct (sp_tree _ _ Hs z rz Hz) as (_ & _ & Hoz). exact (grows_fresh _ _ _ _ _ Hg Hoz t Ht2 Ht1).
  - apply (heap_clear_mono _ _ _ (sp_free _ _ Hs)). cbn. rewrite (gr_free _ _ _ _ Hg). apply subseteq_difference_l. done.
  - intros y r'. rewrite as_root_with_pm. intros Hy. destruct (Hall _ _ Hy) as [_ Hsub].
    apply (heap_clear_mono _ (frames_of (tabs s r') ∪ frames_of new)).
    + apply heap_clear_union; [by apply (sp_clear _ _ Hs y)|].
      by apply (heap_clear_mono _ _ _ (sp_free _ _ Hs)).
    + intros f (t & Ht & ->)%elem_of_frames_of. rewrite elem_of_union, !elem_of_frames_of.
      destruct (Hsub t Ht) as [?|[_ ?]]; eauto.
  - apply (sp_live _ _ Hs).
Qed.

Lemma mapped_rep s AL x r ix leaf new p :
  spaces_rep s AL → as_root s x = Some r → mapped n r ix leaf new (v_pm s) p →
  spaces_rep (with_pm s p) AL.
Proof. intros Hs Hx [Hg HP _ _ _ _]. by eapply grown_rep. Qed.

Lemma entry_phys_valid e w : entry_phys (if e_valid e then e else 0) w = entry_phys e w.
Proof. unfold entry_phys. destruct e_zero as (H0 & _). destruct (e_valid e) eqn:E; by rewrite ?E, ?H0. Qed.

(** The translations of all spaces then. *)
Lemma mapped_translate s AL x r v leaf new p y w :
  spaces_rep s AL → as_root s x = Some r → mapped n r (va_index v) leaf new (v_pm s) p →
  0 <= v < 4096 * 512 ^ Z.of_nat (S n) → 0 <= w < 4096 * 512 ^ Z.of_nat (S n) →
  as_translate n y w (with_pm s p) =
  if decide (y = x ∧ w / PAGE = v / PAGE)
  then (λ old, leaf_phys leaf old w) <$> as_translate n y w s else as_translate n y w s.
Proof.
  intros Hs Hx Hmd Hv Hw. unfold as_translate. rewrite as_root_with_pm.
  destruct (as_root s y) as [r'|] eqn:Hy; simpl; [|by case_decide].
  case_decide as Hd.
  - destruct Hd as [-> Hpage]. simplify_eq. f_equal.
    assert (∀ k, va_index w k = va_index v k) as Hk
      by (intros k; rewrite !va_index_digit; unfold PAGE in Hpage; by rewrite Hpage).
    assert (∀ m, walk n m r (va_index w) = walk n m r (va_index v)) as Hwalk.
    { intros m. clear -Hk. revert r. induction n as [|k IH]; intros r; cbn [walk]; rewrite Hk; [done|].
      case_if; [apply IH|done]. }
    rewrite !Hwalk, (md_here _ _ _ _ _ _ _ Hmd). destruct leaf as [e|]; simpl; [|done].
    apply entry_phys_valid.
  - f_equal. f_equal. destruct (decide (y = x)) as [->|Hne].
    + simplify_eq. apply (md_others _ _ _ _ _ _ _ Hmd); [apply va_index_range|].
      apply va_index_differ; [done|done|]. intros E. by destruct Hd.
    + apply same_walk; [|apply va_index_range].
      exact (other_space _ _ _ _ _ _ _ _ Hs Hx Hy (not_eq_sym Hne) (md_grows _ _ _ _ _ _ _ Hmd)).
Qed.

(** *** Create and destroy *)

Lemma tree_pool (q q' : pm St) t :
  tree n q t → words q' = words q → fa_managed (pool q') = fa_managed (pool q) →
  fa_free (pool q') ⊆ fa_free (pool q) → tree n q' t.
Proof.
  intros (Ha & Hnd & Ho) Hw Hm Hf. unfold tree. rewrite Hw. split_and!; [done|done|].
  intros u Hu. destruct (Ho u Hu) as (? & ? & Hfree & ?). rewrite Hm. split_and!; [done|done| |done].
  intros Hin. by apply Hfree, Hf.
Qed.

Lemma owned_disjoint_free (p : St) T : owned p T → frames_of T ## fa_free p.
Proof. intros Ho f (t & Ht & ->)%elem_of_frames_of Hf. by destruct (Ho t Ht) as (_ & _ & ? & _). Qed.

(** The kernel's space alone, as the boot leaves it. *)
Lemma kernel_rep s AL :
  heap_rep (v_heap s) AL → pool_ok (frames (v_heap s)) → v_spaces s = ∅ → tree n (v_pm s) (v_kernel s) →
  heap_clear (v_heap s) (fa_free (frames (v_heap s))) → heap_clear (v_heap s) (frames_of (tabs s (v_kernel s))) →
  spaces_rep s AL.
Proof.
  intros Hh Hp Hn Ht Hf Hc.
  assert (∀ x r, as_root s x = Some r → x = kernel_space ∧ r = v_kernel s) as Hroot.
  { intros [|p] r; cbn; [by intros [= <-]|by rewrite Hn, lookup_empty]. }
  split; try done.
  - by intros x r [-> ->]%Hroot.
  - by intros x y r r' [-> _]%Hroot [-> _]%Hroot.
  - by intros x r [-> ->]%Hroot.
  - intros p r. by rewrite Hn, lookup_empty.
Qed.

(** Before heap_init and after it. *)
Lemma boot_kernel_rep p m root a :
  pool_ok p → tree n (mk_pm m p) root →
  spaces_rep (mk_vmm m (boot_heap p) ∅ root a) [] ∧
  ∃ AL, spaces_rep (mk_vmm m (heap_init (boot_heap p)) ∅ root a) AL.
Proof.
  intros Hp Ht. destruct (boot_rep p (proj1 Hp)) as [Hr _]. assert (∀ F, heap_clear (boot_heap p) F) as Hcl.
  { intros F b x. cbn. by rewrite lookup_empty. }
  split; [by apply kernel_rep|]. destruct (heap_init_rep p (proj1 Hp)) as (AL & HAL & _). exists AL.
  destruct (grow_heap_frames (boot_heap p) [] 0 Hr ltac:(lia)) as [Hsub Hclear].
  change (snd (grow_heap 0 (boot_heap p))) with (heap_init (boot_heap p)) in *.
  assert (fa_managed (frames (heap_init (boot_heap p))) = fa_managed p) as Hm by (apply (grow_heap_managed _ _ _ Hr); lia).
  assert (tree n (mk_pm m (frames (heap_init (boot_heap p)))) root) as Ht' by (by apply (tree_pool (mk_pm m p))).
  apply kernel_rep; try done.
  - split; [apply (hr_frames _ _ HAL)|]. cbn [v_heap]. rewrite Hm. apply Hp.
  - apply Hclear; [done|]. intros f Hf [_ ?]%elem_of_difference. done.
  - apply Hclear; [done|]. intros f Hf [Hf' _]%elem_of_difference.
    exact (owned_disjoint_free _ _ (proj2 (proj2 Ht)) f Hf Hf').
Qed.

Lemma destroy_rep s AL p r :
  spaces_rep s AL → v_spaces s !! p = Some r →
  ∃ s' AL', as_destroy n (user_space p) s = Some s' ∧ spaces_rep s' AL' ∧
    fa_free (frames (v_heap s')) = frames_of (tabs s r) ∪ fa_free (frames (v_heap s)) ∧
    fa_managed (frames (v_heap s')) = fa_managed (frames (v_heap s)) ∧
    v_mem s' = v_mem s ∧ v_active s' = v_active s ∧
    (∀ q k, live (v_heap s') AL' q k ↔ q ≠ p ∧ live (v_heap s) AL q k) ∧
    ∀ y, as_root s' y = if decide (y = user_space p) then None else as_root s y.
Proof.
  intros Hs Hp. cbn [as_destroy]. rewrite Hp. cbn [mbind option_bind].
  assert (as_root s (user_space p) = Some r) as Hx by done.
  pose proof (pt_free_spec n r (v_pm s) (sp_pool _ _ Hs) (sp_tree _ _ Hs _ _ Hx)) as Hfr.
  set (q := pt_free n r (v_pm s)) in *. pose proof (fd_free _ _ _ Hfr) as Hfree.
  assert (heap_rep (set_frames (v_heap s) (pool q)) AL) as Hheap.
  { apply (heap_set_frames _ _ _ (frames_of (tabs s r)) (sp_heap _ _ Hs)).
    - apply (fd_ok _ _ _ Hfr).
    - apply (fd_managed _ _ _ Hfr).
    - by apply (sp_clear _ _ Hs (user_space p)).
    - rewrite Hfree. intros f. rewrite !elem_of_union. tauto. }
  destruct (sp_live _ _ Hs p r Hp) as [m Hm].
  destruct (kfree_rep _ _ p m Hheap Hm) as (h' & AL' & E & Hheap' & Hlive).
  destruct (kfree_frames _ _ _ E) as [Ear Ef]. cbn [v_heap with_pm]. rewrite E. cbn [mbind option_bind].
  set (s' := mk_vmm _ _ _ _ _). exists s', AL'. split; [done|].
  assert (∀ y r', as_root s' y = Some r' → as_root s y = Some r' ∧ y ≠ user_space p) as Hroot.
  { intros [|k] r'; cbn; [done|]. intros [? ?]%lookup_delete_Some. split; [done|]. congruence. }
  assert (v_mem s' = v_mem s) as Hw by apply (fd_words _ _ _ Hfr).
  assert (frames h' = pool q) as Efr by (by rewrite Ef).
  assert (arenas h' = arenas (v_heap s)) as Ear' by (by rewrite Ear).
  split; [|split_and!; [cbn; by rewrite Efr|cbn; by rewrite Efr, (fd_managed _ _ _ Hfr)|done|done|exact Hlive|]].
  - split; cbn [v_heap s'].
    + done.
    + rewrite Efr. apply (fd_ok _ _ _ Hfr).
    + intros y r' (Hy & Hne)%Hroot. pose proof (sp_tree _ _ Hs y r' Hy) as (Ha & Hnd & Ho).
      unfold tree, v_pm. cbn [words pool]. rewrite Hw. cbn [v_heap s']. rewrite Efr. split_and!; [done|done|].
      apply (freed_owned _ _ _ _ Hfr); [apply (sp_tree _ _ Hs _ _ Hx)|done|].
      intros t Ht Ht'. exact (sp_disjoint _ _ Hs _ _ _ _ Hx Hy (not_eq_sym Hne) t Ht' Ht).
    + intros y z ry rz (Hy & _)%Hroot (Hz & _)%Hroot Hne. rewrite Hw. by apply (sp_disjoint _ _ Hs y z).
    + unfold heap_clear. rewrite Efr, Ear', Hfree. apply heap_clear_union.
      * by apply (sp_clear _ _ Hs (user_space p)).
      * apply (sp_free _ _ Hs).
    + intros y r' (Hy & _)%Hroot. rewrite Hw. unfold heap_clear. rewrite Ear'. by apply (sp_clear _ _ Hs y).
    + intros k r'. cbn. intros [Hne Hk]%lookup_delete_Some. destruct (sp_live _ _ Hs k r' Hk) as [m' Hm'].
      exists m'. by apply Hlive.
  - intros [|k]; cbn; [done|]. case_decide as Hd; [injection Hd as ->; by rewrite lookup_delete_eq|].
    rewrite lookup_delete_ne; [done|congruence].
Qed.

(** A new tree under an object on the heap. *)
(** The tree pt_clone built, next to those there are. *)
Lemma cloned_space s AL c q :
  spaces_rep s AL → cloned n (v_kernel s) (v_pm s) c q →
  tree n q c ∧ pool_ok (pool q) ∧ fa_free (pool q) ⊆ fa_free (frames (v_heap s)) ∧
  (∀ t, t ∈ tables n (words q) c → t / PAGE ∈ fa_free (frames (v_heap s))) ∧
  ∀ y r, as_root s y = Some r → tree n q r ∧ tables n (words q) r = tabs s r ∧ ∀ t, t ∈ tables n (words q) c → t ∉ tabs s r.
Proof.
  intros Hs Hcl. assert (pool_ok (pool (v_pm s))) as Hok by apply (sp_pool _ _ Hs).
  pose proof (cl_grows _ _ _ _ _ Hcl) as Hg. split_and!.
  - split; [apply (cl_frame _ _ _ _ _ Hcl)|]. split; [apply (gr_nodup _ _ _ _ Hg)|].
    rewrite <- (app_nil_r (tables n (words q) c)). apply (grows_owned _ _ _ _ _ Hok Hg). intros u Hu. by apply not_elem_of_nil in Hu.
  - apply (gr_ok _ _ _ _ Hg).
  - rewrite (gr_free _ _ _ _ Hg). by apply subseteq_difference_l.
  - intros t Ht. by apply (gr_new _ _ _ _ Hg).
  - intros y r Hy. destruct (grows_tree n [] (tables n (words q) c) (v_pm s) q r Hok Hg (sp_tree _ _ Hs y r Hy)) as [Hsame Ht];
      [intros u _; apply not_elem_of_nil|].
    split; [done|]. split; [by apply same_tables|]. intros t Htc Htr.
    destruct (sp_tree _ _ Hs y r Hy) as (_ & _ & Hoy). exact (grows_fresh _ _ _ _ _ Hg Hoy t Htr Htc).
Qed.

(** The heap does not see the frames a clone takes. *)
Lemma clone_heap s AL c q :
  spaces_rep s AL → cloned n (v_kernel s) (v_pm s) c q → heap_rep (v_heap (with_pm s q)) AL.
Proof.
  intros Hs Hcl. pose proof (cl_grows _ _ _ _ _ Hcl) as Hg.
  apply (heap_set_frames _ _ _ ∅ (sp_heap _ _ Hs)); [apply (gr_ok _ _ _ _ Hg)|apply (gr_managed _ _ _ _ Hg)| |].
  - intros b x _. apply disjoint_empty_l.
  - rewrite (gr_free _ _ _ _ Hg). intros f [Hf _]%elem_of_difference. by apply elem_of_union_l.
Qed.

Lemma create_rep s AL a h :
  spaces_rep s AL →
  (length (tabs s (v_kernel s)) <= size (fa_free (frames (v_heap s))))%nat →
  kmalloc sizeof_address_space (v_heap (with_pm s (snd (pt_clone n (v_kernel s) (v_pm s))))) = Some (a, h) →
  a ≠ 0 →
  ∃ s' AL' c, as_create n s = Some (user_space a, s') ∧ spaces_rep s' AL' ∧
    cloned n (v_kernel s) (v_pm s) c (mk_pm (v_mem s') (pool (snd (pt_clone n (v_kernel s) (v_pm s))))) ∧
    v_heap s' = h ∧ fa_free (frames h) ⊆ fa_free (pool (snd (pt_clone n (v_kernel s) (v_pm s)))) ∧
    fa_managed (frames h) = fa_managed (frames (v_heap s)) ∧
    v_active s' = v_active s ∧ v_spaces s !! a = None ∧
    (∀ F, heap_clear (v_heap s) F → F ## fa_free (frames (v_heap s)) → heap_clear (v_heap s') F) ∧
    ∀ y, as_root s' y = if decide (y = user_space a) then Some c else as_root s y.
Proof.
  intros Hs Hsz Hk Ha0. unfold as_create.
  assert (pool_ok (pool (v_pm s))) as Hok by apply (sp_pool _ _ Hs).
  destruct (pt_clone_spec n (v_kernel s) (v_pm s) Hok (sp_tree _ _ Hs kernel_space _ eq_refl) Hsz)
    as (c & q & E & Hcl). rewrite E in *. cbn [snd] in *. pose proof (cl_grows _ _ _ _ _ Hcl) as Hg.
  set (new := tables n (words q) c) in *. set (h1 := v_heap (with_pm s q)) in *. rewrite Hk. cbn [mbind option_bind].
  pose proof (clone_heap s AL c q Hs Hcl) as Hh1. fold h1 in Hh1.
  assert (0 < sizeof_address_space < 2 ^ 63 - 8) as Hsize by (unfold sizeof_address_space; lia).
  destruct (kmalloc_rep h1 AL _ Hh1 Hsize) as (a' & h' & AL' & E' & Hh' & Hal).
  rewrite Hk in E'. injection E' as <- <-. destruct Hal as [[? _]|(_ & _ & Hnl & m & _ & Hlive)]; [done|].
  pose proof (kmalloc_managed h1 AL _ _ _ Hh1 Hsize Hk) as Hm.
  destruct (kmalloc_frames h1 AL _ _ _ Hh1 Hsize Hk) as [Hsub Hclear].
  assert (frames h1 = pool q) as Ef by done. rewrite Ef in *.
  set (s' := mk_vmm _ _ _ _ _). exists s', AL', c. split; [done|].
  assert (v_spaces s !! a = None) as Hnone.
  { destruct (v_spaces s !! a) as [r|] eqn:Er; [|done]. destruct (sp_live _ _ Hs a r Er) as [k Hlv]. by destruct (Hnl k). }
  assert (∀ y r, as_root s' y = Some r → y = user_space a ∧ r = c ∨ y ≠ user_space a ∧ as_root s y = Some r) as Hroot.
  { intros [|k] r; cbn; [by right|]. intros [[<- <-]|[Hne ?]]%lookup_insert_Some; [by left|right]. split; [congruence|done]. }
  destruct (cloned_space s AL c q Hs Hcl) as (Hc & _ & Hsubq & Hnew & Hold).
  split; [|split_and!; [by destruct q|done|exact Hsub|by rewrite Hm, (gr_managed _ _ _ _ Hg)|done|done| |]].
  - split; cbn [v_heap s'].
    + done.
    + destruct (gr_ok _ _ _ _ Hg) as [_ Hb]. split; [apply (hr_frames _ _ Hh')|]. rewrite Hm. exact Hb.
    + intros y r [[-> ->]|[_ Hy]]%Hroot; (apply (tree_pool q); [|done|cbn; by rewrite Hm|exact Hsub]); [done|by apply (Hold y)].
    + intros y z ry rz [[-> ->]|[Hy' Hy]]%Hroot [[-> ->]|[Hz' Hz]]%Hroot Hne t; cbn [v_mem s' with_pm]; [done|..].
      * destruct (Hold z rz Hz) as (_ & -> & Hfr). apply Hfr.
      * destruct (Hold y ry Hy) as (_ & -> & Hfr). intros Ht Ht'. exact (Hfr t Ht' Ht).
      * destruct (Hold y ry Hy) as (_ & -> & _), (Hold z rz Hz) as (_ & -> & _).
        exact (sp_disjoint _ _ Hs y z ry rz Hy Hz Hne t).
    + apply Hclear; [|intros f ? [_ ?]%elem_of_difference; done].
      apply (heap_clear_mono _ _ _ (sp_free _ _ Hs)). etrans; [exact Hsub|]. rewrite (gr_free _ _ _ _ Hg).
      by apply subseteq_difference_l.
    + intros y r [[-> ->]|[_ Hy]]%Hroot; cbn [v_mem s' with_pm]; apply Hclear.
      * apply (heap_clear_mono _ _ _ (sp_free _ _ Hs)). intros f (t & Ht & ->)%elem_of_frames_of. by apply Hnew.
      * intros f Hf [Hf' _]%elem_of_difference. exact (owned_disjoint_free _ _ (proj2 (proj2 Hc)) f Hf Hf').
      * destruct (Hold y r Hy) as (_ & -> & _). by apply (sp_clear _ _ Hs y).
      * intros f Hf [Hf' _]%elem_of_difference.
        exact (owned_disjoint_free _ _ (proj2 (proj2 (proj1 (Hold y r Hy)))) f Hf Hf').
    + intros k r. cbn. intros [[<- <-]|[Hne Hkr]]%lookup_insert_Some; [exists m; apply Hlive; by left|].
      destruct (sp_live _ _ Hs k r Hkr) as [m' Hm']. exists m'. apply Hlive. by right.
  - intros F HF Hdis. apply Hclear; [exact HF|]. intros f Hf [Hf' _]%elem_of_difference. exact (Hdis f Hf (Hsubq f Hf')).
  - intros [|k]; cbn; [done|]. case_decide as Hd; [injection Hd as ->; by rewrite lookup_insert_eq|].
    rewrite lookup_insert_ne; [done|congruence].
Qed.

(** ** Refinement *)

(** The abstract state: the translation function of each address space. *)
Definition spaces : Type := as_ptr → option (Z → Z).

Definition span : Z := 4096 * 512 ^ Z.of_nat (S n).

Definition agrees s (A : spaces) : Prop :=
  ∀ y, match as_root s y, A y with
       | Some _, Some f => ∀ w, 0 <= w < span → as_translate n y w s = Some (f w)
       | None, None => True
       | _, _ => False
       end.

Lemma agrees_root s A x : agrees s A → is_Some (as_root s x) → is_Some (A x).
Proof. intros H [r Hr]. specialize (H x). rewrite Hr in H. by destruct (A x). Qed.

Lemma agrees_map s AL A x r v leaf new p f :
  spaces_rep s AL → agrees s A → as_root s x = Some r → A x = Some f →
  mapped n r (va_index v) leaf new (v_pm s) p → 0 <= v < span →
  agrees (with_pm s p) (λ y, if decide (y = x) then
    Some (λ w, if decide (w / PAGE = v / PAGE) then leaf_phys leaf (f w) w else f w) else A y).
Proof.
  intros Hs HA Hx Hf Hmd Hv y. rewrite as_root_with_pm. specialize (HA y).
  assert (∀ w, 0 <= w < span → as_translate n y w (with_pm s p) = _) as Htr
    by (intros w Hw; exact (mapped_translate s AL x r v leaf new p y w Hs Hx Hmd Hv Hw)).
  case_decide as Hyx.
  - subst y. rewrite Hx. rewrite Hx, Hf in HA. intros w Hw. rewrite Htr, HA by done.
    destruct (decide (w / PAGE = v / PAGE)); [by rewrite decide_True|rewrite decide_False; [done|by intros [??]]].
  - destruct (as_root s y), (A y); try done. intros w Hw. rewrite Htr, HA by done.
    rewrite decide_False; [done|by intros [??]].
Qed.

Lemma same_translate s s' y r :
  as_root s y = Some r → as_root s' y = Some r → same (tabs s r) (v_mem s) (v_mem s') →
  ∀ w, as_translate n y w s' = as_translate n y w s.
Proof.
  intros H H' Hs w. unfold as_translate. rewrite H, H'. simpl. do 2 f_equal.
  apply same_walk; [done|apply va_index_range].
Qed.

Lemma agrees_destroy s s' A p :
  agrees s A → v_mem s' = v_mem s →
  (∀ y, as_root s' y = if decide (y = user_space p) then None else as_root s y) →
  agrees s' (λ y, if decide (y = user_space p) then None else A y).
Proof.
  intros HA Hw Hroot y. specialize (HA y). pose proof (Hroot y) as Hy. case_decide; rewrite Hy; [done|].
  destruct (as_root s y) as [r|] eqn:E, (A y); try done. intros w Hwr. rewrite <- HA by done.
  apply (same_translate s s' y r); [done|done|]. by rewrite Hw.
Qed.

Lemma agrees_create s s' AL A a c q :
  spaces_rep s AL → agrees s A → cloned n (v_kernel s) (v_pm s) c (mk_pm (v_mem s') q) →
  (∀ y, as_root s' y = if decide (y = user_space a) then Some c else as_root s y) →
  agrees s' (λ y, if decide (y = user_space a) then A kernel_space else A y).
Proof.
  intros Hs HA Hcl Hroot y. pose proof (Hroot y) as Hy. case_decide as Hd; rewrite Hy.
  - specialize (HA kernel_space). cbn [as_root] in HA. destruct (A kernel_space) as [f|]; [|done].
    intros w Hw. rewrite <- HA by done. unfold as_translate. rewrite Hy. simpl. do 2 f_equal.
    apply (cl_walk _ _ _ _ _ Hcl), va_index_range.
  - specialize (HA y). destruct (as_root s y) as [r|] eqn:E, (A y); try done. intros w Hw. rewrite <- HA by done.
    apply (same_translate s s' y r); [done|done|].
    apply (grows_tree n [] _ (v_pm s) _ r (sp_pool _ _ Hs) (cl_grows _ _ _ _ _ Hcl) (sp_tree _ _ Hs y r E)).
    intros u _. apply not_elem_of_nil.
Qed.

(** The operations, with the architecture's encoding of a mapping: [mkleaf phys flags]
    is the entry written, and [phys_of phys flags old w] what the address [w] of the page
    translates to then. *)
Inductive aop :=
  | Create
  | Destroy (p : Z)
  | Map (x : as_ptr) (virt phys flags : Z)
  | Unmap (x : as_ptr) (virt : Z).

Section refinement.
Context (mkleaf : Z → Z → option Z) (phys_of : Z → Z → Z → Z → Z).
Context (leaf_law : ∀ ph fl old w, leaf_phys (mkleaf ph fl) old w = phys_of ph fl old w).

Definition run (op : aop) s : option (vmm St) :=
  match op with
  | Create => snd <$> as_create n s
  | Destroy p => as_destroy n (user_space p) s
  | Map x virt ph fl => as_map n x virt fl (mkleaf ph fl) s
  | Unmap x virt => as_unmap n x virt s
  end.

(** What the caller has to see to: enough free frames for the new tables, memory for the
    address_space_t, spaces that exist, and no huge page in the way of a mapping. *)
Definition ready (op : aop) s : Prop :=
  match op with
  | Create =>
      (length (tabs s (v_kernel s)) <= size (fa_free (frames (v_heap s))))%nat ∧
      ∃ a h, kmalloc sizeof_address_space (v_heap (with_pm s (snd (pt_clone n (v_kernel s) (v_pm s))))) = Some (a, h) ∧ a ≠ 0
  | Destroy p => is_Some (v_spaces s !! p)
  | Map x virt ph fl =>
      0 <= virt < span ∧ (n <= size (fa_free (frames (v_heap s))))%nat ∧
      ∃ r, as_root s x = Some r ∧ path_open n (v_mem s) r (va_index virt) = true
  | Unmap x virt => 0 <= virt < span ∧ is_Some (as_root s x)
  end.

Inductive spec_step : aop → spaces → spaces → Prop :=
  | spec_create A a :
      A (user_space a) = None →
      spec_step Create A (λ y, if decide (y = user_space a) then A kernel_space else A y)
  | spec_destroy A p :
      spec_step (Destroy p) A (λ y, if decide (y = user_space p) then None else A y)
  | spec_map A x f v ph fl :
      A x = Some f →
      spec_step (Map x v ph fl) A (λ y, if decide (y = x) then
        Some (λ w, if decide (w / PAGE = v / PAGE) then phys_of ph fl (f w) w else f w) else A y)
  | spec_unmap A x f v :
      A x = Some f →
      spec_step (Unmap x v) A (λ y, if decide (y = x) then
        Some (λ w, if decide (w / PAGE = v / PAGE) then 0 else f w) else A y).

Lemma agrees_ext s A B : agrees s A → (∀ y, match A y, B y with
  | Some f, Some g => ∀ w, f w = g w | None, None => True | _, _ => False end) → agrees s B.
Proof.
  intros H Heq y. specialize (H y). specialize (Heq y).
  destruct (as_root s y), (A y), (B y); try done. intros w Hw. by rewrite <- Heq, H.
Qed.

Lemma run_refines s AL A op :
  spaces_rep s AL → agrees s A → ready op s →
  ∃ s' AL' A', run op s = Some s' ∧ spaces_rep s' AL' ∧ spec_step op A A' ∧ agrees s' A'.
Proof.
  intros Hs HA Hop. destruct op as [|p|x v ph fl|x v]; cbn [run].
  - destruct Hop as (Hsz & a & h & Hk & Ha).
    destruct (create_rep s AL a h Hs Hsz Hk Ha) as (s' & AL' & c & -> & Hs' & Hcl & _ & _ & _ & _ & Hnone & _ & Hroot).
    exists s', AL', (λ y, if decide (y = user_space a) then A kernel_space else A y).
    split_and!; [done|done| |exact (agrees_create _ _ _ _ _ _ _ Hs HA Hcl Hroot)].
    apply spec_create. specialize (HA (user_space a)). cbn in HA. rewrite Hnone in HA. by destruct (A _).
  - destruct Hop as [r Hr]. destruct (destroy_rep s AL p r Hs Hr) as (s' & AL' & E & Hs' & _ & _ & Hw & _ & _ & Hroot).
    exists s', AL', (λ y, if decide (y = user_space p) then None else A y).
    split_and!; [done|done|constructor|exact (agrees_destroy _ _ _ _ HA Hw Hroot)].
  - destruct Hop as (Hv & Hsz & r & Hr & Hopen). destruct (agrees_root s A x HA) as [f Hf]; [by exists r|].
    destruct (pt_map_spec n fl r (va_index v) (mkleaf ph fl) (v_pm s)) as [new Hmd];
      [apply (sp_pool _ _ Hs)|by apply (sp_tree _ _ Hs x)|apply va_index_range|done|done|].
    unfold as_map. rewrite Hr. eexists _, AL, _. split; [done|]. split; [by eapply mapped_rep|].
    split; [by apply spec_map|]. apply (agrees_ext _ _ _ (agrees_map _ _ _ _ _ _ _ _ _ _ Hs HA Hr Hf Hmd Hv)).
    intros y. case_decide; [|by destruct (A y)]. intros w. case_decide; [|done]. apply leaf_law.
  - destruct Hop as (Hv & r & Hr). destruct (agrees_root s A x HA) as [f Hf]; [by exists r|].
    destruct (pt_unmap_spec n r (va_index v) (v_pm s)) as [Hmd _];
      [apply (sp_pool _ _ Hs)|by apply (sp_tree _ _ Hs x)|apply va_index_range|].
    unfold as_unmap. rewrite Hr. eexists _, AL, _. split; [done|]. split; [by eapply mapped_rep|].
    split; [by apply spec_unmap|]. apply (agrees_ext _ _ _ (agrees_map _ _ _ _ _ _ _ _ _ _ Hs HA Hr Hf Hmd Hv)).
    intros y. case_decide; [|by destruct (A y)]. intros w. case_decide; [|done].
    cbn. unfold entry_phys. by destruct e_zero as (-> & _).
Qed.

End refinement.

(** Create followed by destroy: the translations are those of before, and the free frames
    too, but for those [kmalloc] kept for the heap. *)
Lemma create_destroy s AL x s1 :
  spaces_rep s AL → ready Create s → as_create n s = Some (x, s1) →
  ∃ s2, as_destroy n x s1 = Some s2 ∧
    fa_free (frames (v_heap s2)) = fa_free (frames (v_heap s)) ∖
      (fa_free (pool (snd (pt_clone n (v_kernel s) (v_pm s)))) ∖ fa_free (frames (v_heap s1))) ∧
    ∀ y w, as_translate n y w s2 = as_translate n y w s.
Proof.
  intros Hs (Hsz & a & h & Hk & Ha) E.
  destruct (create_rep s AL a h Hs Hsz Hk Ha) as (s1' & AL1 & c & E1 & Hs1 & Hcl & Hh & Hsub & _ & _ & Hnone & _ & Hroot).
  rewrite E in E1. injection E1 as -> ->. set (q := pool _) in *.
  assert (v_spaces s1' !! a = Some c) as Hc.
  { specialize (Hroot (user_space a)). by rewrite decide_True in Hroot. }
  destruct (destroy_rep s1' AL1 a c Hs1 Hc) as (s2 & AL2 & E2 & _ & Hfree & _ & Hw & _ & _ & Hroot2).
  pose proof (cl_grows _ _ _ _ _ Hcl) as Hg. exists s2. split; [done|]. split.
  - rewrite Hfree, Hh. pose proof (gr_free _ _ _ _ Hg) as Hq. cbn in Hq. fold q in Hsub. rewrite Hq in *.
    assert (frames_of (tabs s1' c) ⊆ fa_free (frames (v_heap s))) as Hnew.
    { intros f (t & Ht & ->)%elem_of_frames_of. by apply (gr_new _ _ _ _ Hg). }
    apply set_eq. intros f. specialize (Hsub f). specialize (Hnew f).
    rewrite elem_of_union, !elem_of_difference in *. destruct (decide (f ∈ fa_free (frames h))), (decide (f ∈ frames_of (tabs s1' c))); tauto.
  - intros y w. destruct (decide (y = user_space a)) as [->|Hne].
    + unfold as_translate. rewrite (Hroot2 (user_space a)), decide_True by done. cbn. by rewrite Hnone.
    + assert (as_root s2 y = as_root s y) as Ey by (rewrite Hroot2, Hroot, !decide_False by done; done).
      destruct (as_root s y) as [r|] eqn:Er; [|unfold as_translate; by rewrite Ey, Er].
      apply (same_translate s s2 y r); [done|done|]. rewrite Hw.
      apply (grows_tree n [] _ (v_pm s) _ r (sp_pool _ _ Hs) Hg (sp_tree _ _ Hs y r Er)).
      intros u _. apply not_elem_of_nil.
Qed.
End proofs.
