(* ===== verification/UserPages.v ===== *)
(** * Frames that hold data

    Code that puts data behind an address space (the ELF loader, the self-test of the
    virtual memory) works with three kinds of step: it takes a frame from the allocator,
    it writes bytes into frames it took, and it maps one at a page of a space.  This file
    says what each step does to the byte contents, the translations and the invariant of
    the address spaces. *)

From S2P Require Import Prelude.
From S2P Require Import FrameAlloc.
From S2P Require Import Heap.
From S2P Require Import PageTable.
From S2P Require Import AddressSpace.

(** ** Bytes *)

(** Replacing one byte of a word. *)
Lemma byte_update w x k :
  0 <= k → 0 <= x < 256 →
  let w' := w + (x - w / 2 ^ k mod 2 ^ 8) * 2 ^ k in
  w' mod 2 ^ k = w mod 2 ^ k ∧ w' / 2 ^ k mod 2 ^ 8 = x ∧ w' / 2 ^ k / 2 ^ 8 = w / 2 ^ k / 2 ^ 8.
Proof.
  intros Hk Hx w'. assert (0 < 2 ^ k) as Hp by (apply Z.pow_pos_nonneg; lia). unfold w'.
  rewrite Z.mod_add, Z.div_add by lia. split; [done|]. change (2 ^ 8) with 256.
  set (u := w / 2 ^ k). div_lia.
Qed.

Lemma ld8_word m a : ld8 m a = (ld64 m a / 2 ^ (8 * (a mod 8))) mod 2 ^ 8.
Proof. done. Qed.

Lemma ld8_range m a : 0 <= ld8 m a < 2 ^ 8.
Proof. apply Z.mod_pos_bound. lia. Qed.

Lemma ld8_st8 m a b x :
  0 <= x < 256 → ld8 (st8 m a x) b = if b =? a then x else ld8 m b.
Proof.
  intros Hx. rewrite !ld8_word. unfold st8, st64, ld64 at 1. destruct (decide (b / 8 = a / 8)) as [E|E].
  - rewrite E, lookup_insert_eq. cbn [default]. unfold ld8.
    assert (ld64 m b = ld64 m a) as -> by (unfold ld64; by rewrite E).
    set (w := ld64 m a). pose proof (Z.mod_pos_bound a 8 ltac:(lia)) as Ha. pose proof (Z.mod_pos_bound b 8 ltac:(lia)) as Hb.
    destruct (byte_update w x (8 * (a mod 8))) as (Hlo & Hmid & Hhi); [lia|done|].
    set (w' := w + _) in *. destruct (Z.eqb_spec b a) as [->|Hne]; [done|].
    assert (b mod 8 ≠ a mod 8) as Hd by (intros Hd; apply Hne; rewrite (Z.div_mod b 8), (Z.div_mod a 8), E, Hd; lia).
    destruct (Z.lt_ge_cases (b mod 8) (a mod 8)) as [Hlt|Hge].
    + rewrite <- !Z.land_ones, <- !Z.shiftr_div_pow2 by lia. apply Z.bits_inj'. intros i Hi.
      rewrite !Z.land_spec, !Z.shiftr_spec, !Z.testbit_ones_nonneg by lia.
      destruct (Z.ltb_spec i 8); [|by rewrite !andb_false_r]. rewrite !andb_true_r.
      apply (f_equal (λ z, Z.testbit z (i + 8 * (b mod 8)))) in Hlo.
      by rewrite !Z.mod_pow2_bits_low in Hlo by lia.
    + rewrite !Z.div_div in Hhi by (apply Z.pow_nonzero || apply Z.pow_pos_nonneg; lia).
      rewrite <- Z.pow_add_r in Hhi by lia.
      assert (∀ u, u / 2 ^ (8 * (b mod 8)) = u / 2 ^ (8 * (a mod 8) + 8) / 2 ^ (8 * (b mod 8 - a mod 8 - 1))) as Hsplit.
      { intros u. rewrite Z.div_div, <- Z.pow_add_r by (apply Z.pow_nonzero || apply Z.pow_pos_nonneg || idtac; lia).
        do 2 f_equal. lia. }
      unfold id. by rewrite !Hsplit, Hhi.
  - rewrite lookup_insert_ne by done. destruct (Z.eqb_spec b a) as [->|]; [done|]. done.
Qed.

(** Bytes of a page are bytes of its words. *)
Lemma ld8_ent m t j :
  page_aligned t → 0 <= j < PAGE → ld8 m (t + j) = ent m t (j / 8) / 2 ^ (8 * (j mod 8)) mod 2 ^ 8.
Proof.
  unfold page_aligned, PAGE. intros Ht Hj. unfold ld8, ent, ld64.
  assert ((t + j) / 8 = (t + 8 * (j / 8)) / 8 ∧ (t + j) mod 8 = j mod 8) as [-> ->]; [|done]. div_lia.
Qed.

Lemma ent_st8_ne m a t i x :
  page_aligned t → index i → a / PAGE ≠ t / PAGE → ent (st8 m a x) t i = ent m t i.
Proof.
  unfold page_aligned, index, PAGE. intros Ht Hi Hne. unfold ent, st8, st64, ld64.
  rewrite lookup_insert_ne; [done|]. div_lia.
Qed.

(** A live allocation is in the heap's frames. *)
Lemma live_clear {St} `{!FrameOps St, !FrameLaws St} (h : heap St) AL p m K a :
  heap_rep h AL → live h AL p m → heap_clear h K → p <= a < p + m → a / PAGE ∉ K.
Proof.
  intros Hh (L & HL & Hin & blk & Hblk & _ & <-) HK Ha Hin'.
  destruct (arena_links_lookup _ _ _ _ (hr_links _ _ Hh) HL) as (ar & Har & Hc).
  destruct (chain_payload_end _ _ _ _ (chain_of _ _ _ Hh HL) _ _ Hin Hblk) as [_ Hend].
  pose proof (chain_bounds _ _ _ _ (chain_of _ _ _ Hh HL) _ Hin) as [Hlo _].
  destruct (owned_range _ _ _ Hh HL) as (_ & _ & [k Hk]).
  apply (HK _ _ Har (a / PAGE) Hin'), elem_of_frame_range.
  rewrite Hc. unfold al_first, al_end, sizeof_arena, sizeof_block in *. rewrite Hk in *. unfold PAGE in *. div_lia.
Qed.

(** ** Steps *)

Section steps.
Context `{FMT : !PtFormat, LAWS : !PtLaws} {St : Type} `{OPS : !FrameOps St, FL : !FrameLaws St}.
Context (n : nat).
Implicit Types (s : vmm St) (x y : as_ptr) (F : gset Z) (f t r v w : Z).

Definition with_mem s (m : memory) : vmm St := mk_vmm m (v_heap s) (v_spaces s) (v_kernel s) (v_active s).
Definition with_pool s (p : St) : vmm St := with_pm s (mk_pm (v_mem s) p).

(** The frames [F] are in use and hold no page table. *)
Definition data_frames s F : Prop :=
  ∀ f, f ∈ F → f ∈ fa_managed (frames (v_heap s)) ∧ (f ∉ fa_free (frames (v_heap s))) ∧ f ≠ 0 ∧
    ∀ x r, as_root s x = Some r → f * PAGE ∉ tables n (v_mem s) r.

(** Only the pages [F] differ. *)
Definition same_but F (m m' : memory) : Prop :=
  ∀ t i, page_aligned t → t / PAGE ∉ F → index i → ent m' t i = ent m t i.

Lemma same_but_refl F m : same_but F m m.
Proof. by intros t i. Qed.

Lemma same_but_trans F m1 m2 m3 : same_but F m1 m2 → same_but F m2 m3 → same_but F m1 m3.
Proof. intros H1 H2 t i Ha Hf Hi. by rewrite H2, H1. Qed.

Lemma same_but_mono F F' m m' : same_but F m m' → F ⊆ F' → same_but F' m m'.
Proof. intros H Hsub t i Ha Hf Hi. apply H; [done| |done]. intros Hin. by apply Hf, Hsub. Qed.

Lemma same_but_st8 m a b f : a / PAGE = f → same_but {[f]} m (st8 m a b).
Proof.
  intros <- t i Ha Hf Hi. apply ent_st8_ne; [done|done|]. intros E. apply Hf. rewrite E. by apply elem_of_singleton.
Qed.

Lemma same_but_ld8 F m m' f j :
  same_but F m m' → f ∉ F → 0 <= j < PAGE → ld8 m' (f * PAGE + j) = ld8 m (f * PAGE + j).
Proof.
  intros H Hf Hj. destruct (frame_aligned f) as [Ha Hd]. rewrite !ld8_ent by done.
  rewrite H; [done|done|by rewrite Hd|]. unfold index, PAGE in *. div_lia.
Qed.

Lemma data_tables s AL F x r t :
  spaces_rep n s AL → data_frames s F → as_root s x = Some r → t ∈ tables n (v_mem s) r →
  page_aligned t ∧ t / PAGE ∉ F.
Proof.
  intros Hs HF Hr Ht. pose proof (sp_tree _ _ _ Hs x r Hr) as (_ & _ & Ho). destruct (Ho t Ht) as (Ha & _).
  split; [done|]. intros Hin. destruct (HF _ Hin) as (_ & _ & _ & Hno). apply (Hno x r Hr).
  by rewrite <- (aligned_frame t Ha).
Qed.

Lemma data_same s AL F m' x r :
  spaces_rep n s AL → data_frames s F → same_but F (v_mem s) m' → as_root s x = Some r →
  same (tables n (v_mem s) r) (v_mem s) m'.
Proof.
  intros Hs HF Hm Hr t i Ht Hi. destruct (data_tables s AL F x r t Hs HF Hr Ht). by apply Hm.
Qed.

(** Writing into data frames. *)
Lemma write_step s AL F m' :
  spaces_rep n s AL → data_frames s F → same_but F (v_mem s) m' →
  spaces_rep n (with_mem s m') AL ∧ data_frames (with_mem s m') F ∧
  (∀ x r ix, as_root s x = Some r → indices n ix → walk n m' r ix = walk n (v_mem s) r ix ∧
     path_open n m' r ix = path_open n (v_mem s) r ix).
Proof.
  intros Hs HF Hm.
  assert (∀ x r, as_root s x = Some r → same (tables n (v_mem s) r) (v_mem s) m') as Hsame
    by (intros x r; by apply (data_same s AL F)).
  assert (∀ x, as_root (with_mem s m') x = as_root s x) as Hroot by (by intros []).
  split_and!.
  - destruct Hs as [H1 H2 H3 H4 H5 H6 H7]. split; try done.
    + intros x r. rewrite Hroot. intros Hx. destruct (H3 x r Hx) as (Ha & Hnd & Ho). split; [done|].
      cbn. by rewrite (same_tables _ _ _ _ (Hsame x r Hx)).
    + intros x y r r'. rewrite !Hroot. intros Hx Hy. cbn.
      rewrite (same_tables _ _ _ _ (Hsame x r Hx)), (same_tables _ _ _ _ (Hsame y r' Hy)). by apply H4.
    + intros x r. rewrite Hroot. intros Hx. cbn. rewrite (same_tables _ _ _ _ (Hsame x r Hx)). by apply (H6 x).
  - intros f Hf. destruct (HF f Hf) as (?&?&?&Hno). split_and!; try done. intros x r. rewrite Hroot. intros Hx.
    cbn. rewrite (same_tables _ _ _ _ (Hsame x r Hx)). by apply (Hno x r).
  - intros x r ix Hx Hix. split; [apply same_walk|apply same_path_open]; eauto.
Qed.

(** Taking a frame. *)
Lemma alloc_step s AL F :
  spaces_rep n s AL → data_frames s F → (1 <= size (fa_free (frames (v_heap s))))%nat →
  ∃ f p, alloc_frame (frames (v_heap s)) = (f * PAGE, p) ∧ (f ∉ F) ∧ 0 <= f < e_frames ∧
    f ∈ fa_free (frames (v_heap s)) ∧
    spaces_rep n (with_pool s p) AL ∧ data_frames (with_pool s p) ({[f]} ∪ F) ∧
    fa_managed p = fa_managed (frames (v_heap s)) ∧ fa_free p = fa_free (frames (v_heap s)) ∖ {[f]}.
Proof.
  intros Hs HF Hsz. pose proof (sp_pool _ _ _ Hs) as [Hw Hb].
  destruct (alloc_frame_law _ Hw) as [[E _]|(f & p & Hf & E & Hw' & Hm & Hfr)].
  { rewrite E, size_empty in Hsz. lia. }
  assert (f ∈ fa_managed (frames (v_heap s))) as Hfm by (by apply fa_free_managed).
  assert (fa_free p ⊆ fa_free (frames (v_heap s))) as Hsub by (rewrite Hfr; by apply subseteq_difference_l).
  assert (∀ x, as_root (with_pool s p) x = as_root s x) as Hroot by (by intros []).
  exists f, p. split_and!; [done| | | |done| | |done|done].
  - intros Hin. by destruct (HF f Hin) as (_ & ? & _).
  - by apply (fa_bounds _ _ Hw).
  - by apply Hb.
  - split.
    + apply heap_set_frames with (F := ∅); [apply (sp_heap _ _ _ Hs)|done|done| |].
      * intros b a _. apply disjoint_empty_l.
      * intros g Hg. apply elem_of_union_l. by apply Hsub.
    + split; [done|]. intros g. cbn. rewrite Hm. apply Hb.
    + intros x r. rewrite Hroot. intros Hx. apply (tree_pool n (v_pm s)); [by apply (sp_tree _ _ _ Hs x)|done|exact Hm|exact Hsub].
    + intros x y r r'. rewrite !Hroot. apply (sp_disjoint _ _ _ Hs x y).
    + cbn. by apply (heap_clear_mono _ _ _ (sp_free _ _ _ Hs)).
    + intros x r. rewrite Hroot. apply (sp_clear _ _ _ Hs).
    + apply (sp_live _ _ _ Hs).
  - intros g [->%elem_of_singleton|Hg]%elem_of_union; cbn; rewrite Hm, Hfr.
    + split_and!; [done|by intros [_ []%not_elem_of_singleton]%elem_of_difference| |].
      * intros ->. by apply (fa_zero _ Hw).
      * intros x r. change (as_root (with_pm s _) x) with (as_root (with_pool s p) x). rewrite Hroot. intros Hx Ht.
        destruct (sp_tree _ _ _ Hs x r Hx) as (_ & _ & Ho). destruct (Ho _ Ht) as (_ & _ & Hn & _).
        apply Hn. by rewrite (proj2 (frame_aligned f)).
    + destruct (HF g Hg) as (? & Hn & ? & Hno). split_and!; [done|by intros [? _]%elem_of_difference|done|].
      intros x r. change (as_root (with_pm s _) x) with (as_root (with_pool s p) x). rewrite Hroot. apply Hno.
Qed.

(** Mapping a page: the data frames keep their contents. *)
Record page_mapped x r v (leaf : option Z) F s s' : Prop := {
  pm_roots y : as_root s' y = as_root s y;
  pm_data : data_frames s' F;
  pm_bytes f j : f ∈ F → 0 <= j < PAGE → ld8 (v_mem s') (f * PAGE + j) = ld8 (v_mem s) (f * PAGE + j);
  pm_translate y w : 0 <= w < span n →
    as_translate n y w s' =
    if decide (y = x ∧ w / PAGE = v / PAGE)
    then (λ old, leaf_phys leaf old w) <$> as_translate n y w s else as_translate n y w s;
  pm_open ix : indices n ix → path_open n (v_mem s') r ix = path_open n (v_mem s) r ix;
  pm_managed : fa_managed (frames (v_heap s')) = fa_managed (frames (v_heap s));
  pm_size : (size (fa_free (frames (v_heap s))) <= n + size (fa_free (frames (v_heap s'))))%nat;
  pm_free : fa_free (frames (v_heap s')) ⊆ fa_free (frames (v_heap s));
  pm_heap : v_heap s' = set_frames (v_heap s) (frames (v_heap s'))
}.

Lemma page_map_step s AL F x r v fl leaf :
  spaces_rep n s AL → data_frames s F → as_root s x = Some r → 0 <= v < span n →
  path_open n (v_mem s) r (va_index v) = true → (n <= size (fa_free (frames (v_heap s))))%nat →
  ∃ s', as_map n x v fl leaf s = Some s' ∧ spaces_rep n s' AL ∧ page_mapped x r v leaf F s s'.
Proof.
  intros Hs HF Hx Hv Hopen Hsz.
  destruct (pt_map_spec n fl r (va_index v) leaf (v_pm s)) as [new Hmd];
    [apply (sp_pool _ _ _ Hs)|by apply (sp_tree _ _ _ Hs x)|apply va_index_range|done|done|].
  pose proof (md_grows _ _ _ _ _ _ _ Hmd) as Hg. unfold as_map. rewrite Hx. eexists. split; [done|].
  split; [by eapply mapped_rep|].
  assert (∀ f, f ∈ F → f * PAGE ∉ new ++ tables n (v_mem s) r) as Hnot.
  { intros f Hf [Hn|Hn]%elem_of_app; destruct (HF f Hf) as (_ & Hfree & _ & Hno); [|by apply (Hno x r)].
    apply Hfree. destruct (gr_new _ _ _ _ Hg _ Hn) as [_ Hin]. by rewrite (proj2 (frame_aligned f)) in Hin. }
  split.
  - intros y. apply as_root_with_pm.
  - intros f Hf. destruct (HF f Hf) as (Hm & Hfree & H0 & Hno). cbn. rewrite (gr_managed _ _ _ _ Hg).
    split_and!; [done| |done|].
    + rewrite (gr_free _ _ _ _ Hg). by intros [? _]%elem_of_difference.
    + intros y ry. rewrite as_root_with_pm. intros Hy. destruct (decide (x = y)) as [<-|Hne].
      * rewrite Hx in Hy. injection Hy as <-. cbn. rewrite (md_tables _ _ _ _ _ _ _ Hmd). by apply Hnot.
      * cbn. rewrite (same_tables _ _ _ _ (other_space n s AL x y r ry new _ Hs Hx Hy Hne Hg)). by apply (Hno y ry).
  - intros f j Hf Hj. destruct (frame_aligned f) as [Ha _]. cbn. rewrite !ld8_ent by done.
    rewrite (gr_outside _ _ _ _ Hg); [done|done|by apply Hnot|]. unfold index, PAGE in *. div_lia.
  - intros y w Hw. by apply (mapped_translate n s AL x r v leaf new).
  - intros ix Hix. by apply (md_open _ _ _ _ _ _ _ Hmd).
  - apply (gr_managed _ _ _ _ Hg).
  - pose proof (grows_size _ _ _ _ Hg) as Hgs. pose proof (md_count _ _ _ _ _ _ _ Hmd). cbn in Hgs |- *. lia.
  - cbn. rewrite (gr_free _ _ _ _ Hg). by apply subseteq_difference_l.
  - done.
Qed.

(** The heap under the spaces changes: an allocation, or the release of a block that is
    not an address_space_t. *)
Lemma heap_step s AL h AL' :
  spaces_rep n s AL → heap_rep h AL' → frames_taken (v_heap s) h →
  fa_managed (frames h) = fa_managed (frames (v_heap s)) →
  (∀ p r, v_spaces s !! p = Some r → ∃ m, live h AL' p m) →
  spaces_rep n (mk_vmm (v_mem s) h (v_spaces s) (v_kernel s) (v_active s)) AL'.
Proof.
  intros Hs Hh [Hsub Hclear] Hm Hlive. set (s' := mk_vmm _ _ _ _ _).
  assert (∀ x, as_root s' x = as_root s x) as Hroot by (by intros []).
  split; [done| | | | | |done].
  - split; [apply (hr_frames _ _ Hh)|]. intros f. cbn. rewrite Hm. apply (sp_pool _ _ _ Hs).
  - intros x r. rewrite Hroot. intros Hx. apply (tree_pool n (v_pm s)); [by apply (sp_tree _ _ _ Hs x)|done|exact Hm|exact Hsub].
  - intros x y r r'. rewrite !Hroot. apply (sp_disjoint _ _ _ Hs x y).
  - apply Hclear; [|intros f Hf [_ ?]%elem_of_difference; done].
    by apply (heap_clear_mono _ _ _ (sp_free _ _ _ Hs)).
  - intros x r. rewrite Hroot. intros Hx. apply Hclear; [by apply (sp_clear _ _ _ Hs x)|].
    intros f Hf [Hf' _]%elem_of_difference. destruct (sp_tree _ _ _ Hs x r Hx) as (_ & _ & Ho).
    exact (owned_disjoint_free _ _ Ho f Hf Hf').
Qed.
(** The CPU changes to another space. *)
Lemma switch_step s AL r :
  spaces_rep n s AL → spaces_rep n (mk_vmm (v_mem s) (v_heap s) (v_spaces s) (v_kernel s) r) AL.
Proof.
  intros Hs. apply (heap_step _ _ (v_heap s) AL) in Hs as [H1 H2 H3 H4 H5 H6 H7].
  - by split.
  - apply (sp_heap _ _ _ Hs).
  - by apply frames_taken_same.
  - done.
  - apply (sp_live _ _ _ Hs).
Qed.

(** A new space has the kernel's translations, and can be mapped into where the kernel's
    could. *)
Lemma create_step s AL :
  spaces_rep n s AL → ready n Create s →
  ∃ s' AL' a c, as_create n s = Some (user_space a, s') ∧ spaces_rep n s' AL' ∧
    as_root s' (user_space a) = Some c ∧ v_spaces s !! a = None ∧
    (∀ y w, as_translate n y w s' =
      if decide (y = user_space a) then as_translate n kernel_space w s else as_translate n y w s) ∧
    (∀ ix, indices n ix → path_open n (v_mem s) (v_kernel s) ix = true → path_open n (v_mem s') c ix = true) ∧
    (∀ F, heap_clear (v_heap s) F → F ## fa_free (frames (v_heap s)) → heap_clear (v_heap s') F) ∧
    fa_free (frames (v_heap s')) ⊆ fa_free (frames (v_heap s)) ∧
    fa_managed (frames (v_heap s')) = fa_managed (frames (v_heap s)).
Proof.
  intros Hs (Hsz & a & h & Hk & Ha).
  destruct (create_rep n s AL a h Hs Hsz Hk Ha) as (s' & AL' & c & E & Hs' & Hcl & Hh & Hsub & Hman & _ & Hnone & Hclear & Hroot).
  pose proof (cl_grows _ _ _ _ _ Hcl) as Hg.
  exists s', AL', a, c. split_and!; [done|done|by rewrite Hroot, decide_True|done| |apply (cl_open _ _ _ _ _ Hcl)|done| |by rewrite Hh].
  - intros y w. unfold as_translate. rewrite Hroot. case_decide; cbn.
    + do 2 f_equal. apply (cl_walk _ _ _ _ _ Hcl), va_index_range.
    + destruct (as_root s y) as [r|] eqn:Er; [|done]. cbn. do 2 f_equal. apply same_walk; [|apply va_index_range].
      apply (grows_tree n [] _ (v_pm s) _ r (sp_pool _ _ _ Hs) Hg (sp_tree _ _ _ Hs y r Er)).
      intros u _. apply not_elem_of_nil.
  - rewrite Hh. etrans; [exact Hsub|]. pose proof (gr_free _ _ _ _ Hg) as Hq. cbn in Hq. rewrite Hq.
    by apply subseteq_difference_l.
Qed.

(** Giving a frame back that no space and no arena uses. *)
Lemma free_step s AL f :
  spaces_rep n s AL → data_frames s {[f]} → heap_clear (v_heap s) {[f]} →
  let s' := with_pool s (free_frame (f * PAGE) (frames (v_heap s))) in
  spaces_rep n s' AL ∧ fa_free (frames (v_heap s')) = {[f]} ∪ fa_free (frames (v_heap s)) ∧
  fa_managed (frames (v_heap s')) = fa_managed (frames (v_heap s)) ∧
  ∀ y w, as_translate n y w s' = as_translate n y w s.
Proof.
  intros Hs HF Hc s'. destruct (HF f) as (Hm & Hnf & H0 & Hno); [by apply elem_of_singleton|].
  destruct (free_frame_law _ f (proj1 (sp_pool _ _ _ Hs)) Hm H0) as (Hw & Hman & Hfree).
  assert (∀ x, as_root s' x = as_root s x) as Hroot by (by intros []).
  split; [|split; [exact Hfree|split; [exact Hman|intros y w; unfold as_translate; by rewrite Hroot]]]. split.
  - apply heap_set_frames with (F := {[f]}); [apply (sp_heap _ _ _ Hs)|done|done|done|].
    change (fa_free (free_frame (f * PAGE) (frames (v_heap s))) ⊆ fa_free (frames (v_heap s)) ∪ {[f]}).
    by rewrite Hfree, (comm_L (∪)).
  - split; [done|]. intros g. cbn. rewrite Hman. apply (sp_pool _ _ _ Hs).
  - intros x r. rewrite Hroot. intros Hx. destruct (sp_tree _ _ _ Hs x r Hx) as (Ha & Hnd & Ho). split; [done|split; [done|]].
    intros t Ht. destruct (Ho t Ht) as (Hta & Htm & Htf & Ht0). cbn. rewrite Hman, Hfree. split_and!; [done|done| |done].
    intros [E%elem_of_singleton|?]%elem_of_union; [|done]. apply (Hno x r Hx). by rewrite <- E, <- (aligned_frame t Hta).
  - intros x y r r'. rewrite !Hroot. apply (sp_disjoint _ _ _ Hs x y).
  - cbn. rewrite Hfree. intros b a Hb. apply disjoint_union_l. split; [by apply (Hc b)|by apply (sp_free _ _ _ Hs b)].
  - intros x r. rewrite Hroot. apply (sp_clear _ _ _ Hs).
  - apply (sp_live _ _ _ Hs).
Qed.

Lemma destroy_arenas x s s' : as_destroy n x s = Some s' → arenas (v_heap s') = arenas (v_heap s).
Proof.
  destruct x as [|p]; cbn [as_destroy]; [by intros [= <-]|]. destruct (v_spaces s !! p) as [r|]; [|done].
  cbn [mbind option_bind]. destruct (kfree p _) as [h|] eqn:E; [|done]. intros [= <-]. cbn.
  by rewrite (proj1 (kfree_frames _ _ _ E)).
Qed.

End steps.

(** ** The interface

    What the two vmm.c files offer to the rest of the kernel, and what the rest relies on:
    the operations are those of AddressSpace.v over a page-table format of [n + 1] levels,
    and a page mapped as present translates to its frame. *)

Class Vm (St : Type) := {
  vm_create : vmm St → option (as_ptr * vmm St);
  vm_destroy : as_ptr → vmm St → option (vmm St);
  vm_map : as_ptr → Z → Z → Z → vmm St → option (vmm St);
  vm_translate : as_ptr → Z → vmm St → option Z;
  vm_switch : as_ptr → vmm St → option (vmm St)
}.

Class VmLaws (St : Type) `{!PtFormat, !FrameOps St, !Vm St} (n : nat) := {
  vm_leaf : Z → Z → option Z;
  vm_create_law s : vm_create s = as_create n s;
  vm_destroy_law x s : vm_destroy x s = as_destroy n x s;
  vm_map_law x v ph fl s : vm_map x v ph fl s = as_map n x v fl (vm_leaf ph fl) s;
  vm_translate_law x w s : vm_translate x w s = as_translate n x w s;
  vm_switch_law x s :
    vm_switch x s = (λ r, mk_vmm (v_mem s) (v_heap s) (v_spaces s) (v_kernel s) r) <$> as_root s x;
  vm_leaf_law f fl old w :
    0 <= f < e_frames → Z.testbit fl 0 = true →
    leaf_phys (vm_leaf (f * PAGE) fl) old w = f * PAGE + w mod PAGE
}.
