(* ===== verification/Process.v ===== *)
(** * Processes: the two process.c and syscall.c files

    The ELF64 loader, the launch of a process through arch_context_switch, and the exit
    system call that abandons the process and resumes process_run.  The two architectures
    have the same text but for constants and the two stack layouts, so the code is a
    section over these, and Modules X86 and A64 instantiate it.

    A process's pages are in physical memory and page tables ([vmm]); kernel stacks are in
    the stack memory of Switch.v.  process_run is cut where the context switch leaves it:
    [process_start] up to the switch, [process_finish] from there. *)

From S2P Require Import Prelude.
From S2P Require Import FrameAlloc.
From S2P Require Import Heap.
From S2P Require Import Switch.
From S2P Require Import PageTable.
From S2P Require Import AddressSpace.
From S2P Require Import UserPages.

(** ** Images *)

(** A little-endian field of [k] bytes; [None] outside the image. *)
Fixpoint field (img : list Z) (off : Z) (k : nat) : option Z :=
  match k with
  | O => Some 0
  | S k => if off <? 0 then None else
           b ← img !! Z.to_nat off; hi ← field img (off + 1) k; Some (b + 2 ^ 8 * hi)
  end.

(** The fields of the headers that the code reads. *)
Record elf64_ehdr := mk_ehdr { e_entry : Z; e_phoff : Z; e_phnum : Z }.
Record elf64_phdr := mk_phdr {
  p_type : Z;
  p_flags : Z;
  p_offset : Z;
  p_vaddr : Z;
  p_filesz : Z;
  p_memsz : Z
}.
Definition sizeof_ehdr : Z := 64.
Definition sizeof_phdr : Z := 56.

Definition read_ehdr (img : list Z) : option elf64_ehdr :=
  entry ← field img 24 8; phoff ← field img 32 8; phnum ← field img 56 2;
  Some (mk_ehdr entry phoff phnum).

(** [ph[i]], from the table at [phoff]. *)
Definition read_phdr (img : list Z) (phoff i : Z) : option elf64_phdr :=
  let a := phoff + sizeof_phdr * i in
  ty ← field img a 4; fl ← field img (a + 4) 4; off ← field img (a + 8) 8;
  va ← field img (a + 16) 8; fsz ← field img (a + 32) 8; msz ← field img (a + 40) 8;
  Some (mk_phdr ty fl off va fsz msz).

Definition PT_LOAD : Z := 1.
Definition ELFCLASS64 : Z := 2.
Definition PF_W : Z := 2.
Definition USER_STACK_PAGES : Z := 4.
Definition PAGE_SIZE : Z := 0x1000.
Definition LAUNCH_STACK_SIZE : Z := 16 * 1024.

(** The flags of vmm.h, the same values on both architectures. *)
Definition VMM_PRESENT : Z := 1 ≪ 0.
Definition VMM_WRITABLE : Z := 1 ≪ 1.
Definition VMM_USER : Z := 1 ≪ 2.

(** ** The loader *)

Section loader.
Context {St : Type} `{!FrameOps St, !Vm St}.
Variables (machine USER_STACK_TOP : Z).

Definition elf_valid (img : list Z) (size : Z) : option bool :=
  if size <? sizeof_ehdr then Some false else
  i0 ← field img 0 1; i1 ← field img 1 1; i2 ← field img 2 1; i3 ← field img 3 1;
  if negb (i0 =? 0x7F) || negb (i1 =? 69) || negb (i2 =? 76) || negb (i3 =? 70) then Some false else
  i4 ← field img 4 1;
  if negb (i4 =? ELFCLASS64) then Some false else
  m ← field img 18 2;
  if negb (m =? machine) then Some false else Some true.

Definition pmm_alloc_frame (s : vmm St) : Z * vmm St :=
  let '(frame, p) := alloc_frame (frames (v_heap s)) in (frame, with_pool s p).

(** [for (b = 0; b < 4096; b++) p[b] = 0]. *)
Definition clear_frame (frame : Z) (m : PageTable.memory) : PageTable.memory :=
  for_up 0 4096 (λ b m, st8 m (frame + b) 0) m.

Definition map_page (x : as_ptr) (seg_flags va : Z) (s : vmm St) : option (vmm St) :=
  let '(frame, s) := pmm_alloc_frame s in
  vm_map x va frame seg_flags (with_mem s (clear_frame frame (v_mem s))).

Definition copy_byte (x : as_ptr) (img : list Z) (ph : elf64_phdr) (off : Z) (s : vmm St) : option (vmm St) :=
  pa ← vm_translate x (u64 (p_vaddr ph + off)) s;
  b ← img !! Z.to_nat (u64 (p_offset ph + off));
  Some (with_mem s (st8 (v_mem s) pa b)).

Definition vstart (ph : elf64_phdr) : Z := ALIGN_DOWN (p_vaddr ph) PAGE_SIZE.
Definition vend (ph : elf64_phdr) : Z := ALIGN_UP 64 (u64 (p_vaddr ph + p_memsz ph)) PAGE_SIZE.

(** Both ends are page aligned, so the loop over the addresses in steps of a page runs
    over the pages between them. *)
Definition load_segment (x : as_ptr) (img : list Z) (ph : elf64_phdr) (s : vmm St) : option (vmm St) :=
  if negb (p_type ph =? PT_LOAD) then Some s else
  let seg_flags := VMM_PRESENT .| VMM_USER in
  let seg_flags := if truth (p_flags ph .& PF_W) then seg_flags .| VMM_WRITABLE else seg_flags in
  s ← for_m 0 ((vend ph - vstart ph) / PAGE_SIZE) (λ i, map_page x seg_flags (vstart ph + i * PAGE_SIZE)) s;
  for_m 0 (p_filesz ph) (copy_byte x img ph) s.

Definition map_stack_page (x : as_ptr) (i : Z) (s : vmm St) : option (vmm St) :=
  let '(frame, s) := pmm_alloc_frame s in
  vm_map x (USER_STACK_TOP - (i + 1) * PAGE_SIZE) frame (VMM_PRESENT .| VMM_WRITABLE .| VMM_USER) s.

Definition load_image (x : as_ptr) (img : list Z) (eh : elf64_ehdr) (s : vmm St) : option (vmm St) :=
  s ← for_m 0 (e_phnum eh) (λ i s, ph ← read_phdr img (e_phoff eh) i; load_segment x img ph s) s;
  for_m 0 USER_STACK_PAGES (map_stack_page x) s.
End loader.

(** ** Launch and exit *)

(** What process_run works on: the virtual memory, the CPU, the kernel stacks, the two
    static variables, and whether interrupts are enabled. *)
Record proc (St R : Type) := mk_proc {
  p_vm : vmm St;
  p_cpu : context R;
  p_stacks : Switch.memory;
  kernel_return_sp : Z;
  process_exit_code : Z;
  interrupts_on : bool
}.
Arguments mk_proc {St R}. Arguments p_vm {St R}. Arguments p_cpu {St R}. Arguments p_stacks {St R}.
Arguments kernel_return_sp {St R}. Arguments process_exit_code {St R}. Arguments interrupts_on {St R}.

(** What differs between the architectures: the ELF machine number, where the stack is,
    the words of launch_params_t, and the stack process_trampoline starts from. *)
Class LaunchOps (R : Type) := {
  e_machine : Z;
  user_stack_top : Z;
  launch_params : Z → list Z;
  build_launch_stack : Z → Z → Switch.memory → Z * Switch.memory
}.

(** Words stored upwards from [a]. *)
Fixpoint store_words (a : Z) (vs : list Z) (m : Switch.memory) : Switch.memory :=
  match vs with
  | [] => m
  | v :: vs => store_words (a + 8) vs (m⟦a := v⟧)
  end.

Section launch.
Context {St : Type} `{!FrameOps St, !Vm St} {R : Type} `{!SwitchOps R, !LaunchOps R}.

(** process_run as far as the process: [None] in the result when it returned -1 instead,
    otherwise its local variables [as] and [launch_stack_base].  [params] is the address
    of the launch_params_t on its stack. *)
Definition process_start (img : list Z) (size params : Z) (p : proc St R) :
    option (option (as_ptr * Z) * proc St R) :=
  ok ← elf_valid e_machine img size;
  if negb (ok : bool) then Some (None, p) else
  '(x, s) ← vm_create (p_vm p);
  eh ← read_ehdr img;
  s ← load_image user_stack_top x img eh s;
  let m := store_words params (launch_params (e_entry eh)) (p_stacks p) in
  '(base, h) ← kmalloc LAUNCH_STACK_SIZE (v_heap s);
  let s := mk_vmm (v_mem s) h (v_spaces s) (v_kernel s) (v_active s) in
  let '(launch_sp, m) := build_launch_stack (base + LAUNCH_STACK_SIZE) params m in
  s ← vm_switch x s;
  let '(old_sp, c, m) := arch_context_switch (p_cpu p) launch_sp m in
  Some (Some (x, base), mk_proc s c m old_sp (process_exit_code p) (interrupts_on p)).

(** The code after the switch: the return value and the state. *)
Definition process_finish (x : as_ptr) (base : Z) (p : proc St R) : option (Z * proc St R) :=
  s ← vm_switch kernel_space (p_vm p);
  s ← vm_destroy x s;
  h ← kfree base (v_heap s);
  let s := mk_vmm (v_mem s) h (v_spaces s) (v_kernel s) (v_active s) in
  Some (process_exit_code p,
        mk_proc s (p_cpu p) (p_stacks p) (kernel_return_sp p) (process_exit_code p) true).

(** The stack pointer the switch stores goes to a local variable that nobody reads. *)
Definition process_syscall_exit (code : Z) (p : proc St R) : proc St R :=
  let '(unused, c, m) := arch_context_switch (p_cpu p) (kernel_return_sp p) (p_stacks p) in
  mk_proc (p_vm p) c m (kernel_return_sp p) code (interrupts_on p).

(** The two halves, around what the process does until its exit call has switched back. *)
Definition process_run (img : list Z) (size params : Z) (process : proc St R → proc St R) (p : proc St R) :
    option (Z * proc St R) :=
  '(started, p) ← process_start img size params p;
  match started with
  | None => Some (-1, p)
  | Some (x, base) => process_finish x base (process p)
  end.
End launch.

(** ** What the loader builds *)

(** The frame behind each user page and the byte at each user address. *)
Abbreviation page_map := (gmap Z Z).

Definition backing (P : page_map) : gset Z := map_img P.

Lemma elem_of_backing P f : f ∈ backing P ↔ ∃ p, P !! p = Some f.
Proof. apply elem_of_map_img. Qed.

Lemma backing_insert P p f : P !! p = None → backing (<[p := f]> P) = {[f]} ∪ backing P.
Proof.
  intros HP. apply set_eq. intros g. rewrite elem_of_union, elem_of_singleton, !elem_of_backing. split.
  - intros [q [[_ <-]|[_ Hq]]%lookup_insert_Some]; [by left|right; by exists q].
  - intros [->|[q Hq]]; [exists p; apply lookup_insert_eq|exists q].
    rewrite lookup_insert_ne; [done|]. intros <-. by rewrite HP in Hq.
Qed.

Section loading.
Context `{FMT : !PtFormat, LAWS : !PtLaws} {St : Type} `{OPS : !FrameOps St, FL : !FrameLaws St, VM : !Vm St}.
Context (n : nat) `{VML : !VmLaws St n}.
Implicit Types (s : vmm St) (x y : as_ptr) (P : page_map) (U : Z → Z).

Abbreviation pool_of s := (frames (v_heap s)).
Abbreviation free_count s := (size (fa_free (pool_of s))).

(** Space [x], with root [r], maps the pages of [P] to frames of their own, whose bytes are
    [U]; everything else is as in [s0]. *)
Record user_inv s0 AL x r s P U : Prop := {
  ui_rep : spaces_rep n s AL;
  ui_roots y : as_root s y = as_root s0 y;
  ui_data : data_frames n s (backing P);
  ui_inj p q f : P !! p = Some f → P !! q = Some f → p = q;
  ui_frame p f : P !! p = Some f → 0 <= f < e_frames;
  ui_translate y w : 0 <= w < span n →
    as_translate n y w s =
    match (if decide (y = x) then P !! (w / PAGE) else None) with
    | Some f => Some (f * PAGE + w mod PAGE)
    | None => as_translate n y w s0
    end;
  ui_bytes p f j : P !! p = Some f → 0 <= j < PAGE → ld8 (v_mem s) (f * PAGE + j) = U (p * PAGE + j);
  ui_open ix : indices n ix → path_open n (v_mem s) r ix = path_open n (v_mem s0) r ix;
  ui_heap : v_heap s = set_frames (v_heap s0) (pool_of s);
  ui_free : fa_free (pool_of s) ⊆ fa_free (pool_of s0);
  ui_managed : fa_managed (pool_of s) = fa_managed (pool_of s0)
}.

Lemma user_inv_start s0 AL x r :
  spaces_rep n s0 AL → user_inv s0 AL x r s0 ∅ (λ _, 0).
Proof.
  intros Hs. split; [done|done| | | | | |done|by destruct (v_heap s0)|done|done].
  - intros f [i Hi]%elem_of_backing. by rewrite lookup_empty in Hi.
  - intros p q f Hp. by rewrite lookup_empty in Hp.
  - intros p f Hp. by rewrite lookup_empty in Hp.
  - intros y w _. rewrite lookup_empty. by case_decide.
  - intros p f j Hp. by rewrite lookup_empty in Hp.
Qed.

Lemma clear_frame_spec f m :
  same_but {[f]} m (clear_frame (f * PAGE) m) ∧
  ∀ j, 0 <= j < PAGE → ld8 (clear_frame (f * PAGE) m) (f * PAGE + j) = 0.
Proof.
  destruct (frame_aligned f) as [Ha Hd].
  assert (∀ b, 0 <= b < PAGE → (f * PAGE + b) / PAGE = f) as Hdiv by (unfold PAGE; intros; div_lia).
  unfold clear_frame. destruct (for_up_inv (λ i m', 0 <= i <= PAGE ∧ same_but {[f]} m m' ∧
      ∀ j, 0 <= j < i → ld8 m' (f * PAGE + j) = 0) (λ b m, st8 m (f * PAGE + b) 0) 0 4096 m) as (_ & H1 & H2).
  - split_and!; [unfold PAGE; lia..|apply same_but_refl|lia].
  - intros i m' Hi (_ & H1 & H2). split; [unfold PAGE; lia|]. split.
    + apply (same_but_trans _ _ m'); [done|]. apply same_but_st8, Hdiv. unfold PAGE. lia.
    + intros j Hj. rewrite ld8_st8 by lia. case_if; [done|]. bool_to_prop. apply H2. lia.
  - split; [done|]. unfold PAGE in *. exact H2.
Qed.

Lemma page_digits w p : 0 <= p → w / PAGE = p → 0 <= w mod PAGE < PAGE ∧ w = p * PAGE + w mod PAGE.
Proof. unfold PAGE. intros. div_lia. Qed.

(** One more page of the map, on a frame [g] that none has. *)
Lemma inj_insert P p0 g :
  (∀ q, P !! q ≠ Some g) → (∀ p q f, P !! p = Some f → P !! q = Some f → p = q) →
  ∀ p q f, <[p0 := g]> P !! p = Some f → <[p0 := g]> P !! q = Some f → p = q.
Proof.
  intros Hno Hinj p q f [[<- <-]|[_ Hp]]%lookup_insert_Some [[<- Hf]|[_ Hq]]%lookup_insert_Some; [done| | |].
  - by destruct (Hno q).
  - subst f. by destruct (Hno p).
  - exact (Hinj _ _ _ Hp Hq).
Qed.

Lemma bytes_insert P p0 g U m m' :
  (∀ q, P !! q ≠ Some g) → same_but {[g]} m m' →
  (∀ p f j, P !! p = Some f → 0 <= j < PAGE → ld8 m (f * PAGE + j) = U (p * PAGE + j)) →
  ∀ p f j, <[p0 := g]> P !! p = Some f → 0 <= j < PAGE →
    ld8 m' (f * PAGE + j) =
    if (p * PAGE + j) / PAGE =? p0 then ld8 m' (g * PAGE + (p * PAGE + j) mod PAGE) else U (p * PAGE + j).
Proof.
  intros Hno Hm HU p f j Hp Hj.
  assert ((p * PAGE + j) / PAGE = p ∧ (p * PAGE + j) mod PAGE = j) as [-> ->] by (unfold PAGE in *; div_lia).
  apply lookup_insert_Some in Hp as [[<- <-]|[Hne Hp]]; [by rewrite Z.eqb_refl|].
  rewrite (proj2 (Z.eqb_neq p p0)), <- (HU p f j Hp Hj) by congruence.
  apply (same_but_ld8 {[g]}); [done| |done]. intros ->%elem_of_singleton. by apply (Hno p).
Qed.

(** Taking a frame, changing its contents and mapping it. *)
Lemma map_page_step s0 AL x r s P U va fl m' f p :
  user_inv s0 AL x r s P U → as_root s0 x = Some r → 0 <= va < span n → va mod PAGE = 0 →
  P !! (va / PAGE) = None → Z.testbit fl 0 = true →
  path_open n (v_mem s0) r (va_index va) = true → (S n <= free_count s)%nat →
  alloc_frame (pool_of s) = (f, p) → same_but {[f / PAGE]} (v_mem s) m' →
  ∃ s' g, f = g * PAGE ∧ vm_map x va f fl (with_mem (with_pool s p) m') = Some s' ∧
    user_inv s0 AL x r s' (<[va / PAGE := g]> P)
      (λ w, if w / PAGE =? va / PAGE then ld8 m' (f + w mod PAGE) else U w) ∧
    (free_count s <= S n + free_count s')%nat.
Proof.
  intros Hui Hx Hva Hal HP Hfl Hopen Hsz Halloc Hm'.
  destruct (alloc_step n s AL (backing P)) as (g & p' & E & Hg & Hgb & Hgf & Hs1 & HF1 & Hman & Hfree);
    [apply Hui|apply Hui|lia|].
  rewrite Halloc in E. injection E as -> <-. destruct (frame_aligned g) as [_ Hdiv]. rewrite Hdiv in Hm'.
  set (s1 := with_pool s p) in *.
  assert (as_root s1 x = Some r) as Hx1 by (unfold s1, with_pool; by rewrite as_root_with_pm, (ui_roots _ _ _ _ _ _ _ Hui)).
  destruct (write_step n s1 AL ({[g]} ∪ backing P) m' Hs1 HF1) as (Hs2 & HF2 & Hw2).
  { apply (same_but_mono {[g]}); [exact Hm'|apply union_subseteq_l]. }
  set (s2 := with_mem s1 m') in *.
  destruct (page_map_step n s2 AL ({[g]} ∪ backing P) x r va fl (vm_leaf (g * PAGE) fl)) as (s' & E & Hs' & Hpm); [done|done|done|done| | |].
  { cbn [v_mem s2 with_mem]. rewrite (proj2 (Hw2 x r (va_index va) Hx1 (va_index_range va n))).
    cbn. rewrite (ui_open _ _ _ _ _ _ _ Hui) by apply va_index_range. done. }
  { cbn. rewrite Hfree, size_difference, size_singleton by (by apply singleton_subseteq_l). lia. }
  exists s', g. split; [done|]. split; [by rewrite vm_map_law|]. split.
  - pose proof (backing_insert P (va / PAGE) g HP) as Himg.
    assert (∀ q, P !! q ≠ Some g) as Hno by (intros q Hq; by apply Hg, elem_of_backing; exists q).
    split; [done|..].
    + intros y. rewrite (pm_roots _ _ _ _ _ _ _ _ Hpm). cbn. rewrite <- (ui_roots _ _ _ _ _ _ _ Hui). by destruct y.
    + rewrite Himg. apply Hpm.
    + apply inj_insert; [done|apply Hui].
    + intros q f [[<- <-]|[_ Hq]]%lookup_insert_Some; [done|]. exact (ui_frame _ _ _ _ _ _ _ Hui _ _ Hq).
    + intros y w Hw. rewrite (pm_translate _ _ _ _ _ _ _ _ Hpm y w Hw).
      assert (as_translate n y w s2 = as_translate n y w s) as ->.
      { unfold as_translate. assert (as_root s2 y = as_root s y) as -> by (by destruct y).
        destruct (as_root s y) as [ry|] eqn:Ey; [|done]. cbn. do 2 f_equal.
        apply (Hw2 y ry); [by rewrite <- Ey; destruct y|apply va_index_range]. }
      rewrite (ui_translate _ _ _ _ _ _ _ Hui y w Hw).
      destruct (decide (y = x)) as [->|Hne]; [|by rewrite decide_False by (by intros [??])].
      destruct (decide (w / PAGE = va / PAGE)) as [Ew|Ew].
      * rewrite decide_True, Ew, lookup_insert_eq, HP by done.
        unfold as_translate. rewrite Hx. cbn. by rewrite vm_leaf_law.
      * rewrite decide_False, lookup_insert_ne by (congruence || by intros [_ ?]). done.
    + intros q f j Hq Hj.
      assert (f ∈ {[g]} ∪ backing P) as Hin by (rewrite <- Himg; apply elem_of_backing; by exists q).
      rewrite (pm_bytes _ _ _ _ _ _ _ _ Hpm f j Hin Hj).
      exact (bytes_insert P (va / PAGE) g U (v_mem s) m' Hno Hm' (ui_bytes _ _ _ _ _ _ _ Hui) q f j Hq Hj).
    + intros ix Hix. rewrite (pm_open _ _ _ _ _ _ _ _ Hpm ix Hix). cbn [v_mem s2 with_mem].
      rewrite (proj2 (Hw2 x r ix Hx1 Hix)). by apply (ui_open _ _ _ _ _ _ _ Hui).
    + rewrite (pm_heap _ _ _ _ _ _ _ _ Hpm). cbn. by rewrite (ui_heap _ _ _ _ _ _ _ Hui).
    + etrans; [apply (pm_free _ _ _ _ _ _ _ _ Hpm)|]. cbn. rewrite Hfree.
      etrans; [apply subseteq_difference_l|apply (ui_free _ _ _ _ _ _ _ Hui)]. done.
    + rewrite (pm_managed _ _ _ _ _ _ _ _ Hpm). cbn. by rewrite Hman, (ui_managed _ _ _ _ _ _ _ Hui).
  - pose proof (pm_size _ _ _ _ _ _ _ _ Hpm) as H. cbn in H.
    rewrite Hfree, size_difference, size_singleton in H by (by apply singleton_subseteq_l). lia.
Qed.

(** The pages that are mapped, and the bytes there. *)
Definition user_state s0 AL x r s (D : gset Z) U : Prop :=
  ∃ P, user_inv s0 AL x r s P U ∧ dom P = D.

Lemma user_state_ext s0 AL x r s D U U' :
  user_state s0 AL x r s D U → (∀ w, w / PAGE ∈ D → U' w = U w) → user_state s0 AL x r s D U'.
Proof.
  intros (P & Hui & HD) Heq. exists P. split; [|done]. destruct Hui as [H1 H2 H3 H4 H5 H6 H7 H8 H9 H10 H11]. split; try done.
  intros p f j Hp Hj. rewrite (H7 p f j Hp Hj), Heq; [done|].
  assert ((p * PAGE + j) / PAGE = p) as -> by (unfold PAGE in *; div_lia). rewrite <- HD. by apply elem_of_dom_2 in Hp.
Qed.

(** A page whose frame was filled with [c] before it was mapped. *)
Definition set_page (p : Z) (c : Z → Z) (U : Z → Z) : Z → Z := λ w, if w / PAGE =? p then c w else U w.

Lemma map_page_state s0 AL x r s D U fl va :
  user_state s0 AL x r s D U → as_root s0 x = Some r → 0 <= va < span n → va mod PAGE = 0 →
  va / PAGE ∉ D → Z.testbit fl 0 = true →
  path_open n (v_mem s0) r (va_index va) = true → (S n <= free_count s)%nat →
  ∃ s', map_page x fl va s = Some s' ∧
    user_state s0 AL x r s' ({[va / PAGE]} ∪ D) (set_page (va / PAGE) (λ _, 0) U) ∧
    (free_count s <= S n + free_count s')%nat.
Proof.
  intros (P & Hui & HD) Hx Hva Hal HvD Hfl Hopen Hsz.
  assert (P !! (va / PAGE) = None) as HP by (apply not_elem_of_dom; by rewrite HD).
  unfold map_page, pmm_alloc_frame. destruct (alloc_frame (pool_of s)) as [f p] eqn:E.
  assert (∃ g, f = g * PAGE) as [g ->].
  { destruct (alloc_step n s AL (backing P)) as (g & p' & E' & _); [apply Hui|apply Hui|lia|].
    rewrite E in E'. injection E' as -> _. by exists g. }
  destruct (clear_frame_spec g (v_mem s)) as [Hsame Hzero]. destruct (frame_aligned g) as [_ Hdiv].
  destruct (map_page_step s0 AL x r s P U va fl (clear_frame (g * PAGE) (v_mem s)) (g * PAGE) p)
    as (s' & g' & Eg & E' & Hui' & Hcount); [done..|by rewrite Hdiv|].
  exists s'. split; [exact E'|]. split; [|done].
  assert (dom (<[va / PAGE := g']> P) = {[va / PAGE]} ∪ D) as HD' by (by rewrite dom_insert_L, HD).
  rewrite <- HD'. apply (user_state_ext _ _ _ _ _ _ _ _ (ex_intro _ _ (conj Hui' eq_refl))).
  intros w _. unfold set_page. case_if; [|done]. symmetry. apply Hzero, Z.mod_pos_bound. unfold PAGE. lia.
Qed.

Lemma stack_page_state s0 AL x r s D U fl va f p :
  user_state s0 AL x r s D U → as_root s0 x = Some r → 0 <= va < span n → va mod PAGE = 0 →
  va / PAGE ∉ D → Z.testbit fl 0 = true →
  path_open n (v_mem s0) r (va_index va) = true → (S n <= free_count s)%nat →
  alloc_frame (pool_of s) = (f, p) →
  ∃ s' c, vm_map x va f fl (with_pool s p) = Some s' ∧
    user_state s0 AL x r s' ({[va / PAGE]} ∪ D) (set_page (va / PAGE) c U) ∧
    (free_count s <= S n + free_count s')%nat.
Proof.
  intros (P & Hui & HD) Hx Hva Hal HvD Hfl Hopen Hsz E.
  assert (P !! (va / PAGE) = None) as HP by (apply not_elem_of_dom; by rewrite HD).
  destruct (map_page_step s0 AL x r s P U va fl (v_mem s) f p)
    as (s' & g & Eg & E' & Hui' & Hcount); [done..|apply same_but_refl|].
  exists s', (λ w, ld8 (v_mem s) (f + w mod PAGE)). split; [exact E'|]. split; [|done].
  exists (<[va / PAGE := g]> P). split; [done|]. by rewrite dom_insert_L, HD.
Qed.

(** A byte written through the translation. *)
Lemma copy_byte_state s0 AL x r s D U img ph off b :
  user_state s0 AL x r s D U → as_root s0 x = Some r →
  0 <= p_vaddr ph + off < span n → span n <= 2 ^ 64 → (p_vaddr ph + off) / PAGE ∈ D →
  0 <= p_offset ph + off < 2 ^ 64 → img !! Z.to_nat (p_offset ph + off) = Some b → 0 <= b < 256 →
  ∃ s', copy_byte x img ph off s = Some s' ∧ free_count s' = free_count s ∧
    user_state s0 AL x r s' D (λ w, if w =? p_vaddr ph + off then b else U w).
Proof.
  intros (P & Hui & HD) Hx Hva Hspan Hpage Hoff Hb Hbyte. unfold copy_byte.
  rewrite !u64_id by (unfold in_u; lia). set (va := p_vaddr ph + off) in *.
  rewrite vm_translate_law, (ui_translate _ _ _ _ _ _ _ Hui) by done. rewrite decide_True by done.
  rewrite <- HD in Hpage. apply elem_of_dom in Hpage as [f Hf]. rewrite Hf, Hb. cbn [mbind option_bind].
  set (pa := f * PAGE + va mod PAGE).
  assert (pa / PAGE = f) as Hpa by (unfold pa, PAGE; div_lia).
  destruct (write_step n s AL (backing P) (st8 (v_mem s) pa b)) as (Hs' & HF' & Hw'); [apply Hui|apply Hui| |].
  { apply (same_but_mono {[f]}); [by apply same_but_st8|].
    intros g ->%elem_of_singleton. apply elem_of_backing. by exists (va / PAGE). }
  eexists. split; [done|]. split; [done|]. exists P. split; [|done].
  assert (∀ y, as_root (with_mem s (st8 (v_mem s) pa b)) y = as_root s y) as Hroot by (by intros []).
  split; try done.
  - intros y. rewrite Hroot. apply (ui_roots _ _ _ _ _ _ _ Hui).
  - apply (ui_inj _ _ _ _ _ _ _ Hui).
  - apply (ui_frame _ _ _ _ _ _ _ Hui).
  - intros y w Hw. rewrite <- (ui_translate _ _ _ _ _ _ _ Hui y w Hw). unfold as_translate. rewrite Hroot.
    destruct (as_root s y) as [ry|] eqn:Ey; [|done]. cbn. do 2 f_equal. by apply (Hw' y ry), va_index_range.
  - intros q g j Hq Hj. cbn [v_mem with_mem]. rewrite ld8_st8 by done.
    destruct (Z.eqb_spec (g * PAGE + j) pa) as [E|E].
    + assert (g = f) as -> by (rewrite <- Hpa, <- E; unfold PAGE in *; div_lia).
      rewrite (ui_inj _ _ _ _ _ _ _ Hui q (va / PAGE) f Hq Hf) in *.
      assert (j = va mod PAGE) as -> by (unfold pa in E; lia).
      destruct (page_digits va (va / PAGE)) as [_ Ed]; [unfold PAGE in *; div_lia|done|].
      by rewrite <- Ed, Z.eqb_refl.
    + rewrite (ui_bytes _ _ _ _ _ _ _ Hui q g j Hq Hj).
      destruct (Z.eqb_spec (q * PAGE + j) va) as [Ev|]; [|done]. exfalso. apply E. unfold pa. rewrite <- Ev.
      assert ((q * PAGE + j) mod PAGE = j) as -> by (unfold PAGE in *; div_lia). do 2 f_equal.
      assert (va / PAGE = q) as Eq by (rewrite <- Ev; unfold PAGE in *; div_lia).
      rewrite Eq in Hf. rewrite Hq in Hf. by injection Hf.
  - intros ix Hix. cbn [v_mem with_mem].
    assert (as_root s x = Some r) as Hxs by (by rewrite (ui_roots _ _ _ _ _ _ _ Hui)).
    rewrite (proj2 (Hw' x r ix Hxs Hix)). by apply (ui_open _ _ _ _ _ _ _ Hui).
  - apply (ui_heap _ _ _ _ _ _ _ Hui).
  - apply (ui_free _ _ _ _ _ _ _ Hui).
  - apply (ui_managed _ _ _ _ _ _ _ Hui).
Qed.

(** ** Segments *)

Definition pages (ph : elf64_phdr) : gset Z := frame_range (vstart ph / PAGE) (vend ph / PAGE).

(** The byte the file asks for at address [w] of the segment's pages. *)
Definition seg_byte (img : list Z) (ph : elf64_phdr) (w : Z) : Z :=
  if (p_vaddr ph <=? w) && (w <? p_vaddr ph + p_filesz ph) then zget img (p_offset ph + (w - p_vaddr ph)) else 0.

(** A segment that lies in the address space and whose bytes lie in the file. *)
Record seg_ok (img : list Z) (ph : elf64_phdr) : Prop := {
  so_addr : 0 <= p_vaddr ph ∧ p_vaddr ph + p_memsz ph <= span n;
  so_size : 0 <= p_filesz ph <= p_memsz ph;
  so_file : 0 <= p_offset ph ∧ p_offset ph + p_filesz ph <= Z.of_nat (length img) < 2 ^ 64
}.

Context (Hspan : span n < 2 ^ 63).

Lemma span_pages : span n = PAGE * (span n / PAGE).
Proof. unfold span, PAGE. rewrite Z.mul_comm at 2. rewrite Z.div_mul by lia. lia. Qed.

Lemma seg_bounds img ph : seg_ok img ph →
  vstart ph = p_vaddr ph / PAGE * PAGE ∧ vend ph = (p_vaddr ph + p_memsz ph + 4095) / PAGE * PAGE ∧
  0 <= vstart ph ∧ vend ph <= span n ∧ vstart ph <= p_vaddr ph ∧ p_vaddr ph + p_memsz ph <= vend ph.
Proof.
  intros [[H1 H2] H3 _]. pose proof span_pages as Hsp. unfold vstart, vend. change PAGE_SIZE with (2 ^ 12).
  rewrite (u64_id (p_vaddr ph + p_memsz ph)) by (unfold in_u; lia).
  rewrite ALIGN_DOWN_pow2, ALIGN_UP_pow2 by lia. change (2 ^ 12) with PAGE in *. unfold PAGE in *. split_and!; div_lia.
Qed.

Lemma pages_loop s0 AL x r s D U fl lo k :
  user_state s0 AL x r s D U → as_root s0 x = Some r → 0 <= lo → 0 <= k → (lo + k) * PAGE <= span n →
  frame_range lo (lo + k) ## D → Z.testbit fl 0 = true →
  (∀ p, p ∈ frame_range lo (lo + k) → path_open n (v_mem s0) r (va_index (p * PAGE)) = true) →
  Z.of_nat (S n) * k <= Z.of_nat (free_count s) →
  ∃ s', for_m 0 k (λ i, map_page x fl (lo * PAGE + i * PAGE_SIZE)) s = Some s' ∧
    user_state s0 AL x r s' (frame_range lo (lo + k) ∪ D)
      (λ w, if decide (w / PAGE ∈ frame_range lo (lo + k)) then 0 else U w) ∧
    Z.of_nat (free_count s) <= Z.of_nat (S n) * k + Z.of_nat (free_count s').
Proof.
  intros Hus Hx Hlo Hk Hsp Hdisj Hfl Hopen Hsz.
  destruct (for_m_inv (λ i s', 0 <= i <= k ∧ user_state s0 AL x r s' (frame_range lo (lo + i) ∪ D)
      (λ w, if decide (w / PAGE ∈ frame_range lo (lo + i)) then 0 else U w) ∧
      Z.of_nat (free_count s) <= Z.of_nat (S n) * i + Z.of_nat (free_count s'))
    (λ i, map_page x fl (lo * PAGE + i * PAGE_SIZE)) 0 k s Hk) as (s' & E & _ & H1 & H2).
  - split; [lia|]. split; [|lia]. rewrite Z.add_0_r, frame_range_empty, (left_id_L ∅ (∪)) by lia.
    apply (user_state_ext _ _ _ _ _ _ _ _ Hus). intros w _. rewrite decide_False; [done|apply not_elem_of_empty].
  - intros i t Hi (_ & Ht & Hfree). change PAGE_SIZE with PAGE. rewrite <- Z.mul_add_distr_r.
    destruct (frame_aligned (lo + i)) as [Ha Hd].
    assert (lo + i ∈ frame_range lo (lo + k)) as Hin by (apply elem_of_frame_range; lia).
    destruct (map_page_state s0 AL x r t (frame_range lo (lo + i) ∪ D) _ fl ((lo + i) * PAGE) Ht Hx)
      as (t' & E & Ht' & Hfree'); [unfold PAGE in *; nia|done| |done|by apply Hopen|nia|].
    + rewrite Hd. intros [?%elem_of_frame_range|HD]%elem_of_union; [lia|]. exact (Hdisj _ Hin HD).
    + exists t'. split; [exact E|]. split; [lia|]. rewrite Hd, (assoc_L (∪)) in Ht'.
      rewrite Z.add_assoc, frame_range_snoc by lia. split; [|nia].
      apply (user_state_ext _ _ _ _ _ _ _ _ Ht'). intros w _. unfold set_page.
      destruct (Z.eqb_spec (w / PAGE) (lo + i)) as [Ew|Ew].
      * rewrite decide_True; [done|]. apply elem_of_union_l, elem_of_singleton. done.
      * destruct (decide (w / PAGE ∈ frame_range lo (lo + i))) as [Hw|Hw].
        -- rewrite decide_True; [done|by apply elem_of_union_r].
        -- rewrite decide_False; [done|]. by intros [?%elem_of_singleton|?]%elem_of_union.
  - by exists s'.
Qed.

Lemma copy_loop s0 AL x r s D U img ph :
  user_state s0 AL x r s D U → as_root s0 x = Some r → seg_ok img ph → Forall (in_u 8) img →
  pages ph ⊆ D →
  ∃ s', for_m 0 (p_filesz ph) (copy_byte x img ph) s = Some s' ∧ free_count s' = free_count s ∧
    user_state s0 AL x r s' D (λ w,
      if (p_vaddr ph <=? w) && (w <? p_vaddr ph + p_filesz ph) then zget img (p_offset ph + (w - p_vaddr ph)) else U w).
Proof.
  intros Hus Hx Hok Himg Hsub. destruct (seg_bounds img ph Hok) as (Evs & Eve & Hb1 & Hb2 & Hb3 & Hb4).
  destruct Hok as [[Ha1 Ha2] Hsz [Hf1 Hf2]].
  destruct (for_m_inv (λ i s', 0 <= i <= p_filesz ph ∧ free_count s' = free_count s ∧
      user_state s0 AL x r s' D (λ w,
        if (p_vaddr ph <=? w) && (w <? p_vaddr ph + i) then zget img (p_offset ph + (w - p_vaddr ph)) else U w))
    (copy_byte x img ph) 0 (p_filesz ph) s) as (s' & E & _ & H1 & H2); [lia| | |by exists s'].
  - split; [lia|]. split; [done|]. apply (user_state_ext _ _ _ _ _ _ _ _ Hus). intros w _.
    case_if; [|done]. bool_to_prop. lia.
  - intros i t Hi (_ & Hfree & Ht).
    destruct (lookup_lt_is_Some_2 img (Z.to_nat (p_offset ph + i))) as [b Hb]; [lia|].
    assert (in_u 8 b) as Hbr by (by apply (Forall_lookup_1 _ _ _ _ Himg Hb)).
    destruct (copy_byte_state s0 AL x r t D _ img ph i b Ht Hx) as (t' & E & Hfree' & Ht'); [lia|lia| |lia|done|done|].
    { apply Hsub, elem_of_frame_range. rewrite Evs, Eve, !Z.div_mul by (unfold PAGE; lia). unfold PAGE. div_lia. }
    exists t'. split; [done|]. split; [lia|]. split; [congruence|].
    apply (user_state_ext _ _ _ _ _ _ _ _ Ht'). intros w _.
    destruct (Z.eqb_spec w (p_vaddr ph + i)) as [->|Hne].
    + rewrite (proj2 (Z.leb_le _ _)), (proj2 (Z.ltb_lt _ _)) by lia. cbn [andb]. unfold zget.
      replace (p_offset ph + (p_vaddr ph + i - p_vaddr ph)) with (p_offset ph + i) by lia.
      by apply list_lookup_total_correct.
    + destruct (Z.leb_spec (p_vaddr ph) w), (Z.ltb_spec w (p_vaddr ph + (i + 1))), (Z.ltb_spec w (p_vaddr ph + i));
        cbn [andb]; try done; lia.
Qed.

Lemma seg_flags_present (b : bool) :
  Z.testbit (if b then (VMM_PRESENT .| VMM_USER) .| VMM_WRITABLE else VMM_PRESENT .| VMM_USER) 0 = true.
Proof. by destruct b. Qed.

Lemma load_segment_state s0 AL x r s D U img ph :
  user_state s0 AL x r s D U → as_root s0 x = Some r → p_type ph = PT_LOAD → seg_ok img ph →
  Forall (in_u 8) img → pages ph ## D →
  (∀ p, p ∈ pages ph → path_open n (v_mem s0) r (va_index (p * PAGE)) = true) →
  (S n * size (pages ph) <= free_count s)%nat →
  ∃ s', load_segment x img ph s = Some s' ∧
    user_state s0 AL x r s' (pages ph ∪ D) (λ w, if decide (w / PAGE ∈ pages ph) then seg_byte img ph w else U w) ∧
    (free_count s <= S n * size (pages ph) + free_count s')%nat.
Proof.
  intros Hus Hx Hty Hok Himg Hdisj Hopen Hsz. destruct (seg_bounds img ph Hok) as (Evs & Eve & Hb1 & Hb2 & Hb3 & Hb4).
  set (lo := vstart ph / PAGE) in *. set (k := (vend ph - vstart ph) / PAGE_SIZE).
  assert (vstart ph = lo * PAGE ∧ vend ph / PAGE = lo + k ∧ 0 <= lo ∧ 0 <= k ∧ (lo + k) * PAGE = vend ph) as (E1 & E2 & Hlo & Hk & E3).
  { destruct Hok as [? [? ?] _]. unfold lo, k. rewrite Evs, Eve. change PAGE_SIZE with PAGE. unfold PAGE in *. split_and!; div_lia. }
  assert (pages ph = frame_range lo (lo + k)) as Ep by (unfold pages; by rewrite E2).
  assert (Z.of_nat (size (pages ph)) = k) as Esz by (rewrite Ep, size_frame_range; lia).
  unfold load_segment. rewrite Hty. cbn [Z.eqb PT_LOAD Pos.eqb negb].
  set (fl := if truth (p_flags ph .& PF_W) then _ else _).
  assert (Z.testbit fl 0 = true) as Hfl by apply seg_flags_present.
  destruct (pages_loop s0 AL x r s D U fl lo k) as (s1 & F1 & Hs1 & Hfree1); try done; [lia|by rewrite <- Ep|by rewrite <- Ep|nia|].
  rewrite <- E1 in F1. fold k. rewrite F1. cbn [mbind option_bind].
  rewrite <- Ep in Hs1.
  destruct (copy_loop s0 AL x r s1 _ _ img ph Hs1 Hx Hok Himg) as (s2 & F2 & Hfree2 & Hs2); [apply union_subseteq_l|].
  exists s2. split; [done|]. split; [|nia].
  apply (user_state_ext _ _ _ _ _ _ _ _ Hs2). intros w _. unfold seg_byte.
  destruct ((p_vaddr ph <=? w) && (w <? p_vaddr ph + p_filesz ph)) eqn:Ew.
  - bool_to_prop. rewrite decide_True; [done|]. rewrite Ep. apply elem_of_frame_range.
    destruct Hok as [? [? ?] _]. unfold PAGE in *. div_lia.
  - by case_decide.
Qed.

(** ** The image *)

Definition loads (phs : list elf64_phdr) : list elf64_phdr := filter (λ ph, p_type ph = PT_LOAD) phs.
Definition pages_of (phs : list elf64_phdr) : gset Z := ⋃ (pages <$> loads phs).
Definition page_count (phs : list elf64_phdr) : nat := sum_list_with (size ∘ pages) (loads phs).

Lemma elem_of_pages_of phs p : p ∈ pages_of phs ↔ ∃ ph, ph ∈ loads phs ∧ p ∈ pages ph.
Proof.
  unfold pages_of. rewrite elem_of_union_list. split.
  - intros (X & (ph & -> & Hph)%list_elem_of_fmap & Hp). by exists ph.
  - intros (ph & Hph & Hp). exists (pages ph). split; [|done]. apply list_elem_of_fmap. by exists ph.
Qed.

Lemma loads_snoc phs ph :
  loads (phs ++ [ph]) = loads phs ++ (if decide (p_type ph = PT_LOAD) then [ph] else []).
Proof. unfold loads. rewrite filter_app. f_equal. Qed.

Lemma pages_of_snoc phs ph :
  pages_of (phs ++ [ph]) = pages_of phs ∪ (if decide (p_type ph = PT_LOAD) then pages ph else ∅) ∧
  page_count (phs ++ [ph]) = (page_count phs + if decide (p_type ph = PT_LOAD) then size (pages ph) else 0)%nat.
Proof.
  unfold pages_of, page_count. rewrite loads_snoc, fmap_app, union_list_app_L, sum_list_with_app.
  case_decide; cbn; [|by rewrite (right_id_L ∅ (∪))]. rewrite (right_id_L ∅ (∪)). split; [done|lia].
Qed.

(** An image the loader can load: the headers can be read, there is a segment to load, and
    the segments to load lie in the address space and in the file, on pages of their
    own. *)
Record image_ok (img : list Z) (eh : elf64_ehdr) (phs : list elf64_phdr) : Prop := {
  io_bytes : Forall (in_u 8) img;
  io_count : e_phnum eh = Z.of_nat (length phs);
  io_some : loads phs ≠ [];
  io_headers i ph : phs !! i = Some ph → read_phdr img (e_phoff eh) (Z.of_nat i) = Some ph;
  io_segments ph : ph ∈ loads phs → seg_ok img ph;
  io_disjoint i j ph ph' : phs !! i = Some ph → phs !! j = Some ph' → i ≠ j →
    ph ∈ loads phs → ph' ∈ loads phs → pages ph ## pages ph'
}.

(** The bytes of all loaded segments. *)
Definition holds_segments (img : list Z) (phs : list elf64_phdr) (U : Z → Z) : Prop :=
  ∀ ph w, ph ∈ loads phs → w / PAGE ∈ pages ph → U w = seg_byte img ph w.

Lemma take_pages_disjoint img eh phs i ph :
  image_ok img eh phs → phs !! i = Some ph → ph ∈ loads phs → pages ph ## pages_of (take i phs).
Proof.
  intros Hio Hi Hph p Hp (ph' & Hph' & Hp')%elem_of_pages_of.
  unfold loads in Hph'. apply list_elem_of_filter in Hph' as [Hty Hin].
  apply list_elem_of_lookup_1 in Hin as [j Hj]. apply lookup_take_Some in Hj as [Hj Hlt].
  refine (io_disjoint _ _ _ Hio i j ph ph' Hi Hj _ Hph _ p Hp Hp'); [lia|].
  apply list_elem_of_filter. split; [done|]. by eapply list_elem_of_lookup_2.
Qed.

Lemma segments_loop s0 AL x r s img eh phs :
  spaces_rep n s AL → s0 = s → as_root s0 x = Some r → image_ok img eh phs →
  (∀ p, p ∈ pages_of phs → path_open n (v_mem s0) r (va_index (p * PAGE)) = true) →
  (S n * page_count phs <= free_count s)%nat →
  ∃ s' U, for_m 0 (e_phnum eh) (λ i s, ph ← read_phdr img (e_phoff eh) i; load_segment x img ph s) s = Some s' ∧
    user_state s0 AL x r s' (pages_of phs) U ∧ holds_segments img phs U ∧
    (free_count s <= S n * page_count phs + free_count s')%nat.
Proof.
  intros Hs -> Hx Hio Hopen Hsz. rewrite (io_count _ _ _ Hio).
  assert (∀ i, (page_count (take i phs) <= page_count phs)%nat) as Hmono.
  { intros i. rewrite <- (take_drop i phs) at 2. unfold page_count, loads. rewrite filter_app, sum_list_with_app. lia. }
  destruct (for_m_inv (λ i s', 0 <= i <= Z.of_nat (length phs) ∧ ∃ U, user_state s AL x r s' (pages_of (take (Z.to_nat i) phs)) U ∧
      holds_segments img (take (Z.to_nat i) phs) U ∧
      (free_count s <= S n * page_count (take (Z.to_nat i) phs) + free_count s')%nat)
    (λ i s, ph ← read_phdr img (e_phoff eh) i; load_segment x img ph s) 0 (Z.of_nat (length phs)) s)
    as (s' & E & _ & U & H1 & H2 & H3); [lia| | |].
  - split; [lia|]. exists (λ _, 0). cbn [Z.to_nat take]. split; [|split; [|lia]].
    + exists ∅. split; [by apply user_inv_start|]. apply dom_empty_L.
    + intros ph w Hph. by apply not_elem_of_nil in Hph.
  - intros i t Hi (_ & U & Ht & Hseg & Hfree).
    destruct (lookup_lt_is_Some_2 phs (Z.to_nat i)) as [ph Hph]; [lia|].
    replace (Z.to_nat (i + 1)) with (S (Z.to_nat i)) by lia. rewrite (take_S_r _ _ _ Hph).
    pose proof (io_headers _ _ _ Hio _ _ Hph) as Hread. rewrite Z2Nat.id in Hread by lia. rewrite Hread. cbn [mbind option_bind].
    set (before := take (Z.to_nat i) phs) in *. destruct (pages_of_snoc before ph) as [Ep Ec].
    pose proof (Hmono (S (Z.to_nat i))) as Hm. rewrite (take_S_r _ _ _ Hph) in Hm. fold before in Hm.
    rewrite Ep, Ec in *. unfold holds_segments. rewrite loads_snoc.
    destruct (decide (p_type ph = PT_LOAD)) as [Hty|Hty].
    + assert (ph ∈ loads phs) as Hin by (apply list_elem_of_filter; split; [done|by eapply list_elem_of_lookup_2]).
      assert (pages ph ## pages_of before) as Hdisj by (by apply (take_pages_disjoint img eh)).
      destruct (load_segment_state s AL x r t (pages_of before) U img ph) as (t' & E & Ht' & Hfree'); try done.
      * by apply (io_segments _ _ _ Hio).
      * apply (io_bytes _ _ _ Hio).
      * intros p Hp. apply Hopen, elem_of_pages_of. by exists ph.
      * nia.
      * exists t'. split; [done|]. split; [lia|]. rewrite (comm_L (∪)) in Ht'. eexists. split; [exact Ht'|]. split; [|nia].
        intros ph' w [Hph'|Hph']%elem_of_app Hw.
        -- rewrite decide_False; [by apply Hseg|]. intros Hw'. apply (Hdisj _ Hw'), elem_of_pages_of. by exists ph'.
        -- apply list_elem_of_singleton in Hph' as ->. by rewrite decide_True.
    + unfold load_segment. rewrite (proj2 (Z.eqb_neq _ _)) by done. cbn [negb]. exists t. split; [done|]. split; [lia|].
      exists U. rewrite (right_id_L ∅ (∪)), app_nil_r. split; [done|]. split; [done|]. lia.
  - rewrite Nat2Z.id, firstn_all in *. by exists s', U.
Qed.

(** ** The stack *)

Definition stack_pages (top : Z) : gset Z := frame_range (top / PAGE - USER_STACK_PAGES) (top / PAGE).

Lemma stack_loop s0 AL x r s D U top :
  user_state s0 AL x r s D U → as_root s0 x = Some r → top mod PAGE = 0 → 4 * PAGE <= top <= span n →
  stack_pages top ## D →
  (∀ p, p ∈ stack_pages top → path_open n (v_mem s0) r (va_index (p * PAGE)) = true) →
  (S n * 4 <= free_count s)%nat →
  ∃ s' U', for_m 0 USER_STACK_PAGES (map_stack_page top x) s = Some s' ∧
    user_state s0 AL x r s' (stack_pages top ∪ D) U' ∧ (∀ w, w / PAGE ∈ D → U' w = U w).
Proof.
  intros Hus Hx Hal Htop Hdisj Hopen Hsz. unfold stack_pages, USER_STACK_PAGES in *.
  destruct (for_m_inv (λ i s', 0 <= i <= 4 ∧ ∃ U', user_state s0 AL x r s' (frame_range (top / PAGE - i) (top / PAGE) ∪ D) U' ∧
      (∀ w, w / PAGE ∈ D → U' w = U w) ∧
      Z.of_nat (free_count s) <= Z.of_nat (S n) * i + Z.of_nat (free_count s'))
    (map_stack_page top x) 0 4 s) as (s' & E & _ & U' & H1 & H2 & _); [lia| | |by exists s', U'].
  - split; [lia|]. exists U. rewrite frame_range_empty, (left_id_L ∅ (∪)) by lia. split; [done|]. split; [done|]. lia.
  - intros i t Hi (_ & U' & Ht & HU & Hfree). unfold map_stack_page, pmm_alloc_frame.
    destruct (alloc_frame (pool_of t)) as [f p] eqn:E. change PAGE_SIZE with PAGE.
    set (va := top - (i + 1) * PAGE).
    assert (va / PAGE = top / PAGE - (i + 1) ∧ va mod PAGE = 0 ∧ va = (top / PAGE - (i + 1)) * PAGE) as (Hd & Hm & Hva)
      by (unfold va, PAGE in *; div_lia).
    assert (va / PAGE ∈ frame_range (top / PAGE - 4) (top / PAGE)) as Hin by (apply elem_of_frame_range; lia).
    destruct (stack_page_state s0 AL x r t (frame_range (top / PAGE - i) (top / PAGE) ∪ D) U' (VMM_PRESENT .| VMM_WRITABLE .| VMM_USER) va f p)
      as (t' & c & E' & Ht' & Hfree'); try done.
    + unfold va, PAGE in *. lia.
    + intros [?%elem_of_frame_range|HD]%elem_of_union; [lia|]. exact (Hdisj _ Hin HD).
    + rewrite Hva. apply Hopen. rewrite <- Hd. done.
    + nia.
    + exists t'. split; [done|]. split; [lia|]. exists (set_page (va / PAGE) c U').
      assert ({[va / PAGE]} ∪ (frame_range (top / PAGE - i) (top / PAGE) ∪ D) = frame_range (top / PAGE - (i + 1)) (top / PAGE) ∪ D) as <-.
      { rewrite (assoc_L (∪)). f_equal. apply set_eq. intros q. rewrite elem_of_union, elem_of_singleton, !elem_of_frame_range, Hd. lia. }
      split; [done|]. split; [|nia]. intros w Hw. unfold set_page.
      destruct (Z.eqb_spec (w / PAGE) (va / PAGE)) as [Ew|]; [|by apply HU].
      exfalso. rewrite Ew in Hw. exact (Hdisj _ Hin Hw).
Qed.

(** The whole of the loader, from a space without user pages. *)
Lemma load_image_state s AL x r img eh phs top :
  spaces_rep n s AL → as_root s x = Some r → image_ok img eh phs →
  top mod PAGE = 0 → 4 * PAGE <= top <= span n → stack_pages top ## pages_of phs →
  (∀ p, p ∈ stack_pages top ∪ pages_of phs → path_open n (v_mem s) r (va_index (p * PAGE)) = true) →
  (S n * (page_count phs + 4) <= free_count s)%nat →
  ∃ s' U, load_image top x img eh s = Some s' ∧
    user_state s AL x r s' (stack_pages top ∪ pages_of phs) U ∧ holds_segments img phs U.
Proof.
  intros Hs Hx Hio Hal Htop Hdisj Hopen Hsz. unfold load_image.
  destruct (segments_loop s AL x r s img eh phs Hs eq_refl Hx Hio) as (s1 & U & E & Hs1 & HU & Hfree);
    [intros p Hp; apply Hopen; by apply elem_of_union_r|lia|]. rewrite E. cbn [mbind option_bind].
  destruct (stack_loop s AL x r s1 _ U top Hs1 Hx Hal Htop Hdisj) as (s2 & U' & -> & Hs2 & HU');
    [intros p Hp; apply Hopen; by apply elem_of_union_l|lia|].
  exists s2, U'. split; [done|]. split; [done|]. intros ph w Hph Hw. rewrite HU'; [by apply HU|].
  apply elem_of_pages_of. by exists ph.
Qed.
End loading.

(** ** Running a process *)

(** What the launch stacks have to do with arch_context_switch: the frame that starts
    process_trampoline. *)
Class LaunchLaws (R : Type) `{!SwitchOps R, !LaunchOps R} := {
  launch_context : Z → Z → context R;
  launch_law top params m :
    let '(sp, m') := build_launch_stack top params m in
    frame m' sp (launch_context top params) ∧ ∀ a, ¬ (sp <= a < top) → m' a = m a;
  launch_context_sp top params : c_sp (launch_context top params) = top;
  launch_params_length e : (length (launch_params e) <= 4)%nat
}.

Lemma store_words_spec a vs m :
  words_at (store_words a vs m) a vs ∧
  ∀ b, ¬ (a <= b < a + 8 * Z.of_nat (length vs)) → store_words a vs m b = m b.
Proof.
  revert a m. induction vs as [|v vs IH]; intros a m; [done|]. cbn [store_words words_at length].
  destruct (IH (a + 8) (m⟦a := v⟧)) as [H1 H2]. split.
  - split; [|done]. rewrite H2 by lia. apply mem_set_eq.
  - intros b Hb. rewrite H2 by lia. apply mem_set_ne. lia.
Qed.

Section running.
Context `{FMT : !PtFormat, LAWS : !PtLaws} {St : Type} `{OPS : !FrameOps St, FL : !FrameLaws St, VM : !Vm St}.
Context (n : nat) `{VML : !VmLaws St n}.
Context {R : Type} `{SW : !SwitchOps R, SWL : !SwitchLaws R, LO : !LaunchOps R, LL : !LaunchLaws R}.
Context (Hspan : span n < 2 ^ 63).
Implicit Types (p : proc St R) (s : vmm St) (F K : gset Z).

(** The kernel stack process_run is called on: frames [K] that are not the heap's and not
    free, with launch_params_t above the stack pointer. *)
Record on_stack (p : proc St R) (params : Z) (K : gset Z) : Prop := {
  os_clear : heap_clear (v_heap (p_vm p)) K;
  os_used : K ## fa_free (frames (v_heap (p_vm p)));
  os_params : c_sp (p_cpu p) <= params;
  os_stack a : c_sp (p_cpu p) - frame_size <= a < params + 32 → a / PAGE ∈ K
}.

(** The process's memory: the bytes of the segments, pages of its own, and around them
    what the kernel has. *)
Record user_memory (img : list Z) (phs : list elf64_phdr) (x : as_ptr) s0 s F : Prop := {
  um_segments ph w : ph ∈ loads phs → w / PAGE ∈ pages ph →
    ∃ a, vm_translate x w s = Some a ∧ a / PAGE ∈ F ∧ ld8 (v_mem s) a = seg_byte img ph w;
  um_stack w : w / PAGE ∈ stack_pages user_stack_top → ∃ a, vm_translate x w s = Some a ∧ a / PAGE ∈ F;
  um_private w w' a : w / PAGE ∈ stack_pages user_stack_top ∪ pages_of phs →
    w' / PAGE ∈ stack_pages user_stack_top ∪ pages_of phs →
    vm_translate x w s = Some a → vm_translate x w' s = Some a → w = w';
  um_rest w : 0 <= w < span n → w / PAGE ∉ stack_pages user_stack_top ∪ pages_of phs →
    vm_translate x w s = vm_translate kernel_space w s0;
  um_others y w : 0 <= w < span n → y ≠ x → vm_translate y w s = vm_translate y w s0
}.

(** The suspended process_run: its context can be resumed, its address space and launch
    stack are there, and the frames [F] hold the process's data. *)
Record suspended p0 (x : as_ptr) (base : Z) p F : Prop := {
  su_return : frame (p_stacks p) (kernel_return_sp p) (p_cpu p0);
  su_rep : ∃ AL a m, x = user_space a ∧ is_Some (v_spaces (p_vm p) !! a) ∧
    (∀ q r, v_spaces (p_vm p) !! q = Some r → base ≠ q) ∧
    spaces_rep n (p_vm p) AL ∧ live (v_heap (p_vm p)) AL base m;
  su_data : data_frames n (p_vm p) F;
  su_others y w : 0 <= w < span n → y ≠ x → vm_translate y w (p_vm p) = vm_translate y w (p_vm p0);
  su_managed : fa_managed (frames (v_heap (p_vm p))) = fa_managed (frames (v_heap (p_vm p0)))
}.

Lemma user_state_memory img phs a s0 s1 s2 s AL c U :
  user_state n s1 AL (user_space a) c s2 (stack_pages user_stack_top ∪ pages_of phs) U →
  holds_segments img phs U → as_root s1 (user_space a) = Some c →
  (∀ q, q ∈ stack_pages user_stack_top ∪ pages_of phs → 0 <= q * PAGE ∧ q * PAGE + PAGE <= span n) →
  (∀ y w, as_translate n y w s1 =
    if decide (y = user_space a) then as_translate n kernel_space w s0 else as_translate n y w s0) →
  v_mem s = v_mem s2 → (∀ y, as_root s y = as_root s2 y) →
  ∃ P, user_inv n s1 AL (user_space a) c s2 P U ∧ user_memory img phs (user_space a) s0 s (backing P).
Proof.
  intros (P & Hui & HD) HU Hc Hrange Hcreate Hm Hroot. exists P. split; [done|]. set (x := user_space a) in *.
  assert (∀ y w, 0 <= w < span n → vm_translate y w s =
    match (if decide (y = x) then P !! (w / PAGE) else None) with
    | Some f => Some (f * PAGE + w mod PAGE)
    | None => as_translate n y w s1
    end) as Htr.
  { intros y w Hw. rewrite vm_translate_law, <- (ui_translate _ _ _ _ _ _ _ _ Hui y w Hw).
    unfold as_translate. by rewrite Hroot, Hm. }
  assert (∀ w, w / PAGE ∈ stack_pages user_stack_top ∪ pages_of phs → 0 <= w < span n ∧ ∃ f,
    P !! (w / PAGE) = Some f ∧ f ∈ backing P ∧ vm_translate x w s = Some (f * PAGE + w mod PAGE)) as Huser.
  { intros w Hw. destruct (Hrange _ Hw) as [H1 H2].
    assert (0 <= w < span n) as Hws by (unfold PAGE in *; div_lia). split; [done|].
    rewrite <- HD in Hw. apply elem_of_dom in Hw as [f Hf]. exists f. split; [done|].
    split; [apply elem_of_backing; by eexists|]. rewrite Htr by done. by rewrite decide_True, Hf. }
  assert (∀ f w, (f * PAGE + w mod PAGE) / PAGE = f) as Hdiv by (intros; unfold PAGE; div_lia).
  split.
  - intros ph w Hph Hw.
    destruct (Huser w) as (_ & f & Hf & Hfb & E); [apply elem_of_union_r, elem_of_pages_of; by exists ph|].
    eexists. split; [exact E|]. rewrite Hdiv. split; [done|]. rewrite Hm.
    rewrite (ui_bytes _ _ _ _ _ _ _ _ Hui _ f _ Hf) by (apply Z.mod_pos_bound; unfold PAGE; lia).
    rewrite <- (HU ph w Hph Hw). f_equal. unfold PAGE. div_lia.
  - intros w Hw. destruct (Huser w) as (_ & f & Hf & Hfb & E); [by apply elem_of_union_l|].
    eexists. split; [exact E|]. by rewrite Hdiv.
  - intros w w' b Hw Hw' E1 E2. destruct (Huser w Hw) as (_ & f & Hf & _ & E). destruct (Huser w' Hw') as (_ & f' & Hf' & _ & E').
    rewrite E1 in E. rewrite E2 in E'. injection E as ->. injection E' as E'.
    assert (f = f') as <- by (rewrite <- (Hdiv f w), E', Hdiv; done).
    pose proof (ui_inj _ _ _ _ _ _ _ _ Hui _ _ _ Hf Hf') as Ep. unfold PAGE in *. div_lia.
  - intros w Hw Hno. rewrite Htr by done. rewrite decide_True by done.
    rewrite <- HD in Hno. apply not_elem_of_dom in Hno. rewrite Hno, Hcreate, decide_True by done. by rewrite vm_translate_law.
  - intros y w Hw Hy. rewrite Htr by done. rewrite decide_False, Hcreate, decide_False by done. by rewrite vm_translate_law.
Qed.

(** The switch to the process: the kernel's context is saved, the trampoline's resumed,
    and launch_params_t is where it looks. *)
Lemma launch_step (c0 : context R) params K base e m0 :
  (∀ a, base <= a < base + LAUNCH_STACK_SIZE → a / PAGE ∉ K) →
  c_sp c0 <= params → (∀ a, c_sp c0 - frame_size <= a < params + 32 → a / PAGE ∈ K) →
  let m1 := store_words params (launch_params e) m0 in
  let '(lsp, m2) := build_launch_stack (base + LAUNCH_STACK_SIZE) params m1 in
  let '(osp, c, m3) := arch_context_switch c0 lsp m2 in
  c = launch_context (base + LAUNCH_STACK_SIZE) params ∧
  words_at m3 params (launch_params e) ∧ frame m3 osp c0.
Proof.
  intros Hbase Hp HK m1. pose proof (launch_law (base + LAUNCH_STACK_SIZE) params m1) as HL.
  destruct (build_launch_stack _ _ _) as [lsp m2]. destruct HL as [Hf2 Hm2].
  pose proof (frame_sp _ _ _ Hf2) as Hlsp. rewrite launch_context_sp in Hlsp. pose proof frame_size_bound as Hfs.
  pose proof (switch_saves c0 lsp m2) as Hsave. pose proof (switch_resumes c0 lsp m2 (launch_context (base + LAUNCH_STACK_SIZE) params)) as Hres.
  destruct (arch_context_switch c0 lsp m2) as [[osp c] m3]. destruct Hsave as [Hf3 Hm3].
  pose proof (frame_sp _ _ _ Hf3) as Hosp.
  assert (∀ a, lsp <= a < base + LAUNCH_STACK_SIZE → a / PAGE ∉ K) as Hnew.
  { intros a Ha. apply Hbase. unfold LAUNCH_STACK_SIZE in *. lia. }
  split_and!; [|  |done].
  - apply Hres. apply (frame_ext m2); [|done]. intros a Ha. apply Hm3. intros Ha'.
    apply (Hnew a); [lia|]. apply HK. lia.
  - destruct (store_words_spec params (launch_params e) m0) as [Hw _]. fold m1 in Hw.
    pose proof (launch_params_length e) as Hlen.
    apply (words_at_ext m1); [|done]. intros a Ha. rewrite Hm3 by lia. apply Hm2. intros Ha'.
    apply (Hnew a Ha'), HK. lia.
Qed.

(** The pages of an image that can be loaded are in the address space. *)
Lemma user_pages_range img eh phs q :
  image_ok n img eh phs → user_stack_top mod PAGE = 0 → 4 * PAGE <= user_stack_top <= span n →
  q ∈ stack_pages user_stack_top ∪ pages_of phs → 0 <= q * PAGE ∧ q * PAGE + PAGE <= span n.
Proof.
  intros Hio Hal Htop [Hq|(ph & Hph & Hq)%elem_of_pages_of]%elem_of_union; apply elem_of_frame_range in Hq.
  - unfold USER_STACK_PAGES, PAGE in *. div_lia.
  - destruct (seg_bounds n Hspan img ph) as (_ & E & H1 & H2 & _); [by apply (io_segments _ _ _ _ Hio)|].
    rewrite E, Z.div_mul in Hq by (unfold PAGE; lia). rewrite E in H2. unfold PAGE in *. div_lia.
Qed.

(** After the launch stack was allocated: the invariant, and the stack is not part of the
    stack process_run is on. *)
Lemma launch_stack_rep s0 AL x r s D U base h AL' K :
  user_state n s0 AL x r s D U →
  kmalloc LAUNCH_STACK_SIZE (v_heap s) = Some (base, h) →
  heap_rep h AL' → allocated (v_heap s) AL LAUNCH_STACK_SIZE base h AL' →
  heap_clear (v_heap s0) K → K ## fa_free (frames (v_heap s0)) →
  spaces_rep n (mk_vmm (v_mem s) h (v_spaces s) (v_kernel s) (v_active s)) AL' ∧
  (∀ a, base <= a < base + LAUNCH_STACK_SIZE → a / PAGE ∉ K) ∧
  (∃ m, live h AL' base m) ∧ (∀ a r, v_spaces s !! a = Some r → base ≠ a) ∧
  fa_managed (frames h) = fa_managed (frames (v_heap s)) ∧
  ∀ P, user_inv n s0 AL x r s P U → data_frames n (mk_vmm (v_mem s) h (v_spaces s) (v_kernel s) (v_active s)) (backing P).
Proof.
  intros (P & Hui & _) Hk Hh (Hb0 & _ & Hnl & m & Hm & Hlive) HK Hused.
  pose proof (ui_rep _ _ _ _ _ _ _ _ Hui) as Hs. pose proof (ui_heap _ _ _ _ _ _ _ _ Hui) as Eh.
  assert (0 < LAUNCH_STACK_SIZE < 2 ^ 63 - 8) as Hsz by (unfold LAUNCH_STACK_SIZE; lia).
  pose proof (kmalloc_frames _ _ _ _ _ (sp_heap _ _ _ Hs) Hsz Hk) as Hft.
  pose proof (kmalloc_managed _ _ _ _ _ (sp_heap _ _ _ Hs) Hsz Hk) as Hman.
  assert (live h AL' base m) as Hlb by (apply Hlive; by left).
  split_and!.
  - apply (heap_step n s AL); try done. intros q rq Hq. destruct (sp_live _ _ _ Hs q rq Hq) as [k Hkq].
    exists k. apply Hlive. by right.
  - intros a Ha. apply (live_clear h AL' base m); [done|done| |lia]. apply Hft.
    + rewrite Eh. exact HK.
    + intros f Hf [Hf' _]%elem_of_difference. exact (Hused f Hf (ui_free _ _ _ _ _ _ _ _ Hui f Hf')).
  - by exists m.
  - intros a ra Ha ->. destruct (sp_live _ _ _ Hs a ra Ha) as [k Hka]. by apply (Hnl k).
  - exact Hman.
  - intros P' Hui' f Hf. destruct (ui_data _ _ _ _ _ _ _ _ Hui' f Hf) as (H1 & H2 & H3 & H4).
    cbn. rewrite Hman. split_and!; [done| |done|].
    + intros Hin. apply H2. by apply Hft.
    + intros y ry Hy. apply (H4 y ry). by destruct y.
Qed.

(** What process_run needs in order to load and launch an image: headers that can be
    read, segments and stack on pages of their own that the page tables have no huge pages
    at, and enough memory. *)
Record loadable img elf_size params K p0 AL eh phs x1 s1 : Prop := {
  lo_valid : elf_valid e_machine img elf_size = Some true;
  lo_header : read_ehdr img = Some eh;
  lo_image : image_ok n img eh phs;
  lo_aligned : user_stack_top mod PAGE = 0;
  lo_stack_top : 4 * PAGE <= user_stack_top <= span n;
  lo_disjoint : stack_pages user_stack_top ## pages_of phs;
  lo_spaces : spaces_rep n (p_vm p0) AL;
  lo_ready : ready n Create (p_vm p0);
  lo_open q : q ∈ stack_pages user_stack_top ∪ pages_of phs →
    path_open n (v_mem (p_vm p0)) (v_kernel (p_vm p0)) (va_index (q * PAGE)) = true;
  lo_create : vm_create (p_vm p0) = Some (x1, s1);
  lo_frames : (S n * (page_count phs + 4) <= size (fa_free (frames (v_heap s1))))%nat;
  lo_on_stack : on_stack p0 params K
}.

(** The process about to take its first step. *)
Record launched img params p0 eh phs x base p1 F : Prop := {
  la_memory : user_memory img phs x (p_vm p0) (p_vm p1) F;
  la_suspended : suspended p0 x base p1 F;
  la_active : as_root (p_vm p1) x = Some (v_active (p_vm p1));
  la_cpu : p_cpu p1 = launch_context (base + LAUNCH_STACK_SIZE) params;
  la_params : words_at (p_stacks p1) params (launch_params (e_entry eh))
}.

Lemma process_start_step img elf_size params K p0 AL eh phs x1 s1 :
  loadable img elf_size params K p0 AL eh phs x1 s1 →
  ∃ x base p1, process_start img elf_size params p0 = Some (Some (x, base), p1) ∧ as_root (p_vm p0) x = None ∧
    (base = 0 ∨ ∃ F, launched img params p0 eh phs x base p1 F).
Proof.
  intros [Hvalid Heh Hio Hal Htop Hdisj Hs Hready Hopen Hcreate Hsz Hstack]. unfold process_start.
  rewrite Hvalid. cbn [mbind option_bind negb]. rewrite Hcreate. cbn [mbind option_bind]. rewrite Heh. cbn [mbind option_bind].
  destruct (create_step n (p_vm p0) AL Hs Hready) as (s1' & AL1 & a & c & E & Hs1 & Hc & Hnone & Htr & Hop & Hcl & Hfree1 & Hman1).
  rewrite vm_create_law, E in Hcreate. injection Hcreate as <- <-.
  destruct (load_image_state n Hspan s1' AL1 (user_space a) c img eh phs user_stack_top Hs1 Hc Hio Hal Htop Hdisj)
    as (s2 & U & -> & Hs2 & HU); [intros q Hq; apply Hop; [apply va_index_range|by apply Hopen]|done|].
  cbn [mbind option_bind]. pose proof Hs2 as (P & Hui & HD).
  pose proof (ui_rep _ _ _ _ _ _ _ _ Hui) as Hrep2.
  destruct (kmalloc_rep _ _ LAUNCH_STACK_SIZE (sp_heap _ _ _ Hrep2)) as (base & h & AL3 & Ek & Hh3 & Hres); [unfold LAUNCH_STACK_SIZE; lia|].
  rewrite Ek. cbn [mbind option_bind].
  destruct (build_launch_stack _ _ _) as [lsp m2] eqn:Eb.
  set (s3 := mk_vmm (v_mem s2) h (v_spaces s2) (v_kernel s2) (v_active s2)).
  assert (as_root s3 (user_space a) = Some c) as Hc3 by (change (as_root s2 (user_space a) = Some c); by rewrite (ui_roots _ _ _ _ _ _ _ _ Hui)).
  rewrite vm_switch_law, Hc3. cbn [fmap option_fmap option_map mbind option_bind].
  destruct (arch_context_switch (p_cpu p0) lsp m2) as [[osp c'] m3] eqn:Ea.
  exists (user_space a), base. eexists. split; [done|]. split; [exact Hnone|].
  destruct Hres as [[-> _]|Halloc]; [by left|right].
  destruct (user_state_memory img phs a (p_vm p0) s1' s2 (mk_vmm (v_mem s2) h (v_spaces s2) (v_kernel s2) c) AL1 c U Hs2 HU Hc)
    as (P' & Hui' & Hum); [|done|done|by intros []|].
  { intros q Hq. by apply (user_pages_range img eh phs). }
  destruct (launch_stack_rep s1' AL1 (user_space a) c s2 _ U base h AL3 K Hs2 Ek Hh3) as (Hrep3 & Hbase & [k Hlb] & Hne & Hman3 & Hdata).
  { exact Halloc. }
  { apply Hcl; apply Hstack. }
  { intros f Hf Hf'. exact (os_used _ _ _ Hstack f Hf (Hfree1 f Hf')). }
  pose proof (launch_step (p_cpu p0) params K base (e_entry eh) (p_stacks p0) Hbase (os_params _ _ _ Hstack) (os_stack _ _ _ Hstack)) as HL.
  cbv zeta in HL. rewrite Eb, Ea in HL. destruct HL as (Hcpu & Hparams & Hframe).
  exists (backing P'). split; [exact Hum| |exact Hc3|done|done]. split.
  - done.
  - exists AL3, a, k. split; [done|]. cbn. split; [by exists c|]. split; [exact Hne|]. split; [|done].
    exact (switch_step n _ _ c Hrep3).
  - exact (Hdata P' Hui').
  - apply (um_others _ _ _ _ _ _ Hum).
  - cbn. rewrite Hman3, (ui_managed _ _ _ _ _ _ _ _ Hui'). exact Hman1.
Qed.

(** C4: process_run loads and launches the process.  For an ELF image whose headers can
    be read, which has a PT_LOAD segment, and whose PT_LOAD segments lie on pages of their
    own, with enough memory, the new
    address space holds every segment byte for byte (zeros after the file's part), gives
    the process a stack, and puts each of these addresses into a frame location of its
    own; elsewhere it translates as the kernel does, and no other space changes.  The CPU
    enters process_trampoline on the launch stack with the entry point in launch_params_t,
    and process_run can be resumed. *)
Theorem process_start_loads img elf_size params K p0 AL eh phs x1 s1 :
  loadable img elf_size params K p0 AL eh phs x1 s1 →
  ∃ x base p1, process_start img elf_size params p0 = Some (Some (x, base), p1) ∧
    (base = 0 ∨ ∃ F,
      user_memory img phs x (p_vm p0) (p_vm p1) F ∧ suspended p0 x base p1 F ∧
      as_root (p_vm p1) x = Some (v_active (p_vm p1)) ∧
      p_cpu p1 = launch_context (base + LAUNCH_STACK_SIZE) params ∧
      words_at (p_stacks p1) params (launch_params (e_entry eh))).
Proof.
  intros (x & base & p1 & E & _ & H)%process_start_step. exists x, base, p1. split; [done|].
  destruct H as [?|[F []]]; [by left|right]. by exists F.
Qed.

(** What the process may do before its exit call: write its own frames and the stack the
    system call runs on, which is not the one process_run left. *)
Record ran p1 F p2 : Prop := {
  rn_vm : ∃ m, same_but F (v_mem (p_vm p1)) m ∧ p_vm p2 = with_mem (p_vm p1) m;
  rn_return : kernel_return_sp p2 = kernel_return_sp p1;
  rn_saved a : kernel_return_sp p1 <= a < kernel_return_sp p1 + frame_size → p_stacks p2 a = p_stacks p1 a;
  rn_stack : c_sp (p_cpu p2) <= kernel_return_sp p1 ∨ kernel_return_sp p1 + frame_size <= c_sp (p_cpu p2) - frame_size
}.

(** The exit call resumes process_run. *)
Lemma exit_switch p0 x base p1 p2 F code :
  suspended p0 x base p1 F → ran p1 F p2 →
  let p3 := process_syscall_exit code p2 in
  p_cpu p3 = p_cpu p0 ∧ p_vm p3 = p_vm p2 ∧ process_exit_code p3 = code.
Proof.
  intros [Hret _ _ _ _] [_ Hsp Hst Hdis] p3.
  pose proof (switch_saves (p_cpu p2) (kernel_return_sp p2) (p_stacks p2)) as Hsave.
  pose proof (switch_resumes (p_cpu p2) (kernel_return_sp p2) (p_stacks p2) (p_cpu p0)) as Hres.
  unfold p3, process_syscall_exit. destruct (arch_context_switch _ _ _) as [[osp c] m3].
  destruct Hsave as [Hf Hout]. pose proof (frame_sp _ _ _ Hf) as Hosp. cbn. split; [|done].
  apply Hres. rewrite Hsp. apply (frame_ext (p_stacks p1)); [|done].
  intros b Hb. rewrite Hout by lia. by apply Hst.
Qed.

(** The end of process_run on the virtual memory: the space and the launch stack go. *)
Lemma finish_step s AL a r base k F :
  spaces_rep n s AL → v_spaces s !! a = Some r → data_frames n s F →
  (∀ q rq, v_spaces s !! q = Some rq → base ≠ q) → live (v_heap s) AL base k →
  ∃ s2 h, vm_switch kernel_space s = Some (mk_vmm (v_mem s) (v_heap s) (v_spaces s) (v_kernel s) (v_kernel s)) ∧
    vm_destroy (user_space a) (mk_vmm (v_mem s) (v_heap s) (v_spaces s) (v_kernel s) (v_kernel s)) = Some s2 ∧
    kfree base (v_heap s2) = Some h ∧ v_active s2 = v_kernel s2 ∧
    let s4 := mk_vmm (v_mem s2) h (v_spaces s2) (v_kernel s2) (v_active s2) in
    (∃ AL', spaces_rep n s4 AL') ∧ F ## fa_free (frames h) ∧
    fa_managed (frames h) = fa_managed (frames (v_heap s)) ∧
    ∀ y w, as_translate n y w s4 = if decide (y = user_space a) then None else as_translate n y w s.
Proof.
  intros Hrep Hr HF Hne Hlb. pose proof (switch_step n _ _ (v_kernel s) Hrep) as Hrep1.
  set (s1 := mk_vmm (v_mem s) (v_heap s) (v_spaces s) (v_kernel s) (v_kernel s)) in *.
  assert (v_spaces s1 !! a = Some r) as Hr1 by done.
  destruct (destroy_rep n s1 AL a r Hrep1 Hr1) as (s2 & AL2 & E & Hrep4 & Hfree & Hman & Hmem & Hact & Hlive & Hroot).
  destruct (kfree_rep (v_heap s2) AL2 base k (sp_heap _ _ _ Hrep4)) as (h & AL3 & E2 & Hh & Hl3).
  { apply Hlive. split; [by apply (Hne a r)|done]. }
  destruct (kfree_frames _ _ _ E2) as [Ear Efr].
  exists s2, h. split; [by rewrite vm_switch_law|]. split; [by rewrite vm_destroy_law|]. split; [done|].
  assert (v_kernel s2 = v_kernel s1) as Hk.
  { specialize (Hroot kernel_space). rewrite decide_False in Hroot by done. by injection Hroot. }
  split; [by rewrite Hact, Hk|]. intros s4. assert (∀ y, as_root s4 y = as_root s2 y) as Hroot4 by (by intros []).
  split; [|split; [|split]].
  - exists AL3. apply (heap_step n s2 AL2); [done|done|by apply frames_taken_same|by rewrite Efr|].
    intros q rq Hq. destruct (sp_live _ _ _ Hrep4 q rq Hq) as [kq Hkq]. exists kq. apply Hl3. split; [|done].
    apply not_eq_sym, (Hne q rq). specialize (Hroot (user_space q)). cbn in Hroot. rewrite Hq in Hroot.
    case_decide; [done|exact (eq_sym Hroot)].
  - rewrite Efr, Hfree. intros f Hf [(t & Ht & ->)%elem_of_frames_of|Hf']%elem_of_union;
      destruct (HF _ Hf) as (_ & Hn & _ & Hno); [|exact (Hn Hf')].
    apply (Hno (user_space a) r Hr). destruct (sp_tree _ _ _ Hrep1 (user_space a) r Hr1) as (_ & _ & Ho).
    destruct (Ho t Ht) as (Ha & _). by rewrite <- (aligned_frame t Ha).
  - by rewrite Efr, Hman.
  - intros y w. unfold as_translate. rewrite Hroot4, Hroot. case_decide; [done|].
    change (v_mem s4) with (v_mem s2). rewrite Hmem. by destruct y.
Qed.

(** After the exit call process_run returns the code; its caller's registers, the kernel's
    address space and every other one are as before the launch, and the process's space is
    gone. *)
Lemma process_exit_step p0 x base p1 p2 F code :
  suspended p0 x base p1 F → ran p1 F p2 →
  ∃ p4, process_finish x base (process_syscall_exit code p2) = Some (code, p4) ∧ p_cpu p4 = p_cpu p0 ∧
    interrupts_on p4 = true ∧ v_active (p_vm p4) = v_kernel (p_vm p4) ∧ (∃ AL, spaces_rep n (p_vm p4) AL) ∧
    (∀ w, vm_translate x w (p_vm p4) = None) ∧
    (∀ y w, 0 <= w < span n → y ≠ x → vm_translate y w (p_vm p4) = vm_translate y w (p_vm p0)) ∧
    F ## fa_free (frames (v_heap (p_vm p4))) ∧
    fa_managed (frames (v_heap (p_vm p4))) = fa_managed (frames (v_heap (p_vm p0))).
Proof.
  intros Hsu Hran. destruct (exit_switch p0 x base p1 p2 F code Hsu Hran) as (Hcpu & Hvm3 & Hcode).
  destruct Hsu as [_ (AL & a & k & -> & [r Hr] & Hne & Hrep & Hlb) HF Hothers Hman].
  destruct Hran as [(m & Hm & Hvm) _ _ _]. rewrite Hvm in Hvm3.
  destruct (write_step n (p_vm p1) AL F m Hrep HF Hm) as (Hrep2 & HF2 & Hw2). rewrite <- Hvm3 in Hrep2, HF2.
  set (p3 := process_syscall_exit code p2) in *. clearbody p3.
  destruct (finish_step (p_vm p3) AL a r base k F Hrep2) as (s2 & h & E1 & E2 & E3 & Hact & Hrep4 & HF4 & Hman4 & Htr);
    [by rewrite Hvm3|done|by rewrite Hvm3|by rewrite Hvm3|].
  unfold process_finish. rewrite E1. cbn [mbind option_bind]. rewrite E2. cbn [mbind option_bind]. rewrite E3.
  cbn [mbind option_bind]. rewrite Hcode. eexists. split; [done|]. split; [done|]. split; [done|].
  cbn [p_vm]. split; [exact Hact|]. split; [exact Hrep4|].
  split; [intros w; by rewrite vm_translate_law, Htr, decide_True|]. split; [|split; [exact HF4|]].
  2:{ cbn [v_heap]. by rewrite Hman4, Hvm3. }
  intros y w Hw Hy. rewrite <- Hothers, !vm_translate_law, Htr, decide_False by done. unfold as_translate.
  rewrite Hvm3. assert (as_root (with_mem (p_vm p1) m) y = as_root (p_vm p1) y) as -> by (by destruct y).
  destruct (as_root (p_vm p1) y) as [ry|] eqn:Ey; [|done]. cbn. do 2 f_equal. by apply (Hw2 y ry), va_index_range.
Qed.

(** What the process is assumed to do: there is memory for its launch stack, and once
    launched it writes its own memory only and makes the exit call with [code]. *)
Definition process_exits img elf_size params p0 eh phs (process : proc St R → proc St R) code : Prop :=
  ∀ x base p1, process_start img elf_size params p0 = Some (Some (x, base), p1) → base ≠ 0 ∧
    ∀ F, launched img params p0 eh phs x base p1 F →
    ∃ p2, ran p1 F p2 ∧ process p1 = process_syscall_exit code p2.

Lemma process_run_step img elf_size params K p0 AL eh phs x1 s1 process code :
  loadable img elf_size params K p0 AL eh phs x1 s1 → process_exits img elf_size params p0 eh phs process code →
  ∃ p4, process_run img elf_size params process p0 = Some (code, p4) ∧ p_cpu p4 = p_cpu p0 ∧
    interrupts_on p4 = true ∧ v_active (p_vm p4) = v_kernel (p_vm p4) ∧ (∃ AL', spaces_rep n (p_vm p4) AL') ∧
    fa_managed (frames (v_heap (p_vm p4))) = fa_managed (frames (v_heap (p_vm p0))) ∧
    ∀ y w, 0 <= w < span n → vm_translate y w (p_vm p4) = vm_translate y w (p_vm p0).
Proof.
  intros (x & base & p1 & E & Hnew & H)%process_start_step Hproc. destruct (Hproc x base p1 E) as [Hb Hbeh].
  destruct H as [?|[F Hla]]; [done|]. destruct (Hbeh F Hla) as (p2 & Hran & Hexit).
  destruct (process_exit_step p0 x base p1 p2 F code (la_suspended _ _ _ _ _ _ _ _ _ Hla) Hran)
    as (p4 & E4 & Hcpu & Hint & Hact & Hrep & Hgone & Hoth & _ & Hman).
  exists p4. unfold process_run. rewrite E. cbn [mbind option_bind]. rewrite Hexit, E4. split; [done|].
  split_and!; [done..|]. intros y w Hw. destruct (decide (y = x)) as [->|Hne]; [|by apply Hoth].
  rewrite Hgone, vm_translate_law. unfold as_translate. by rewrite Hnew.
Qed.

(** C3: process_run runs a process and leaves no trace but its frames.  For an image that
    can be loaded, which has a PT_LOAD segment, with memory for the launch stack, and any
    behaviour of the process that writes only its own memory and ends in the exit system
    call, process_run returns the code of that call: the caller's registers are restored,
    interrupts are on, the kernel's address space is active, every address space translates
    every address as before and the process's own is gone, and the frame allocator manages
    what it did.  An image elf_valid refuses gives -1 and changes nothing. *)
Theorem process_run_returns img elf_size params K p0 AL eh phs x1 s1 process code :
  (loadable img elf_size params K p0 AL eh phs x1 s1 →
   (∀ x base p1, process_start img elf_size params p0 = Some (Some (x, base), p1) → base ≠ 0 ∧
      ∀ F, launched img params p0 eh phs x base p1 F →
      ∃ p2, ran p1 F p2 ∧ process p1 = process_syscall_exit code p2) →
   ∃ p4, process_run img elf_size params process p0 = Some (code, p4) ∧ p_cpu p4 = p_cpu p0 ∧
     interrupts_on p4 = true ∧ v_active (p_vm p4) = v_kernel (p_vm p4) ∧ (∃ AL', spaces_rep n (p_vm p4) AL') ∧
     fa_managed (frames (v_heap (p_vm p4))) = fa_managed (frames (v_heap (p_vm p0))) ∧
     ∀ y w, 0 <= w < span n → vm_translate y w (p_vm p4) = vm_translate y w (p_vm p0)) ∧
  (elf_valid e_machine img elf_size = Some false → process_run img elf_size params process p0 = Some (-1, p0)).
Proof.
  split; [apply process_run_step|]. intros E. unfold process_run, process_start. by rewrite E.
Qed.
End running.
