(* ===== verification/Selftest.v ===== *)
(** * The boot-time test of the virtual memory: vmm_selftest of the two arch.c files

    The same function but for the address it tests.  An access to [test_va] goes through
    the active page tables, which are those of the space the code has just switched to;
    where they have no translation it is a page fault ([None]). *)

From S2P Require Import Prelude.
From S2P Require Import FrameAlloc.
From S2P Require Import Heap.
From S2P Require Import PageTable.
From S2P Require Import AddressSpace.
From S2P Require Import UserPages.
From S2P Require Import Process.

(** ** The code *)

(** A 32-bit access, little-endian. *)
Definition st32 (m : memory) (a v : Z) : memory :=
  for_up 0 4 (λ i m, st8 m (a + i) (v / 2 ^ (8 * i) mod 2 ^ 8)) m.
Definition ld32 (m : memory) (a : Z) : Z :=
  ld8 m a + 2 ^ 8 * ld8 m (a + 1) + 2 ^ 16 * ld8 m (a + 2) + 2 ^ 24 * ld8 m (a + 3).

Section selftest.
Context {St : Type} `{!FrameOps St, !Vm St}.

Definition pmm_free_frame (frame : Z) (s : vmm St) : vmm St :=
  with_pool s (free_frame frame (frames (v_heap s))).

Definition vmm_selftest (test_va : Z) (s : vmm St) : option (bool * vmm St) :=
  t ← vm_translate kernel_space test_va s;
  if negb (t =? 0) then Some (false, s) else
  '(x, s) ← vm_create s;
  let '(frame, s) := pmm_alloc_frame s in
  if negb (truth frame) then Some (false, s) else
  s ← vm_map x test_va frame (VMM_PRESENT .| VMM_WRITABLE) s;
  s ← vm_switch x s;
  pa ← vm_translate x test_va s;
  if pa =? 0 then None else
  let s := with_mem s (st32 (v_mem s) pa 0xDEADBEEF) in
  let readback_ok := ld32 (v_mem s) pa =? 0xDEADBEEF in
  s ← vm_switch kernel_space s;
  t ← vm_translate kernel_space test_va s;
  let isolated_ok := t =? 0 in
  t ← vm_translate x test_va s;
  let mapped_ok := t =? frame .| 0 in
  s ← vm_destroy x s;
  let s := pmm_free_frame frame s in
  Some (readback_ok && isolated_ok && mapped_ok, s).
End selftest.

(** ** Proofs *)

Lemma ld32_st32 m a v : in_u 32 v → ld32 (st32 m a v) a = v.
Proof.
  intros Hv. unfold ld32, st32, for_up. change (Z.to_nat (4 - 0)) with 4%nat. cbn [for_n].
  assert (∀ i, 0 <= v / 2 ^ i mod 2 ^ 8 < 256) as Hb by (intros; apply Z.mod_pos_bound; lia).
  rewrite !ld8_st8 by apply Hb. unfold in_u in Hv.
  repeat match goal with |- context [?x =? ?y] => destruct (Z.eqb_spec x y); try lia end.
  change (2 ^ (8 * 0)) with 1. change (2 ^ (8 * (0 + 1))) with 256. change (2 ^ (8 * (0 + 1 + 1))) with 65536.
  change (2 ^ (8 * (0 + 1 + 1 + 1))) with 16777216. change (2 ^ 8) with 256. change (2 ^ 16) with 65536. change (2 ^ 24) with 16777216.
  div_lia.
Qed.

Lemma same_but_st32 m f v : same_but {[f]} m (st32 m (f * PAGE) v).
Proof.
  unfold st32. apply (for_up_inv (λ _ m', same_but {[f]} m m')); [apply same_but_refl|].
  intros i m' Hi H. apply (same_but_trans _ _ m'); [done|]. apply same_but_st8. unfold PAGE. div_lia.
Qed.

Section proofs.
Context `{FMT : !PtFormat, LAWS : !PtLaws} {St : Type} `{OPS : !FrameOps St, FL : !FrameLaws St, VM : !Vm St}.
Context (n : nat) `{VML : !VmLaws St n}.
Implicit Types (s : vmm St).

(** The middle of the test: a frame is taken, mapped and written in space [x]. *)
Lemma selftest_write s1 AL x c test_va f p :
  spaces_rep n s1 AL → as_root s1 x = Some c → x ≠ kernel_space → 0 <= test_va < span n → test_va mod PAGE = 0 →
  path_open n (v_mem s1) c (va_index test_va) = true → (S n <= size (fa_free (frames (v_heap s1))))%nat →
  pmm_alloc_frame s1 = (f, p) →
  ∃ g s2 s4, f = g * PAGE ∧ g ≠ 0 ∧ g ∈ fa_free (frames (v_heap s1)) ∧ vm_map x test_va f (VMM_PRESENT .| VMM_WRITABLE) p = Some s2 ∧
    vm_switch x s2 = Some (mk_vmm (v_mem s2) (v_heap s2) (v_spaces s2) (v_kernel s2) c) ∧
    vm_translate x test_va s2 = Some f ∧
    s4 = mk_vmm (st32 (v_mem s2) f 0xDEADBEEF) (v_heap s2) (v_spaces s2) (v_kernel s2) (v_kernel s2) ∧
    spaces_rep n s4 AL ∧ data_frames n s4 {[g]} ∧ arenas (v_heap s4) = arenas (v_heap s1) ∧
    fa_managed (frames (v_heap s4)) = fa_managed (frames (v_heap s1)) ∧
    (∀ y, as_root s4 y = as_root s1 y) ∧
    ∀ y w, 0 <= w < span n → as_translate n y w s4 =
      (if decide (y = x ∧ w / PAGE = test_va / PAGE) then Some (f + w mod PAGE) else as_translate n y w s1).
Proof.
  intros Hs Hx Hxk Hva Hal Hopen Hsz Ealloc. unfold pmm_alloc_frame in Ealloc.
  destruct (alloc_step n s1 AL ∅ Hs) as (g & q & E & _ & Hg & Hgf & Hs1 & HF1 & Hman & Hfree);
    [intros ? []%elem_of_empty|lia|].
  rewrite E in Ealloc. injection Ealloc as <- <-. rewrite (right_id_L ∅ (∪)) in HF1.
  assert (g ≠ 0) as Hg0 by (by destruct (HF1 g ltac:(by apply elem_of_singleton)) as (_ & _ & ? & _)).
  assert (as_root (with_pool s1 q) x = Some c) as Hx1 by (by destruct x).
  set (fl := VMM_PRESENT .| VMM_WRITABLE). assert (Z.testbit fl 0 = true) as Hfl by done.
  destruct (page_map_step n (with_pool s1 q) AL {[g]} x c test_va fl (vm_leaf (g * PAGE) fl) Hs1 HF1 Hx1 Hva) as (s2 & E2 & Hs2 & Hpm);
    [done|change (n <= size (fa_free q))%nat; rewrite Hfree, size_difference, size_singleton by (by apply singleton_subseteq_l); lia|].
  set (s3 := mk_vmm (v_mem s2) (v_heap s2) (v_spaces s2) (v_kernel s2) c).
  pose proof (switch_step n s2 AL (v_kernel s2) Hs2) as Hs3.
  assert (∀ y, as_root s2 y = as_root s1 y) as Hroot by (intros y; rewrite (pm_roots _ _ _ _ _ _ _ _ Hpm); by destruct y).
  assert (data_frames n (mk_vmm (v_mem s2) (v_heap s2) (v_spaces s2) (v_kernel s2) (v_kernel s2)) {[g]}) as HF2.
  { intros h Hh. destruct (pm_data _ _ _ _ _ _ _ _ Hpm h Hh) as (H1 & H2 & H3 & H4). by split_and!. }
  destruct (write_step n _ AL {[g]} (st32 (v_mem s2) (g * PAGE) 0xDEADBEEF) Hs3 HF2 (same_but_st32 _ _ _)) as (Hs4 & HF4 & Hw4).
  assert (∀ y w, 0 <= w < span n → as_translate n y w s2 =
    (if decide (y = x ∧ w / PAGE = test_va / PAGE) then Some (g * PAGE + w mod PAGE) else as_translate n y w s1)) as Htr.
  { intros y w Hw. rewrite (pm_translate _ _ _ _ _ _ _ _ Hpm y w Hw). case_decide as Hd; [|by destruct y].
    destruct Hd as [-> _]. unfold as_translate. rewrite Hx1. cbn [fmap option_fmap option_map mbind option_bind].
    f_equal. by apply vm_leaf_law. }
  exists g, s2. eexists. split; [done|]. split; [done|]. split; [done|]. split; [by rewrite vm_map_law|].
  split; [by rewrite vm_switch_law, Hroot, Hx|]. split; [|split; [done|]].
  { rewrite vm_translate_law, Htr by done. rewrite decide_True by done. by rewrite Hal, Z.add_0_r. }
  split; [exact Hs4|]. split; [exact HF4|]. split; [|split; [|split]].
  - cbn. by rewrite (pm_heap _ _ _ _ _ _ _ _ Hpm).
  - cbn. rewrite (pm_managed _ _ _ _ _ _ _ _ Hpm). exact Hman.
  - intros y. rewrite <- Hroot. by destruct y.
  - intros y w Hw. rewrite <- Htr by done. unfold as_translate.
    assert (as_root (mk_vmm (st32 (v_mem s2) (g * PAGE) 0xDEADBEEF) (v_heap s2) (v_spaces s2) (v_kernel s2) (v_kernel s2)) y = as_root s2 y) as ->
      by (by destruct y).
    destruct (as_root s2 y) as [r|] eqn:Ey; [|done]. cbn. do 2 f_equal. apply (Hw4 y r); [by destruct y|apply va_index_range].
Qed.

(** The end of the test: the space and the frame are given back. *)
Lemma selftest_cleanup s AL a r g :
  spaces_rep n s AL → v_spaces s !! a = Some r → data_frames n s {[g]} → heap_clear (v_heap s) {[g]} →
  ∃ s1 AL1, vm_destroy (user_space a) s = Some s1 ∧
    let s2 := pmm_free_frame (g * PAGE) s1 in
    spaces_rep n s2 AL1 ∧ v_active s2 = v_active s ∧ v_kernel s2 = v_kernel s ∧ g ∈ fa_free (frames (v_heap s2)) ∧
    fa_managed (frames (v_heap s2)) = fa_managed (frames (v_heap s)) ∧
    ∀ y w, as_translate n y w s2 = if decide (y = user_space a) then None else as_translate n y w s.
Proof.
  intros Hs Ha HF Hc. destruct (destroy_rep n s AL a r Hs Ha) as (s1 & AL1 & E & Hs1 & Hfree & Hman1 & Hmem & Hact & _ & Hroot).
  pose proof (destroy_arenas n _ _ _ E) as Har. exists s1, AL1. split; [by rewrite vm_destroy_law|].
  destruct (HF g) as (Hm & Hnf & H0 & Hno); [by apply elem_of_singleton|].
  assert (data_frames n s1 {[g]}) as HF1.
  { intros h ->%elem_of_singleton. split_and!; [| |done|].
    - by rewrite Hman1.
    - rewrite Hfree. intros [(t & Ht & ->)%elem_of_frames_of|?]%elem_of_union; [|done].
      destruct (sp_tree _ _ _ Hs (user_space a) r Ha) as (_ & _ & Ho). destruct (Ho t Ht) as (Hta & _).
      apply (Hno (user_space a) r Ha). by rewrite <- (aligned_frame t Hta).
    - intros y ry. rewrite Hroot, Hmem. case_decide; [done|]. apply Hno. }
  assert (heap_clear (v_heap s1) {[g]}) as Hc1 by (intros b ar; rewrite Har; apply Hc).
  destruct (free_step n s1 AL1 g Hs1 HF1 Hc1) as (Hs2 & Hf2 & Hman2 & Htr2).
  split; [exact Hs2|]. split; [exact Hact|]. split; [|split; [|split]].
  - specialize (Hroot kernel_space). rewrite decide_False in Hroot by done. by injection Hroot.
  - unfold pmm_free_frame. rewrite Hf2. apply elem_of_union_l, elem_of_singleton. done.
  - unfold pmm_free_frame. by rewrite Hman2.
  - intros y w. unfold pmm_free_frame. rewrite Htr2. unfold as_translate. rewrite Hroot, Hmem. by case_decide.
Qed.

(** The test from the state [s1] that vmm_create leaves, when there is memory. *)
Lemma selftest_step s AL test_va x1 s1 :
  spaces_rep n s AL → ready n Create s → 0 <= test_va < span n → test_va mod PAGE = 0 →
  path_open n (v_mem s) (v_kernel s) (va_index test_va) = true →
  vm_create s = Some (x1, s1) → (S n <= size (fa_free (frames (v_heap s1))))%nat →
  vm_translate kernel_space test_va s = Some 0 →
  ∃ s' AL', vmm_selftest test_va s = Some (true, s') ∧ spaces_rep n s' AL' ∧ v_active s' = v_kernel s' ∧
    (pmm_alloc_frame s1).1 / PAGE ∈ fa_free (frames (v_heap s')) ∧
    fa_managed (frames (v_heap s')) = fa_managed (frames (v_heap s)) ∧
    ∀ y w, 0 <= w < span n → vm_translate y w s' = vm_translate y w s.
Proof.
  intros Hs Hready Hva Hal Hopen Hcreate Hsz Hk. unfold vmm_selftest.
  rewrite Hk. cbn [mbind option_bind Z.eqb negb].
  destruct (create_step n s AL Hs Hready) as (s1' & AL1 & a & c & E & Hs1 & Hc & Hnone & Htr & Hop & _ & _ & Hman1).
  rewrite vm_create_law, E in Hcreate. injection Hcreate as <- <-. rewrite vm_create_law, E. cbn [mbind option_bind].
  destruct (pmm_alloc_frame s1') as [f p] eqn:Ef.
  destruct (selftest_write s1' AL1 (user_space a) c test_va f p Hs1 Hc) as
    (g & s2 & s4 & -> & Hg0 & Hgf & E2 & E3 & E4 & Es4 & Hs4 & HF4 & Har & Hman4 & Hroot4 & Htr4); try done; [by apply Hop; [apply va_index_range|]|].
  assert (g * PAGE ≠ 0) as Hg by (unfold PAGE; lia). rewrite (proj2 (truth_nonzero _) Hg). cbn [negb].
  rewrite E2. cbn [mbind option_bind]. rewrite E3. cbn [mbind option_bind].
  set (s3 := mk_vmm _ _ _ _ c). assert (vm_translate (user_space a) test_va s3 = Some (g * PAGE)) as -> by (rewrite <- E4, !vm_translate_law; done).
  cbn [mbind option_bind]. rewrite (proj2 (Z.eqb_neq _ _) Hg).
  cbn [v_mem with_mem s3]. rewrite ld32_st32, Z.eqb_refl by (unfold in_u; lia).
  rewrite vm_switch_law. cbn [as_root with_mem v_kernel v_mem v_heap v_spaces fmap option_fmap option_map mbind option_bind s3].
  rewrite <- Es4, !vm_translate_law, !Htr4 by done.
  rewrite (decide_True (P := user_space a = user_space a ∧ _)), decide_False by (done || by intros [H0 _]).
  assert (as_translate n kernel_space test_va s1' = Some 0) as -> by (rewrite Htr, decide_False, <- vm_translate_law; done).
  cbn [mbind option_bind]. rewrite Hal, Z.add_0_r, Z.lor_0_r, !Z.eqb_refl. cbn [andb].
  assert (heap_clear (v_heap s4) {[g]}) as Hcl.
  { intros b ar. rewrite Har. intros Hb h ->%elem_of_singleton. by apply (sp_free _ _ _ Hs1 b ar Hb). }
  assert (v_spaces s4 !! a = Some c) as Ha by (change (as_root s4 (user_space a) = Some c); by rewrite Hroot4).
  destruct (selftest_cleanup s4 AL1 a c g Hs4 Ha HF4 Hcl) as (s5 & AL5 & -> & Hs5 & Hact & Hker & Hfr & Hman5 & Htr5).
  cbn [mbind option_bind]. eexists _, AL5. split; [done|]. split; [exact Hs5|]. split; [|split; [|split]].
  - rewrite Hact, Hker. by rewrite Es4.
  - cbn [fst]. rewrite (proj2 (frame_aligned g)). exact Hfr.
  - by rewrite Hman5, Hman4.
  - intros y w Hw. rewrite !vm_translate_law, Htr5. case_decide as Hy.
    + subst y. unfold as_translate. cbn [as_root]. by rewrite Hnone.
    + rewrite Htr4, Htr by done. rewrite decide_False by (intros [H0 _]; done). by rewrite decide_False.
Qed.

(** When the frames have run out once the space exists, the test fails and leaves the space
    behind. *)
Lemma selftest_out_of_frames s AL test_va x1 s1 :
  spaces_rep n s AL → ready n Create s → vm_create s = Some (x1, s1) → fa_free (frames (v_heap s1)) = ∅ →
  vm_translate kernel_space test_va s = Some 0 →
  vmm_selftest test_va s = Some (false, s1) ∧ (∃ AL', spaces_rep n s1 AL') ∧
  vm_translate x1 test_va s = None ∧ vm_translate x1 test_va s1 = Some 0.
Proof.
  intros Hs Hready Hcreate Hempty Hk.
  destruct (create_step n s AL Hs Hready) as (s1' & AL1 & a & c & E & Hs1 & Hc & Hnone & Htr & _).
  pose proof Hcreate as E'. rewrite vm_create_law, E in E'. injection E' as <- <-.
  unfold vmm_selftest. rewrite Hk. cbn [mbind option_bind Z.eqb negb]. rewrite Hcreate. cbn [mbind option_bind].
  unfold pmm_alloc_frame.
  destruct (alloc_frame_law (frames (v_heap s1')) (proj1 (sp_pool _ _ _ Hs1))) as [[_ ->]|(f & p & Hf & _)]; [|set_solver].
  split; [|split; [by exists AL1|]].
  - cbn. do 2 f_equal. destruct s1' as [? [] ? ? ?]. done.
  - rewrite !vm_translate_law, Htr, decide_True by done. rewrite vm_translate_law in Hk. split; [|exact Hk].
    unfold as_translate. cbn [as_root]. by rewrite Hnone.
Qed.

End proofs.
