(* ===== verification/VmmX86.v ===== *)
(** * Virtual memory on x86_64: arch/x86_64/mm/vmm.c

    The code's functions, as it writes them: four unrolled levels (PML4, PDPT, PD, PT), a
    pointer to a table is its physical address and 0 is NULL.  Then they are shown equal
    to the walks of PageTable.v at four levels, and inherit their theorems through
    AddressSpace.v. *)

From S2P Require Import Prelude.
From S2P Require Import FrameAlloc.
From S2P Require Import Pmm.
From S2P Require Import Heap.
From S2P Require Import PageTable.
From S2P Require Import AddressSpace.

Definition VMM_PRESENT : Z := 1 ≪ 0.
Definition VMM_WRITABLE : Z := 1 ≪ 1.
Definition VMM_USER : Z := 1 ≪ 2.
Definition VMM_HUGE : Z := 1 ≪ 7.
Definition ADDR_MASK : Z := 0x000FFFFFFFFFF000.

(** ** The code *)

Section code.
Context {St : Type} `{!FrameOps St}.

Definition get_or_create_table (parent index flags : Z) (s : pm St) : Z * pm St :=
  if truth (ent (words s) parent index .& VMM_HUGE) then (0, s) else
  let s :=
    if negb (truth (ent (words s) parent index .& VMM_PRESENT)) then
      let '(frame, pool) := alloc_frame (pool s) in
      let m := zeroed_table frame (words s) in
      mk_pm (st64 m (parent + 8 * index) (frame .| VMM_PRESENT .| VMM_WRITABLE .| (flags .& VMM_USER))) pool
    else if truth (flags .& VMM_USER) then
      store64 (parent + 8 * index) (ent (words s) parent index .| VMM_USER) s
    else s in
  (ent (words s) parent index .& ADDR_MASK, s).

Fixpoint clone_table_level (src : Z) (level : nat) (s : pm St) {struct level} : Z * pm St :=
  let '(new_frame, pool) := alloc_frame (pool s) in
  let s := mk_pm (zeroed_table new_frame (words s)) pool in
  let dst := new_frame in
  (dst, for_up 0 512 (λ i s,
     if negb (truth (ent (words s) src i .& VMM_PRESENT)) then s else
     let leaf := (level =? 1)%nat || truth (ent (words s) src i .& VMM_HUGE) in
     if leaf then store64 (dst + 8 * i) (ent (words s) src i) s else
     match level with
     | O => s
     | S level =>
         let child_src := ent (words s) src i .& ADDR_MASK in
         let '(child_dst, s) := clone_table_level child_src level s in
         store64 (dst + 8 * i) ((child_dst .& ADDR_MASK) .| (ent (words s) src i .& 0xFFF)) s
     end) s).

Fixpoint free_table_level (table : Z) (level : nat) (s : pm St) {struct level} : pm St :=
  let s :=
    match level with
    | S (S _ as level) =>
        for_up 0 512 (λ i s,
          if truth (ent (words s) table i .& VMM_PRESENT) && negb (truth (ent (words s) table i .& VMM_HUGE))
          then free_table_level (ent (words s) table i .& ADDR_MASK) level s else s) s
    | _ => s
    end in
  mk_pm (words s) (free_frame table (pool s)).

Definition vmm_init (s : vmm St) : vmm St :=
  mk_vmm (v_mem s) (v_heap s) (v_spaces s) (v_active s .& ADDR_MASK) (v_active s).

Definition vmm_kernel_space : as_ptr := kernel_space.

Definition vmm_create_address_space (s : vmm St) : option (as_ptr * vmm St) :=
  let kernel_pml4 := v_kernel s in
  let '(new_pml4, p) := clone_table_level kernel_pml4 4 (v_pm s) in
  let s := with_pm s p in
  '(as_, h) ← kmalloc sizeof_address_space (v_heap s);
  Some (user_space as_, mk_vmm (v_mem s) h (<[as_ := new_pml4]> (v_spaces s)) (v_kernel s) (v_active s)).

Definition vmm_destroy_address_space (as_ : as_ptr) (s : vmm St) : option (vmm St) :=
  match as_ with
  | kernel_space => Some s
  | user_space p =>
      pml4 ← v_spaces s !! p;
      let s := with_pm s (free_table_level pml4 4 (v_pm s)) in
      h ← kfree p (v_heap s);
      Some (mk_vmm (v_mem s) h (delete p (v_spaces s)) (v_kernel s) (v_active s))
  end.

Definition vmm_map (as_ : as_ptr) (virt phys flags : Z) (s : vmm St) : option (vmm St) :=
  pml4 ← as_root s as_;
  let i4 := (virt ≫ 39) .& 0x1FF in
  let i3 := (virt ≫ 30) .& 0x1FF in
  let i2 := (virt ≫ 21) .& 0x1FF in
  let i1 := (virt ≫ 12) .& 0x1FF in
  let '(pdpt, p) := get_or_create_table pml4 i4 flags (v_pm s) in
  if pdpt =? 0 then Some (with_pm s p) else
  let '(pd, p) := get_or_create_table pdpt i3 flags p in
  if pd =? 0 then Some (with_pm s p) else
  let '(pt, p) := get_or_create_table pd i2 flags p in
  if pt =? 0 then Some (with_pm s p) else
  Some (with_pm s (store64 (pt + 8 * i1)
    ((phys .& ADDR_MASK) .| (flags .& (VMM_PRESENT .| VMM_WRITABLE .| VMM_USER))) p)).

(** The test the walks make before they go down through an entry. *)
Definition no_table (e : Z) : bool := negb (truth (e .& VMM_PRESENT)) || truth (e .& VMM_HUGE).

(** The invlpg after the store concerns the TLB, which is not modelled. *)
Definition vmm_unmap (as_ : as_ptr) (virt : Z) (s : vmm St) : option (vmm St) :=
  pml4 ← as_root s as_;
  let m := v_mem s in
  let i4 := (virt ≫ 39) .& 0x1FF in
  let i3 := (virt ≫ 30) .& 0x1FF in
  let i2 := (virt ≫ 21) .& 0x1FF in
  let i1 := (virt ≫ 12) .& 0x1FF in
  if no_table (ent m pml4 i4) then Some s else
  let pdpt := ent m pml4 i4 .& ADDR_MASK in
  if no_table (ent m pdpt i3) then Some s else
  let pd := ent m pdpt i3 .& ADDR_MASK in
  if no_table (ent m pd i2) then Some s else
  let pt := ent m pd i2 .& ADDR_MASK in
  Some (with_pm s (store64 (pt + 8 * i1) 0 (v_pm s))).

Definition vmm_translate (as_ : as_ptr) (virt : Z) (s : vmm St) : option Z :=
  pml4 ← as_root s as_;
  let m := v_mem s in
  let i4 := (virt ≫ 39) .& 0x1FF in
  let i3 := (virt ≫ 30) .& 0x1FF in
  let i2 := (virt ≫ 21) .& 0x1FF in
  let i1 := (virt ≫ 12) .& 0x1FF in
  if no_table (ent m pml4 i4) then Some 0 else
  let pdpt := ent m pml4 i4 .& ADDR_MASK in
  if no_table (ent m pdpt i3) then Some 0 else
  let pd := ent m pdpt i3 .& ADDR_MASK in
  if no_table (ent m pd i2) then Some 0 else
  let pt := ent m pd i2 .& ADDR_MASK in
  if negb (truth (ent m pt i1 .& VMM_PRESENT)) then Some 0 else
  Some ((ent m pt i1 .& ADDR_MASK) .| (virt .& 0xFFF)).

Definition vmm_switch (as_ : as_ptr) (s : vmm St) : option (vmm St) :=
  root ← as_root s as_; Some (mk_vmm (v_mem s) (v_heap s) (v_spaces s) (v_kernel s) root).
End code.

(** ** The entry format *)

Definition x86_format : PtFormat := {|
  e_valid e := truth (e .& VMM_PRESENT);
  e_table e := truth (e .& VMM_PRESENT) && negb (truth (e .& VMM_HUGE));
  e_block e := truth (e .& VMM_HUGE);
  e_addr e := e .& ADDR_MASK;
  e_link fl a := a .| VMM_PRESENT .| VMM_WRITABLE .| (fl .& VMM_USER);
  e_widen fl e := if truth (fl .& VMM_USER) then e .| VMM_USER else e;
  e_clone c e := (c .& ADDR_MASK) .| (e .& 0xFFF);
  e_frames := 2 ^ 40
|}.
#[local] Existing Instance x86_format.

Lemma ADDR_MASK_ones : ADDR_MASK = Z.ones 40 ≪ 12.
Proof. reflexivity. Qed.

Ltac entry_bits :=
  change VMM_PRESENT with 1 in *; change VMM_WRITABLE with 2 in *; change VMM_USER with 4 in *;
  change VMM_HUGE with 128 in *;
  rewrite ?Z.land_lor_distr_l, <- ?Z.land_assoc, ?land_page_low by (unfold PAGE; lia).

Lemma x86_laws : PtLaws.
Proof.
  split; cbn [e_valid e_table e_block e_addr e_link e_widen e_clone e_frames x86_format].
  - done.
  - intros e [-> Hh]%andb_true_iff. split; [done|]. by apply negb_true_iff.
  - intros e -> ->. done.
  - intros e. rewrite ADDR_MASK_ones. apply land_mask_aligned.
  - intros fl f Hf. rewrite ADDR_MASK_ones. split.
    + entry_bits. cbn. by rewrite !Z.land_0_r.
    + rewrite !Z.land_lor_distr_l, land_page_mask, <- Z.land_assoc by lia. cbn. rewrite Z.land_0_r. by rewrite !Z.lor_0_r.
  - intros fl e He. case_if; [|done]. rewrite !Z.land_lor_distr_l. cbn. by rewrite !Z.lor_0_r.
  - intros e f Hf He. rewrite ADDR_MASK_ones, land_page_mask by lia. split.
    + entry_bits. by cbn.
    + rewrite !Z.land_lor_distr_l, land_page_mask, <- Z.land_assoc by lia. cbn. rewrite Z.land_0_r. by rewrite Z.lor_0_r.
Qed.
#[local] Existing Instance x86_laws.

(** ** The code is the walks *)

Section proofs.
Context {St : Type} `{OPS : !FrameOps St, FL : !FrameLaws St}.
Implicit Types (s : vmm St) (p : pm St).

Lemma get_or_create_table_eq parent index flags p :
  get_or_create_table parent index flags p = get_or_create flags parent index p.
Proof.
  unfold get_or_create_table, get_or_create. cbn [e_block e_valid e_addr e_link e_widen x86_format].
  case_if; [done|]. destruct (truth (ent (words p) parent index .& VMM_PRESENT)) eqn:Hv; cbn [negb].
  - case_if; [done|]. unfold ent in *. rewrite st64_same; [by destruct p|]. intros Hz. by rewrite Hz in Hv.
  - by destruct (alloc_frame (pool p)).
Qed.

(** One level of the clone, with the recursive call as a parameter. *)
Definition clone_body (last : bool) (child : Z → pm St → Z * pm St) (src dst i : Z) p : pm St :=
  if negb (truth (ent (words p) src i .& VMM_PRESENT)) then p else
  if last || truth (ent (words p) src i .& VMM_HUGE)
  then store64 (dst + 8 * i) (ent (words p) src i) p
  else let '(c, p) := child (ent (words p) src i .& ADDR_MASK) p in
       store64 (dst + 8 * i) ((c .& ADDR_MASK) .| (ent (words p) src i .& 0xFFF)) p.

Lemma clone_table_level_S src n p :
  clone_table_level src (S n) p =
  let '(dst, q) := alloc_frame (pool p) in
  (dst, for_up 0 512 (clone_body (n =? 0)%nat (λ c, clone_table_level c n) src dst)
          (mk_pm (zeroed_table dst (words p)) q)).
Proof. reflexivity. Qed.

Lemma pt_clone_body src n p :
  pt_clone n src p =
  let '(dst, q) := alloc_frame (pool p) in
  (dst, for_up 0 512 (clone_body (n =? 0)%nat (pt_clone (pred n)) src dst)
          (mk_pm (zeroed_table dst (words p)) q)).
Proof.
  destruct n as [|n].
  - reflexivity.
  - cbn [pt_clone]. destruct (alloc_frame (pool p)) as [dst q]. f_equal. apply for_up_ext. intros i s _.
    unfold clone_body. cbn [e_valid e_table e_addr e_clone x86_format Nat.eqb orb pred].
    case_if; [done|]. apply negb_false_iff in E. rewrite E. cbn [andb].
    by destruct (truth (ent (words s) src i .& VMM_HUGE)).
Qed.

Lemma clone_table_level_eq n src p : clone_table_level src (S n) p = pt_clone n src p.
Proof.
  revert src p. induction n as [|n IH]; intros src p; rewrite clone_table_level_S, pt_clone_body.
  - reflexivity.
  - destruct (alloc_frame (pool p)) as [dst q]. f_equal. apply for_up_ext. intros i s _.
    unfold clone_body. cbn [Nat.eqb orb pred]. by rewrite IH.
Qed.

Lemma free_table_level_eq n t p : free_table_level t (S n) p = pt_free n t p.
Proof.
  revert t p. induction n as [|n IH]; intros t p; cbn [free_table_level pt_free]; [done|].
  rewrite (for_up_ext _ (λ i q, if e_table (ent (words q) t i) then pt_free n (e_addr (ent (words q) t i)) q else q)); [done|].
  intros i q _. cbn [e_table e_addr x86_format]. case_if; [apply IH|done].
Qed.

Lemma vmm_create_eq s : vmm_create_address_space s = as_create 3 s.
Proof. unfold vmm_create_address_space, as_create. by rewrite clone_table_level_eq. Qed.

Lemma vmm_destroy_eq x s : vmm_destroy_address_space x s = as_destroy 3 x s.
Proof.
  destruct x as [|p]; [done|]. cbn [vmm_destroy_address_space as_destroy].
  destruct (v_spaces s !! p); [|done]. cbn [mbind option_bind]. by rewrite free_table_level_eq.
Qed.

(** The entry vmm_map writes, and what it makes an address of the page translate to. *)
Definition leaf_entry (phys flags : Z) : Z :=
  (phys .& ADDR_MASK) .| (flags .& (VMM_PRESENT .| VMM_WRITABLE .| VMM_USER)).

Definition page_phys (phys flags old w : Z) : Z :=
  if truth (flags .& VMM_PRESENT) then (phys .& ADDR_MASK) .| (w .& 0xFFF) else 0.

Lemma vmm_map_eq x virt phys flags s :
  vmm_map x virt phys flags s = as_map 3 x virt flags (Some (leaf_entry phys flags)) s.
Proof.
  unfold vmm_map, as_map. destruct (as_root s x) as [r|]; [|done]. cbn [mbind option_bind pt_map].
  rewrite get_or_create_table_eq. change ((virt ≫ 39) .& 0x1FF) with (va_index virt 3).
  destruct (get_or_create flags r (va_index virt 3) (v_pm s)) as [pdpt p3]. case_if; [done|].
  rewrite get_or_create_table_eq. change ((virt ≫ 30) .& 0x1FF) with (va_index virt 2).
  destruct (get_or_create flags pdpt (va_index virt 2) p3) as [pd p2]. case_if; [done|].
  rewrite get_or_create_table_eq. change ((virt ≫ 21) .& 0x1FF) with (va_index virt 1).
  destruct (get_or_create flags pd (va_index virt 1) p2) as [pt p1]. by case_if.
Qed.

Lemma no_table_eq e : no_table e = negb (e_table e).
Proof. unfold no_table. cbn. by rewrite negb_andb, negb_involutive. Qed.

Lemma vmm_unmap_eq x virt s : vmm_unmap x virt s = as_unmap 3 x virt s.
Proof.
  unfold vmm_unmap, as_unmap. destruct (as_root s x) as [r|]; [|done]. cbn [mbind option_bind pt_unmap].
  assert (with_pm s (v_pm s) = s) as Hid by (by destruct s as [? []]).
  rewrite !no_table_eq. cbn [e_addr x86_format].
  change ((virt ≫ 39) .& 0x1FF) with (va_index virt 3). change ((virt ≫ 30) .& 0x1FF) with (va_index virt 2).
  change ((virt ≫ 21) .& 0x1FF) with (va_index virt 1). cbn [words v_pm].
  do 3 (destruct (e_table _); cbn [negb]; [|by rewrite Hid]). done.
Qed.

Lemma vmm_translate_eq x virt s : vmm_translate x virt s = as_translate 3 x virt s.
Proof.
  unfold vmm_translate, as_translate. destruct (as_root s x) as [r|]; [|done]. cbn [mbind option_bind walk].
  rewrite !no_table_eq. cbn [e_addr x86_format].
  change ((virt ≫ 39) .& 0x1FF) with (va_index virt 3). change ((virt ≫ 30) .& 0x1FF) with (va_index virt 2).
  change ((virt ≫ 21) .& 0x1FF) with (va_index virt 1). change ((virt ≫ 12) .& 0x1FF) with (va_index virt 0).
  do 3 (destruct (e_table _); cbn [negb]; [|done]). rewrite entry_phys_valid.
  unfold entry_phys. cbn [e_valid e_addr x86_format]. by destruct (truth _).
Qed.

Lemma leaf_entry_law phys flags old w :
  leaf_phys (Some (leaf_entry phys flags)) old w = page_phys phys flags old w.
Proof.
  unfold leaf_phys, entry_phys, page_phys, leaf_entry. cbn [e_valid e_addr x86_format].
  assert (((phys .& ADDR_MASK) .| (flags .& (VMM_PRESENT .| VMM_WRITABLE .| VMM_USER))) .& VMM_PRESENT
    = flags .& VMM_PRESENT) as ->.
  { rewrite Z.land_lor_distr_l, <- !Z.land_assoc. cbn. by rewrite Z.land_0_r. }
  case_if; [|done]. rewrite Z.land_lor_distr_l, <- !Z.land_assoc. cbn. by rewrite Z.land_0_r, Z.lor_0_r.
Qed.

(** ** Properties *)

Definition vmm_run (op : aop) s : option (vmm St) :=
  match op with
  | Create => snd <$> vmm_create_address_space s
  | Destroy p => vmm_destroy_address_space (user_space p) s
  | Map x virt phys flags => vmm_map x virt phys flags s
  | Unmap x virt => vmm_unmap x virt s
  end.

(** The spaces of [s] translate the lower half of the address space as [A] says. *)
Definition translates s (A : spaces) : Prop :=
  ∀ x w, 0 <= w < 2 ^ 48 → vmm_translate x w s = (λ f, f w) <$> A x.

Lemma translates_agrees s A : translates s A ↔ agrees 3 s A.
Proof.
  split.
  - intros H x. specialize (H x). destruct (as_root s x) as [r|] eqn:Er, (A x) as [f|] eqn:Ef; try done.
    + intros w Hw. rewrite <- vmm_translate_eq. by apply H.
    + specialize (H 0 ltac:(lia)). rewrite vmm_translate_eq in H. unfold as_translate in H. by rewrite Er in H.
    + specialize (H 0 ltac:(lia)). unfold vmm_translate in H. by rewrite Er in H.
  - intros H x w Hw. specialize (H x). rewrite vmm_translate_eq. unfold as_translate in *.
    destruct (as_root s x), (A x); try done. by apply H.
Qed.

(** C1: the x86_64 address spaces refine their specification.  Whenever the invariant
    holds, create, destroy, map and unmap return, keep the invariant, and change the
    translation functions exactly as the specification says: create adds a copy of the
    kernel's, destroy removes one, map and unmap change the addresses of one page of one
    space, and no other space sees anything of it.  The caller has to provide frames for
    the new tables and memory for the object, and a mapping must not lie in a huge page. *)
Theorem vmm_refines s AL A op :
  spaces_rep 3 s AL → translates s A → ready 3 op s →
  ∃ s' AL' A', vmm_run op s = Some s' ∧ spaces_rep 3 s' AL' ∧
    spec_step page_phys op A A' ∧ translates s' A'.
Proof.
  intros Hs HA Hop. apply translates_agrees in HA.
  destruct (run_refines 3 _ _ leaf_entry_law s AL A op Hs HA Hop) as (s' & AL' & A' & E & Hs' & Hst & HA').
  exists s', AL', A'. split_and!; [|done|done|by apply translates_agrees]. rewrite <- E. destruct op; cbn [vmm_run run].
  - by rewrite vmm_create_eq.
  - apply vmm_destroy_eq.
  - apply vmm_map_eq.
  - apply vmm_unmap_eq.
Qed.

(** C35: creating an address space and destroying it gives back every frame the page
    tables took (the heap keeps what kmalloc asked for) and leaves all translations as
    they were. *)
Theorem vmm_create_destroy s AL x s1 :
  spaces_rep 3 s AL → ready 3 Create s → vmm_create_address_space s = Some (x, s1) →
  ∃ s2, vmm_destroy_address_space x s1 = Some s2 ∧
    fa_free (frames (v_heap s2)) = fa_free (frames (v_heap s)) ∖
      (fa_free (pool (snd (clone_table_level (v_kernel s) 4 (v_pm s)))) ∖ fa_free (frames (v_heap s1))) ∧
    ∀ y w, vmm_translate y w s2 = vmm_translate y w s.
Proof.
  intros Hs Hr. rewrite vmm_create_eq. intros E. rewrite clone_table_level_eq.
  destruct (create_destroy 3 s AL x s1 Hs Hr E) as (s2 & E2 & Hf & Ht). exists s2.
  split; [by rewrite vmm_destroy_eq|]. split; [done|]. intros y w. by rewrite !vmm_translate_eq.
Qed.

(** When the frame allocator is empty, vmm_map does not notice: it clears physical
    page 0, enters it as the page-directory-pointer table, and returns without the
    mapping. *)
Lemma vmm_map_without_frames s x pml4 virt phys flags :
  fa_wf (frames (v_heap s)) → fa_free (frames (v_heap s)) = ∅ →
  as_root s x = Some pml4 → page_aligned pml4 → pml4 ≠ 0 → ent (v_mem s) pml4 ((virt ≫ 39) .& 0x1FF) = 0 →
  ∃ s', vmm_map x virt phys flags s = Some s' ∧
    ent (v_mem s') pml4 ((virt ≫ 39) .& 0x1FF) = VMM_PRESENT .| VMM_WRITABLE .| (flags .& VMM_USER) ∧
    (∀ j, index j → ent (v_mem s') 0 j = 0) ∧ vmm_translate x virt s' = Some 0.
Proof.
  intros Hw Hf Hx Ha Hne He. unfold vmm_map. rewrite Hx. cbn [mbind option_bind].
  change ((virt ≫ 39) .& 0x1FF) with (va_index virt 3) in *.
  assert (index (va_index virt 3)) as Hi by (by apply (va_index_range virt 3)).
  unfold get_or_create_table at 1. cbn [words v_pm]. rewrite He.
  destruct (alloc_frame_law _ Hw) as [[_ E]|(f & s1 & Hin & _)]; [|rewrite Hf in Hin; by apply not_elem_of_empty in Hin].
  cbn [pool v_pm]. rewrite E. cbn [words].
  set (e := 0 .| VMM_PRESENT .| VMM_WRITABLE .| (flags .& VMM_USER)).
  assert (e .& ADDR_MASK = 0) as Hmask.
  { unfold e. rewrite !Z.land_lor_distr_l, <- !Z.land_assoc. cbn. by rewrite Z.land_0_r. }
  change (truth (0 .& VMM_HUGE)) with false. change (truth (0 .& VMM_PRESENT)) with false. cbn [negb words].
  rewrite ent_st64_eq, Hmask by done. cbn [Z.eqb]. eexists. split; [done|].
  assert (page_aligned 0) as H0 by done. split_and!.
  - cbn [v_mem with_pm words]. by rewrite ent_st64_eq.
  - intros j Hj. cbn [v_mem with_pm words]. rewrite ent_st64_ne by (auto || by left; intros <-).
    by rewrite ent_zeroed.
  - unfold vmm_translate. rewrite as_root_with_pm, Hx. cbn [mbind option_bind v_mem with_pm words].
    change ((virt ≫ 39) .& 0x1FF) with (va_index virt 3). rewrite ent_st64_eq, Hmask by done.
    case_if; [done|]. change ((virt ≫ 30) .& 0x1FF) with (va_index virt 2).
    assert (index (va_index virt 2)) as Hi2 by (by apply (va_index_range virt 2)).
    rewrite (ent_st64_ne _ _ _ 0) by (auto || by left; intros <-).
    by rewrite ent_zeroed.
Qed.
End proofs.

(** ** Witnesses *)

(** 80 frames, the first four in use: the boot tables are in frames 1 to 3, with one huge
    page at address 0. *)
Definition boot_pool : pmm := mk_pmm [0x0F; 0; 0; 0; 0; 0; 0; 0; 0; 0] 0 10 80 76.
Definition boot_words : gmap Z Z := st64 (st64 (st64 ∅ 0x1000 0x2003) 0x2000 0x3003) 0x3000 0x83.
Definition boot_vmm : vmm pmm := mk_vmm boot_words (boot_heap boot_pool) ∅ 0x1000 0x1000.
Definition boot_spaces : spaces := λ x,
  match x with kernel_space => Some (λ w, default 0 (vmm_translate kernel_space w boot_vmm)) | _ => None end.

Lemma boot_pool_wf : fa_wf boot_pool.
Proof.
  split; [|by apply (bool_decide_eq_true_1 _); vm_compute].
  split; [simpl; lia|done|done| |by vm_compute]. repeat constructor; unfold in_u; lia.
Qed.

Lemma boot_tables : tables 3 boot_words 0x1000 = [0x1000; 0x2000; 0x3000].
Proof. vm_compute. reflexivity. Qed.

Lemma boot_vmm_rep : spaces_rep 3 boot_vmm [].
Proof.
  apply (boot_kernel_rep 3 boot_pool boot_words 0x1000 0x1000).
  - split; [apply boot_pool_wf|]. intros f. change (fa_managed _) with (frame_range 0 80).
    rewrite elem_of_frame_range. cbn. lia.
  - split; [done|]. cbn [words pool]. rewrite boot_tables.
    split; [by apply (bool_decide_eq_true_1 _); vm_compute|].
    intros t Ht. change (fa_managed _) with (frame_range 0 80). rewrite elem_of_frame_range.
    assert (t = 0x1000 ∨ t = 0x2000 ∨ t = 0x3000) as [->|[->| ->]]
      by (rewrite !elem_of_cons, elem_of_nil in Ht; naive_solver);
      (split_and!; [done|done|done|by apply (bool_decide_eq_true_1 _); vm_compute|done]).
Qed.

Lemma boot_translates : translates boot_vmm boot_spaces.
Proof.
  intros [|p] w Hw; [|done]. cbn [boot_spaces fmap option_fmap option_map].
  rewrite vmm_translate_eq. unfold as_translate. reflexivity.
Qed.

Lemma boot_ready : ready 3 Create boot_vmm.
Proof.
  split; [cbn [v_mem v_kernel boot_vmm]; rewrite boot_tables; apply Nat.leb_le; vm_compute; reflexivity|].
  exists 0x7030. eexists. split; [vm_compute; reflexivity|done].
Qed.

Definition created_vmm : vmm pmm :=
  match vmm_create_address_space boot_vmm with Some (_, s) => s | None => boot_vmm end.

Lemma vmm_refines_witness :
  ∃ AL A, vmm_create_address_space boot_vmm = Some (user_space 0x7030, created_vmm) ∧
    spaces_rep 3 created_vmm AL ∧ spec_step page_phys Create boot_spaces A ∧ translates created_vmm A.
Proof.
  destruct (vmm_refines boot_vmm [] boot_spaces Create boot_vmm_rep boot_translates boot_ready)
    as (s' & AL & A & E & Hs & Hst & HA).
  assert (vmm_create_address_space boot_vmm = Some (user_space 0x7030, created_vmm)) as E1
    by (vm_compute; reflexivity).
  cbn [vmm_run] in E. rewrite E1 in E. cbn [fmap option_fmap option_map snd] in E.
  apply (inj Some) in E. subst s'. exists AL, A. split; [exact E1|]. split; [exact Hs|]. split; [exact Hst|exact HA].
Defined.

Lemma vmm_create_destroy_witness :
  ∃ s2, vmm_destroy_address_space (user_space 0x7030) created_vmm = Some s2 ∧
    ∀ y w, vmm_translate y w s2 = vmm_translate y w boot_vmm.
Proof.
  destruct (vmm_create_destroy boot_vmm [] (user_space 0x7030) created_vmm boot_vmm_rep boot_ready)
    as (s2 & E & _ & Ht); [vm_compute; reflexivity|]. exists s2. split; [exact E|exact Ht].
Defined.

(** No frame is free. *)
Definition full_vmm : vmm pmm :=
  mk_vmm boot_words (boot_heap (mk_pmm [0xFF; 0xFF; 0xFF; 0xFF; 0xFF] 0 5 40 0)) ∅ 0x1000 0x1000.

Lemma vmm_map_without_frames_witness :
  ∃ s', vmm_map kernel_space (2 ^ 40) 0x5000 7 full_vmm = Some s' ∧ ent (v_mem s') 0x1000 2 = 7 ∧
    vmm_translate kernel_space (2 ^ 40) s' = Some 0.
Proof.
  destruct (vmm_map_without_frames full_vmm kernel_space 0x1000 (2 ^ 40) 0x5000 7)
    as (s' & E & He & _ & Ht).
  - split; [|by apply (bool_decide_eq_true_1 _); vm_compute].
    split; [simpl; lia|done|done| |by vm_compute]. repeat constructor; unfold in_u; lia.
  - vm_compute. reflexivity.
  - reflexivity.
  - reflexivity.
  - discriminate.
  - vm_compute. reflexivity.
  - exists s'. split; [exact E|]. split; [exact He|exact Ht].
Defined.
