(* ===== verification/VmmA64.v ===== *)
(** * Virtual memory on aarch64: arch/aarch64/mm/vmm.c and mmu_boot.c

    The code's functions: three unrolled levels (L1, L2, L3), entries whose bit 1 tells a
    table from a block, and access permissions in the AP bits.  Then they are shown equal
    to the walks of PageTable.v at three levels.  aarch64_mmu_init builds the boot map
    these spaces are cloned from. *)

From S2P Require Import Prelude.
From S2P Require Import FrameAlloc.
From S2P Require Import Pmm.
From S2P Require Import Heap.
From S2P Require Import PageTable.
From S2P Require Import AddressSpace.

Definition VMM_PRESENT : Z := 1 ≪ 0.
Definition VMM_WRITABLE : Z := 1 ≪ 1.
Definition VMM_USER : Z := 1 ≪ 2.

Definition ADDR_MASK : Z := 0x0000FFFFFFFFF000.

Definition PTE_VALID : Z := 1 ≪ 0.
Definition PTE_TABLE : Z := 1 ≪ 1.
Definition PTE_AF : Z := 1 ≪ 10.
Definition PTE_SH_INNER : Z := 3 ≪ 8.
Definition PTE_AP_RW_EL1 : Z := 0 ≪ 6.
Definition PTE_AP_RW_EL1_EL0 : Z := 1 ≪ 6.
Definition PTE_AP_RO_EL1 : Z := 2 ≪ 6.
Definition PTE_AP_RO_EL1_EL0 : Z := 3 ≪ 6.
Definition MAIR_NORMAL_IDX : Z := 1.
Definition PTE_ATTR_NORMAL : Z := MAIR_NORMAL_IDX ≪ 2.

Definition leaf_flags (flags : Z) : Z :=
  let user := truth (flags .& VMM_USER) in
  let write := truth (flags .& VMM_WRITABLE) in
  let ap := if user then (if write then PTE_AP_RW_EL1_EL0 else PTE_AP_RO_EL1_EL0)
            else (if write then PTE_AP_RW_EL1 else PTE_AP_RO_EL1) in
  PTE_VALID .| PTE_TABLE .| PTE_AF .| PTE_SH_INNER .| PTE_ATTR_NORMAL .| ap.

(** ** The code *)

Section code.
Context {St : Type} `{!FrameOps St}.

Definition get_or_create_table (parent index : Z) (s : pm St) : Z * pm St :=
  if truth (ent (words s) parent index .& PTE_VALID) && negb (truth (ent (words s) parent index .& PTE_TABLE))
  then (0, s) else
  let s :=
    if negb (truth (ent (words s) parent index .& PTE_VALID)) then
      let '(frame, pool) := alloc_frame (pool s) in
      let m := zeroed_table frame (words s) in
      mk_pm (st64 m (parent + 8 * index) (frame .| PTE_VALID .| PTE_TABLE)) pool
    else s in
  (ent (words s) parent index .& ADDR_MASK, s).

(** [fuel] is 3 - level + 1: the recursion of the code counts levels up to 3. *)
Fixpoint clone_table_level (fuel : nat) (src : Z) (level : Z) (s : pm St) : Z * pm St :=
  let '(new_frame, pool) := alloc_frame (pool s) in
  let s := mk_pm (zeroed_table new_frame (words s)) pool in
  let dst := new_frame in
  (dst, for_up 0 512 (λ i s,
     if negb (truth (ent (words s) src i .& PTE_VALID)) then s else
     let leaf := (level =? 3) || negb (truth (ent (words s) src i .& PTE_TABLE)) in
     if leaf then store64 (dst + 8 * i) (ent (words s) src i) s else
     match fuel with
     | O => s
     | S fuel =>
         let child_src := ent (words s) src i .& ADDR_MASK in
         let '(child_dst, s) := clone_table_level fuel child_src (level + 1) s in
         store64 (dst + 8 * i) ((child_dst .& ADDR_MASK) .| PTE_VALID .| PTE_TABLE) s
     end) s).

Fixpoint free_table_level (fuel : nat) (table : Z) (level : Z) (s : pm St) : pm St :=
  let s :=
    if level <? 3 then
      for_up 0 512 (λ i s,
        if truth (ent (words s) table i .& PTE_VALID) && truth (ent (words s) table i .& PTE_TABLE)
        then match fuel with
             | O => s
             | S fuel => free_table_level fuel (ent (words s) table i .& ADDR_MASK) (level + 1) s
             end
        else s) s
    else s in
  mk_pm (words s) (free_frame table (pool s)).

Definition vmm_init (s : vmm St) : vmm St :=
  mk_vmm (v_mem s) (v_heap s) (v_spaces s) (v_active s .& ADDR_MASK) (v_active s).

Definition vmm_kernel_space : as_ptr := kernel_space.

Definition vmm_create_address_space (s : vmm St) : option (as_ptr * vmm St) :=
  let kernel_l1 := v_kernel s in
  let '(new_l1, p) := clone_table_level 3 kernel_l1 1 (v_pm s) in
  let s := with_pm s p in
  '(as_, h) ← kmalloc sizeof_address_space (v_heap s);
  Some (user_space as_, mk_vmm (v_mem s) h (<[as_ := new_l1]> (v_spaces s)) (v_kernel s) (v_active s)).

Definition vmm_destroy_address_space (as_ : as_ptr) (s : vmm St) : option (vmm St) :=
  match as_ with
  | kernel_space => Some s
  | user_space p =>
      l1 ← v_spaces s !! p;
      let s := with_pm s (free_table_level 3 l1 1 (v_pm s)) in
      h ← kfree p (v_heap s);
      Some (mk_vmm (v_mem s) h (delete p (v_spaces s)) (v_kernel s) (v_active s))
  end.

Definition vmm_map (as_ : as_ptr) (virt phys flags : Z) (s : vmm St) : option (vmm St) :=
  l1 ← as_root s as_;
  let i1 := (virt ≫ 30) .& 0x1FF in
  let i2 := (virt ≫ 21) .& 0x1FF in
  let i3 := (virt ≫ 12) .& 0x1FF in
  let '(l2, p) := get_or_create_table l1 i1 (v_pm s) in
  if l2 =? 0 then Some (with_pm s p) else
  let '(l3, p) := get_or_create_table l2 i2 p in
  if l3 =? 0 then Some (with_pm s p) else
  if negb (truth (flags .& VMM_PRESENT)) then Some (with_pm s p) else
  Some (with_pm s (store64 (l3 + 8 * i3) ((phys .& ADDR_MASK) .| leaf_flags flags) p)).

(** The test the walks make before they go down through an entry. *)
Definition no_table (e : Z) : bool := negb (truth (e .& PTE_VALID)) || negb (truth (e .& PTE_TABLE)).

(** The TLB invalidation after the store is not modelled. *)
Definition vmm_unmap (as_ : as_ptr) (virt : Z) (s : vmm St) : option (vmm St) :=
  l1 ← as_root s as_;
  let m := v_mem s in
  let i1 := (virt ≫ 30) .& 0x1FF in
  let i2 := (virt ≫ 21) .& 0x1FF in
  let i3 := (virt ≫ 12) .& 0x1FF in
  if no_table (ent m l1 i1) then Some s else
  let l2 := ent m l1 i1 .& ADDR_MASK in
  if no_table (ent m l2 i2) then Some s else
  let l3 := ent m l2 i2 .& ADDR_MASK in
  Some (with_pm s (store64 (l3 + 8 * i3) 0 (v_pm s))).

Definition vmm_translate (as_ : as_ptr) (virt : Z) (s : vmm St) : option Z :=
  l1 ← as_root s as_;
  let m := v_mem s in
  let i1 := (virt ≫ 30) .& 0x1FF in
  let i2 := (virt ≫ 21) .& 0x1FF in
  let i3 := (virt ≫ 12) .& 0x1FF in
  if no_table (ent m l1 i1) then Some 0 else
  let l2 := ent m l1 i1 .& ADDR_MASK in
  if no_table (ent m l2 i2) then Some 0 else
  let l3 := ent m l2 i2 .& ADDR_MASK in
  if negb (truth (ent m l3 i3 .& PTE_VALID)) then Some 0 else
  Some ((ent m l3 i3 .& ADDR_MASK) .| (virt .& 0xFFF)).

Definition vmm_switch (as_ : as_ptr) (s : vmm St) : option (vmm St) :=
  root ← as_root s as_; Some (mk_vmm (v_mem s) (v_heap s) (v_spaces s) (v_kernel s) root).
End code.

(** ** The boot map: mmu_boot.c *)

Definition MAIR_DEVICE_IDX : Z := 0.
Definition MAIR_DEVICE_NGNRNE : Z := 0x00.
Definition MAIR_NORMAL_WB : Z := 0xFF.
Definition PTE_AP_RW_EL1_ONLY : Z := 0 ≪ 6.
Definition PTE_ATTR (idx : Z) : Z := idx ≪ 2.
Definition PTE_PXN : Z := 1 ≪ 53.
Definition PTE_UXN : Z := 1 ≪ 54.

Record mmu_regs := mk_mmu_regs { mair_el1 : Z; tcr_el1 : Z; ttbr0_el1 : Z; sctlr_el1 : Z }.

(** [boot_l1_table] is the address of the static table. *)
Definition aarch64_mmu_init (boot_l1_table : Z) (m : gmap Z Z) (r : mmu_regs) : gmap Z Z * mmu_regs :=
  let m := st64 m (boot_l1_table + 8 * 0) (0x00000000 .| PTE_VALID .| PTE_AF .| PTE_SH_INNER .|
             PTE_AP_RW_EL1_ONLY .| PTE_ATTR MAIR_DEVICE_IDX .| PTE_PXN .| PTE_UXN) in
  let m := st64 m (boot_l1_table + 8 * 1) (0x40000000 .| PTE_VALID .| PTE_AF .| PTE_SH_INNER .|
             PTE_AP_RW_EL1_ONLY .| PTE_ATTR MAIR_NORMAL_IDX) in
  let mair := (MAIR_NORMAL_WB ≪ (8 * MAIR_NORMAL_IDX)) .| (MAIR_DEVICE_NGNRNE ≪ (8 * MAIR_DEVICE_IDX)) in
  let tcr := 25 .| (1 ≪ 8) .| (1 ≪ 10) .| (3 ≪ 12) .| (0 ≪ 14) .| (1 ≪ 23) .| (1 ≪ 32) in
  (m, mk_mmu_regs mair tcr boot_l1_table (sctlr_el1 r .| (1 ≪ 0) .| (1 ≪ 2) .| (1 ≪ 12))).

(** ** The entry format *)

Definition a64_format : PtFormat := {|
  e_valid e := truth (e .& PTE_VALID);
  e_table e := truth (e .& PTE_VALID) && truth (e .& PTE_TABLE);
  e_block e := truth (e .& PTE_VALID) && negb (truth (e .& PTE_TABLE));
  e_addr e := e .& ADDR_MASK;
  e_link _ a := a .| PTE_VALID .| PTE_TABLE;
  e_widen _ e := e;
  e_clone c _ := (c .& ADDR_MASK) .| PTE_VALID .| PTE_TABLE;
  e_frames := 2 ^ 36
|}.
#[local] Existing Instance a64_format.

Lemma a64_ADDR_MASK_ones : ADDR_MASK = Z.ones 36 ≪ 12.
Proof. reflexivity. Qed.

Lemma link_bits f : 0 <= f < 2 ^ 36 →
  let e := (f * PAGE) .| PTE_VALID .| PTE_TABLE in
  truth (e .& PTE_VALID) && truth (e .& PTE_TABLE) = true ∧ e .& ADDR_MASK = f * PAGE.
Proof.
  intros Hf e. unfold e. rewrite a64_ADDR_MASK_ones. change PTE_VALID with 1. change PTE_TABLE with 2. split.
  - rewrite !Z.land_lor_distr_l, !land_page_low by (unfold PAGE; lia). reflexivity.
  - rewrite !Z.land_lor_distr_l, land_page_mask by lia. cbn. by rewrite !Z.lor_0_r.
Qed.

Lemma a64_laws : PtLaws.
Proof.
  split; cbn [e_valid e_table e_block e_addr e_link e_widen e_clone e_frames a64_format].
  - done.
  - intros e [-> ->]%andb_true_iff. done.
  - intros e ->. by destruct (truth (e .& PTE_TABLE)).
  - intros e. rewrite a64_ADDR_MASK_ones. apply land_mask_aligned.
  - intros _ f Hf. by apply link_bits.
  - done.
  - intros e f Hf _. assert ((f * PAGE) .& ADDR_MASK = f * PAGE) as -> by (rewrite a64_ADDR_MASK_ones; by apply land_page_mask).
    by apply link_bits.
Qed.
#[local] Existing Instance a64_laws.

(** ** The code is the walks *)

Section proofs.
Context {St : Type} `{OPS : !FrameOps St, FL : !FrameLaws St}.
Implicit Types (s : vmm St) (p : pm St).

Lemma a64_get_or_create_table_eq flags parent index p :
  get_or_create_table parent index p = get_or_create flags parent index p.
Proof.
  unfold get_or_create_table, get_or_create. cbn [e_block e_valid e_addr e_link e_widen a64_format].
  case_if; [done|]. destruct (truth (ent (words p) parent index .& PTE_VALID)) eqn:Hv; cbn [negb].
  - unfold ent in *. rewrite st64_same; [by destruct p|]. intros Hz. by rewrite Hz in Hv.
  - by destruct (alloc_frame (pool p)).
Qed.

(** One level of the clone, with the recursive call as a parameter. *)
Definition clone_body (last : bool) (child : Z → pm St → Z * pm St) (src dst i : Z) p : pm St :=
  if negb (truth (ent (words p) src i .& PTE_VALID)) then p else
  if last || negb (truth (ent (words p) src i .& PTE_TABLE))
  then store64 (dst + 8 * i) (ent (words p) src i) p
  else let '(c, p) := child (ent (words p) src i .& ADDR_MASK) p in
       store64 (dst + 8 * i) ((c .& ADDR_MASK) .| PTE_VALID .| PTE_TABLE) p.

Lemma a64_clone_table_level_S n src level p :
  clone_table_level (S n) src level p =
  let '(dst, q) := alloc_frame (pool p) in
  (dst, for_up 0 512 (clone_body (level =? 3) (λ c, clone_table_level n c (level + 1)) src dst)
          (mk_pm (zeroed_table dst (words p)) q)).
Proof. reflexivity. Qed.

Lemma a64_pt_clone_body src n p :
  pt_clone n src p =
  let '(dst, q) := alloc_frame (pool p) in
  (dst, for_up 0 512 (clone_body (n =? 0)%nat (pt_clone (pred n)) src dst)
          (mk_pm (zeroed_table dst (words p)) q)).
Proof.
  destruct n as [|n].
  - reflexivity.
  - cbn [pt_clone]. destruct (alloc_frame (pool p)) as [dst q]. f_equal. apply for_up_ext. intros i s _.
    unfold clone_body. cbn [e_valid e_table e_addr e_clone a64_format Nat.eqb orb pred].
    case_if; [done|]. apply negb_false_iff in E. rewrite E. cbn [andb].
    by destruct (truth (ent (words s) src i .& PTE_TABLE)).
Qed.

Lemma a64_clone_table_level_eq n src p : clone_table_level (S n) src (3 - Z.of_nat n) p = pt_clone n src p.
Proof.
  revert src p. induction n as [|n IH]; intros src p; rewrite a64_clone_table_level_S, a64_pt_clone_body.
  - reflexivity.
  - destruct (alloc_frame (pool p)) as [dst q]. f_equal. apply for_up_ext. intros i s _.
    unfold clone_body. rewrite (proj2 (Z.eqb_neq (3 - Z.of_nat (S n)) 3)) by lia. cbn [Nat.eqb orb pred].
    replace (3 - Z.of_nat (S n) + 1) with (3 - Z.of_nat n) by lia. by rewrite IH.
Qed.

Lemma a64_free_table_level_eq n t p : free_table_level (S n) t (3 - Z.of_nat n) p = pt_free n t p.
Proof.
  revert t p. induction n as [|n IH]; intros t p; [reflexivity|].
  cbn [free_table_level pt_free]. rewrite (proj2 (Z.ltb_lt (3 - Z.of_nat (S n)) 3)) by lia.
  rewrite (for_up_ext _ (λ i q, if e_table (ent (words q) t i) then pt_free n (e_addr (ent (words q) t i)) q else q)); [done|].
  intros i q _. replace (3 - Z.of_nat (S n) + 1) with (3 - Z.of_nat n) by lia.
  rewrite <- IH. by cbn [e_table e_addr a64_format].
Qed.

Lemma a64_vmm_create_eq s : vmm_create_address_space s = as_create 2 s.
Proof. unfold vmm_create_address_space, as_create. by rewrite <- a64_clone_table_level_eq. Qed.

Lemma a64_vmm_destroy_eq x s : vmm_destroy_address_space x s = as_destroy 2 x s.
Proof.
  destruct x as [|p]; [done|]. cbn [vmm_destroy_address_space as_destroy].
  destruct (v_spaces s !! p); [|done]. cbn [mbind option_bind]. by rewrite <- a64_free_table_level_eq.
Qed.

(** What an address of the page translates to after vmm_map: without VMM_PRESENT the
    function returns before it writes the entry. *)
Definition page_phys (phys flags old w : Z) : Z :=
  if truth (flags .& VMM_PRESENT) then (phys .& ADDR_MASK) .| (w .& 0xFFF) else old.

Definition leaf_entry (phys flags : Z) : option Z :=
  if truth (flags .& VMM_PRESENT) then Some ((phys .& ADDR_MASK) .| leaf_flags flags) else None.

Lemma a64_vmm_map_eq x virt phys flags s :
  vmm_map x virt phys flags s = as_map 2 x virt flags (leaf_entry phys flags) s.
Proof.
  unfold vmm_map, as_map. destruct (as_root s x) as [r|]; [|done]. cbn [mbind option_bind pt_map].
  rewrite (a64_get_or_create_table_eq flags). change ((virt ≫ 30) .& 0x1FF) with (va_index virt 2).
  destruct (get_or_create flags r (va_index virt 2) (v_pm s)) as [l2 p2]. case_if; [done|].
  rewrite (a64_get_or_create_table_eq flags). change ((virt ≫ 21) .& 0x1FF) with (va_index virt 1).
  destruct (get_or_create flags l2 (va_index virt 1) p2) as [l3 p1]. case_if; [done|].
  unfold leaf_entry. by destruct (truth (flags .& VMM_PRESENT)).
Qed.

Lemma a64_no_table_eq e : no_table e = negb (e_table e).
Proof. unfold no_table. cbn. by rewrite negb_andb. Qed.

Lemma a64_vmm_unmap_eq x virt s : vmm_unmap x virt s = as_unmap 2 x virt s.
Proof.
  unfold vmm_unmap, as_unmap. destruct (as_root s x) as [r|]; [|done]. cbn [mbind option_bind pt_unmap].
  assert (with_pm s (v_pm s) = s) as Hid by (by destruct s as [? []]).
  rewrite !a64_no_table_eq. cbn [e_addr a64_format]. change ((virt ≫ 30) .& 0x1FF) with (va_index virt 2).
  change ((virt ≫ 21) .& 0x1FF) with (va_index virt 1). cbn [words v_pm].
  do 2 (destruct (e_table _); cbn [negb]; [|by rewrite Hid]). done.
Qed.

Lemma a64_vmm_translate_eq x virt s : vmm_translate x virt s = as_translate 2 x virt s.
Proof.
  unfold vmm_translate, as_translate. destruct (as_root s x) as [r|]; [|done]. cbn [mbind option_bind walk].
  rewrite !a64_no_table_eq. cbn [e_addr a64_format]. change ((virt ≫ 30) .& 0x1FF) with (va_index virt 2).
  change ((virt ≫ 21) .& 0x1FF) with (va_index virt 1). change ((virt ≫ 12) .& 0x1FF) with (va_index virt 0).
  do 2 (destruct (e_table _); cbn [negb]; [|done]). rewrite entry_phys_valid.
  unfold entry_phys. cbn [e_valid e_addr a64_format]. by destruct (truth _).
Qed.

(** The permissions: valid page, inner shareable, normal memory, accessed; AP[1] is
    EL0 access and AP[2] is read-only. *)
Lemma leaf_flags_bits flags :
  leaf_flags flags .& ADDR_MASK = 0 ∧ leaf_flags flags .& 0x73F = 0x707 ∧
  Z.testbit (leaf_flags flags) 6 = truth (flags .& VMM_USER) ∧
  Z.testbit (leaf_flags flags) 7 = negb (truth (flags .& VMM_WRITABLE)).
Proof.
  unfold leaf_flags. destruct (truth (flags .& VMM_USER)), (truth (flags .& VMM_WRITABLE)); by vm_compute.
Qed.

Lemma a64_leaf_entry_law phys flags old w :
  leaf_phys (leaf_entry phys flags) old w = page_phys phys flags old w.
Proof.
  unfold leaf_phys, leaf_entry, page_phys. case_if; [|done]. unfold entry_phys. cbn [e_valid e_addr a64_format].
  destruct (leaf_flags_bits flags) as (Hm & Hl & _).
  assert (leaf_flags flags .& PTE_VALID = 1) as H1.
  { change PTE_VALID with (0x73F .& 1). by rewrite Z.land_assoc, Hl. }
  rewrite !Z.land_lor_distr_l, H1, Hm, <- !Z.land_assoc. change (ADDR_MASK .& PTE_VALID) with 0.
  change (ADDR_MASK .& ADDR_MASK) with ADDR_MASK. rewrite Z.land_0_r, Z.lor_0_r. by cbn.
Qed.

(** ** Properties *)

Definition vmm_run (op : aop) s : option (vmm St) :=
  match op with
  | Create => snd <$> vmm_create_address_space s
  | Destroy p => vmm_destroy_address_space (user_space p) s
  | Map x virt phys flags => vmm_map x virt phys flags s
  | Unmap x virt => vmm_unmap x virt s
  end.

(** The spaces of [s] translate the 39-bit address space as [A] says. *)
Definition translates s (A : spaces) : Prop :=
  ∀ x w, 0 <= w < 2 ^ 39 → vmm_translate x w s = (λ f, f w) <$> A x.

Lemma a64_translates_agrees s A : translates s A ↔ agrees 2 s A.
Proof.
  split.
  - intros H x. specialize (H x). destruct (as_root s x) as [r|] eqn:Er, (A x) as [f|] eqn:Ef; try done.
    + intros w Hw. rewrite <- a64_vmm_translate_eq. by apply H.
    + specialize (H 0 ltac:(lia)). rewrite a64_vmm_translate_eq in H. unfold as_translate in H. by rewrite Er in H.
    + specialize (H 0 ltac:(lia)). unfold vmm_translate in H. by rewrite Er in H.
  - intros H x w Hw. specialize (H x). rewrite a64_vmm_translate_eq. unfold as_translate in *.
    destruct (as_root s x), (A x); try done. by apply H.
Qed.

(** C21: the aarch64 address spaces refine the same specification as the x86_64 ones,
    over 39-bit addresses, but for one difference in vmm_map: without VMM_PRESENT it
    leaves the page as it was, where x86_64 unmaps it. *)
Theorem vmm_a64_refines s AL A op :
  spaces_rep 2 s AL → translates s A → ready 2 op s →
  ∃ s' AL' A', vmm_run op s = Some s' ∧ spaces_rep 2 s' AL' ∧
    spec_step page_phys op A A' ∧ translates s' A'.
Proof.
  intros Hs HA Hop. apply a64_translates_agrees in HA.
  destruct (run_refines 2 _ _ a64_leaf_entry_law s AL A op Hs HA Hop) as (s' & AL' & A' & E & Hs' & Hst & HA').
  exists s', AL', A'. split_and!; [|done|done|by apply a64_translates_agrees]. rewrite <- E. destruct op; cbn [vmm_run run].
  - by rewrite a64_vmm_create_eq.
  - apply a64_vmm_destroy_eq.
  - apply a64_vmm_map_eq.
  - apply a64_vmm_unmap_eq.
Qed.
End proofs.

(** The level-1 block descriptor of the architecture: output address, attribute index
    and the execute-never bits. *)
Definition l1_block (e : Z) : bool := truth (e .& PTE_VALID) && negb (truth (e .& PTE_TABLE)).
Definition l1_block_pa (e va : Z) : Z := (e .& 0x0000FFFFC0000000) .| (va .& 0x3FFFFFFF).
Definition attr_index (e : Z) : Z := (e ≫ 2) .& 7.

(** The boot map is the identity on the first 2 GB and nothing else: device memory,
    never executable, below 1 GB and normal memory above it; the table is the one TTBR0
    points to, for the 39-bit addresses TCR announces, and MAIR gives the indices the
    meaning the entries rely on. *)
Lemma boot_map_identity t m r va :
  page_aligned t → 0 <= t < 2 ^ 48 → (∀ j, index j → ent m t j = 0) → 0 <= va < 2 ^ 39 →
  let '(m', r') := aarch64_mmu_init t m r in
  let e := ent m' (ttbr0_el1 r') (va_index va 2) in
  (l1_block e = bool_decide (va < 2 ^ 31)) ∧
  (va < 2 ^ 31 → l1_block_pa e va = va ∧
    (mair_el1 r' ≫ (8 * attr_index e)) .& 0xFF = (if va <? 2 ^ 30 then 0x00 else 0xFF) ∧
    Z.testbit e 53 = (va <? 2 ^ 30) ∧ Z.testbit e 54 = (va <? 2 ^ 30)) ∧
  (2 ^ 31 <= va → e = 0) ∧ 64 - tcr_el1 r' .& 0x3F = 39 ∧ Z.testbit (sctlr_el1 r') 0 = true.
Proof.
  intros Ht Hr Hz Hva. unfold aarch64_mmu_init. cbn [ttbr0_el1 mair_el1 tcr_el1 sctlr_el1].
  assert (va_index va 2 = va / 2 ^ 30) as ->.
  { rewrite va_index_digit. change 4096 with (2 ^ 12). change (512 ^ Z.of_nat 2) with (2 ^ 18).
    rewrite Z.div_div by lia. change (2 ^ 12 * 2 ^ 18) with (2 ^ 30). apply Z.mod_small. div_lia. }
  assert (va .& 0x3FFFFFFF = va mod 2 ^ 30) as Hlow by (by rewrite <- Z.land_ones).
  assert (Z.testbit (sctlr_el1 r .| (1 ≪ 0) .| (1 ≪ 2) .| (1 ≪ 12)) 0 = true) as Hm.
  { rewrite !Z.lor_spec. change (Z.testbit (1 ≪ 0) 0) with true. by rewrite orb_true_r. }
  assert (index 0 ∧ index 1) as [H0 H1] by (unfold index; lia).
  assert (index (va / 2 ^ 30)) as Hi by (unfold index; div_lia).
  assert (va / 2 ^ 30 = 0 ∨ va / 2 ^ 30 = 1 ∨ 2 <= va / 2 ^ 30) as [E|[E|E]] by div_lia.
  - rewrite E, ent_st64_ne, ent_st64_eq by (auto || by right).
    assert (va < 2 ^ 30) as Hlt by div_lia. rewrite bool_decide_true, (proj2 (Z.ltb_lt va (2 ^ 30))) by lia.
    split_and!; try done; [|lia]. intros _. unfold l1_block_pa. rewrite Hlow, Z.mod_small by lia. done.
  - rewrite E, ent_st64_eq by auto.
    assert (2 ^ 30 <= va < 2 ^ 31) as Hlt by div_lia. rewrite bool_decide_true, (proj2 (Z.ltb_ge va (2 ^ 30))) by lia.
    split_and!; try done; [|lia]. intros _. unfold l1_block_pa. rewrite Hlow. split_and!; [|done..].
    assert (va mod 2 ^ 30 = va - 2 ^ 30) as -> by div_lia.
    match goal with |- ?a .| _ = _ => change a with (1 ≪ 30) end.
    rewrite lor_shiftl_low by lia. lia.
  - rewrite !ent_st64_ne by (auto || right; lia). rewrite Hz, bool_decide_false by (done || div_lia).
    split_and!; try done. div_lia.
Qed.

(** ** Witnesses *)

(** 64 frames from address 0 stand for RAM; the boot table is in frame 1. *)
Definition boot_pool : pmm := mk_pmm [0x03; 0; 0; 0; 0] 0 5 40 38.
Definition boot_mmu : gmap Z Z * mmu_regs := aarch64_mmu_init 0x1000 ∅ (mk_mmu_regs 0 0 0 0x30D00800).
Definition boot_vmm : vmm pmm := vmm_init (mk_vmm (fst boot_mmu) (boot_heap boot_pool) ∅ 0 (ttbr0_el1 (snd boot_mmu))).
Definition boot_spaces : spaces := λ x,
  match x with kernel_space => Some (λ w, default 0 (vmm_translate kernel_space w boot_vmm)) | _ => None end.

Lemma a64_boot_pool_wf : fa_wf boot_pool.
Proof.
  split; [|by apply (bool_decide_eq_true_1 _); vm_compute].
  split; [simpl; lia|done|done| |by vm_compute]. repeat constructor; unfold in_u; lia.
Qed.

Lemma a64_boot_tables : tables 2 (v_mem boot_vmm) 0x1000 = [0x1000].
Proof. vm_compute. reflexivity. Qed.

Lemma a64_boot_vmm_rep : spaces_rep 2 boot_vmm [].
Proof.
  apply (boot_kernel_rep 2 boot_pool (v_mem boot_vmm) 0x1000 0x1000).
  - split; [apply a64_boot_pool_wf|]. intros f. change (fa_managed _) with (frame_range 0 40).
    rewrite elem_of_frame_range. cbn. lia.
  - split; [done|]. cbn [words pool]. rewrite a64_boot_tables.
    split; [by apply (bool_decide_eq_true_1 _); vm_compute|].
    intros t ->%list_elem_of_singleton. change (fa_managed _) with (frame_range 0 40). rewrite elem_of_frame_range.
    split_and!; [done|done|done|by apply (bool_decide_eq_true_1 _); vm_compute|done].
Qed.

Lemma a64_boot_translates : translates boot_vmm boot_spaces.
Proof.
  intros [|p] w Hw; [|done]. cbn [boot_spaces fmap option_fmap option_map].
  rewrite a64_vmm_translate_eq. unfold as_translate. reflexivity.
Qed.

(** A user page at 2 GB, in the kernel's space. *)
Definition mapped_vmm : vmm pmm :=
  match vmm_map kernel_space 0x80000000 0x5000 7 boot_vmm with Some s => s | None => boot_vmm end.

Lemma vmm_a64_refines_witness :
  ∃ AL A, vmm_map kernel_space 0x80000000 0x5000 7 boot_vmm = Some mapped_vmm ∧
    spaces_rep 2 mapped_vmm AL ∧ spec_step page_phys (Map kernel_space 0x80000000 0x5000 7) boot_spaces A ∧
    translates mapped_vmm A ∧ vmm_translate kernel_space 0x80000123 mapped_vmm = Some 0x5123.
Proof.
  destruct (vmm_a64_refines boot_vmm [] boot_spaces (Map kernel_space 0x80000000 0x5000 7) a64_boot_vmm_rep a64_boot_translates)
    as (s' & AL & A & E & Hs & Hst & HA).
  { split; [split; vm_compute; [discriminate|reflexivity]|]. split; [apply Nat.leb_le; vm_compute; reflexivity|].
    exists 0x1000. split; vm_compute; reflexivity. }
  assert (vmm_map kernel_space 0x80000000 0x5000 7 boot_vmm = Some mapped_vmm) as E1 by (vm_compute; reflexivity).
  cbn [vmm_run] in E. rewrite E1 in E. apply (inj Some) in E. subst s'.
  exists AL, A. split; [exact E1|]. split; [exact Hs|]. split; [exact Hst|]. split; [exact HA|]. vm_compute. reflexivity.
Defined.

Lemma boot_map_identity_witness :
  l1_block_pa (ent (fst boot_mmu) 0x1000 1) 0x40080000 = 0x40080000.
Proof.
  destruct (boot_map_identity 0x1000 ∅ (mk_mmu_regs 0 0 0 0x30D00800) 0x40080000) as (_ & H & _);
    [reflexivity|lia|reflexivity|lia|]. apply H. lia.
Defined.
