(* ===== verification/Ring.v ===== *)
(** * The keyboard's ring buffer

    arch/x86_64/drivers/keyboard.c and arch/aarch64/drivers/virtio_input.c keep the typed
    characters in the same 256-byte ring.  The functions are here once; the drivers'
    files use them.  The ring refines a bounded queue of 255 characters, and it does so
    when interrupts push at any point inside a pop. *)

From S2P Require Import Prelude.

Definition KB_BUF_SIZE : Z := 256.

Record ring := mk_ring { r_buf : list Z; r_head : Z; r_tail : Z }.

Definition ring_reset : ring := mk_ring (replicate 256 0) 0 0.

Definition push (c : Z) (r : ring) : ring :=
  let next := u32 (r_head r + 1) mod KB_BUF_SIZE in
  if next =? r_tail r then r else
  mk_ring (zset (r_buf r) (r_head r) c) next (r_tail r).

Definition pop (r : ring) : Z * ring :=
  if r_tail r =? r_head r then (0, r) else
  let c := zget (r_buf r) (r_tail r) in
  (c, mk_ring (r_buf r) (r_head r) (u32 (r_tail r + 1) mod KB_BUF_SIZE)).

(** ** The queue the ring stands for *)

Record ring_wf (r : ring) : Prop := {
  rw_buf : length (r_buf r) = 256%nat;
  rw_head : 0 <= r_head r < 256;
  rw_tail : 0 <= r_tail r < 256
}.

(** The number of characters, and the characters from the oldest. *)
Definition count (r : ring) : Z := (r_head r - r_tail r) mod 256.
Definition slots (tail n : Z) : list Z := (λ i, (tail + i) mod 256) <$> seqZ 0 n.
Definition contents (r : ring) : list Z := zget (r_buf r) <$> slots (r_tail r) (count r).

Definition queue_push (c : Z) (q : list Z) : list Z :=
  if decide (length q = 255%nat) then q else q ++ [c].
Definition queue_pop (q : list Z) : Z * list Z :=
  match q with [] => (0, []) | c :: q => (c, q) end.

Lemma ring_reset_wf : ring_wf ring_reset ∧ contents ring_reset = [].
Proof. split; [split; simpl; lia|reflexivity]. Qed.

Lemma next_index i : 0 <= i < 256 → u32 (i + 1) mod KB_BUF_SIZE = (i + 1) mod 256.
Proof. intros. by rewrite u32_id by (unfold in_u; lia). Qed.

Lemma count_bounds r : 0 <= count r < 256.
Proof. unfold count. apply Z.mod_pos_bound. lia. Qed.

Lemma length_contents r : length (contents r) = Z.to_nat (count r).
Proof. unfold contents, slots. by rewrite !length_fmap, length_seqZ. Qed.

Lemma slots_snoc t n : 0 <= n → slots t (n + 1) = slots t n ++ [(t + n) mod 256].
Proof.
  intros. unfold slots. rewrite seqZ_app by lia. rewrite fmap_app. f_equal.

Qed.

Lemma slots_cons t n : 0 < n → slots t n = t mod 256 :: slots ((t + 1) mod 256) (n - 1).
Proof.
  intros. unfold slots. rewrite seqZ_cons by lia. rewrite fmap_cons, Z.add_0_r. f_equal.
  change (Z.succ 0) with (0 + 1). rewrite <- (fmap_add_seqZ 1 0), <- list_fmap_compose.
  apply list_fmap_ext. intros _ i _. cbn. rewrite Zplus_mod_idemp_l. f_equal. lia.
Qed.

Lemma push_refines c r :
  ring_wf r → ring_wf (push c r) ∧ contents (push c r) = queue_push c (contents r).
Proof.
  intros [Hb Hh Ht]. unfold push. rewrite next_index by done. unfold queue_push. rewrite length_contents.
  pose proof (count_bounds r) as Hc.
  assert (((r_head r + 1) mod 256 = r_tail r) ↔ count r = 255) as Hfull by (unfold count; div_lia).
  case_if; bool_to_prop.
  - split; [done|]. rewrite decide_True; [done|]. rewrite (proj1 Hfull E). reflexivity.
  - rewrite decide_False by (intros H; apply E, Hfull; lia). split.
    + split; simpl; [by rewrite zset_length|apply Z.mod_pos_bound; lia|done].
    + assert (count (mk_ring (zset (r_buf r) (r_head r) c) ((r_head r + 1) mod 256) (r_tail r)) = count r + 1) as Hcount
        by (unfold count in *; simpl; div_lia).
      unfold contents at 1. rewrite Hcount. simpl. rewrite slots_snoc, fmap_app by lia. f_equal.
      * apply list_fmap_ext. intros k x Hx. apply list_elem_of_lookup_2 in Hx.
        unfold slots in Hx. apply list_elem_of_fmap in Hx as (i & -> & Hi%elem_of_seqZ).
        pose proof (Z.mod_pos_bound (r_tail r + i) 256 ltac:(lia)).
        rewrite zget_zset by lia. rewrite (proj2 (Z.eqb_neq _ _)); [done|]. unfold count in *. div_lia.
      * simpl. f_equal. assert ((r_tail r + count r) mod 256 = r_head r) as -> by (unfold count; div_lia).
        rewrite zget_zset by lia. by rewrite Z.eqb_refl.
Qed.

Lemma pop_refines r :
  ring_wf r → ring_wf (snd (pop r)) ∧ (fst (pop r), contents (snd (pop r))) = queue_pop (contents r).
Proof.
  intros [Hb Hh Ht]. unfold pop. rewrite next_index by done. pose proof (count_bounds r) as Hc.
  assert (r_tail r = r_head r ↔ count r = 0) as He by (unfold count; div_lia).
  case_if; bool_to_prop; simpl.
  - split; [done|]. unfold contents. by rewrite (proj1 He E).
  - split; [split; simpl; [done|done|apply Z.mod_pos_bound; lia]|].
    assert (count (mk_ring (r_buf r) (r_head r) ((r_tail r + 1) mod 256)) = count r - 1) as Hcount
      by (unfold count in *; simpl; div_lia).
    unfold contents. rewrite Hcount. simpl. rewrite (slots_cons (r_tail r) (count r)) by lia.
    rewrite fmap_cons. rewrite (Z.mod_small (r_tail r) 256) by lia. reflexivity.
Qed.

(** ** Interrupts inside a pop

    keyboard_getchar reads the indices, then the character, then advances the tail, and
    the keyboard interrupt may push between any two of these.  [pc] is where the consumer
    is; the ghost lists are the characters accepted so far and those handed out. *)

Inductive getchar_pc := Idle | Found | Loaded (c : Z).

Record system := mk_system { sys_ring : ring; sys_pc : getchar_pc; accepted : list Z; handed : list Z }.

Definition full (r : ring) : bool := u32 (r_head r + 1) mod KB_BUF_SIZE =? r_tail r.

Inductive step : system → system → Prop :=
  | step_interrupt c r pc acc out :
      step (mk_system r pc acc out)
           (mk_system (push c r) pc (if full r then acc else acc ++ [c]) out)
  | step_found r acc out :
      r_tail r ≠ r_head r → step (mk_system r Idle acc out) (mk_system r Found acc out)
  | step_load r acc out :
      step (mk_system r Found acc out) (mk_system r (Loaded (zget (r_buf r) (r_tail r))) acc out)
  | step_advance r c acc out :
      step (mk_system r (Loaded c) acc out)
           (mk_system (mk_ring (r_buf r) (r_head r) (u32 (r_tail r + 1) mod KB_BUF_SIZE)) Idle acc (out ++ [c])).

(** What the consumer knows at its point. *)
Definition pc_ok (pc : getchar_pc) (q : list Z) : Prop :=
  match pc with Idle => True | Found => q ≠ [] | Loaded c => head q = Some c end.

Record system_inv (s : system) : Prop := {
  si_wf : ring_wf (sys_ring s);
  si_pc : pc_ok (sys_pc s) (contents (sys_ring s));
  si_fifo : accepted s = handed s ++ contents (sys_ring s)
}.

Lemma full_queue r : ring_wf r → full r = bool_decide (length (contents r) = 255%nat).
Proof.
  intros [Hb Hh Ht]. unfold full. rewrite next_index, length_contents by done. pose proof (count_bounds r).
  apply eq_true_iff_eq. rewrite Z.eqb_eq, bool_decide_eq_true. unfold count in *. div_lia.
Qed.

Lemma contents_nonempty r : ring_wf r → r_tail r ≠ r_head r →
  contents r = zget (r_buf r) (r_tail r) :: contents (snd (pop r)) ∧
  snd (pop r) = mk_ring (r_buf r) (r_head r) (u32 (r_tail r + 1) mod KB_BUF_SIZE).
Proof.
  intros Hr Hne. destruct (pop_refines r Hr) as [_ Hq]. revert Hq. unfold pop.
  rewrite (proj2 (Z.eqb_neq _ _)) by done. simpl. intros Hq. split; [|done].
  destruct (contents r) as [|c q] eqn:E; cbn in Hq; [|by injection Hq as -> ->].
  exfalso. apply (f_equal length) in E. rewrite length_contents in E. destruct Hr as [_ Hh Ht].
  apply Hne. cbn in E. pose proof (count_bounds r). unfold count in *. div_lia.
Qed.

Lemma step_inv s s' : step s s' → system_inv s → system_inv s'.
Proof.
  destruct 1 as [c r pc acc out|r acc out Hne|r acc out|r c acc out]; intros [Hwf Hpc Hf]; cbn in *.
  - destruct (push_refines c r Hwf) as [Hwf' Hq]. split; cbn; [done| |].
    + rewrite Hq. unfold queue_push. case_decide; [done|].
      destruct pc; cbn in *; [done|by destruct (contents r)|by destruct (contents r)].
    + rewrite Hq, full_queue by done. unfold queue_push. case_decide as Hd.
      * by rewrite bool_decide_true.
      * by rewrite bool_decide_false, Hf, (assoc_L (++)).
  - split; cbn; [done| |done]. destruct (contents_nonempty r Hwf Hne) as [-> _]. done.
  - assert (r_tail r ≠ r_head r) as Hne.
    { intros E. apply Hpc, nil_length_inv. rewrite length_contents. unfold count. by rewrite E, Z.sub_diag. }
    split; cbn; [done| |done]. by destruct (contents_nonempty r Hwf Hne) as [-> _].
  - assert (r_tail r ≠ r_head r) as Hne.
    { intros E. assert (contents r = []) as E'; [|by rewrite E' in Hpc].
      apply nil_length_inv. rewrite length_contents. unfold count. by rewrite E, Z.sub_diag. }
    destruct (contents_nonempty r Hwf Hne) as [Hc Hp]. rewrite <- Hp. split; cbn; [by apply pop_refines|done|].
    rewrite Hf, <- (assoc_L (++)). f_equal. rewrite Hc in Hpc |- *. cbn in Hpc. by injection Hpc as ->.
Qed.

Lemma steps_inv s s' : rtc step s s' → system_inv s → system_inv s'.
Proof. induction 1; [done|]. intros. by eapply IHrtc, step_inv. Qed.

(** C15: the keyboard ring is a FIFO under interrupts.  Starting empty, whatever the
    interleaving of interrupts with the steps of keyboard_getchar, the characters handed
    out are the ones accepted, in order, none twice and none lost; what is not yet handed
    out is in the ring; and a character is refused only when 255 are waiting. *)
Theorem ring_fifo s :
  rtc step (mk_system ring_reset Idle [] []) s →
  accepted s = handed s ++ contents (sys_ring s) ∧ (length (contents (sys_ring s)) <= 255)%nat ∧
  full (sys_ring s) = bool_decide (length (contents (sys_ring s)) = 255%nat).
Proof.
  intros Hrun. destruct (steps_inv _ _ Hrun) as [Hwf _ Hf].
  { destruct ring_reset_wf as [Hw Hc]. split; cbn; [done|done|]. by rewrite Hc. }
  split; [done|]. split; [|by apply full_queue].
  rewrite length_contents. pose proof (count_bounds (sys_ring s)). lia.
Qed.

(** A key is typed between the check and the load of a pop, another one after it. *)
Lemma ring_fifo_witness :
  ∃ s, rtc step (mk_system ring_reset Idle [] []) s ∧ handed s = [104] ∧
    accepted s = handed s ++ contents (sys_ring s) ∧ contents (sys_ring s) = [105; 33].
Proof.
  eexists (mk_system _ _ _ _). split.
  - eapply rtc_l; [apply (step_interrupt 104)|]. eapply rtc_l; [apply step_found; discriminate|].
    eapply rtc_l; [apply (step_interrupt 105)|]. eapply rtc_l; [apply step_load|].
    eapply rtc_l; [apply (step_interrupt 33)|]. eapply rtc_l; [apply step_advance|]. apply rtc_refl.
  - split; [reflexivity|]. split; [|reflexivity].
    apply (ring_fifo (mk_system _ _ _ _)).
    eapply rtc_l; [apply (step_interrupt 104)|]. eapply rtc_l; [apply step_found; discriminate|].
    eapply rtc_l; [apply (step_interrupt 105)|]. eapply rtc_l; [apply step_load|].
    eapply rtc_l; [apply (step_interrupt 33)|]. eapply rtc_l; [apply step_advance|]. apply rtc_refl.
Defined.

(** [pop] is the three steps in a row. *)
Lemma pop_steps r acc out :
  r_tail r ≠ r_head r →
  rtc step (mk_system r Idle acc out) (mk_system (snd (pop r)) Idle acc (out ++ [fst (pop r)])).
Proof.
  intros Hne. unfold pop. rewrite (proj2 (Z.eqb_neq _ _)) by done.
  eapply rtc_l; [by apply step_found|]. eapply rtc_l; [apply step_load|]. eapply rtc_l; [apply step_advance|]. apply rtc_refl.
Qed.
