(* ===== verification/PortIo.v ===== *)
(** * Port I/O on x86_64: include/arch/x86_64/io.h

    The devices behind the ports are not part of the program: they are a type with the
    effect of each instruction, [PortIo].  [logger] is a concrete one for examples: it
    records the writes and answers reads from a list. *)

From S2P Require Import Prelude.

Class PortIo (D : Type) := {
  outb : Z → Z → D → D;
  inb : Z → D → Z * D;
  outw : Z → Z → D → D;
  inw : Z → D → Z * D
}.

Section io.
Context {D : Type} `{!PortIo D}.

(** A write to an unused port, to give a slow device time. *)
Definition io_wait (d : D) : D := outb 0x80 0 d.

(** Wait until a status bit pattern is seen, at most [n] reads. *)
Fixpoint poll (n : nat) (port : Z) (ok : Z → bool) (d : D) : D :=
  match n with
  | O => d
  | S n => let '(v, d) := inb port d in if ok v then d else poll n port ok d
  end.
End io.

(** ** A device that logs *)

Inductive access := Out8 (port v : Z) | Out16 (port v : Z).

Record logger := mk_logger { log : list access; answers : list Z }.

Definition answer (d : logger) : Z * logger :=
  match answers d with
  | [] => (0, d)
  | v :: l => (v, mk_logger (log d) l)
  end.

#[export] Instance logger_io : PortIo logger := {|
  outb port v d := mk_logger (log d ++ [Out8 port v]) (answers d);
  inb _ := answer;
  outw port v d := mk_logger (log d ++ [Out16 port v]) (answers d);
  inw _ := answer
|}.
