(* ===== verification/Interrupts.v ===== *)
(** * Interrupts on x86_64: boot/idt.c

    The interrupt descriptor table, the two 8259 controllers behind their ports, the
    table of IRQ handlers, and the dispatch.  A function is its address; what isr_handler
    ends in (a handler, the system call, a panic) is its result, because these are other
    components. *)

From S2P Require Import Prelude.
From S2P Require Import PortIo.

Definition IDT_ENTRIES : Z := 256.
Definition IRQ_BASE : Z := 32.
Definition IRQ_COUNT : Z := 16.
Definition GATE_INTERRUPT : Z := 0x8E.
Definition GATE_INTERRUPT_USER : Z := 0xEE.
Definition SYSCALL_VECTOR : Z := 0x80.

(** The registers isr_common_stub pushes. *)
Record registers := mk_registers {
  r15 : Z; r14 : Z; r13 : Z; r12 : Z; r11 : Z; r10 : Z; r9 : Z; r8 : Z;
  rbp : Z; rdi : Z; rsi : Z; rdx : Z; rcx : Z; rbx : Z; rax : Z;
  int_no : Z; err_code : Z;
  rip : Z; cs : Z; rflags : Z; user_rsp : Z; ss : Z
}.

Definition with_rax (r : registers) (v : Z) : registers :=
  mk_registers (r15 r) (r14 r) (r13 r) (r12 r) (r11 r) (r10 r) (r9 r) (r8 r) (rbp r) (rdi r)
    (rsi r) (rdx r) (rcx r) (rbx r) v (int_no r) (err_code r) (rip r) (cs r) (rflags r)
    (user_rsp r) (ss r).

Record idt_entry := mk_idt_entry {
  offset_low : Z;
  selector : Z;
  ist : Z;
  type_attr : Z;
  offset_mid : Z;
  offset_high : Z;
  zero : Z
}.
#[export] Instance idt_entry_inhabited : Inhabited idt_entry := populate (mk_idt_entry 0 0 0 0 0 0 0).

(** The table, what lidt was given, and the handlers (0 is NULL). *)
Record interrupts := mk_interrupts {
  idt : list idt_entry;
  idt_limit : Z;
  idt_base : Z;
  irq_handlers : list Z
}.

Definition interrupts_reset : interrupts :=
  mk_interrupts (replicate 256 inhabitant) 0 0 (replicate 16 0).

Definition exception_names : list string := [
  "Divide-by-zero"; "Debug"; "NMI"; "Breakpoint";
  "Overflow"; "Bound Range Exceeded"; "Invalid Opcode"; "Device Not Available";
  "Double Fault"; "Coprocessor Segment Overrun"; "Invalid TSS"; "Segment Not Present";
  "Stack-Segment Fault"; "General Protection Fault"; "Page Fault"; "Reserved";
  "x87 Floating-Point Exception"; "Alignment Check"; "Machine Check"; "SIMD Floating-Point Exception";
  "Virtualization Exception"; "Control Protection Exception"; "Reserved"; "Reserved";
  "Reserved"; "Reserved"; "Reserved"; "Reserved";
  "Hypervisor Injection Exception"; "VMM Communication Exception"; "Security Exception"; "Reserved"
]%string.

Definition idt_set_gate (vec handler attr : Z) (s : interrupts) : interrupts :=
  let base := handler in
  mk_interrupts
    (<[Z.to_nat vec := mk_idt_entry (base .& 0xFFFF) 0x08 0 attr ((base ≫ 16) .& 0xFFFF)
                         ((base ≫ 32) .& 0xFFFFFFFF) 0]> (idt s))
    (idt_limit s) (idt_base s) (irq_handlers s).

Section code.
Context {D : Type} `{!PortIo D}.

Definition pic_remap (d : D) : D :=
  let '(mask1, d) := inb 0x21 d in
  let '(mask2, d) := inb 0xA1 d in
  let d := io_wait (outb 0x20 0x11 d) in
  let d := io_wait (outb 0xA0 0x11 d) in
  let d := io_wait (outb 0x21 IRQ_BASE d) in
  let d := io_wait (outb 0xA1 (IRQ_BASE + 8) d) in
  let d := io_wait (outb 0x21 0x04 d) in
  let d := io_wait (outb 0xA1 0x02 d) in
  let d := io_wait (outb 0x21 0x01 d) in
  let d := io_wait (outb 0xA1 0x01 d) in
  let d := outb 0x21 mask1 d in
  outb 0xA1 mask2 d.

Definition irq_set_mask (irq : Z) (masked : bool) (d : D) : D :=
  let port := if irq <? 8 then 0x21 else 0xA1 in
  let bit := u8 (if irq <? 8 then irq else irq - 8) in
  let '(val, d) := inb port d in
  let val := if masked then u8 (val .| (1 ≪ bit)) else u8 (val .& Z.lnot (1 ≪ bit)) in
  outb port val d.

Definition irq_install_handler (irq handler : Z) (s : interrupts) (d : D) : interrupts * D :=
  let s := mk_interrupts (idt s) (idt_limit s) (idt_base s) (zset (irq_handlers s) irq handler) in
  let d := irq_set_mask irq false d in
  let d := if 8 <=? irq then irq_set_mask 2 false d else d in
  (s, d).

(** [isr_stubs] and [irq_stubs] are the addresses of the stubs of isr_stubs.asm, [isr128]
    that of the system-call entry and [table] that of the table. *)
Definition idt_init (isr_stubs irq_stubs : list Z) (isr128 table : Z) (s : interrupts) (d : D) :
    interrupts * D :=
  let s := for_up 0 32 (λ i s, idt_set_gate i (zget isr_stubs i) GATE_INTERRUPT s) s in
  let d := pic_remap d in
  let d := outb 0x21 0xFF d in
  let d := outb 0xA1 0xFF d in
  let s := for_up 0 16 (λ i s, idt_set_gate (IRQ_BASE + i) (zget irq_stubs i) GATE_INTERRUPT s) s in
  let s := idt_set_gate SYSCALL_VECTOR isr128 GATE_INTERRUPT_USER s in
  (mk_interrupts (idt s) (16 * IDT_ENTRIES - 1) table (irq_handlers s), d).

(** Where the dispatch goes; [Fault] is an access outside the arrays. *)
Inductive target := Syscall | Panic (msg : string) | Handler (h : Z) | Return | Fault.

Definition isr_handler (regs : registers) (s : interrupts) (d : D) : target * D :=
  if int_no regs =? SYSCALL_VECTOR then (Syscall, d) else
  if int_no regs <? 32 then
    (match exception_names !! Z.to_nat (int_no regs) with Some m => Panic m | None => Fault end, d)
  else
  let irq := i32 (u32 (int_no regs - IRQ_BASE)) in
  let d := if 8 <=? irq then outb 0xA0 0x20 d else d in
  let d := outb 0x20 0x20 d in
  match irq_handlers s !! Z.to_nat irq with
  | Some h => (if 0 <=? irq then (if h =? 0 then Return else Handler h) else Fault, d)
  | None => (Fault, d)
  end.
End code.

(** ** The table *)

(** The address the CPU assembles from a gate, and the privilege level it asks for. *)
Definition gate_target (e : idt_entry) : Z :=
  offset_low e + offset_mid e * 2 ^ 16 + offset_high e * 2 ^ 32.
Definition gate_present (e : idt_entry) : bool := Z.testbit (type_attr e) 7.
Definition gate_dpl (e : idt_entry) : Z := (type_attr e ≫ 5) .& 3.

Definition gate (handler attr : Z) : idt_entry :=
  mk_idt_entry (handler .& 0xFFFF) 0x08 0 attr ((handler ≫ 16) .& 0xFFFF) ((handler ≫ 32) .& 0xFFFFFFFF) 0.

Lemma gate_target_gate h attr : 0 <= h < 2 ^ 64 → gate_target (gate h attr) = h.
Proof.
  intros Hh. unfold gate_target, gate. cbn [offset_low offset_mid offset_high].
  change 0xFFFF with (Z.ones 16). change 0xFFFFFFFF with (Z.ones 32).
  rewrite !Z.land_ones, !Z.shiftr_div_pow2 by lia. div_lia.
Qed.

Lemma idt_set_gate_lookup v h attr s j :
  length (idt s) = 256%nat → 0 <= v < 256 → 0 <= j < 256 →
  idt (idt_set_gate v h attr s) !! Z.to_nat j = if j =? v then Some (gate h attr) else idt s !! Z.to_nat j.
Proof.
  intros Hl Hv Hj. cbn. destruct (Z.eqb_spec j v) as [->|Hne].
  - apply list_lookup_insert_eq. lia.
  - apply list_lookup_insert_ne. lia.
Qed.

Lemma gates_loop b n stubs attr s j :
  length (idt s) = 256%nat → 0 <= b → 0 <= n → b + n <= 256 → 0 <= j < 256 →
  let s' := for_up 0 n (λ i s, idt_set_gate (b + i) (zget stubs i) attr s) s in
  length (idt s') = 256%nat ∧ irq_handlers s' = irq_handlers s ∧
  idt s' !! Z.to_nat j = if (b <=? j) && (j <? b + n) then Some (gate (zget stubs (j - b)) attr) else idt s !! Z.to_nat j.
Proof.
  intros Hl Hb Hn Hbn Hj s'.
  destruct (for_up_inv (λ i s', 0 <= i ∧ length (idt s') = 256%nat ∧ irq_handlers s' = irq_handlers s ∧
    idt s' !! Z.to_nat j = if (b <=? j) && (j <? b + i) then Some (gate (zget stubs (j - b)) attr) else idt s !! Z.to_nat j)
    (λ i s, idt_set_gate (b + i) (zget stubs i) attr s) 0 n s) as (_ & H1 & H2 & H3).
  - split_and!; [lia|done|done|]. destruct (Z.leb_spec b j), (Z.ltb_spec j (b + 0)); simpl; try done; lia.
  - intros i t Hi (_ & H1 & H2 & H3). split_and!; [lia|cbn; by rewrite length_insert|done|].
    rewrite idt_set_gate_lookup, H3 by (done || lia).
    destruct (Z.eqb_spec j (b + i)) as [->|Hne].
    + rewrite (proj2 (Z.leb_le _ _)), (proj2 (Z.ltb_lt _ _)) by lia. cbn. do 3 f_equal. lia.
    + destruct (Z.leb_spec b j), (Z.ltb_spec j (b + i)), (Z.ltb_spec j (b + (i + 1))); simpl; try done; lia.
  - rewrite Z.max_r in H3 by lia. done.
Qed.

(** C36: the interrupt table.  After idt_init the CPU finds, for each exception 0-31, each
    IRQ 32-47 and the system call 0x80, exactly the stub of that vector, through a present
    interrupt gate of the kernel code segment; only the system call may be raised from
    ring 3, no other vector is present, and the table lidt gets is the whole array. *)
Theorem idt_init_gates {D} `{!PortIo D} isr_stubs irq_stubs isr128 table s d v :
  idt s = replicate 256 inhabitant → Forall (in_u 64) (isr128 :: isr_stubs ++ irq_stubs) →
  length isr_stubs = 32%nat → length irq_stubs = 16%nat → 0 <= v < 256 →
  let s' := fst (idt_init isr_stubs irq_stubs isr128 table s d) in
  idt_base s' = table ∧ idt_limit s' = 16 * 256 - 1 ∧
  ∃ e, idt s' !! Z.to_nat v = Some e ∧
    gate_present e = (v <? 48) || (v =? 0x80) ∧
    (gate_present e = true → selector e = 0x08 ∧ gate_dpl e = (if v =? 0x80 then 3 else 0) ∧
      gate_target e = if v =? 0x80 then isr128 else if v <? 32 then zget isr_stubs v else zget irq_stubs (v - 32)).
Proof.
  intros Hi Hf Hl1 Hl2 Hv. unfold idt_init. cbn [fst idt_base idt_limit]. split; [done|]. split; [done|].
  cbn [idt]. apply Forall_cons in Hf as [H128 [Hf1 Hf2]%Forall_app].
  assert (length (idt s) = 256%nat) as Hl by (by rewrite Hi).
  change (λ i s, idt_set_gate i (zget isr_stubs i) GATE_INTERRUPT s)
    with (λ i s, idt_set_gate (0 + i) (zget isr_stubs i) GATE_INTERRUPT s).
  destruct (gates_loop 0 32 isr_stubs GATE_INTERRUPT s v) as (Hla & _ & Ha); [done|lia..|].
  set (sa := for_up 0 32 _ s) in *.
  destruct (gates_loop IRQ_BASE 16 irq_stubs GATE_INTERRUPT sa v) as (Hlb & _ & Hb); [done|unfold IRQ_BASE; lia..|].
  set (sb := for_up 0 16 _ sa) in *. rewrite idt_set_gate_lookup, Hb, Ha by (done || unfold SYSCALL_VECTOR; lia).
  unfold SYSCALL_VECTOR, IRQ_BASE in *. destruct (Z.eqb_spec v 0x80) as [->|Hne].
  { eexists. split; [done|]. split; [done|]. intros _. split; [done|]. split; [done|]. by apply gate_target_gate. }
  destruct (Z.leb_spec 32 v), (Z.ltb_spec v (32 + 16)), (Z.leb_spec 0 v), (Z.ltb_spec v (0 + 32)),
    (Z.ltb_spec v 48), (Z.ltb_spec v 32); try lia; cbn [andb orb].
  - eexists. split; [done|]. split; [done|]. intros _. split; [done|]. split; [done|]. apply gate_target_gate.
    apply zget_Forall; [done|lia].
  - rewrite Hi. exists inhabitant. split; [apply lookup_replicate_2; lia|]. split; [done|]. done.
  - rewrite Z.sub_0_r. eexists. split; [done|]. split; [done|]. intros _. split; [done|]. split; [done|].
    apply gate_target_gate, zget_Forall; [done|lia].
Qed.

Lemma idt_init_gates_witness :
  ∃ e, idt (fst (idt_init (seqZ 0x100000 32) (seqZ 0x200000 16) 0xFFFFFFFF80123456 0x5000 interrupts_reset
      (mk_logger [] []))) !! 33%nat = Some e ∧ gate_target e = 0x200001.
Proof.
  destruct (idt_init_gates (seqZ 0x100000 32) (seqZ 0x200000 16) 0xFFFFFFFF80123456 0x5000 interrupts_reset
    (mk_logger [] []) 33) as (_ & _ & e & E & _ & H).
  - reflexivity.
  - repeat constructor; unfold in_u; lia.
  - reflexivity.
  - reflexivity.
  - lia.
  - exists e. split; [exact E|]. destruct H as (_ & _ & ->); [|reflexivity].
    vm_compute in E. injection E as <-. reflexivity.
Defined.

(** ** The controllers

    What the code relies on of an initialised 8259: its data port is the interrupt mask
    register, and the other traffic of this file (the end-of-interrupt command, writes to
    other ports) leaves it alone. *)
Class PicLaws (D : Type) `{!PortIo D} := {
  pic_ready : D → Prop;
  imr : D → Z → Z;
  imr_range d p : in_u 8 (imr d p);
  imr_in d p : pic_ready d → p ∈ [0x21; 0xA1] → inb p d = (imr d p, d);
  imr_out d p v : pic_ready d → p ∈ [0x21; 0xA1] → in_u 8 v →
    pic_ready (outb p v d) ∧ ∀ q, q ∈ [0x21; 0xA1] → imr (outb p v d) q = if decide (q = p) then v else imr d q
}.

Section pic.
Context {D : Type} `{IO : !PortIo D, PIC : !PicLaws D}.
Implicit Types (d : D).

Definition line_port (irq : Z) : Z := if irq <? 8 then 0x21 else 0xA1.
Definition line_bit (irq : Z) : Z := if irq <? 8 then irq else irq - 8.
Definition masked d (irq : Z) : bool := Z.testbit (imr d (line_port irq)) (line_bit irq).

Lemma line_port_in irq : line_port irq ∈ [0x21; 0xA1].
Proof. unfold line_port. case_if; set_solver. Qed.

Lemma set_clear_bit v b j : in_u 8 v → 0 <= b < 8 → 0 <= j < 8 →
  Z.testbit (u8 (v .| (1 ≪ b))) j = (if j =? b then true else Z.testbit v j) ∧
  Z.testbit (u8 (v .& Z.lnot (1 ≪ b))) j = (if j =? b then false else Z.testbit v j).
Proof.
  intros Hv Hb Hj. unfold u8. rewrite !Z.mod_pow2_bits_low by lia.
  rewrite Z.lor_spec, Z.land_spec, Z.lnot_spec by lia.
  assert (Z.testbit (1 ≪ b) j = (j =? b)) as ->.
  { rewrite Z.shiftl_1_l, Z.pow2_bits_eqb by lia. apply Z.eqb_sym. }
  destruct (j =? b); simpl; by rewrite ?orb_true_r, ?orb_false_r, ?andb_false_r, ?andb_true_r.
Qed.

(** irq_set_mask changes the mask of one line. *)
Lemma irq_set_mask_spec irq b d :
  pic_ready d → 0 <= irq < 16 →
  pic_ready (irq_set_mask irq b d) ∧
  ∀ j, 0 <= j < 16 → masked (irq_set_mask irq b d) j = if j =? irq then b else masked d j.
Proof.
  intros Hd Hirq. unfold irq_set_mask. fold (line_port irq).
  replace (u8 (if irq <? 8 then irq else irq - 8)) with (line_bit irq)
    by (unfold line_bit; destruct (Z.ltb_spec irq 8); rewrite u8_id; unfold in_u; lia).
  rewrite imr_in by (done || apply line_port_in).
  set (v := if b then _ else _).
  assert (in_u 8 v) as Hv by (unfold v; destruct b; apply u8_range).
  destruct (imr_out d (line_port irq) v Hd (line_port_in irq) Hv) as [Hr Hq]. split; [done|].
  intros j Hj. unfold masked. rewrite Hq by apply line_port_in.
  assert (0 <= line_bit irq < 8 ∧ 0 <= line_bit j < 8) as [Hbi Hbj].
  { unfold line_bit. destruct (Z.ltb_spec irq 8), (Z.ltb_spec j 8); lia. }
  destruct (set_clear_bit (imr d (line_port irq)) (line_bit irq) (line_bit j) (imr_range _ _) Hbi Hbj) as [H1 H2].
  destruct (Z.eqb_spec j irq) as [->|Hne].
  - rewrite decide_True by done. unfold v. destruct b; [rewrite H1|rewrite H2]; by rewrite Z.eqb_refl.
  - case_decide as Hp; [|done].
    assert (line_bit j ≠ line_bit irq) as Hb.
    { unfold line_port, line_bit in *. destruct (Z.ltb_spec irq 8), (Z.ltb_spec j 8); lia. }
    rewrite <- Z.eqb_neq in Hb. rewrite Hp. unfold v. destruct b; [rewrite H1|rewrite H2]; by rewrite Hb.
Qed.

(** An installed handler gets its interrupts.  irq_install_handler unmasks exactly
    the line (and the cascade line 2 for a line of the second controller); from then on
    the vector of the line dispatches to the handler, and the other vectors to theirs. *)
Lemma irq_install_delivers irq h s d :
  pic_ready d → 0 <= irq < 16 → h ≠ 0 → length (irq_handlers s) = 16%nat →
  let '(s', d') := irq_install_handler irq h s d in
  pic_ready d' ∧
  (∀ j, 0 <= j < 16 → masked d' j = if (j =? irq) || (8 <=? irq) && (j =? 2) then false else masked d j) ∧
  ∀ regs d1, 32 <= int_no regs < 48 →
    fst (isr_handler regs s' d1) =
    if int_no regs =? 32 + irq then Handler h else fst (isr_handler regs s d1).
Proof.
  intros Hd Hirq Hh Hl. unfold irq_install_handler.
  destruct (irq_set_mask_spec irq false d Hd Hirq) as [Hd1 Hm1].
  set (d1 := irq_set_mask irq false d) in *.
  destruct (irq_set_mask_spec 2 false d1 Hd1) as [Hd2 Hm2]; [lia|].
  split_and!.
  - by case_if.
  - intros j Hj. destruct (8 <=? irq); cbn [andb].
    + rewrite Hm2, Hm1 by done. destruct (j =? irq), (j =? 2); done.
    + rewrite Hm1 by done. by rewrite orb_false_r.
  - intros regs dx Hno. unfold isr_handler, SYSCALL_VECTOR, IRQ_BASE.
    rewrite (proj2 (Z.eqb_neq (int_no regs) 0x80)), (proj2 (Z.ltb_ge (int_no regs) 32)) by lia.
    rewrite u32_id, i32_id by (unfold in_u, in_i; lia). cbn [irq_handlers].
    rewrite (proj2 (Z.leb_le 0 (int_no regs - 32))) by lia. unfold zset.
    destruct (Z.eqb_spec (int_no regs) (32 + irq)) as [E|E].
    + rewrite E. replace (32 + irq - 32) with irq by lia. rewrite list_lookup_insert_eq by lia.
      cbn [fst]. by rewrite (proj2 (Z.eqb_neq h 0)).
    + rewrite list_lookup_insert_ne by lia. done.
Qed.
End pic.

(** Two mask registers. *)
#[local] Instance pics_io : PortIo (Z * Z) := {|
  outb p v d := if p =? 0x21 then (v, snd d) else if p =? 0xA1 then (fst d, v) else d;
  inb p d := (if p =? 0x21 then u8 (fst d) else u8 (snd d), d);
  outw _ _ d := d;
  inw _ d := (0, d)
|}.
#[local] Instance pics_laws : PicLaws (Z * Z).
Proof.
  refine {| pic_ready _ := True; imr d p := if p =? 0x21 then u8 (fst d) else u8 (snd d) |}.
  - intros d p. case_if; apply u8_range.
  - done.
  - intros [m1 m2] p v _ Hp Hv. split; [done|]. intros q Hq. rewrite !elem_of_cons, elem_of_nil in Hp, Hq.
    destruct Hp as [->|[->|[]]], Hq as [->|[->|[]]]; case_decide; try done; cbn; by rewrite ?(u8_id v Hv).
Defined.

Lemma irq_install_delivers_witness :
  let '(s', d') := irq_install_handler 12 0xABCD interrupts_reset (0xFF, 0xFF) in
  d' = (0xFB, 0xEF) ∧ masked d' 12 = false.
Proof.
  pose proof (irq_install_delivers 12 0xABCD interrupts_reset (0xFF, 0xFF) I ltac:(lia) ltac:(done) eq_refl) as H.
  destruct (irq_install_handler 12 0xABCD interrupts_reset (0xFF, 0xFF)) as [s' d'] eqn:E.
  split; [vm_compute in E; by injection E as _ <-|]. destruct H as (_ & H & _). by rewrite (H 12).
Defined.
