(* ===== verification/Descriptors.v ===== *)
(** * Segments and the task state on x86_64: boot/gdt.c and boot/tss.c

    The descriptor table as the code fills it, byte field by byte field, and what the CPU
    reads back from it. *)

From S2P Require Import Prelude.

Record gdt_entry := mk_gdt_entry {
  limit_low : Z;
  base_low : Z;
  base_mid : Z;
  access : Z;
  flags_limit_high : Z;
  base_high : Z
}.
#[export] Instance gdt_entry_inhabited : Inhabited gdt_entry := populate (mk_gdt_entry 0 0 0 0 0 0).

(** The table, and the limit and base lgdt was given. *)
Record gdt_state := mk_gdt_state { gdt : list gdt_entry; gdt_limit : Z; gdt_base : Z }.

Definition gdt_reset : gdt_state := mk_gdt_state (replicate 7 inhabitant) 0 0.

Definition gdt_set_entry (i base limit acc flags : Z) (s : gdt_state) : gdt_state :=
  let e := mk_gdt_entry (limit .& 0xFFFF) (base .& 0xFFFF) ((base ≫ 16) .& 0xFF) acc
             (((limit ≫ 16) .& 0x0F) .| (flags .& 0xF0)) ((base ≫ 24) .& 0xFF) in
  mk_gdt_state (<[Z.to_nat i := e]> (gdt s)) (gdt_limit s) (gdt_base s).

(** Slot 6 is written as two 32-bit words. *)
Definition gdt_set_tss_descriptor (base limit : Z) (s : gdt_state) : gdt_state :=
  let s := gdt_set_entry 5 (u32 base) limit 0x89 0x00 s in
  let upper0 := u32 (base ≫ 32) in
  mk_gdt_state (<[6%nat := mk_gdt_entry (upper0 .& 0xFFFF) (upper0 ≫ 16) 0 0 0 0]> (gdt s))
    (gdt_limit s) (gdt_base s).

(** [table] is the address of the array. *)
Definition gdt_init (table : Z) (s : gdt_state) : gdt_state :=
  let s := gdt_set_entry 0 0 0 0 0 s in
  let s := gdt_set_entry 1 0 0xFFFFF 0x9A 0xA0 s in
  let s := gdt_set_entry 2 0 0xFFFFF 0x92 0xC0 s in
  let s := gdt_set_entry 3 0 0xFFFFF 0xFA 0xA0 s in
  let s := gdt_set_entry 4 0 0xFFFFF 0xF2 0xC0 s in
  mk_gdt_state (gdt s) (8 * 7 - 1) table.

Definition TSS_SELECTOR : Z := 0x28.
Definition KERNEL_STACK_SIZE : Z := 16384.
Definition sizeof_tss : Z := 104.

(** The fields the kernel does not use stay 0 and are left out, but for the first three
    stack pointers. *)
Record tss := mk_tss { rsp0 : Z; rsp1 : Z; rsp2 : Z; iomap_base : Z }.

(** [tss_addr] and [kernel_stack] are the addresses of the static objects; the result is
    the task state, the table and the task register. *)
Definition tss_init (tss_addr kernel_stack : Z) (s : gdt_state) : tss * gdt_state * Z :=
  let t := mk_tss 0 0 0 0 in
  let t := mk_tss (kernel_stack + KERNEL_STACK_SIZE) (rsp1 t) (rsp2 t) (iomap_base t) in
  let t := mk_tss (rsp0 t) (rsp1 t) (rsp2 t) sizeof_tss in
  (t, gdt_set_tss_descriptor tss_addr (sizeof_tss - 1) s, TSS_SELECTOR).

(** ** What the CPU reads *)

Definition d_base (e : gdt_entry) : Z := base_low e + base_mid e * 2 ^ 16 + base_high e * 2 ^ 24.
Definition d_limit (e : gdt_entry) : Z := limit_low e + (flags_limit_high e .& 0x0F) * 2 ^ 16.
Definition d_present (e : gdt_entry) : bool := Z.testbit (access e) 7.
Definition d_dpl (e : gdt_entry) : Z := (access e ≫ 5) .& 3.
Definition d_code (e : gdt_entry) : bool := Z.testbit (access e) 4 && Z.testbit (access e) 3.
Definition d_data_writable (e : gdt_entry) : bool :=
  Z.testbit (access e) 4 && negb (Z.testbit (access e) 3) && Z.testbit (access e) 1.
Definition d_long (e : gdt_entry) : bool := Z.testbit (flags_limit_high e) 5.
(** A system descriptor takes two slots in long mode. *)
Definition d_base64 (e upper : gdt_entry) : Z :=
  d_base e + (limit_low upper + base_low upper * 2 ^ 16) * 2 ^ 32.
Definition d_tss_available (e : gdt_entry) : bool := access e .& 0x1F =? 0x09.

(** The descriptor a selector names. *)
Definition select (s : gdt_state) (sel : Z) : option gdt_entry := gdt s !! Z.to_nat (sel ≫ 3).

Lemma tss_entry_decodes base limit s e u :
  0 <= base < 2 ^ 64 → 0 <= limit < 2 ^ 20 → length (gdt s) = 7%nat →
  gdt (gdt_set_tss_descriptor base limit s) !! 5%nat = Some e →
  gdt (gdt_set_tss_descriptor base limit s) !! 6%nat = Some u →
  d_base64 e u = base ∧ d_limit e = limit ∧ d_present e = true ∧ d_dpl e = 0 ∧ d_tss_available e = true.
Proof.
  intros Hb Hl Hlen. unfold gdt_set_tss_descriptor, gdt_set_entry. cbn [gdt].
  rewrite (list_lookup_insert_ne _ 6 5), !list_lookup_insert_eq by (rewrite ?length_insert; lia).
  intros [= <-] [= <-]. unfold d_base64, d_base, d_limit, d_tss_available, d_present, d_dpl.
  cbn [base_low base_mid base_high limit_low flags_limit_high access].
  change 0xFFFF with (Z.ones 16). change 0xFF with (Z.ones 8).
  change 0x0F with (Z.ones 4). change (0x00 .& 0xF0) with 0. rewrite Z.lor_0_r.
  unfold u32. rewrite !Z.land_ones, !Z.shiftr_div_pow2 by lia. split_and!; try done; div_lia.
Qed.

(** The segments.  After gdt_init and tss_init every selector the kernel uses names
    what it is used as: 0x08 and 0x10 the kernel's 64-bit code and writable data, 0x1B
    and 0x23 the same for ring 3, and 0x28, which the task register gets, the TSS at its
    full 64-bit address with its exact limit, whose ring-0 stack is the top of the kernel
    stack. *)
Lemma gdt_tss_layout table tss_addr kernel_stack s :
  length (gdt s) = 7%nat → 0 <= tss_addr < 2 ^ 64 →
  let '(t, s', tr) := tss_init tss_addr kernel_stack (gdt_init table s) in
  gdt_base s' = table ∧ gdt_limit s' = 55 ∧ rsp0 t = kernel_stack + 16384 ∧ tr = 0x28 ∧
  ∃ kc kd uc ud e u,
    select s' 0x08 = Some kc ∧ d_present kc = true ∧ d_code kc = true ∧ d_long kc = true ∧ d_dpl kc = 0 ∧
    select s' 0x10 = Some kd ∧ d_present kd = true ∧ d_data_writable kd = true ∧ d_dpl kd = 0 ∧
    select s' 0x1B = Some uc ∧ d_present uc = true ∧ d_code uc = true ∧ d_long uc = true ∧ d_dpl uc = 3 ∧
    select s' 0x23 = Some ud ∧ d_present ud = true ∧ d_data_writable ud = true ∧ d_dpl ud = 3 ∧
    select s' tr = Some e ∧ select s' (tr + 8) = Some u ∧ d_tss_available e = true ∧ d_dpl e = 0 ∧
    d_base64 e u = tss_addr ∧ d_limit e = 103.
Proof.
  intros Hl Ht. destruct s as [l lim b]. cbn [gdt] in Hl.
  do 7 (destruct l as [|? l]; [done|]). destruct l; [|done].
  unfold tss_init. split_and!; [done|done|done|done|]. do 6 eexists.
  repeat (split; [reflexivity|]).
  edestruct (tss_entry_decodes tss_addr (sizeof_tss - 1) (gdt_init table (mk_gdt_state [g; g0; g1; g2; g3; g4; g5] lim b)))
    as (Hb & Hlim & _); [done|unfold sizeof_tss; lia|done|reflexivity|reflexivity|].
  split; [exact Hb|exact Hlim].
Qed.

Lemma gdt_tss_layout_witness :
  let '(t, s', tr) := tss_init 0xFFFF800012345678 0x9000 (gdt_init 0x7000 gdt_reset) in
  rsp0 t = 0xD000 ∧ ∃ e u, select s' tr = Some e ∧ select s' (tr + 8) = Some u ∧
    d_base64 e u = 0xFFFF800012345678.
Proof.
  destruct (gdt_tss_layout 0x7000 0xFFFF800012345678 0x9000 gdt_reset eq_refl ltac:(lia))
    as (_ & _ & H & _ & kc & kd & uc & ud & e & u & P).
  split; [exact H|]. exists e, u. destruct_and!. split; [assumption|]. split; assumption.
Defined.
