(* ===== verification/InputX86.v ===== *)
(** * Keyboard and mouse on x86_64: drivers/keyboard.c and drivers/mouse.c

    The interrupt handlers as functions of the byte the controller delivers, the state
    they keep, and the port traffic of mouse_init.  A [char] of the keyboard buffer is its
    code (all are ASCII). *)

From S2P Require Import Prelude.
From S2P Require Import Ring.
From S2P Require Import PortIo.
From S2P Require Import Interrupts.

(** ** Keyboard *)

Module Keyboard.

Definition SC_LSHIFT : Z := 0x2A.
Definition SC_RSHIFT : Z := 0x36.
Definition SC_LSHIFT_UP : Z := SC_LSHIFT .| 0x80.
Definition SC_RSHIFT_UP : Z := SC_RSHIFT .| 0x80.

Definition scancode_ascii : list Z :=
  [0; 27] ++ bytes "1234567890-=" ++ [8; 9] ++ bytes "qwertyuiop[]" ++ [10; 0] ++
  bytes "asdfghjkl;'`" ++ [0] ++ bytes "\zxcvbnm,./" ++ [0] ++ bytes "*" ++ [0] ++ bytes " " ++
  replicate 70 0.

Definition scancode_ascii_shift : list Z :=
  [0; 27] ++ bytes "!@#$%^&*()_+" ++ [8; 9] ++ bytes "QWERTYUIOP{}" ++ [10; 0] ++
  bytes "ASDFGHJKL:" ++ [34] ++ bytes "~" ++ [0] ++ bytes "|ZXCVBNM<>?" ++ [0] ++ bytes "*" ++ [0] ++
  bytes " " ++ replicate 70 0.

Record keyboard := mk_keyboard { buf : ring; shift_held : bool }.

Definition buf_push (c : Z) (k : keyboard) : keyboard := mk_keyboard (push c (buf k)) (shift_held k).

Definition keyboard_getchar (k : keyboard) : Z * keyboard :=
  let '(c, r) := pop (buf k) in (c, mk_keyboard r (shift_held k)).

Definition KB_DATA_PORT : Z := 0x60.

(** [sc] is the byte read from KB_DATA_PORT. *)
Definition keyboard_irq (sc : Z) (k : keyboard) : keyboard :=
  if (sc =? SC_LSHIFT) || (sc =? SC_RSHIFT) then mk_keyboard (buf k) true else
  if (sc =? SC_LSHIFT_UP) || (sc =? SC_RSHIFT_UP) then mk_keyboard (buf k) false else
  if truth (sc .& 0x80) then k else
  if 128 <=? sc then k else
  let c := if shift_held k then zget scancode_ascii_shift sc else zget scancode_ascii sc in
  if truth c then buf_push c k else k.

(** [irq] is the address of keyboard_irq. *)
Definition keyboard_init {D} `{!PortIo D} (irq : Z) (i : interrupts) (d : D) : interrupts * D :=
  irq_install_handler 1 irq i d.

End Keyboard.

(** ** Mouse *)

Module Mouse.

Definition I8042_DATA : Z := 0x60.
Definition I8042_STATUS : Z := 0x64.
Definition I8042_CMD : Z := 0x64.
Definition I8042_OUT_FULL : Z := 0x01.
Definition I8042_IN_FULL : Z := 0x02.

Record mouse := mk_mouse {
  mouse_x : Z;
  mouse_y : Z;
  mouse_buttons : Z;
  state_dirty : bool;
  packet : list Z;
  packet_index : Z
}.

Definition mouse_reset : mouse := mk_mouse 0 0 0 false [0; 0; 0] 0.

(** The end of the handler, once the packet is complete. *)
Definition apply_packet (fb_width fb_height : Z) (p : list Z) (mx my : Z) : mouse :=
  let dx := zget p 1 in
  let dy := zget p 2 in
  let dx := if truth (zget p 0 .& 0x10) then dx - 256 else dx in
  let dy := if truth (zget p 0 .& 0x20) then dy - 256 else dy in
  let mx := i32 (mx + dx) in
  let my := i32 (my - dy) in
  let max_x := i32 (i32 fb_width - 1) in
  let max_y := i32 (i32 fb_height - 1) in
  let mx := if mx <? 0 then 0 else mx in
  let my := if my <? 0 then 0 else my in
  let mx := if (0 <=? max_x) && (max_x <? mx) then max_x else mx in
  let my := if (0 <=? max_y) && (max_y <? my) then max_y else my in
  mk_mouse mx my (zget p 0 .& 0x07) true p 0.

(** [data] is the byte read from port 0x60; the screen size is what the framebuffer
    driver answers. *)
Definition mouse_irq (fb_width fb_height data : Z) (s : mouse) : mouse :=
  if (packet_index s =? 0) && negb (truth (data .& 0x08)) then s else
  let p := zset (packet s) (packet_index s) data in
  let i := packet_index s + 1 in
  if i <? 3 then mk_mouse (mouse_x s) (mouse_y s) (mouse_buttons s) (state_dirty s) p i
  else apply_packet fb_width fb_height p (mouse_x s) (mouse_y s).

(** The state, if it changed since the last call. *)
Definition mouse_get_state (s : mouse) : option (Z * Z * Z) * mouse :=
  if negb (state_dirty s) then (None, s) else
  (Some (mouse_x s, mouse_y s, mouse_buttons s),
   mk_mouse (mouse_x s) (mouse_y s) (mouse_buttons s) false (packet s) (packet_index s)).

Section init.
Context {D : Type} `{!PortIo D}.

(** The loops give up after 100000 reads of the status port. *)
Definition timeout : nat := Z.to_nat 100000.

Definition wait_input_clear (d : D) : D :=
  poll timeout I8042_STATUS (λ v, negb (truth (v .& I8042_IN_FULL))) d.
Definition wait_output_full (d : D) : D :=
  poll timeout I8042_STATUS (λ v, truth (v .& I8042_OUT_FULL)) d.

Definition mouse_write (val : Z) (d : D) : D :=
  let d := wait_input_clear d in
  let d := outb I8042_CMD 0xD4 d in
  let d := wait_input_clear d in
  outb I8042_DATA val d.

Definition mouse_read (d : D) : Z * D := inb I8042_DATA (wait_output_full d).

(** [irq] is the address of mouse_irq. *)
Definition mouse_init (fb_width fb_height irq : Z) (s : mouse) (i : interrupts) (d : D) : mouse * interrupts * D :=
  let s := mk_mouse (i32 (fb_width / 2)) (i32 (fb_height / 2)) (mouse_buttons s) (state_dirty s)
             (packet s) (packet_index s) in
  let d := outb I8042_CMD 0xA8 (wait_input_clear d) in
  let d := outb I8042_CMD 0x20 (wait_input_clear d) in
  let '(status, d) := mouse_read d in
  let status := status .| 0x02 in
  let status := status .& u8 (Z.lnot 0x20) in
  let d := outb I8042_CMD 0x60 (wait_input_clear d) in
  let d := outb I8042_DATA status (wait_input_clear d) in
  let d := mouse_write 0xF6 d in
  let d := snd (mouse_read d) in
  let d := mouse_write 0xF4 d in
  let d := snd (mouse_read d) in
  let '(i, d) := irq_install_handler 12 irq i d in
  (s, i, d).
End init.

(** ** Properties *)

Definition is_byte (b : Z) : Prop := 0 <= b < 256.

(** The mouse is on the screen and the packet buffer is in order. *)
Record mouse_ok (fw fh : Z) (s : mouse) : Prop := {
  mo_x : 0 <= mouse_x s < fw;
  mo_y : 0 <= mouse_y s < fh;
  mo_packet : length (packet s) = 3%nat ∧ Forall is_byte (packet s);
  mo_index : 0 <= packet_index s < 3
}.

(** A movement: a byte, and the sign bit of the first byte. *)
Definition delta (b0 sign b : Z) : Z := if Z.testbit b0 sign then b - 256 else b.
Definition clamp (hi v : Z) : Z := Z.max 0 (Z.min hi v).

Lemma truth_bit v k : 0 <= k → truth (v .& (1 ≪ k)) = Z.testbit v k.
Proof.
  intros Hk. unfold truth. destruct (Z.testbit v k) eqn:E.
  - apply negb_true_iff, Z.eqb_neq. intros H. apply (f_equal (λ z, Z.testbit z k)) in H.
    rewrite Z.land_spec, E, Z.shiftl_1_l, Z.pow2_bits_true, Z.bits_0 in H by done. done.
  - apply negb_false_iff, Z.eqb_eq. apply Z.bits_inj'. intros n Hn.
    rewrite Z.land_spec, Z.shiftl_1_l, Z.pow2_bits_eqb, Z.bits_0 by done.
    destruct (Z.eqb_spec k n) as [<-|]; [by rewrite E|by rewrite andb_false_r].
Qed.

Section irq.
Context (fw fh : Z) (Hw : 0 < fw < 2 ^ 30) (Hh : 0 < fh < 2 ^ 30).

Lemma apply_packet_spec p mx my :
  length p = 3%nat → Forall is_byte p → 0 <= mx < fw → 0 <= my < fh →
  apply_packet fw fh p mx my =
  mk_mouse (clamp (fw - 1) (mx + delta (zget p 0) 4 (zget p 1))) (clamp (fh - 1) (my - delta (zget p 0) 5 (zget p 2)))
    (zget p 0 .& 0x07) true p 0.
Proof.
  intros Hl Hp Hx Hy. unfold apply_packet.
  change 0x10 with (1 ≪ 4). change 0x20 with (1 ≪ 5). rewrite !truth_bit by lia.
  fold (delta (zget p 0) 4 (zget p 1)) (delta (zget p 0) 5 (zget p 2)).
  assert (is_byte (zget p 1) ∧ is_byte (zget p 2)) as [H1 H2] by (split; apply zget_Forall; (done || lia)).
  unfold is_byte in *.
  assert (-256 <= delta (zget p 0) 4 (zget p 1) < 256) as Hdx by (unfold delta; case_if; lia).
  assert (-256 <= delta (zget p 0) 5 (zget p 2) < 256) as Hdy by (unfold delta; case_if; lia).
  set (dx := delta _ 4 _) in *. set (dy := delta _ 5 _) in *.
  rewrite (i32_id fw), (i32_id fh), (i32_id (fw - 1)), (i32_id (fh - 1)), (i32_id (mx + dx)), (i32_id (my - dy))
    by (unfold in_i; lia).
  rewrite (proj2 (Z.leb_le 0 (fw - 1))), (proj2 (Z.leb_le 0 (fh - 1))) by lia. cbn [andb].
  f_equal; unfold clamp; repeat case_if; bool_to_prop; lia.
Qed.

Lemma mouse_irq_ok b s : is_byte b → mouse_ok fw fh s → mouse_ok fw fh (mouse_irq fw fh b s).
Proof.
  intros Hb [Hx Hy [Hl Hp] Hi]. unfold mouse_irq. case_if; [done|].
  assert (length (zset (packet s) (packet_index s) b) = 3%nat) as Hl' by (by rewrite zset_length).
  assert (Forall is_byte (zset (packet s) (packet_index s) b)) as Hp' by (by apply zset_Forall).
  case_if; bool_to_prop.
  - by split; cbn; [| | |lia].
  - rewrite apply_packet_spec by done. split; cbn; [unfold clamp; lia..|done|lia].
Qed.

(** C37: the mouse.  Whatever bytes arrive, in or out of step, the cursor stays on the
    screen and the packet buffer is never overrun.  Bytes without the sync bit are dropped
    until a packet starts; a packet then moves the cursor by the two 9-bit signed
    displacements (up is negative on the screen), clamped to the screen, and reports the
    three buttons. *)
Theorem mouse_tracks s bs b0 b1 b2 :
  mouse_ok fw fh s → Forall is_byte (bs ++ [b0; b1; b2]) →
  let s1 := foldl (λ s b, mouse_irq fw fh b s) s bs in
  mouse_ok fw fh s1 ∧
  (packet_index s1 = 0 → Z.testbit b0 3 = false → mouse_irq fw fh b0 s1 = s1) ∧
  (packet_index s1 = 0 → Z.testbit b0 3 = true →
    let s2 := foldl (λ s b, mouse_irq fw fh b s) s1 [b0; b1; b2] in
    mouse_x s2 = clamp (fw - 1) (mouse_x s1 + delta b0 4 b1) ∧
    mouse_y s2 = clamp (fh - 1) (mouse_y s1 - delta b0 5 b2) ∧
    packet_index s2 = 0 ∧ fst (mouse_get_state s2) = Some (mouse_x s2, mouse_y s2, b0 mod 8)).
Proof.
  intros Hs [Hbs Hb]%Forall_app s1. assert (mouse_ok fw fh s1) as Hs1.
  { unfold s1. clear s1 Hb. revert s Hs. induction Hbs as [|b bs Hb _ IH]; intros s Hs; [done|].
    cbn. by apply IH, mouse_irq_ok. }
  split; [done|]. destruct Hs1 as [Hx Hy [Hl Hp] _].
  apply Forall_cons in Hb as [Hb0 [Hb1 [Hb2 _]%Forall_cons]%Forall_cons].
  assert (truth (b0 .& 0x08) = Z.testbit b0 3) as Hsync by (by apply (truth_bit b0 3)).
  split.
  - intros H0 H3. unfold mouse_irq. by rewrite H0, Hsync, H3.
  - intros H0 H3. cbn [foldl]. set (p := packet s1) in *.
    set (sa := mk_mouse (mouse_x s1) (mouse_y s1) (mouse_buttons s1) (state_dirty s1) (zset p 0 b0) 1).
    assert (mouse_irq fw fh b0 s1 = sa) as -> by (unfold mouse_irq; by rewrite H0, Hsync, H3).
    change (mouse_irq fw fh b1 sa) with
      (mk_mouse (mouse_x s1) (mouse_y s1) (mouse_buttons s1) (state_dirty s1) (zset (zset p 0 b0) 1 b1) 2).
    set (q := zset (zset (zset p 0 b0) 1 b1) 2 b2).
    change (mouse_irq fw fh b2 _) with (apply_packet fw fh q (mouse_x s1) (mouse_y s1)).
    assert (zget q 0 = b0 ∧ zget q 1 = b1 ∧ zget q 2 = b2) as (E0 & E1 & E2).
    { unfold q. rewrite !zget_zset by (rewrite ?zset_length; lia). done. }
    assert (length q = 3%nat ∧ Forall is_byte q) as [Hlq Hpq].
    { unfold q. split; [by rewrite !zset_length|]. apply zset_Forall; [apply zset_Forall; [apply zset_Forall|]|]; done. }
    rewrite apply_packet_spec by done.
    rewrite E0, E1, E2. cbn. split_and!; try done. do 3 f_equal. by apply (Z.land_ones b0 3).
Qed.
End irq.

(** A stray byte, then five pixels right and three up. *)
Lemma mouse_tracks_witness :
  let s := foldl (λ s b, mouse_irq 800 600 b s) (mk_mouse 400 300 0 false [0; 0; 0] 0) ([0x05] ++ [0x09; 5; 3]) in
  mouse_x s = 405 ∧ mouse_y s = 297.
Proof.
  destruct (mouse_tracks 800 600 ltac:(lia) ltac:(lia) (mk_mouse 400 300 0 false [0; 0; 0] 0) [0x05] 0x09 5 3)
    as (_ & _ & H).
  - split; cbn; [lia|lia| |lia]. split; [done|]. repeat constructor; unfold is_byte; lia.
  - repeat constructor; unfold is_byte; lia.
  - destruct H as (H1 & H2 & _); [reflexivity|reflexivity|]. split; [exact H1|exact H2].
Defined.

End Mouse.

(** The prefix byte of an extended key is dropped, but the byte after it is taken for a
    plain scan code: the keypad's slash types a slash, and the fake shift of the arrow
    keys holds shift down. *)
Lemma extended_keys_not_ignored k :
  Keyboard.keyboard_irq 0xE0 k = k ∧
  Keyboard.shift_held (Keyboard.keyboard_irq 0x2A (Keyboard.keyboard_irq 0xE0 k)) = true ∧
  Keyboard.keyboard_irq 0x35 (Keyboard.keyboard_irq 0xE0 k) =
    Keyboard.buf_push (if Keyboard.shift_held k then 63 else 47) k.
Proof. destruct k as [b []]; repeat split; vm_compute; reflexivity. Qed.
