(* ===== verification/Ata.v ===== *)
(** * The disk of x86_64: drivers/ata.c

    The driver over the port interface, and what it relies on of an ATA drive as a class
    of laws; under them one call reads one sector of the drive, so that to the filesystem
    the disk is a function from sector numbers to sectors. *)

From S2P Require Import Prelude.
From S2P Require Import PortIo.
From S2P Require Import Vfs.

Definition ATA_DATA : Z := 0x1F0.
Definition ATA_SECCOUNT : Z := 0x1F2.
Definition ATA_LBA_LOW : Z := 0x1F3.
Definition ATA_LBA_MID : Z := 0x1F4.
Definition ATA_LBA_HIGH : Z := 0x1F5.
Definition ATA_DRIVE : Z := 0x1F6.
Definition ATA_STATUS : Z := 0x1F7.
Definition ATA_COMMAND : Z := 0x1F7.

Definition ATA_SR_BSY : Z := 0x80.
Definition ATA_SR_DRQ : Z := 0x08.
Definition ATA_SR_ERR : Z := 0x01.

Definition ATA_CMD_READ_SECTORS : Z := 0x20.

(** ** The driver *)

Section code.
Context {D : Type} `{!PortIo D}.

Definition ata_delay (d : D) : D :=
  let d := snd (inb ATA_STATUS d) in
  let d := snd (inb ATA_STATUS d) in
  let d := snd (inb ATA_STATUS d) in
  snd (inb ATA_STATUS d).

(** The loop has no bound of its own: [None] when the fuel ends first. *)
Fixpoint ata_wait_bsy_clear (fuel : nat) (d : D) : option D :=
  let '(s, d) := inb ATA_STATUS d in
  if truth (s .& ATA_SR_BSY) then
    match fuel with O => None | S fuel => ata_wait_bsy_clear fuel d end
  else Some d.

Definition wait_drq_body (_ : Z) (d : D) : ctl D (bool * D) :=
  let '(status, d) := inb ATA_STATUS d in
  if truth (status .& ATA_SR_ERR) then Return (false, d) else
  if truth (status .& ATA_SR_DRQ) then Return (true, d) else Continue d.

Definition ata_wait_drq (d : D) : bool * D :=
  match for_ret 0 100000 wait_drq_body d with
  | Return r => r
  | Continue d => (false, d)
  end.

(** The value of disk_present afterwards. *)
Definition ata_init (d : D) : bool * D :=
  let d := outb ATA_DRIVE 0xE0 d in
  let d := ata_delay d in
  let '(status, d) := inb ATA_STATUS d in
  (negb (status =? 0xFF), d).

Definition ata_available (disk_present : bool) : bool := disk_present.

(** [p[i] = w] for the buffer seen as 16-bit words. *)
Definition store16 (buf : list Z) (i w : Z) : list Z :=
  zset (zset buf (2 * i) (w mod 2 ^ 8)) (2 * i + 1) (w / 2 ^ 8).

Definition ata_read_sector (fuel : nat) (disk_present : bool) (lba : Z) (buf : list Z) (d : D) :
    option (bool * list Z * D) :=
  if negb disk_present then Some (false, buf, d) else
  d ← ata_wait_bsy_clear fuel d;
  let d := outb ATA_DRIVE (0xE0 .| ((lba ≫ 24) .& 0x0F)) d in
  let d := outb ATA_SECCOUNT 1 d in
  let d := outb ATA_LBA_LOW (lba .& 0xFF) d in
  let d := outb ATA_LBA_MID ((lba ≫ 8) .& 0xFF) d in
  let d := outb ATA_LBA_HIGH ((lba ≫ 16) .& 0xFF) d in
  let d := outb ATA_COMMAND ATA_CMD_READ_SECTORS d in
  let '(ok, d) := ata_wait_drq d in
  if negb (ok : bool) then Some (false, buf, d) else
  let '(buf, d) := for_up 0 256 (λ i '(buf, d),
    let '(w, d) := inw ATA_DATA d in (store16 buf i w, d)) (buf, d) in
  Some (true, buf, d).
End code.

(** ** The drive

    What the standard documents: while the drive shows BSY it owns the registers, and
    nothing is said of a write to them, nor of the other bits of the status; once it has
    shown BSY clear between two commands, the registers keep what is written to them and a
    read command starts a search.  When BSY clears in a search, ERR or DRQ tell how
    it went, and the data port then gives the 256 words in order.  [patience]
    bounds the status reads that the drive takes for the next change, [seek_bound] those
    of a search.  (The 400 ns in which the status may still be that before a command are
    left out.) *)

Inductive phase := Idle | Seeking (lba : Z) | Sending (ws : list Z).

Class AtaLaws (D : Type) `{!PortIo D} := {
  sector_words : Z → option (list Z);
  drive : D → phase;
  (* the drive owns the registers *)
  busy : D → bool;
  task_file : D → Z → Z;
  patience : D → nat;
  seek_bound : nat;
  sector_words_law lba ws : sector_words lba = Some ws → length ws = 256%nat ∧ Forall (in_u 16) ws;
  idle_law d : drive d = Idle →
    let '(s, d') := inb ATA_STATUS d in
    drive d' = Idle ∧ if truth (s .& ATA_SR_BSY) then (patience d' < patience d)%nat else busy d' = false;
  register_law d p v :
    drive d = Idle → busy d = false → p ∈ [ATA_SECCOUNT; ATA_LBA_LOW; ATA_LBA_MID; ATA_LBA_HIGH; ATA_DRIVE] →
    drive (outb p v d) = Idle ∧ busy (outb p v d) = false ∧
    ∀ q, task_file (outb p v d) q = if q =? p then v else task_file d q;
  command_law d :
    drive d = Idle → busy d = false → task_file d ATA_SECCOUNT = 1 → task_file d ATA_DRIVE / 16 = 0xE →
    drive (outb ATA_COMMAND ATA_CMD_READ_SECTORS d) =
      Seeking (task_file d ATA_LBA_LOW + task_file d ATA_LBA_MID * 2 ^ 8 + task_file d ATA_LBA_HIGH * 2 ^ 16
               + task_file d ATA_DRIVE mod 16 * 2 ^ 24) ∧
    (patience (outb ATA_COMMAND ATA_CMD_READ_SECTORS d) <= seek_bound)%nat;
  seek_law d lba : drive d = Seeking lba →
    let '(s, d') := inb ATA_STATUS d in
    if truth (s .& ATA_SR_BSY) then drive d' = Seeking lba ∧ (patience d' < patience d)%nat
    else if truth (s .& ATA_SR_ERR) then sector_words lba = None ∧ drive d' = Idle
    else if truth (s .& ATA_SR_DRQ) then ∃ ws, sector_words lba = Some ws ∧ drive d' = Sending ws
    else drive d' = Seeking lba ∧ (patience d' < patience d)%nat;
  data_law d w ws : drive d = Sending (w :: ws) →
    fst (inw ATA_DATA d) = w ∧
    drive (snd (inw ATA_DATA d)) = match ws with [] => Idle | _ => Sending ws end
}.

(** What the driver needs beyond the standard, because ata_wait_drq does not look at BSY:
    a searching drive that shows BSY shows neither ERR nor DRQ.  The drive of QEMU, which
    the Makefile runs the kernel on, sets its status so; [noisy_drive_misread] below is a
    drive that keeps the laws and is misread. *)
Class AtaQuiet (D : Type) `{!PortIo D, !AtaLaws D} :=
  quiet_law d lba : drive d = Seeking lba → truth (fst (inb ATA_STATUS d) .& ATA_SR_BSY) = true →
    truth (fst (inb ATA_STATUS d) .& ATA_SR_ERR) = false ∧ truth (fst (inb ATA_STATUS d) .& ATA_SR_DRQ) = false.

Section reading.
Context {D : Type} `{IO : !PortIo D, ATA : !AtaLaws D, QUIET : !AtaQuiet D}.
Implicit Types (d : D).

Lemma wait_bsy_spec fuel d :
  drive d = Idle → (patience d <= fuel)%nat →
  ∃ d', ata_wait_bsy_clear fuel d = Some d' ∧ drive d' = Idle ∧ busy d' = false.
Proof.
  revert d. induction fuel as [|fuel IH]; intros d Hd Hp; cbn [ata_wait_bsy_clear];
    pose proof (idle_law d Hd) as H; destruct (inb ATA_STATUS d) as [s d']; destruct H as [Hd' H];
    case_if; try by exists d'.
  - lia.
  - apply IH; [done|lia].
Qed.

(** What the search ends with. *)
Definition found (lba : Z) (r : bool * D) : Prop :=
  if fst r then ∃ ws, sector_words lba = Some ws ∧ drive (snd r) = Sending ws
  else sector_words lba = None ∧ drive (snd r) = Idle.

Lemma wait_drq_loop n i d lba :
  drive d = Seeking lba → (patience d < n)%nat →
  ∃ r, for_ret_n n i wait_drq_body d = Return r ∧ found lba r.
Proof.
  revert i d. induction n as [|n IH]; intros i d Hd Hp; [lia|]. cbn [for_ret_n].
  unfold wait_drq_body at 1. pose proof (seek_law d lba Hd) as H. pose proof (quiet_law d lba Hd) as Hq.
  destruct (inb ATA_STATUS d) as [s d']. cbn [fst] in Hq. destruct (truth (s .& ATA_SR_BSY)).
  - destruct (Hq eq_refl) as [-> ->]. destruct H as [Hd' Hp']. apply IH; [done|lia].
  - case_if; [by exists (false, d')|]. case_if; [by exists (true, d')|]. destruct H as [Hd' Hp']. apply IH; [done|lia].
Qed.

Lemma wait_drq_spec d lba :
  drive d = Seeking lba → Z.of_nat (patience d) < 100000 → found lba (ata_wait_drq d).
Proof.
  intros Hd Hp. unfold ata_wait_drq, for_ret.
  destruct (wait_drq_loop (Z.to_nat (100000 - 0)) 0 d lba Hd) as (r & -> & Hr); [lia|done].
Qed.

(** The bytes of a sector: each word little-endian. *)
Definition bytes_of (ws : list Z) : list Z := ws ≫= λ w, [w mod 2 ^ 8; w / 2 ^ 8].

Lemma length_bytes_of ws : length (bytes_of ws) = (2 * length ws)%nat.
Proof. unfold bytes_of. induction ws as [|w ws IH]; [done|]. rewrite bind_cons, length_app, IH. simpl. lia. Qed.

Lemma store16_app (pre rest : list Z) i w :
  length pre = Z.to_nat (2 * i) → 0 <= i → (2 <= length rest)%nat →
  store16 (pre ++ rest) i w = (pre ++ [w mod 2 ^ 8; w / 2 ^ 8]) ++ drop 2 rest.
Proof.
  intros Hl Hi Hr. destruct rest as [|a [|b rest]]; [simpl in *; lia..|]. unfold store16, zset.
  rewrite insert_app_r_alt, Hl, Nat.sub_diag by lia. rewrite insert_app_r_alt by lia.
  replace (Z.to_nat (2 * i + 1) - length pre)%nat with 1%nat by lia. cbn. by rewrite <- (assoc_L (++)).
Qed.

(** The transfer loop, from the middle. *)
Lemma transfer_loop ws i pre rest d :
  ws ≠ [] → drive d = Sending ws → length pre = Z.to_nat (2 * i) → 0 <= i →
  (2 * length ws <= length rest)%nat →
  ∃ d', for_n (length ws) i (λ i '(buf, d), let '(w, d) := inw ATA_DATA d in (store16 buf i w, d)) (pre ++ rest, d)
    = (pre ++ bytes_of ws ++ drop (2 * length ws) rest, d') ∧ drive d' = Idle.
Proof.
  revert i pre rest d. induction ws as [|w ws IH]; intros i pre rest d Hne Hd Hl Hi Hr; [done|].
  cbn [length for_n]. cbn [length] in Hr. destruct (data_law d w ws Hd) as [Hw Hd'].
  destruct (inw ATA_DATA d) as [w' d1]. cbn [fst snd] in *. subst w'.
  rewrite store16_app by (done || lia). destruct ws as [|w2 ws].
  - exists d1. split; [|done]. cbn [length for_n]. unfold bytes_of. cbn. by rewrite <- (assoc_L (++)).
  - destruct (IH (i + 1) (pre ++ [w mod 2 ^ 8; w / 2 ^ 8]) (drop 2 rest) d1) as (d' & E & Hid);
      [done|done|rewrite length_app; simpl; lia|lia|rewrite length_drop; cbn [length] in *; lia|].
    exists d'. split; [|done]. rewrite E. rewrite drop_drop. unfold bytes_of. rewrite (bind_cons _ w).
    rewrite <- !(assoc_L (++)).
    by replace (2 * S (length (w2 :: ws)))%nat with (2 + 2 * length (w2 :: ws))%nat by lia.
Qed.

(** The drive after the registers of a read were written. *)
Lemma command_spec d lba :
  drive d = Idle → busy d = false → 0 <= lba →
  let d1 := outb ATA_LBA_HIGH ((lba ≫ 16) .& 0xFF) (outb ATA_LBA_MID ((lba ≫ 8) .& 0xFF)
    (outb ATA_LBA_LOW (lba .& 0xFF) (outb ATA_SECCOUNT 1 (outb ATA_DRIVE (0xE0 .| ((lba ≫ 24) .& 0x0F)) d)))) in
  drive (outb ATA_COMMAND ATA_CMD_READ_SECTORS d1) = Seeking (lba mod 2 ^ 28) ∧
  (patience (outb ATA_COMMAND ATA_CMD_READ_SECTORS d1) <= seek_bound)%nat.
Proof.
  intros Hd Hb Hl. cbn zeta.
  destruct (register_law d ATA_DRIVE (0xE0 .| ((lba ≫ 24) .& 0x0F)) Hd Hb) as (H1 & B1 & T1); [set_solver|].
  destruct (register_law _ ATA_SECCOUNT 1 H1 B1) as (H2 & B2 & T2); [set_solver|].
  destruct (register_law _ ATA_LBA_LOW (lba .& 0xFF) H2 B2) as (H3 & B3 & T3); [set_solver|].
  destruct (register_law _ ATA_LBA_MID ((lba ≫ 8) .& 0xFF) H3 B3) as (H4 & B4 & T4); [set_solver|].
  destruct (register_law _ ATA_LBA_HIGH ((lba ≫ 16) .& 0xFF) H4 B4) as (H5 & B5 & T5); [set_solver|].
  assert (0xE0 .| ((lba ≫ 24) .& 0x0F) = 0xE0 + (lba / 2 ^ 24) mod 16) as Ed.
  { change 0x0F with (Z.ones 4). rewrite Z.land_ones, Z.shiftr_div_pow2 by lia.
    apply (lor_shiftl_low 14 _ 4); [lia|]. apply Z.mod_pos_bound. lia. }
  destruct (command_law _ H5 B5) as [Hs Hp].
  - by rewrite T5, T4, T3, T2.
  - rewrite T5, T4, T3, T2, T1. cbn. rewrite Ed. div_lia.
  - split; [|done]. rewrite Hs. f_equal. rewrite !T5, !T4, !T3, !T2, !T1. cbn -[Z.mul Z.add Z.pow Z.modulo Z.land Z.shiftr Z.lor].
    rewrite Ed. change 0xFF with (Z.ones 8). rewrite !Z.land_ones, !Z.shiftr_div_pow2 by lia. div_lia.
Qed.

(** The sectors of the drive as bytes; 28 bits of the number are sent. *)
Definition sector_bytes (lba : Z) : option (list Z) := bytes_of <$> sector_words (lba mod 2 ^ 28).

Lemma sector_bytes_wf : disk_wf sector_bytes.
Proof.
  intros lba sec. unfold sector_bytes. destruct (sector_words _) as [ws|] eqn:E; [|done]. intros [= <-].
  destruct (sector_words_law _ _ E) as [Hl Hf]. rewrite length_bytes_of, Hl. split; [done|].
  unfold bytes_of. clear E Hl. induction Hf as [|w ws Hw _ IH]; [constructor|]. rewrite bind_cons.
  apply Forall_app. split; [|done]. unfold in_u in *. repeat constructor; div_lia.
Qed.

(** One call. *)
Lemma read_sector_step fuel lba buf d :
  drive d = Idle → (patience d <= fuel)%nat → Z.of_nat seek_bound < 100000 → in_u 32 lba →
  length buf = 512%nat →
  disk_wf sector_bytes ∧
  ∃ d', drive d' = Idle ∧
    ata_read_sector fuel true lba buf d =
    Some (match sector_bytes lba with Some sector => (true, sector, d') | None => (false, buf, d') end).
Proof.
  intros Hd Hf Hs Hl Hb. split; [apply sector_bytes_wf|]. unfold ata_read_sector. cbn [negb].
  destruct (wait_bsy_spec fuel d Hd Hf) as (d0 & -> & Hd0 & Hb0). cbn [mbind option_bind].
  destruct (command_spec d0 lba Hd0 Hb0) as [Hseek Hp]; [unfold in_u in Hl; lia|].
  set (d1 := outb ATA_COMMAND _ _) in *.
  pose proof (wait_drq_spec d1 _ Hseek ltac:(lia)) as Hfound.
  destruct (ata_wait_drq d1) as [[] d2]; cbn [fst snd negb] in *; unfold found in Hfound; cbn in Hfound; unfold sector_bytes.
  - destruct Hfound as (ws & E & Hd2). rewrite E. cbn [fmap option_fmap option_map].
    destruct (sector_words_law _ _ E) as [Hlw _].
    destruct (transfer_loop ws 0 [] buf d2) as (d' & E' & Hd'); [by destruct ws|done|done|lia|lia|].
    exists d'. split; [done|]. unfold for_up. rewrite Hlw in E'. change (Z.to_nat (256 - 0)) with 256%nat.
    cbn [app] in E'. rewrite E', drop_ge, (right_id_L [] (++)) by lia. done.
  - destruct Hfound as [E Hd2]. rewrite E. exists d2. done.
Qed.

(** C26: the disk driver.  From a drive between two commands, busy or not, that answers
    within the 100000 polls and shows neither ERR nor DRQ while it is busy searching, one
    call reads the sector (its number modulo 2^28) into the buffer, or reports the drive's
    error and leaves the buffer alone; the drive is idle again, so any sequence of calls
    gives what one fixed function from numbers to 512-byte sectors gives, which is the
    disk the filesystem is proved against. *)
Theorem ata_reads_sectors fuel lba buf d :
  drive d = Idle → (patience d <= fuel)%nat → Z.of_nat seek_bound < 100000 → in_u 32 lba →
  length buf = 512%nat →
  disk_wf sector_bytes ∧
  ∃ d', drive d' = Idle ∧
    ata_read_sector fuel true lba buf d =
    Some (match sector_bytes lba with Some sector => (true, sector, d') | None => (false, buf, d') end).
Proof. apply read_sector_step. Qed.
End reading.

(** ** A drive *)

(** It serves the sectors of [medium]; every change takes some polls, during which the status is
    [shown] (with BSY) and writes are lost.  It is busy for a while after a transfer, too. *)
Record sim := mk_sim { sim_phase : phase; sim_regs : gmap Z Z; sim_wait : nat }.

Section drive.
Variable medium : Z → option (list Z).
Hypothesis medium_ok : ∀ lba ws, medium lba = Some ws → length ws = 256%nat ∧ Forall (in_u 16) ws.
Variable shown : Z.
Hypothesis shown_busy : truth (shown .& ATA_SR_BSY) = true.

Definition sim_reg (d : sim) (p : Z) : Z := default 0 (sim_regs d !! p).
Definition sim_busy (d : sim) : bool := negb (Nat.eqb (sim_wait d) 0).

Definition sim_status (d : sim) : Z * sim :=
  match sim_wait d with
  | S n => (shown, mk_sim (sim_phase d) (sim_regs d) n)
  | O => match sim_phase d with
         | Seeking lba =>
             match medium lba with
             | Some ws => (0x48, mk_sim (Sending ws) (sim_regs d) 0)
             | None => (0x41, mk_sim Idle (sim_regs d) 0)
             end
         | _ => (0x40, d)
         end
  end.

Definition sim_command (d : sim) : sim :=
  mk_sim (Seeking (sim_reg d ATA_LBA_LOW + sim_reg d ATA_LBA_MID * 2 ^ 8 + sim_reg d ATA_LBA_HIGH * 2 ^ 16
                   + sim_reg d ATA_DRIVE mod 16 * 2 ^ 24)) (sim_regs d) 3.

Definition sim_io : PortIo sim := {|
  outb p v d := if sim_busy d then d
                else if p =? ATA_COMMAND then sim_command d
                else mk_sim (sim_phase d) (<[p := v]> (sim_regs d)) (sim_wait d);
  inb p d := if p =? ATA_STATUS then sim_status d else (0, d);
  outw _ _ d := d;
  inw _ d := match sim_phase d with
             | Sending [w] => (w, mk_sim Idle (sim_regs d) 2)
             | Sending (w :: ws) => (w, mk_sim (Sending ws) (sim_regs d) (sim_wait d))
             | _ => (0, d)
             end
|}.

#[local] Existing Instance sim_io.

#[program] Definition sim_laws : AtaLaws sim := {|
  sector_words := medium; drive := sim_phase; busy := sim_busy; task_file := sim_reg; patience := sim_wait; seek_bound := 3
|}.
Next Obligation. exact medium_ok. Qed.
Next Obligation.
  intros [ph rg n] H. cbn in *. subst ph. unfold sim_status. cbn -[Z.land]. destruct n; cbn -[Z.land]; [done|].
  rewrite shown_busy. split; [done|lia].
Qed.
Next Obligation.
  intros d p v H Hb Hp. cbn. rewrite Hb. assert ((p =? ATA_COMMAND) = false) as ->.
  { rewrite !elem_of_cons, elem_of_nil in Hp. destruct Hp as [->|[->|[->|[->|[->|[]]]]]]; done. }
  split; [done|]. split; [done|]. intros q. unfold sim_reg. cbn. destruct (Z.eqb_spec q p) as [->|Hne].
  - by rewrite lookup_insert_eq.
  - by rewrite lookup_insert_ne.
Qed.
Next Obligation. intros d H Hb H1 H2. cbn. rewrite Hb. split; [done|]. cbn. lia. Qed.
Next Obligation.
  intros [ph rg n] lba H. cbn in *. subst ph. unfold sim_status. cbn -[Z.land]. destruct n; cbn -[Z.land].
  - destruct (medium lba); cbn; [by eexists|done].
  - rewrite shown_busy. split; [done|lia].
Qed.
Next Obligation. intros [ph rg n] w ws H. cbn in *. subst ph. by destruct ws. Qed.

Lemma sim_quiet :
  truth (shown .& ATA_SR_ERR) = false → truth (shown .& ATA_SR_DRQ) = false →
  @AtaQuiet sim sim_io sim_laws.
Proof.
  intros He Hq [ph rg n] lba H. cbn in *. subst ph. unfold sim_status. cbn -[Z.land]. destruct n; cbn -[Z.land]; [|done].
  by destruct (medium lba).
Qed.
End drive.

(** A medium whose sector 5 holds one word 256 times, and whose others cannot be read. *)
Definition medium (lba : Z) : option (list Z) := if lba =? 5 then Some (replicate 256 0xABCD) else None.

Lemma medium_words lba ws : medium lba = Some ws → length ws = 256%nat ∧ Forall (in_u 16) ws.
Proof.
  unfold medium. case_if; intros [= <-]. split; [done|].
  apply (Forall_replicate (in_u 16) 256 0xABCD). unfold in_u. lia.
Qed.

(** A drive that keeps the laws, but shows DRQ together with BSY: the driver takes words
    from it that are no data. *)
Lemma noisy_drive_misread :
  (∃ _ : @AtaLaws sim (sim_io medium 0x88), True) ∧
  fst <$> @ata_read_sector sim (sim_io medium 0x88) 2 true 5 (replicate 512 1) (mk_sim Idle ∅ 2)
    = Some (true, replicate 512 0) ∧
  bytes_of (replicate 256 0xABCD) ≠ replicate 512 0.
Proof.
  split; [by exists (sim_laws medium medium_words 0x88 eq_refl)|]. split; [by vm_compute|]. by vm_compute.
Qed.

#[local] Instance example_io : PortIo sim := sim_io medium 0x80.
#[local] Instance example_laws : AtaLaws sim := sim_laws medium medium_words 0x80 eq_refl.
#[local] Instance example_quiet : AtaQuiet sim := sim_quiet medium medium_words 0x80 eq_refl eq_refl eq_refl.

Lemma ata_reads_sectors_witness :
  let d := mk_sim Idle ∅ 2 in
  (∃ d', ata_read_sector 2 true 0xF0000005 (replicate 512 0) d = Some (true, bytes_of (replicate 256 0xABCD), d')) ∧
  ∃ d', ata_read_sector 2 true 6 (replicate 512 0) d = Some (false, replicate 512 0, d').
Proof.
  split.
  - destruct (ata_reads_sectors 2 0xF0000005 (replicate 512 0) (mk_sim Idle ∅ 2)) as (_ & d' & _ & E);
      [reflexivity|apply le_n|reflexivity|split; [discriminate|reflexivity]|reflexivity|]. exists d'. exact E.
  - destruct (ata_reads_sectors 2 6 (replicate 512 0) (mk_sim Idle ∅ 2)) as (_ & d' & _ & E);
      [reflexivity|apply le_n|reflexivity|split; [discriminate|reflexivity]|reflexivity|]. exists d'. exact E.
Defined.
