(* ===== verification/Mmio.v ===== *)
(** * Memory-mapped devices on aarch64

    As the ports of x86_64, the device registers are a type with the effect of each
    access, [Mmio]; an access has a width in bits and an address.  [mlog] is a concrete
    device for examples: it records the writes and answers reads from a function of the
    accesses so far. *)

From S2P Require Import Prelude.

Class Mmio (D : Type) := {
  mmio_load : Z → Z → D → Z * D;
  mmio_store : Z → Z → Z → D → D
}.

Section mmio.
Context {D : Type} `{!Mmio D}.

(** [while (busy (register)) { }]: [None] when [fuel] reads did not end it. *)
Fixpoint spin (fuel : nat) (width addr : Z) (busy : Z → bool) (d : D) : option (Z * D) :=
  match fuel with
  | O => None
  | S fuel =>
      let '(v, d) := mmio_load width addr d in
      if busy v then spin fuel width addr busy d else Some (v, d)
  end.

(** A device answers a register within [n] reads from [d] on. *)
Fixpoint ready_within (n : nat) (width addr : Z) (busy : Z → bool) (d : D) : Prop :=
  match n with
  | O => False
  | S n => let '(v, d) := mmio_load width addr d in busy v = false ∨ ready_within n width addr busy d
  end.

Lemma spin_ready n width addr busy d :
  ready_within n width addr busy d → is_Some (spin n width addr busy d).
Proof.
  revert d. induction n as [|n IH]; intros d; [done|]. cbn [ready_within spin].
  destruct (mmio_load width addr d) as [v d']. destruct (busy v) eqn:E; [|intros _; by eexists].
  intros [?|H]; [done|by apply IH].
Qed.
Lemma ready_within_mono n m width addr busy d :
  (n <= m)%nat → ready_within n width addr busy d → ready_within m width addr busy d.
Proof.
  revert m d. induction n as [|n IH]; intros m d Hm; [done|]. destruct m as [|m]; [lia|]. cbn [ready_within].
  destruct (mmio_load width addr d) as [v d']. intros [H|H]; [by left|right]. apply IH; [lia|done].
Qed.
End mmio.

(** ** Memory, byte by byte *)

Definition bytemem : Type := Z → Z.

(** [n] bytes at [a], little-endian. *)
Fixpoint peek (n : nat) (a : Z) (m : bytemem) : Z :=
  match n with O => 0 | S n => m a + 2 ^ 8 * peek n (a + 1) m end.
Definition poke (n : nat) (a v : Z) (m : bytemem) : bytemem :=
  λ b, if (a <=? b) && (b <? a + Z.of_nat n) then v / 2 ^ (8 * (b - a)) mod 2 ^ 8 else m b.

Lemma peek_ext n a m m' : (∀ b, a <= b < a + Z.of_nat n → m b = m' b) → peek n a m = peek n a m'.
Proof.
  revert a. induction n as [|n IH]; intros a H; [done|]. cbn [peek]. rewrite H by lia. f_equal. f_equal.
  apply IH. intros b Hb. apply H. lia.
Qed.

Lemma poke_out n a v m b : ¬ (a <= b < a + Z.of_nat n) → poke n a v m b = m b.
Proof. intros H. unfold poke. destruct (Z.leb_spec a b), (Z.ltb_spec b (a + Z.of_nat n)); done || lia. Qed.

Lemma peek_poke_ne n k a b v m :
  a + Z.of_nat n <= b ∨ b + Z.of_nat k <= a → peek n a (poke k b v m) = peek n a m.
Proof. intros H. apply peek_ext. intros x Hx. apply poke_out. lia. Qed.

Lemma peek_digits n a v m k :
  0 <= k → (∀ b, a <= b < a + Z.of_nat n → m b = v / 2 ^ (8 * (k + (b - a))) mod 2 ^ 8) →
  peek n a m = (v / 2 ^ (8 * k)) mod 2 ^ (8 * Z.of_nat n).
Proof.
  revert a k. induction n as [|n IH]; intros a k Hk H; cbn [peek].
  - change (2 ^ (8 * Z.of_nat 0)) with 1. by rewrite Z.mod_1_r.
  - rewrite (IH (a + 1) (k + 1)), H, Z.sub_diag, Z.add_0_r by (lia || intros b Hb; rewrite H by lia; do 4 f_equal; lia).
    replace (8 * (k + 1)) with (8 * k + 8) by lia. replace (8 * Z.of_nat (S n)) with (8 + 8 * Z.of_nat n) by lia.
    rewrite !Z.pow_add_r, <- Z.div_div, Z.rem_mul_r by (lia || apply Z.pow_nonzero || apply Z.pow_pos_nonneg; lia). lia.
Qed.

Lemma peek_poke_eq n a v m : peek n a (poke n a v m) = v mod 2 ^ (8 * Z.of_nat n).
Proof.
  rewrite (peek_digits n a v _ 0); [by rewrite Z.div_1_r|lia|]. intros b Hb. unfold poke.
  destruct (Z.leb_spec a b), (Z.ltb_spec b (a + Z.of_nat n)); try lia. done.
Qed.

Lemma peek_range n a m : (∀ b, in_u 8 (m b)) → in_u (8 * Z.of_nat n) (peek n a m).
Proof.
  intros Hm. revert a. induction n as [|n IH]; intros a; [done|]. cbn [peek]. specialize (IH (a + 1)).
  pose proof (Hm a). unfold in_u in *. replace (8 * Z.of_nat (S n)) with (8 + 8 * Z.of_nat n) by lia.
  rewrite Z.pow_add_r by lia. nia.
Qed.

(** The bytes of a field, and a memory that holds a list of bytes. *)
Definition le (k : nat) (v : Z) : list Z := (λ i, v / 256 ^ Z.of_nat i mod 256) <$> seq 0 k.
Definition mem_of (base : Z) (l : list Z) : bytemem := λ a, default 0 (l !! Z.to_nat (a - base)).

(** Several stores: the number of bytes, the address and the value of each. *)
Definition pokes (l : list (nat * Z * Z)) (m : bytemem) : bytemem :=
  foldl (λ m '(n, a, v), poke n a v m) m l.
Definition inside (lo hi : Z) (w : nat * Z * Z) : Prop := lo <= w.1.2 ∧ w.1.2 + Z.of_nat w.1.1 <= hi.

Lemma pokes_out l lo hi m b : Forall (inside lo hi) l → ¬ (lo <= b < hi) → pokes l m b = m b.
Proof.
  intros Hl Hb. unfold pokes. revert m. induction Hl as [|[[n a] v] l Hw _ IH]; intros m; [done|]. cbn [foldl]. rewrite IH.
  apply poke_out. unfold inside in Hw. cbn in Hw. lia.
Qed.

(** RAM next to the devices: while none of them is at work ([quiet]), accesses to RAM
    are those of a byte memory. *)
Class Ram (D : Type) `{!Mmio D} := {
  ram : D → bytemem;
  quiet : D → Prop;
  is_ram : Z → Prop;
  ram_load n a d : quiet d → (∀ b, a <= b < a + Z.of_nat n → is_ram b) →
    mmio_load (8 * Z.of_nat n) a d = (peek n a (ram d), d);
  ram_store n a v d : quiet d → (∀ b, a <= b < a + Z.of_nat n → is_ram b) →
    quiet (mmio_store (8 * Z.of_nat n) a v d) ∧
    ∀ b, ram (mmio_store (8 * Z.of_nat n) a v d) b = poke n a v (ram d) b
}.

Definition stores {D} `{!Mmio D} (l : list (nat * Z * Z)) (d : D) : D :=
  foldl (λ d '(n, a, v), mmio_store (8 * Z.of_nat n) a v d) d l.

Lemma pokes_ext l m m' : (∀ b, m b = m' b) → ∀ b, pokes l m b = pokes l m' b.
Proof.
  revert m m'. induction l as [|[[n a] v] l IH]; intros m m' H; [done|]. apply (IH (poke n a v m)). intros b.
  unfold poke. by case_if.
Qed.

Lemma run_stores {D} `{!Mmio D, !Ram D} l lo hi (d : D) :
  quiet d → Forall (inside lo hi) l → (∀ b, lo <= b < hi → is_ram b) →
  quiet (stores l d) ∧ ∀ b, ram (stores l d) b = pokes l (ram d) b.
Proof.
  intros Hd Hl Hram. revert d Hd. induction Hl as [|[[n a] v] l Hw _ IH]; intros d Hd; [done|].
  unfold inside in Hw. cbn in Hw. destruct (ram_store n a v d Hd) as [Hq Hr]; [intros b Hb; apply Hram; lia|].
  destruct (IH _ Hq) as [Hq' Hr']. split; [done|]. intros b. cbn in Hr' |- *. rewrite Hr'. by apply pokes_ext.
Qed.

(** ** A device that logs *)

Inductive maccess := MStore (width addr v : Z) | MLoad (width addr : Z).

(** [m_answer] gives the value a load reads after the accesses so far. *)
Record mlog := mk_mlog { m_trace : list maccess; m_answer : list maccess → Z → Z }.

#[export] Instance mlog_mmio : Mmio mlog := {|
  mmio_load w a d := (m_answer d (m_trace d) a, mk_mlog (m_trace d ++ [MLoad w a]) (m_answer d));
  mmio_store w a v d := mk_mlog (m_trace d ++ [MStore w a v]) (m_answer d)
|}.
