(* ===== verification/Timers.v ===== *)
(** * Ticks: drivers/pit.c on x86_64; drivers/gic.c, timer.c, uart.c and irq.c on aarch64

    What turns a timer interrupt into sched_tick.  On x86_64 the interrupt reaches
    pit_tick through idt.c (Interrupts.v); on aarch64 aarch64_irq_handler talks to the
    interrupt controller itself.  The controller and the timer are outside the program:
    the class [Irq] has their accesses, and [IrqLaws] the behaviour of the GIC and of the
    generic timer that the order of the accesses in the handler relies on. *)

From S2P Require Import Prelude.
From S2P Require Import FrameAlloc.
From S2P Require Import Pmm.
From S2P Require Import Heap.
From S2P Require Import Switch.
From S2P Require Import Sched.
From S2P Require Import PortIo.
From S2P Require Import Interrupts.
From S2P Require Import Mmio.

(** ** x86_64 *)

Definition PIT_FREQUENCY : Z := 1193182.
Definition PIT_CHANNEL0 : Z := 0x40.
Definition PIT_COMMAND : Z := 0x43.

Section pit.
Context {D : Type} `{!PortIo D} {St : Type} `{!FrameOps St} {R : Type} `{!SwitchOps R}.

(** [pit_tick_at] is the address of pit_tick.  A division by zero faults. *)
Definition pit_init (pit_tick_at hz : Z) (s : interrupts) (d : D) : option (interrupts * D) :=
  if hz =? 0 then None else
  let divisor := u16 (PIT_FREQUENCY / hz) in
  let d := outb PIT_COMMAND 0x36 d in
  let d := outb PIT_CHANNEL0 (divisor .& 0xFF) d in
  let d := outb PIT_CHANNEL0 ((divisor ≫ 8) .& 0xFF) d in
  Some (irq_install_handler 0 pit_tick_at s d).

(** The static [ticks], and the scheduler. *)
Definition pit_tick (ticks : Z) (s : sched St R) : option (Z * sched St R) :=
  let ticks := u64 (ticks + 1) in
  s ← sched_tick s; Some (ticks, s).

Definition pit_get_ticks (ticks : Z) : Z := ticks.
End pit.

(** ** aarch64: the UART *)

Definition UART_DR : Z := 0x09000000 + 0x00.
Definition UART_FR : Z := 0x09000000 + 0x18.
Definition UART_CR : Z := 0x09000000 + 0x30.
Definition UART_FR_TXFF : Z := 1 ≪ 5.
Definition UART_CR_UARTEN : Z := 1 ≪ 0.
Definition UART_CR_TXE : Z := 1 ≪ 8.
Definition UART_CR_RXE : Z := 1 ≪ 9.

Section uart.
Context {D : Type} `{!Mmio D}.
Variable fuel : nat.

Definition uart_init (d : D) : D := mmio_store 32 UART_CR (UART_CR_UARTEN .| UART_CR_TXE .| UART_CR_RXE) d.

Definition uart_putc (c : Z) (d : D) : option D :=
  '(_, d) ← spin fuel 32 UART_FR (λ v, truth (v .& UART_FR_TXFF)) d;
  Some (mmio_store 32 UART_DR (u32 (u8 c)) d).

(** The bytes of a string without its NUL, one after the other. *)
Fixpoint uart_puts (s : list Z) (d : D) : option D :=
  match s with
  | [] => Some d
  | c :: s => d ← uart_putc c d; uart_puts s d
  end.
End uart.

(** ** aarch64: the interrupt controller *)

Definition GICD_BASE : Z := 0x08000000.
Definition GICC_BASE : Z := 0x08010000.
Definition GICD_CTLR : Z := GICD_BASE + 0x000.
Definition GICD_IGROUPR (n : Z) : Z := GICD_BASE + 0x080 + 4 * n.
Definition GICD_IPRIORITYR (n : Z) : Z := GICD_BASE + 0x400 + 4 * n.
Definition GICD_ISENABLER (n : Z) : Z := GICD_BASE + 0x100 + 4 * n.
Definition GICC_CTLR : Z := GICC_BASE + 0x000.
Definition GICC_PMR : Z := GICC_BASE + 0x004.
Definition GICC_IAR : Z := GICC_BASE + 0x00C.
Definition GICC_EOIR : Z := GICC_BASE + 0x010.
Definition CTLR_ENABLE_GRP0 : Z := 1 ≪ 0.
Definition CTLR_ENABLE_GRP1 : Z := 1 ≪ 1.
Definition GICC_CTLR_ACK_CTL : Z := 1 ≪ 2.

Section gic.
Context {D : Type} `{!Mmio D}.

Definition gic_init (d : D) : D :=
  let d := mmio_store 32 GICD_CTLR (CTLR_ENABLE_GRP0 .| CTLR_ENABLE_GRP1) d in
  let d := mmio_store 32 GICC_CTLR (CTLR_ENABLE_GRP0 .| CTLR_ENABLE_GRP1 .| GICC_CTLR_ACK_CTL) d in
  mmio_store 32 GICC_PMR 0xFF d.

Definition gic_enable_irq (irq : Z) (d : D) : D :=
  let reg := irq / 32 in
  let bit := irq mod 32 in
  let '(v, d) := mmio_load 32 (GICD_IGROUPR reg) d in
  let d := mmio_store 32 (GICD_IGROUPR reg) (v .| u32 (1 ≪ bit)) d in
  let '(v, d) := mmio_load 32 (GICD_IPRIORITYR (irq / 4)) d in
  let d := mmio_store 32 (GICD_IPRIORITYR (irq / 4)) (v .& Z.lnot (u32 (0xFF ≪ (irq mod 4 * 8)))) d in
  mmio_store 32 (GICD_ISENABLER reg) (u32 (1 ≪ bit)) d.

Definition gic_cpu_iack (d : D) : Z * D := mmio_load 32 GICC_IAR d.
Definition gic_cpu_eoi (iar : Z) (d : D) : D := mmio_store 32 GICC_EOIR iar d.
End gic.

(** ** aarch64: the generic timer and the handler *)

Definition GENERIC_TIMER_IRQ : Z := 30.
Definition CNTP_CTL_ENABLE : Z := 1 ≪ 0.

(** The timer's system registers, next to the memory-mapped controller. *)
Class Irq (D : Type) := {
  irq_mmio :: Mmio D;
  read_cntfrq : D → Z;
  write_cntp_tval : Z → D → D;
  write_cntp_ctl : Z → D → D
}.

(** The two static variables of timer.c. *)
Record timer := mk_timer { reload_ticks : Z; t_ticks : Z }.

Section irq.
Context {D : Type} `{!Irq D} {St : Type} `{!FrameOps St} {R : Type} `{!SwitchOps R}.

Definition generic_timer_init (hz : Z) (t : timer) (d : D) : option (timer * D) :=
  if hz =? 0 then None else
  let t := mk_timer (u32 (read_cntfrq d / hz)) (t_ticks t) in
  let d := write_cntp_tval (reload_ticks t) d in
  let d := write_cntp_ctl CNTP_CTL_ENABLE d in
  Some (t, gic_enable_irq GENERIC_TIMER_IRQ d).

Definition generic_timer_ack (t : timer) (d : D) : D := write_cntp_tval (reload_ticks t) d.

(** sched_tick may switch to another thread, and what comes after it runs only when this
    one is resumed: the last component lists the device and the variables as they are when
    sched_tick is called, which is how the next thread finds them. *)
Definition generic_timer_tick (t : timer) (s : sched St R) (d : D) : option (timer * sched St R * list (timer * D)) :=
  let t := mk_timer (reload_ticks t) (u64 (t_ticks t + 1)) in
  s ← sched_tick s; Some (t, s, [(t, d)]).

Definition generic_timer_ticks (t : timer) : Z := t_ticks t.

Definition aarch64_irq_handler (t : timer) (s : sched St R) (d : D) :
    option (timer * sched St R * D * list (timer * D)) :=
  let '(iar, d) := gic_cpu_iack d in
  let intid := iar .& 0x3FF in
  let d := if intid =? GENERIC_TIMER_IRQ then generic_timer_ack t d else d in
  let d := gic_cpu_eoi iar d in
  '(t, s, found) ← (if intid =? GENERIC_TIMER_IRQ then generic_timer_tick t s d else Some (t, s, []));
  Some (t, s, d, found).
End irq.

(** What the handler relies on.  [timer_line]: the timer asserts its interrupt line;
    [in_service]: the interrupt acknowledged and not yet completed; [timer_pending]: the
    controller would signal the timer's interrupt once more. *)
Class IrqLaws (D : Type) `{!Irq D} := {
  timer_line : D → bool;
  in_service : D → option Z;
  timer_pending : D → bool;
  (* a reload clears the timer's condition *)
  tval_law v d : 0 < v → timer_line (write_cntp_tval v d) = false ∧ in_service (write_cntp_tval v d) = in_service d;
  (* an identifier from 1020 on is no interrupt *)
  iar_law d : in_service d = None →
    in_service (mmio_load 32 GICC_IAR d).2 =
      (if (mmio_load 32 GICC_IAR d).1 .& 0x3FF <? 1020 then Some (mmio_load 32 GICC_IAR d).1 else None);
  (* completing an interrupt takes the value that was acknowledged; a level-triggered
     interrupt whose line is still asserted is signalled again *)
  eoi_law v d : in_service d = Some v →
    in_service (mmio_store 32 GICC_EOIR v d) = None ∧
    (v .& 0x3FF = GENERIC_TIMER_IRQ → timer_pending (mmio_store 32 GICC_EOIR v d) = timer_line d);
  eoi_spurious_law v d : in_service d = None → in_service (mmio_store 32 GICC_EOIR v d) = None
}.

(** ** Properties *)

Section ticks.
Context {D : Type} `{IRQ : !Irq D, IL : !IrqLaws D} {St : Type} `{OPS : !FrameOps St, FL : !FrameLaws St}.
Context {R : Type} `{SW : !SwitchOps R, SWL : !SwitchLaws R}.

(** C38: on aarch64 one acknowledged timer interrupt is one tick.  Interrupting the running
    thread anywhere, the handler calls sched_tick once, and the thread it switches to finds
    the interrupt already completed at the controller, the timer's line low so that it is
    not signalled a second time, and the tick counted; the interrupted thread is then at
    the end of the ring.  Any other interrupt (or none) is completed too, does not reach the
    scheduler and leaves the count alone. *)
Theorem timer_irq_is_one_tick t s (e0 : entry) L c m (d : D) :
  sched_rep s e0 L → in_stack e0 c → (∀ e x, e ∈ L → e_lo e <= x < e_hi e → m x = mem s x) →
  in_service d = None → 0 < reload_ticks t →
  let intid := (gic_cpu_iack d).1 .& 0x3FF in
  ∃ t' s' d' found, aarch64_irq_handler t (running s c m) d = Some (t', s', d', found) ∧ in_service d' = None ∧
    if intid =? GENERIC_TIMER_IRQ
    then (∃ d1, found = [(t', d1)] ∧ in_service d1 = None ∧ timer_pending d1 = false) ∧
         t' = mk_timer (reload_ticks t) (u64 (t_ticks t + 1)) ∧
         sched_tick (running s c m) = Some s' ∧ ring_rep (s', rot1 (with_ctx e0 c :: L))
    else found = [] ∧ t' = t ∧ s' = running s c m.
Proof.
  intros Hr Hc Hm Hd Ht intid. unfold aarch64_irq_handler, generic_timer_ack, intid, gic_cpu_iack, gic_cpu_eoi.
  pose proof (iar_law d Hd) as Hi. destruct (mmio_load 32 GICC_IAR d) as [iar d1]. cbn [fst snd] in *.
  destruct (Z.eqb_spec (iar .& 0x3FF) GENERIC_TIMER_IRQ) as [E|E].
  - rewrite E in Hi. destruct (tval_law (reload_ticks t) d1 Ht) as [Hline Hserv]. rewrite Hi in Hserv.
    destruct (eoi_law _ _ Hserv) as [Hdone Hpend].
    destruct (tick_rep s e0 L c m Hr Hc Hm) as (s' & Es & Hring). unfold generic_timer_tick. rewrite Es. cbn [mbind option_bind].
    do 4 eexists. split; [done|]. split; [done|]. split; [|done]. eexists. split; [done|]. split; [done|]. by rewrite Hpend.
  - do 4 eexists. split; [done|]. split; [|done].
    destruct (_ <? 1020); [by apply eoi_law|by apply eoi_spurious_law].
Qed.
End ticks.

(** ** A device for examples *)

(** The timer's line, the interrupt in service, whether the controller signals it again,
    and the identifiers it hands out. *)
Record gicv2 := mk_gicv2 { g_line : bool; g_service : option Z; g_again : bool; g_ids : list Z }.

#[export] Instance gicv2_mmio : Mmio gicv2 := {|
  mmio_load _ a g :=
    if a =? GICC_IAR then
      let iar := default 1023 (head (g_ids g)) in
      (iar, mk_gicv2 (g_line g) (if iar .& 0x3FF <? 1020 then Some iar else g_service g) (g_again g) (tail (g_ids g)))
    else (0, g);
  mmio_store _ a v g :=
    if (a =? GICC_EOIR) && bool_decide (g_service g = Some v)
    then mk_gicv2 (g_line g) None (if v .& 0x3FF =? GENERIC_TIMER_IRQ then g_line g else g_again g) (g_ids g)
    else g
|}.

#[export] Instance gicv2_irq : Irq gicv2 := {|
  read_cntfrq _ := 62500000;
  write_cntp_tval v g := mk_gicv2 (v <=? 0) (g_service g) (g_again g) (g_ids g);
  write_cntp_ctl _ g := g
|}.

#[export] Instance gicv2_laws : IrqLaws gicv2.
Proof.
  refine {| timer_line := g_line; in_service := g_service; timer_pending := g_again |}.
  - intros v d Hv. cbn. split; [lia|done].
  - intros d Hd. cbn [mmio_load irq_mmio gicv2_irq gicv2_mmio]. rewrite Z.eqb_refl. cbn. by rewrite Hd.
  - intros v d Hd. cbn [mmio_store irq_mmio gicv2_irq gicv2_mmio]. rewrite Z.eqb_refl, bool_decide_true by done. split; [done|]. intros E. cbn. by rewrite E.
  - intros v d Hd. cbn [mmio_store irq_mmio gicv2_irq gicv2_mmio]. by rewrite bool_decide_false, andb_false_r by (by rewrite Hd).
Defined.

#[local] Existing Instances Sched.example_ops Sched.example_laws.

Lemma timer_irq_is_one_tick_witness :
  ∃ (s : sched pmm regs_x86) t' s' d' d1, sched_current s = 0x1030 ∧
    aarch64_irq_handler (mk_timer 625000 41) (running s boot_cpu (mem s)) (mk_gicv2 true None false [30]) =
      Some (t', s', d', [(t', d1)]) ∧
    t_ticks t' = 42 ∧ g_again d1 = false ∧ g_service d1 = None.
Proof.
  destruct two_threads_example as (s & Hr). pose proof (sr_current _ _ _ Hr) as Hcur.
  destruct (timer_irq_is_one_tick (mk_timer 625000 41) s boot_entry [second_entry] boot_cpu (mem s)
    (mk_gicv2 true None false [30]) Hr) as (t' & s' & d' & found & E & _ & H).
  - unfold in_stack. simpl. lia.
  - done.
  - reflexivity.
  - reflexivity.
  - destruct H as ((d1 & -> & Hs & Hp) & -> & _). eexists s, _, s', d', d1. split; [exact Hcur|]. split; [exact E|].
    split; [reflexivity|]. split; [exact Hp|exact Hs].
Defined.

(** The divisor of the PIT: for the rates from 19 Hz to the frequency of the crystal the
    register holds the quotient, and the ticks come at least as often as asked for; below
    19 Hz its 16 bits wrap. *)
Lemma pit_divisor hz :
  19 <= hz <= PIT_FREQUENCY →
  let divisor := u16 (PIT_FREQUENCY / hz) in 1 <= divisor ∧ divisor * hz <= PIT_FREQUENCY < (divisor + 1) * hz.
Proof.
  intros H divisor. unfold divisor, PIT_FREQUENCY in *.
  assert (0 < 1193182 / hz) as H1 by (apply Z.div_str_pos; lia).
  assert (1193182 / hz < 2 ^ 16) as H2 by (apply Z.div_lt_upper_bound; lia).
  rewrite u16_id by (unfold in_u; lia). div_lia.
Qed.
