(* ===== verification/ProcessArch.v ===== *)
(** * Processes on the two architectures

    The code of Process.v with the constants, the page tables and the stack layouts of
    arch/x86_64/process.c and arch/aarch64/process.c, and the two system-call dispatchers,
    syscall.c.  What Process.v assumes of an architecture is proved for both. *)

From S2P Require Import Prelude.
From S2P Require Import FrameAlloc.
From S2P Require Import Pmm.
From S2P Require Import Heap.
From S2P Require Import Switch.
From S2P Require Import Framebuffer.
From S2P Require Import Interrupts.
From S2P Require Import Mmio.
From S2P Require Import Timers.
From S2P Require Import PageTable.
From S2P Require Import AddressSpace.
From S2P Require Import UserPages.
From S2P Require Import Process.
From S2P Require Import VmmX86.
From S2P Require Import VmmA64.

(** An address in a mapped frame. *)
Lemma frame_phys b f w :
  0 <= b → 0 <= f < 2 ^ b → ((f * PAGE) .& (Z.ones b ≪ 12)) .| (w .& 0xFFF) = f * PAGE + w mod PAGE.
Proof.
  intros Hb Hf. rewrite land_page_mask by done. change 0xFFF with (Z.ones 12). rewrite Z.land_ones by lia.
  change PAGE with (2 ^ 12). rewrite <- Z.shiftl_mul_pow2 by lia. rewrite lor_shiftl_low; [|lia|apply Z.mod_pos_bound; lia].
  by rewrite Z.shiftl_mul_pow2 by lia.
Qed.

(** ** x86_64 *)

Module X86.
#[local] Existing Instances VmmX86.x86_format VmmX86.x86_laws.

Definition USER_CODE_SEL : Z := 0x1B.
Definition USER_DATA_SEL : Z := 0x23.
Definition USER_STACK_TOP : Z := 0x00007FFFFFFFF000.
Definition EM_X86_64 : Z := 62.

Definition vm {St} `{!FrameOps St} : Vm St := {|
  vm_create := VmmX86.vmm_create_address_space;
  vm_destroy := VmmX86.vmm_destroy_address_space;
  vm_map := VmmX86.vmm_map;
  vm_translate := VmmX86.vmm_translate;
  vm_switch := VmmX86.vmm_switch
|}.
#[local] Existing Instance vm.

Lemma vm_laws {St} `{!FrameOps St} : VmLaws St 3.
Proof.
  refine {| vm_leaf ph fl := Some (VmmX86.leaf_entry ph fl) |}; intros; cbn [vm_create vm_destroy vm_map vm_translate vm_switch vm].
  - apply VmmX86.vmm_create_eq.
  - apply VmmX86.vmm_destroy_eq.
  - apply VmmX86.vmm_map_eq.
  - apply VmmX86.vmm_translate_eq.
  - by destruct (as_root s x) as [r|] eqn:E; unfold VmmX86.vmm_switch; rewrite E.
  - rewrite VmmX86.leaf_entry_law. unfold VmmX86.page_phys. rewrite truth_testbit_0, H0.
    by apply (frame_phys 40).
Qed.
#[local] Existing Instance vm_laws.

Section process.
Variables (process_trampoline thread_trampoline : Z).

Definition switch : SwitchOps regs_x86 := switch_ops_x86 thread_trampoline.
Definition switch_laws : SwitchLaws regs_x86 (SwitchOps0 := switch) := switch_laws_x86 thread_trampoline.
#[local] Existing Instances switch switch_laws.

Definition build_launch_stack (stack_top params : Z) (m : Switch.memory) : Z * Switch.memory :=
  push_all [process_trampoline; 0; 0; params; 0; 0; 0] stack_top m.

Definition launch : LaunchOps regs_x86 := {|
  e_machine := EM_X86_64;
  user_stack_top := USER_STACK_TOP;
  launch_params entry := [entry; USER_STACK_TOP; USER_DATA_SEL; USER_CODE_SEL];
  Process.build_launch_stack := build_launch_stack
|}.
#[local] Existing Instance launch.

(** process_trampoline finds the parameters in r12. *)
Lemma launch_laws : LaunchLaws regs_x86.
Proof.
  refine {| launch_context top params := mk_context (mk_regs_x86 0 0 params 0 0 0) top process_trampoline |}.
  - intros top params m. cbn [Process.build_launch_stack launch]. unfold build_launch_stack.
    pose proof (push_all_spec [process_trampoline; 0; 0; params; 0; 0; 0] top m) as H.
    destruct (push_all _ _ _) as [sp m']. destruct H as (Hsp & Hw & Hout). simpl in Hsp.
    split; [|done]. split; [simpl; lia|exact Hw].
  - done.
  - cbn. lia.
Defined.
#[local] Existing Instance launch_laws.

Context {St : Type} `{!FrameOps St}.

Definition elf_valid := Process.elf_valid EM_X86_64.
Definition process_start : list Z → Z → Z → proc St regs_x86 → option (option (as_ptr * Z) * proc St regs_x86) :=
  Process.process_start.
Definition process_finish : as_ptr → Z → proc St regs_x86 → option (Z * proc St regs_x86) := Process.process_finish.
Definition process_syscall_exit : Z → proc St regs_x86 → proc St regs_x86 := Process.process_syscall_exit.

(** ** System calls *)

Definition SYS_EXIT : Z := 0.
Definition SYS_DEBUG_DRAW : Z := 1.

(** [string_at a]: the bytes from address [a] to the end of what is mapped there. *)
Definition syscall_dispatch (string_at : Z → list Z) (fb : option fb_info)
    (regs : registers) (p : proc St regs_x86) (m : video) : option (registers * proc St regs_x86 * video) :=
  if rax regs =? SYS_EXIT then Some (regs, process_syscall_exit (i32 (rdi regs)) p, m) else
  if rax regs =? SYS_DEBUG_DRAW then
    m ← (if Framebuffer.X86.fb_available fb then
           s ← c_string (string_at (rdx regs));
           Some (Framebuffer.X86.fb_draw_string fb (u32 (rdi regs)) (u32 (rsi regs)) (u32 (r10 regs)) 0 s m)
         else Some m);
    Some (with_rax regs 0, p, m)
  else Some (with_rax regs (u64 (-1)), p, m).

(** A number that is no system call is answered with -1 and nothing else. *)
Lemma syscall_unknown string_at fb regs p m :
  1 < rax regs → syscall_dispatch string_at fb regs p m = Some (with_rax regs (2 ^ 64 - 1), p, m).
Proof.
  intros H. unfold syscall_dispatch. rewrite !(proj2 (Z.eqb_neq _ _)) by (unfold SYS_EXIT, SYS_DEBUG_DRAW; lia). done.
Qed.
End process.
End X86.

(** ** aarch64 *)

Module A64.
#[local] Existing Instances VmmA64.a64_format VmmA64.a64_laws.

Definition USER_STACK_TOP : Z := 0x00000000F0000000.
Definition EM_AARCH64 : Z := 183.

Definition vm {St} `{!FrameOps St} : Vm St := {|
  vm_create := VmmA64.vmm_create_address_space;
  vm_destroy := VmmA64.vmm_destroy_address_space;
  vm_map := VmmA64.vmm_map;
  vm_translate := VmmA64.vmm_translate;
  vm_switch := VmmA64.vmm_switch
|}.
#[local] Existing Instance vm.

Lemma a64_vm_laws {St} `{!FrameOps St} : VmLaws St 2.
Proof.
  refine {| vm_leaf := VmmA64.leaf_entry |}; intros; cbn [vm_create vm_destroy vm_map vm_translate vm_switch vm].
  - apply VmmA64.a64_vmm_create_eq.
  - apply VmmA64.a64_vmm_destroy_eq.
  - apply VmmA64.a64_vmm_map_eq.
  - apply VmmA64.a64_vmm_translate_eq.
  - by destruct (as_root s x) as [r|] eqn:E; unfold VmmA64.vmm_switch; rewrite E.
  - rewrite VmmA64.a64_leaf_entry_law. unfold VmmA64.page_phys. rewrite truth_testbit_0, H0.
    by apply (frame_phys 36).
Qed.
#[local] Existing Instance a64_vm_laws.

Section process.
Variables (process_trampoline thread_trampoline : Z).

Definition switch : SwitchOps regs_a64 := switch_ops_a64 thread_trampoline.
Definition switch_laws : SwitchLaws regs_a64 (SwitchOps0 := switch) := switch_laws_a64 thread_trampoline.
#[local] Existing Instances switch switch_laws.

Definition build_launch_stack (stack_top params : Z) (m : Switch.memory) : Z * Switch.memory :=
  push_all [process_trampoline; 0; 0; 0; 0; 0; 0; 0; 0; 0; 0; params] stack_top m.

Definition launch : LaunchOps regs_a64 := {|
  e_machine := EM_AARCH64;
  user_stack_top := USER_STACK_TOP;
  launch_params entry := [entry; USER_STACK_TOP];
  Process.build_launch_stack := build_launch_stack
|}.
#[local] Existing Instance launch.

(** process_trampoline finds the parameters in x19. *)
Lemma a64_launch_laws : LaunchLaws regs_a64.
Proof.
  refine {| launch_context top params := mk_context (mk_regs_a64 params 0 0 0 0 0 0 0 0 0 0) top process_trampoline |}.
  - intros top params m. cbn [Process.build_launch_stack launch]. unfold build_launch_stack.
    pose proof (push_all_spec [process_trampoline; 0; 0; 0; 0; 0; 0; 0; 0; 0; 0; params] top m) as H.
    destruct (push_all _ _ _) as [sp m']. destruct H as (Hsp & Hw & Hout). simpl in Hsp.
    split; [|done]. split; [simpl; lia|exact Hw].
  - done.
  - cbn. lia.
Defined.
#[local] Existing Instance a64_launch_laws.

Context {St : Type} `{!FrameOps St}.

Definition elf_valid := Process.elf_valid EM_AARCH64.
Definition process_start : list Z → Z → Z → proc St regs_a64 → option (option (as_ptr * Z) * proc St regs_a64) :=
  Process.process_start.
Definition process_finish : as_ptr → Z → proc St regs_a64 → option (Z * proc St regs_a64) := Process.process_finish.
Definition process_syscall_exit : Z → proc St regs_a64 → proc St regs_a64 := Process.process_syscall_exit.

(** ** System calls *)

Definition SYS_EXIT : Z := 0.
Definition SYS_WRITE : Z := 1.

(** [x] has x0 to x30. *)
Record aarch64_regs := mk_aarch64_regs { x : list Z; elr : Z; spsr : Z }.
Definition with_x0 (r : aarch64_regs) (v : Z) : aarch64_regs := mk_aarch64_regs (zset (x r) 0 v) (elr r) (spsr r).

Definition aarch64_svc_handler {D} `{!Mmio D} (fuel : nat) (string_at : Z → list Z)
    (regs : aarch64_regs) (p : proc St regs_a64) (d : D) : option (aarch64_regs * proc St regs_a64 * D) :=
  if zget (x regs) 8 =? SYS_EXIT then Some (regs, process_syscall_exit (i32 (zget (x regs) 0)) p, d) else
  if zget (x regs) 8 =? SYS_WRITE then
    s ← c_string (string_at (zget (x regs) 0));
    d ← uart_puts fuel s d;
    Some (with_x0 regs 0, p, d)
  else Some (with_x0 regs (u64 (-1)), p, d).
End process.
End A64.

(** ** Witnesses: an 8-byte program on x86_64 *)

(** One segment of four bytes in the file and eight in memory, at 4 MB. *)
Definition small_elf : list Z :=
  [0x7F; 69; 76; 70; 2; 1; 1; 0] ++ replicate 8 0 ++ le 2 2 ++ le 2 62 ++ le 4 1 ++
  le 8 0x400000 ++ le 8 64 ++ le 8 0 ++ le 4 0 ++ le 2 64 ++ le 2 56 ++ le 2 1 ++ le 2 0 ++ le 2 0 ++ le 2 0 ++
  le 4 1 ++ le 4 5 ++ le 8 120 ++ le 8 0x400000 ++ le 8 0 ++ le 8 4 ++ le 8 8 ++ le 8 4096 ++
  [0x31; 0xC0; 0xCD; 0x80].
Definition small_phdr : elf64_phdr := mk_phdr 1 5 120 0x400000 4 8.
Definition small_ehdr : elf64_ehdr := mk_ehdr 0x400000 64 1.

(** process_run is called on a stack above the managed memory. *)
Definition boot_proc : proc pmm regs_x86 :=
  mk_proc VmmX86.boot_vmm (mk_context (mk_regs_x86 1 2 3 4 5 6) 0x60000 0xC0DE) (λ _, 0) 0 0 true.

Section witness.
#[local] Existing Instances VmmX86.x86_format VmmX86.x86_laws X86.vm X86.vm_laws.
#[local] Instance example_switch : SwitchOps regs_x86 := X86.switch 0x77.
#[local] Instance example_switch_laws : SwitchLaws regs_x86 := X86.switch_laws 0x77.
#[local] Instance example_launch : LaunchOps regs_x86 := X86.launch 0x88.
#[local] Instance example_launch_laws : LaunchLaws regs_x86 := X86.launch_laws 0x88 0x77.

Definition started : option (option (as_ptr * Z) * proc pmm regs_x86) :=
  X86.process_start 0x88 0x77 small_elf 124 0x60010 boot_proc.

Lemma small_pages : pages small_phdr = {[1024]}.
Proof. by apply (bool_decide_eq_true_1 _); vm_compute. Qed.

Lemma small_image_ok : image_ok 3 small_elf small_ehdr [small_phdr].
Proof.
  split.
  - apply Forall_forall. intros b Hb. unfold in_u.
    assert (Forall (λ b, 0 <= b < 256) small_elf) as HF by (vm_compute; repeat constructor; done).
    rewrite Forall_forall in HF. change (2 ^ 8) with 256. by apply HF.
  - done.
  - discriminate.
  - intros [|[|i]] ph E; [|done|done]. injection E as <-. vm_compute. reflexivity.
  - intros ph ->%list_elem_of_singleton. split; cbn; unfold span; lia.
  - intros [|i] [|j] ph ph' E E' Hne; by try done.
Qed.

Definition kernel_stack : gset Z := {[0x5F; 0x60]}.

Lemma boot_on_stack : on_stack boot_proc 0x60010 kernel_stack.
Proof.
  split.
  - intros b a. cbn. by rewrite lookup_empty.
  - by apply (bool_decide_eq_true_1 _); vm_compute.
  - cbn. lia.
  - intros a Ha. cbn in Ha. apply elem_of_union. rewrite !elem_of_singleton. unfold PAGE. div_lia.
Qed.

Lemma small_open : set_Forall (λ q, path_open 3 VmmX86.boot_words 0x1000 (va_index (q * PAGE)) = true)
  (stack_pages X86.USER_STACK_TOP ∪ pages_of [small_phdr]).
Proof. by apply (bool_decide_eq_true_1 _); vm_compute. Qed.

(** The frames that are left once the address space exists are enough for the image. *)
Definition frames_left (c : option (as_ptr * vmm pmm)) : nat :=
  match c with Some (_, s) => size (fa_free (frames (v_heap s))) | None => 0 end.

Lemma boot_created : ∃ x s, VmmX86.vmm_create_address_space VmmX86.boot_vmm = Some (x, s) ∧
  (20 <= size (fa_free (frames (v_heap s))))%nat.
Proof.
  assert (20 <= frames_left (VmmX86.vmm_create_address_space VmmX86.boot_vmm))%nat as H
    by (apply Nat.leb_le; vm_compute; reflexivity).
  destruct (VmmX86.vmm_create_address_space VmmX86.boot_vmm) as [[x s]|]; cbn [frames_left] in H; [|lia].
  exists x, s. split; [reflexivity|exact H].
Qed.

Lemma small_loadable :
  ∃ x s, loadable 3 small_elf 124 0x60010 kernel_stack boot_proc [] small_ehdr [small_phdr] x s.
Proof.
  destruct boot_created as (x & s & Ec & Hleft). exists x, s. split.
  - vm_compute. reflexivity.
  - vm_compute. reflexivity.
  - exact small_image_ok.
  - reflexivity.
  - split; [discriminate|]. vm_compute. discriminate.
  - apply (bool_decide_eq_true_1 _). vm_compute. reflexivity.
  - exact VmmX86.boot_vmm_rep.
  - exact VmmX86.boot_ready.
  - exact small_open.
  - exact Ec.
  - exact Hleft.
  - exact boot_on_stack.
Qed.

(** The space and the launch stack of this process. *)
Lemma small_started x base p1 :
  process_start small_elf 124 0x60010 boot_proc = Some (Some (x, base), p1) → x = user_space 0x7030 ∧ base = 0x7050.
Proof.
  intros E. assert (fst <$> started = Some (Some (user_space 0x7030, 0x7050))) as E1 by (vm_compute; reflexivity).
  change (process_start small_elf 124 0x60010 boot_proc) with started in E. rewrite E in E1.
  injection E1 as -> ->. split; reflexivity.
Qed.

Lemma process_start_loads_witness :
  ∃ p1, started = Some (Some (user_space 0x7030, 0x7050), p1) ∧ c_pc (p_cpu p1) = 0x88 ∧
    c_sp (p_cpu p1) = 0x7050 + 0x4000 ∧ p_stacks p1 0x60010 = 0x400000 ∧
    ∃ a, VmmX86.vmm_translate (user_space 0x7030) 0x400001 (p_vm p1) = Some a ∧ ld8 (v_mem (p_vm p1)) a = 0xC0.
Proof.
  destruct small_loadable as (x1 & s1 & Hlo).
  destruct (process_start_loads 3 ltac:(reflexivity) _ _ _ _ _ _ _ _ _ _ Hlo) as (x & base & p1 & E & H).
  destruct (small_started _ _ _ E) as [-> ->].
  exists p1. split; [exact E|]. destruct H as [H|(F & Hmem & _ & _ & Hcpu & Hw)]; [discriminate|].
  rewrite Hcpu. split; [reflexivity|]. split; [reflexivity|]. split; [apply Hw|].
  destruct (um_segments _ _ _ _ _ _ _ Hmem small_phdr 0x400001) as (a & Ha & _ & Hb).
  - by apply list_elem_of_singleton.
  - rewrite small_pages. by apply elem_of_singleton.
  - exists a. split; [exact Ha|]. rewrite Hb. vm_compute. reflexivity.
Defined.

(** process.h says that process_run returns -1 for an image without PT_LOAD segments; the
    code does not look, and launches the same file with its only segment of another type. *)
Definition segmentless_elf : list Z := <[64%nat := 0]> small_elf.

Lemma segmentless_launched :
  elf_valid e_machine segmentless_elf 124 = Some true ∧ read_ehdr segmentless_elf = Some small_ehdr ∧
  read_phdr segmentless_elf 64 0 = Some (mk_phdr 0 5 120 0x400000 4 8) ∧
  (λ r, c_pc (p_cpu (snd r))) <$> X86.process_start 0x88 0x77 segmentless_elf 124 0x60010 boot_proc = Some 0x88.
Proof. split_and!; vm_compute; reflexivity. Qed.

(** The process makes its exit call on the interrupt stack at 0x55000. *)
Definition small_process (p : proc pmm regs_x86) : proc pmm regs_x86 :=
  process_syscall_exit 42
    (mk_proc (p_vm p) (mk_context (mk_regs_x86 0 0 0 0 0 0) 0x55000 0xE) (p_stacks p) (kernel_return_sp p) 0 false).

Lemma small_ran x base p1 F :
  launched 3 small_elf 0x60010 boot_proc small_ehdr [small_phdr] x base p1 F →
  ran p1 F (mk_proc (p_vm p1) (mk_context (mk_regs_x86 0 0 0 0 0 0) 0x55000 0xE) (p_stacks p1) (kernel_return_sp p1) 0 false).
Proof.
  intros Hla. pose proof (frame_sp _ _ _ (su_return _ _ _ _ _ _ (la_suspended _ _ _ _ _ _ _ _ _ _ Hla))) as Hsp. cbn in Hsp.
  split; [|reflexivity|reflexivity|left; cbn; lia].
  exists (v_mem (p_vm p1)). split; [apply same_but_refl|]. unfold with_mem. cbn. by destruct (p_vm p1).
Qed.

Lemma process_run_returns_witness :
  ∃ p4, process_run small_elf 124 0x60010 small_process boot_proc = Some (42, p4) ∧
    c_pc (p_cpu p4) = 0xC0DE ∧ interrupts_on p4 = true ∧
    VmmX86.vmm_translate (user_space 0x7030) 0 (p_vm p4) = None.
Proof.
  destruct small_loadable as (x1 & s1 & Hlo).
  destruct (process_run_returns 3 ltac:(reflexivity) small_elf 124 0x60010 kernel_stack boot_proc [] small_ehdr [small_phdr] x1 s1 small_process 42) as [H _].
  destruct (H Hlo) as (p4 & E4 & Hcpu & Hint & _ & _ & _ & Htr).
  { intros x base p1 E. destruct (small_started _ _ _ E) as [-> ->]. split; [discriminate|].
    intros F Hla. eexists. split; [exact (small_ran _ _ _ _ Hla)|reflexivity]. }
  exists p4. split; [exact E4|]. split; [rewrite Hcpu; reflexivity|]. split; [exact Hint|].
  specialize (Htr (user_space 0x7030) 0 ltac:(split; [lia|reflexivity])). etransitivity; [exact Htr|].
  vm_compute. reflexivity.
Defined.
End witness.
