(* ===== verification/Virtio.v ===== *)
(** * virtio on aarch64: drivers/virtio.c and drivers/virtio_blk.c

    The transport and the block device over it.  Everything the driver shares with the
    device goes through [mmio_load] and [mmio_store]: the registers of the slot, and the
    rings and buffers in RAM, which the device reads and writes between two accesses of
    the driver.  Barriers order these accesses and have no other effect.  What the device
    does is the class [VirtioBlk], after the virtio specification. *)

From S2P Require Import Prelude.
From S2P Require Import FrameAlloc.
From S2P Require Import Heap.
From S2P Require Import Mmio.

Definition VIRTIO_MMIO_BASE0 : Z := 0x0a000000.
Definition VIRTIO_MMIO_STRIDE : Z := 0x200.
Definition VIRTIO_MMIO_SLOTS : Z := 32.

Definition MAGIC_VALUE : Z := 0x000.
Definition VERSION : Z := 0x004.
Definition DEVICE_ID : Z := 0x008.
Definition DRIVER_FEATURES : Z := 0x020.
Definition DRIVER_FEATURES_SEL : Z := 0x024.
Definition QUEUE_SEL : Z := 0x030.
Definition QUEUE_NUM_MAX : Z := 0x034.
Definition QUEUE_NUM : Z := 0x038.
Definition QUEUE_READY : Z := 0x044.
Definition QUEUE_NOTIFY : Z := 0x050.
Definition STATUS : Z := 0x070.
Definition QUEUE_DESC_LOW : Z := 0x080.
Definition QUEUE_DESC_HIGH : Z := 0x084.
Definition QUEUE_AVAIL_LOW : Z := 0x090.
Definition QUEUE_AVAIL_HIGH : Z := 0x094.
Definition QUEUE_USED_LOW : Z := 0x0a0.
Definition QUEUE_USED_HIGH : Z := 0x0a4.
Definition CONFIG : Z := 0x100.

Definition VIRTIO_MAGIC : Z := 0x74726976.
Definition STATUS_ACKNOWLEDGE : Z := 1.
Definition STATUS_DRIVER : Z := 2.
Definition STATUS_DRIVER_OK : Z := 4.
Definition STATUS_FEATURES_OK : Z := 8.
Definition QUEUE_SIZE : Z := 8.

Definition VIRTIO_DEV_BLOCK : Z := 2.
Definition VIRTIO_DEV_INPUT : Z := 18.
Definition VIRTQ_DESC_F_NEXT : Z := 1.
Definition VIRTQ_DESC_F_WRITE : Z := 2.

(** A request descriptor; [next] is filled in by the transport. *)
Record virtq_desc := mk_desc { d_addr : Z; d_len : Z; d_flags : Z }.
#[export] Instance virtq_desc_inhabited : Inhabited virtq_desc := populate (mk_desc 0 0 0).

Record virtio_device := mk_device {
  mmio_base : Z;
  queue_size : Z;
  desc : Z;
  avail : Z;
  used : Z;
  next_desc : Z;
  used_seen : Z
}.
Definition saw_one (dev : virtio_device) : virtio_device :=
  mk_device (mmio_base dev) (queue_size dev) (desc dev) (avail dev) (used dev) (next_desc dev)
    (u16 (used_seen dev + 1)).

(** ** The transport *)

Section transport.
Context {D : Type} `{!Mmio D}.

Definition mmio_read (base off : Z) (d : D) : Z * D := mmio_load 32 (base + off) d.
Definition mmio_write (base off val : Z) (d : D) : D := mmio_store 32 (base + off) val d.

Definition avail_idx (dev : virtio_device) : Z := avail dev + 2.
Definition avail_ring (dev : virtio_device) (i : Z) : Z := avail dev + 4 + 2 * i.
Definition used_idx (dev : virtio_device) : Z := used dev + 2.
Definition used_ring (dev : virtio_device) (i : Z) : Z := used dev + 4 + 8 * i.

(** The result is the base address of the slot, 0 for NULL. *)
Definition find_slot (device_id index : Z) (d : D) : Z * D :=
  match for_ret 0 VIRTIO_MMIO_SLOTS (λ i '(seen, d),
    let candidate := VIRTIO_MMIO_BASE0 + i * VIRTIO_MMIO_STRIDE in
    let '(magic, d) := mmio_read candidate MAGIC_VALUE d in
    if negb (magic =? VIRTIO_MAGIC) then Continue (seen, d) else
    let '(id, d) := mmio_read candidate DEVICE_ID d in
    if negb (id =? device_id) then Continue (seen, d) else
    if seen =? index then Return (candidate, d) else Continue (u32 (seen + 1), d)) (0, d)
  with
  | Return r => r
  | Continue (_, d) => (0, d)
  end.

(** The features negotiated: VIRTIO_F_VERSION_1 alone. *)
Definition negotiate (base : Z) (d : D) : D :=
  let d := mmio_write base STATUS 0 d in
  let d := mmio_write base STATUS STATUS_ACKNOWLEDGE d in
  let d := mmio_write base STATUS (STATUS_ACKNOWLEDGE .| STATUS_DRIVER) d in
  let d := mmio_write base DRIVER_FEATURES_SEL 0 d in
  let d := mmio_write base DRIVER_FEATURES 0 d in
  let d := mmio_write base DRIVER_FEATURES_SEL 1 d in
  let d := mmio_write base DRIVER_FEATURES 1 d in
  mmio_write base STATUS (STATUS_ACKNOWLEDGE .| STATUS_DRIVER .| STATUS_FEATURES_OK) d.

Definition setup_queue (base desc_frame avail_frame used_frame : Z) (d : D) : D :=
  let d := for_up 0 4096 (λ i d,
    mmio_store 8 (used_frame + i) 0 (mmio_store 8 (avail_frame + i) 0 (mmio_store 8 (desc_frame + i) 0 d))) d in
  let d := mmio_write base QUEUE_DESC_LOW (u32 desc_frame) d in
  let d := mmio_write base QUEUE_DESC_HIGH (u32 (desc_frame ≫ 32)) d in
  let d := mmio_write base QUEUE_AVAIL_LOW (u32 avail_frame) d in
  let d := mmio_write base QUEUE_AVAIL_HIGH (u32 (avail_frame ≫ 32)) d in
  let d := mmio_write base QUEUE_USED_LOW (u32 used_frame) d in
  let d := mmio_write base QUEUE_USED_HIGH (u32 (used_frame ≫ 32)) d in
  let d := mmio_write base QUEUE_READY 1 d in
  mmio_write base STATUS (STATUS_ACKNOWLEDGE .| STATUS_DRIVER .| STATUS_FEATURES_OK .| STATUS_DRIVER_OK) d.

(** [None] for the result [false]; [dev] is then not written. *)
Definition virtio_mmio_probe_nth {St} `{!FrameOps St} (device_id index : Z) (p : St) (d : D) :
    option virtio_device * St * D :=
  let '(base, d) := find_slot device_id index d in
  if base =? 0 then (None, p, d) else
  let '(version, d) := mmio_read base VERSION d in
  if negb (version =? 2) then (None, p, d) else
  let d := negotiate base d in
  let '(status, d) := mmio_read base STATUS d in
  if negb (truth (status .& STATUS_FEATURES_OK)) then (None, p, d) else
  let d := mmio_write base QUEUE_SEL 0 d in
  let '(num_max, d) := mmio_read base QUEUE_NUM_MAX d in
  if num_max <? QUEUE_SIZE then (None, p, d) else
  let d := mmio_write base QUEUE_NUM QUEUE_SIZE d in
  let '(desc_frame, p) := alloc_frame p in
  let '(avail_frame, p) := alloc_frame p in
  let '(used_frame, p) := alloc_frame p in
  if negb (truth desc_frame) || negb (truth avail_frame) || negb (truth used_frame) then (None, p, d) else
  let d := setup_queue base desc_frame avail_frame used_frame d in
  (Some (mk_device base QUEUE_SIZE desc_frame avail_frame used_frame 0 0), p, d).

Definition virtio_mmio_probe {St} `{!FrameOps St} (device_id : Z) (p : St) (d : D) :
    option virtio_device * St * D := virtio_mmio_probe_nth device_id 0 p d.

Definition virtio_config_read8 (dev : virtio_device) (off : Z) (d : D) : Z * D :=
  mmio_load 8 (mmio_base dev + CONFIG + off) d.
Definition virtio_config_write8 (dev : virtio_device) (off val : Z) (d : D) : D :=
  mmio_store 8 (mmio_base dev + CONFIG + off) val d.

Definition publish (dev : virtio_device) (desc_index : Z) (d : D) : D :=
  let '(idx, d) := mmio_load 16 (avail_idx dev) d in
  let slot := u16 (idx mod queue_size dev) in
  let d := mmio_store 16 (avail_ring dev slot) desc_index d in
  let '(idx, d) := mmio_load 16 (avail_idx dev) d in
  let d := mmio_store 16 (avail_idx dev) (u16 (idx + 1)) d in
  mmio_write (mmio_base dev) QUEUE_NOTIFY 0 d.

Definition store_desc (dev : virtio_device) (i : Z) (e : virtq_desc) (flags next : Z) (d : D) : D :=
  let a := desc dev + 16 * i in
  let d := mmio_store 64 a (d_addr e) d in
  let d := mmio_store 32 (a + 8) (d_len e) d in
  let d := mmio_store 16 (a + 12) flags d in
  mmio_store 16 (a + 14) next d.

(** [descs] has [count] elements. *)
Definition virtio_submit_and_wait (fuel : nat) (dev : virtio_device) (descs : list virtq_desc) (d : D) :
    option (Z * virtio_device * D) :=
  let count := Z.of_nat (length descs) in
  let d := for_up 0 count (λ i d,
    let e := descs !!! Z.to_nat i in
    store_desc dev i e (d_flags e .| (if i + 1 <? count then VIRTQ_DESC_F_NEXT else 0))
      (u16 (if i + 1 <? count then i + 1 else 0)) d) d in
  let d := publish dev 0 d in
  '(_, d) ← spin fuel 16 (used_idx dev) (λ v, v =? used_seen dev) d;
  let '(len, d) := mmio_load 32 (used_ring dev (used_seen dev mod queue_size dev) + 4) d in
  Some (len, saw_one dev, d).

(** The identifier and the length of the next used element, if there is one. *)
Definition virtio_poll_used (dev : virtio_device) (d : D) : option (Z * Z) * virtio_device * D :=
  let '(idx, d) := mmio_load 16 (used_idx dev) d in
  if idx =? used_seen dev then (None, dev, d) else
  let a := used_ring dev (used_seen dev mod queue_size dev) in
  let '(id, d) := mmio_load 32 a d in
  let '(len, d) := mmio_load 32 (a + 4) d in
  (Some (u16 id, len), saw_one dev, d).

Definition virtio_publish_avail (dev : virtio_device) (desc_index : Z) (d : D) : D := publish dev desc_index d.
End transport.

(** ** The block driver *)

Definition VIRTIO_BLK_T_IN : Z := 0.

(** The static variables. *)
Record blk := mk_blk { blk_dev : virtio_device; disk_present : bool; req_hdr : Z; req_status : Z }.

Section block.
Context {D : Type} `{!Mmio D}.

Definition virtio_blk_init {St} `{!FrameOps St} (b : blk) (h : heap St) (d : D) : option (blk * heap St * D) :=
  let '(r, p, d) := virtio_mmio_probe VIRTIO_DEV_BLOCK (frames h) d in
  let h := set_frames h p in
  match r with
  | None => Some (mk_blk (blk_dev b) false (req_hdr b) (req_status b), h, d)
  | Some dev =>
      '(hdr, h) ← kmalloc 16 h;
      '(st, h) ← kmalloc 1 h;
      Some (mk_blk dev true hdr st, h, d)
  end.

Definition virtio_blk_available (b : blk) : bool := disk_present b.

(** The bytes of the sector are in memory at [buf] afterwards. *)
Definition virtio_blk_read_sector (fuel : nat) (lba buf : Z) (b : blk) (d : D) : option (bool * blk * D) :=
  if negb (disk_present b) then Some (false, b, d) else
  let d := mmio_store 32 (req_hdr b) VIRTIO_BLK_T_IN d in
  let d := mmio_store 32 (req_hdr b + 4) 0 d in
  let d := mmio_store 64 (req_hdr b + 8) lba d in
  let descs := [mk_desc (req_hdr b) 16 0; mk_desc buf 512 VIRTQ_DESC_F_WRITE;
                mk_desc (req_status b) 1 VIRTQ_DESC_F_WRITE] in
  '(_, dev, d) ← virtio_submit_and_wait fuel (blk_dev b) descs d;
  let b := mk_blk dev (disk_present b) (req_hdr b) (req_status b) in
  let '(st, d) := mmio_load 8 (req_status b) d in
  Some (st =? 0, b, d).
End block.

(** ** The device *)

(** A virtqueue as the device has it: where it is, and how many entries of the available
    ring the device has taken (modulo 2^16). *)
Record queue := mk_queue { q_base : Z; q_desc : Z; q_avail : Z; q_used : Z; q_taken : Z }.

(** Address ranges that have no byte in common. *)
Definition separate (l : list (Z * Z)) : Prop :=
  ∀ i j a n b m, i ≠ j → l !! i = Some (a, n) → l !! j = Some (b, m) → a + n <= b ∨ b + m <= a.

(** Descriptor [i] of the table, in memory. *)
Definition desc_at (m : bytemem) (q : queue) (i addr len flags next : Z) : Prop :=
  let a := q_desc q + 16 * i in
  peek 8 a m = addr ∧ peek 4 (a + 8) m = len ∧ peek 2 (a + 12) m = flags ∧ peek 2 (a + 14) m = next.

(** One new entry in the available ring, whose chain reads sector [sec] into [buf] and
    the status into [st]. *)
Record read_request (m : bytemem) (q : queue) (sec buf st : Z) : Prop := {
  rq_idx : peek 2 (q_avail q + 2) m = u16 (q_taken q + 1);
  rq_chain : ∃ i0 i1 i2 hdr next,
    peek 2 (q_avail q + 4 + 2 * (q_taken q mod 8)) m = i0 ∧
    desc_at m q i0 hdr 16 VIRTQ_DESC_F_NEXT i1 ∧
    desc_at m q i1 buf 512 (VIRTQ_DESC_F_WRITE .| VIRTQ_DESC_F_NEXT) i2 ∧
    desc_at m q i2 st 1 VIRTQ_DESC_F_WRITE next ∧
    peek 4 hdr m = VIRTIO_BLK_T_IN ∧ peek 8 (hdr + 8) m = sec
}.

Record answered (sector : option (list Z)) (m m' : bytemem) (q : queue) (buf st : Z) : Prop := {
  an_used : peek 2 (q_used q + 2) m' = u16 (peek 2 (q_used q + 2) m + 1);
  an_status : m' st = 0 ↔ is_Some sector;
  an_data bs i : sector = Some bs → 0 <= i < 512 → m' (buf + i) = zget bs i;
  an_rest a : ¬ (buf <= a < buf + 512) → a ≠ st → ¬ (q_used q <= a < q_used q + 4096) → m' a = m a
}.

(** A block device.  Notified of a request it answers within [vb_patience] reads of the
    used index, and the read that shows the new index finds the answer in memory. *)
Class VirtioBlk (D : Type) `{!Mmio D, !Ram D} := {
  sector : Z → option (list Z);
  vb_queue : D → option queue;
  vb_patience : nat;
  queue_store n a v d : quiet d → (∀ b, a <= b < a + Z.of_nat n → is_ram b) →
    vb_queue (mmio_store (8 * Z.of_nat n) a v d) = vb_queue d;
  notify_law q d sec buf st :
    quiet d → vb_queue d = Some q → read_request (ram d) q sec buf st →
    separate [(buf, 512); (st, 1); (q_used q, 4096)] →
    (∀ a n b, (a, n) ∈ [(buf, 512); (st, 1); (q_used q, 4096)] → a <= b < a + n → is_ram b) →
    let busy := λ v, v =? peek 2 (q_used q + 2) (ram d) in
    let d1 := mmio_store 32 (q_base q + QUEUE_NOTIFY) 0 d in
    ready_within vb_patience 16 (q_used q + 2) busy d1 ∧
    ∀ fuel v d2, spin fuel 16 (q_used q + 2) busy d1 = Some (v, d2) →
      quiet d2 ∧ vb_queue d2 = Some (mk_queue (q_base q) (q_desc q) (q_avail q) (q_used q) (u16 (q_taken q + 1))) ∧
      answered (sector sec) (ram d) (ram d2) q buf st
}.

(** ** Reading *)

Section reading.
Context {D : Type} `{MM : !Mmio D, RAM : !Ram D, VB : !VirtioBlk D}.

Definition queue_of (dev : virtio_device) (taken : Z) : queue :=
  mk_queue (mmio_base dev) (desc dev) (avail dev) (used dev) taken.

(** The driver and the device agree: everything submitted was answered and seen. *)
Record blk_ready (b : blk) (d : D) : Prop := {
  br_present : disk_present b = true;
  br_size : queue_size (blk_dev b) = 8;
  br_quiet : quiet d;
  br_queue : vb_queue d = Some (queue_of (blk_dev b) (peek 2 (avail_idx (blk_dev b)) (ram d)));
  br_seen : used_seen (blk_dev b) = peek 2 (used_idx (blk_dev b)) (ram d)
}.

(** What a read touches: the three rings, the header, the status and the buffer. *)
Definition regions (b : blk) (buf : Z) : list (Z * Z) :=
  [(desc (blk_dev b), 4096); (avail (blk_dev b), 4096); (used (blk_dev b), 4096);
   (req_hdr b, 16); (req_status b, 1); (buf, 512)].

Record regions_ok (b : blk) (buf : Z) : Prop := {
  rg_separate : separate (regions b buf);
  rg_ram i a n x : regions b buf !! i = Some (a, n) → a <= x < a + n → is_ram x;
  rg_range i a n : regions b buf !! i = Some (a, n) → 0 <= a < 2 ^ 64
}.

Lemma queue_stores l lo hi (d : D) :
  quiet d → Forall (inside lo hi) l → (∀ b, lo <= b < hi → is_ram b) → vb_queue (stores l d) = vb_queue d.
Proof.
  intros Hd Hl Hram. revert d Hd. induction Hl as [|[[n a] v] l Hw _ IH]; intros d Hd; [done|].
  unfold inside in Hw. cbn in Hw. assert (∀ b, a <= b < a + Z.of_nat n → is_ram b) as Ha by (intros b Hb; apply Hram; lia).
  destruct (ram_store n a v d Hd Ha) as [Hq _]. transitivity (vb_queue (mmio_store (8 * Z.of_nat n) a v d)).
  - apply (IH _ Hq).
  - by apply queue_store.
Qed.

(** The stores of a request, in three parts. *)
Definition hdr_stores (hdr lba : Z) : list (nat * Z * Z) :=
  [(4%nat, hdr, VIRTIO_BLK_T_IN); (4%nat, hdr + 4, 0); (8%nat, hdr + 8, lba)].
Definition desc_stores (a addr len flags next : Z) : list (nat * Z * Z) :=
  [(8%nat, a, addr); (4%nat, a + 8, len); (2%nat, a + 12, flags); (2%nat, a + 14, next)].
Definition chain_stores (dev : virtio_device) (hdr buf st : Z) : list (nat * Z * Z) :=
  desc_stores (desc dev + 16 * 0) hdr 16 1 1 ++ desc_stores (desc dev + 16 * 1) buf 512 3 2 ++
  desc_stores (desc dev + 16 * 2) st 1 2 0.

(** The descriptor table after the stores. *)
Lemma chain_stored m q hdr buf st dev :
  q_desc q = desc dev → in_u 64 hdr → in_u 64 buf → in_u 64 st →
  let m' := pokes (chain_stores dev hdr buf st) m in
  desc_at m' q 0 hdr 16 VIRTQ_DESC_F_NEXT 1 ∧
  desc_at m' q 1 buf 512 (VIRTQ_DESC_F_WRITE .| VIRTQ_DESC_F_NEXT) 2 ∧ desc_at m' q 2 st 1 VIRTQ_DESC_F_WRITE 0.
Proof.
  intros Hq H1 H2 H3. unfold desc_at, chain_stores, desc_stores. rewrite Hq. cbn [app pokes foldl].
  split_and!; repeat (rewrite peek_poke_ne by lia); rewrite peek_poke_eq;
    (reflexivity || by apply Z.mod_small).
Qed.

Definition ring_stores (dev : virtio_device) (idx i : Z) : list (nat * Z * Z) :=
  [(2%nat, avail_ring dev (idx mod 8), i); (2%nat, avail_idx dev, u16 (idx + 1))].

Lemma ring_inside dev idx i : Forall (inside (avail dev) (avail dev + 4096)) (ring_stores dev idx i).
Proof. unfold ring_stores, inside, avail_ring, avail_idx. repeat constructor; cbn; div_lia. Qed.

(** publish, next to a device that is not at work. *)
Lemma publish_stores dev i (d : D) :
  quiet d → queue_size dev = 8 → (∀ b, avail dev <= b < avail dev + 4096 → is_ram b) →
  publish dev i d =
  mmio_store 32 (mmio_base dev + QUEUE_NOTIFY) 0 (stores (ring_stores dev (peek 2 (avail_idx dev) (ram d)) i) d).
Proof.
  intros Hd Hs Hram. set (idx := peek 2 (avail_idx dev) (ram d)). unfold publish. rewrite Hs.
  assert (∀ d, quiet d → mmio_load 16 (avail_idx dev) d = (peek 2 (avail_idx dev) (ram d), d)) as Hload.
  { intros e He. apply (ram_load 2); [done|]. intros b Hb. apply Hram. unfold avail_idx in Hb. lia. }
  rewrite Hload by done. fold idx. assert (u16 (idx mod 8) = idx mod 8) as -> by (apply u16_id; unfold in_u; div_lia).
  destruct (ram_store 2 (avail_ring dev (idx mod 8)) i d Hd) as [Hq Hr];
    [intros b Hb; apply Hram; unfold avail_ring in Hb; div_lia|].
  change (8 * Z.of_nat 2) with 16 in *. rewrite Hload by done.
  rewrite (peek_ext 2 _ _ (poke 2 (avail_ring dev (idx mod 8)) i (ram d))) by (intros; apply Hr).
  rewrite peek_poke_ne by (unfold avail_ring, avail_idx; div_lia). done.
Qed.

Lemma desc_at_same m m' q i addr len flags next :
  (∀ b, q_desc q + 16 * i <= b < q_desc q + 16 * i + 16 → m' b = m b) →
  desc_at m q i addr len flags next → desc_at m' q i addr len flags next.
Proof.
  intros H (<- & <- & <- & <-). unfold desc_at.
  split_and!; apply peek_ext; intros b Hb; apply H; lia.
Qed.

Lemma regions_apart b buf i j a n c m :
  regions_ok b buf → i ≠ j → regions b buf !! i = Some (a, n) → regions b buf !! j = Some (c, m) →
  ∀ x, a <= x < a + n → ¬ (c <= x < c + m).
Proof. intros Hr Hij Hi Hj x Hx Hx'. pose proof (rg_separate _ _ Hr i j a n c m Hij Hi Hj). lia. Qed.

Ltac apart i j :=
  match goal with Hr : regions_ok ?b ?buf |- _ =>
    eapply (regions_apart b buf i j _ _ _ _ Hr); [done|reflexivity|reflexivity|assumption]
  end.

(** The available ring after publish. *)
Lemma ring_stored dev idx m :
  peek 2 (avail dev + 2) (pokes (ring_stores dev idx 0) m) = u16 (idx + 1) ∧
  peek 2 (avail dev + 4 + 2 * (idx mod 8)) (pokes (ring_stores dev idx 0) m) = 0.
Proof.
  unfold ring_stores. cbn [pokes foldl]. fold (avail_idx dev) (avail_ring dev (idx mod 8)). split.
  - rewrite peek_poke_eq. unfold u16. by rewrite Z.mod_mod.
  - rewrite peek_poke_ne by (unfold avail_ring, avail_idx; div_lia). by rewrite peek_poke_eq.
Qed.

(** The request is in memory, and nothing else changed. *)
Lemma request_prepared b buf lba (d : D) :
  blk_ready b d → regions_ok b buf → in_u 64 lba →
  let dev := blk_dev b in
  let idx := peek 2 (avail_idx dev) (ram d) in
  let d2 := stores (chain_stores dev (req_hdr b) buf (req_status b)) (stores (hdr_stores (req_hdr b) lba) d) in
  let d3 := stores (ring_stores dev idx 0) d2 in
  quiet d2 ∧ peek 2 (avail_idx dev) (ram d2) = idx ∧
  quiet d3 ∧ vb_queue d3 = Some (queue_of dev idx) ∧
  read_request (ram d3) (queue_of dev idx) lba buf (req_status b) ∧
  ∀ a, ¬ (desc dev <= a < desc dev + 4096) → ¬ (avail dev <= a < avail dev + 4096) →
    ¬ (req_hdr b <= a < req_hdr b + 16) → ram d3 a = ram d a.
Proof.
  intros [_ Hsize Hd Hq _] Hr Hlba dev idx. fold dev idx in Hq.
  set (d1 := stores (hdr_stores (req_hdr b) lba) d). set (m1 := pokes (hdr_stores (req_hdr b) lba) (ram d)).
  set (d2 := stores (chain_stores _ _ _ _) d1). set (m2 := pokes (chain_stores dev (req_hdr b) buf (req_status b)) (ram d1)).
  set (d3 := stores (ring_stores dev idx 0) d2). set (m3 := pokes (ring_stores dev idx 0) (ram d2)).
  assert (Forall (inside (req_hdr b) (req_hdr b + 16)) (hdr_stores (req_hdr b) lba)) as Hi1
    by (unfold hdr_stores, inside; repeat constructor; cbn; lia).
  assert (Forall (inside (desc dev) (desc dev + 4096)) (chain_stores dev (req_hdr b) buf (req_status b))) as Hi2
    by (unfold chain_stores, desc_stores, inside; repeat constructor; cbn; lia).
  pose proof (ring_inside dev idx 0) as Hi3.
  pose proof (λ x, rg_ram _ _ Hr 3 _ _ x eq_refl) as R1. pose proof (λ x, rg_ram _ _ Hr 0 _ _ x eq_refl) as R2.
  pose proof (λ x, rg_ram _ _ Hr 1 _ _ x eq_refl) as R3.
  destruct (run_stores _ _ _ d Hd Hi1 R1) as [Hd1 E1]. destruct (run_stores _ _ _ d1 Hd1 Hi2 R2) as [Hd2 E2].
  destruct (run_stores _ _ _ d2 Hd2 Hi3 R3) as [Hd3 E3]. fold d1 d2 d3 m1 m2 m3 in Hd1, E1, Hd2, E2, Hd3, E3.
  assert (vb_queue d3 = Some (queue_of dev idx)) as Hq3.
  { unfold d3. rewrite (queue_stores _ _ _ d2 Hd2 Hi3 R3). unfold d2. rewrite (queue_stores _ _ _ d1 Hd1 Hi2 R2).
    unfold d1. by rewrite (queue_stores _ _ _ d Hd Hi1 R1). }
  assert (∀ a, ¬ (avail dev <= a < avail dev + 4096) → ram d3 a = ram d2 a) as F3 by (intros a Ha; rewrite E3; by eapply pokes_out).
  assert (∀ a, ¬ (desc dev <= a < desc dev + 4096) → ram d2 a = ram d1 a) as F2 by (intros a Ha; rewrite E2; by eapply pokes_out).
  assert (∀ a, ¬ (req_hdr b <= a < req_hdr b + 16) → ram d1 a = ram d a) as F1 by (intros a Ha; rewrite E1; by eapply pokes_out).
  assert (peek 2 (avail_idx dev) (ram d2) = idx) as Hidx.
  { apply peek_ext. intros x Hx. assert (avail dev <= x < avail dev + 4096) by (unfold avail_idx in Hx; lia).
    rewrite F2, F1; [done|apart 1%nat 3%nat|apart 1%nat 0%nat]. }
  split_and!; try done.
  - split; cbn [q_avail q_taken queue_of].
    + rewrite (peek_ext 2 _ _ m3) by (intros; apply E3). apply ring_stored.
    + exists 0, 1, 2, (req_hdr b), 0.
      destruct (chain_stored (ram d1) (queue_of dev idx) (req_hdr b) buf (req_status b) dev) as (D0 & D1 & D2); [done|exact (rg_range _ _ Hr 3 _ _ eq_refl)|exact (rg_range _ _ Hr 5 _ _ eq_refl)|exact (rg_range _ _ Hr 4 _ _ eq_refl)|].
      assert (∀ i addr len fl nx, 0 <= i < 8 → desc_at m2 (queue_of dev idx) i addr len fl nx →
        desc_at (ram d3) (queue_of dev idx) i addr len fl nx) as Hdesc.
      { intros i addr len fl nx Hi. apply desc_at_same. intros x Hx. cbn [q_desc queue_of] in Hx.
        assert (desc dev <= x < desc dev + 4096) by lia. rewrite F3, E2; [done|apart 0%nat 1%nat]. }
      assert (∀ n x, req_hdr b <= x → x + Z.of_nat n <= req_hdr b + 16 → peek n x (ram d3) = peek n x m1) as Hhdr.
      { intros n x H1 H2. apply peek_ext. intros y Hy. assert (req_hdr b <= y < req_hdr b + 16) by lia.
        rewrite F3, F2, E1; [done|apart 3%nat 0%nat|apart 3%nat 1%nat]. }
      split_and!; [|by apply Hdesc|by apply Hdesc|by apply Hdesc| |].
      * rewrite (peek_ext 2 _ _ m3) by (intros; apply E3). apply ring_stored.
      * rewrite Hhdr by (cbn; lia). unfold m1, hdr_stores. cbn [pokes foldl].
        rewrite !peek_poke_ne by lia. by rewrite peek_poke_eq.
      * rewrite Hhdr by (cbn; lia). unfold m1, hdr_stores. cbn [pokes foldl]. rewrite peek_poke_eq. by apply Z.mod_small.
  - intros a Ha1 Ha2 Ha3. by rewrite F3, F2, F1.
Qed.

Lemma submit_eq fuel dev hdr buf st (d : D) :
  virtio_submit_and_wait fuel dev
    [mk_desc hdr 16 0; mk_desc buf 512 VIRTQ_DESC_F_WRITE; mk_desc st 1 VIRTQ_DESC_F_WRITE] d =
  ('(_, d) ← spin fuel 16 (used_idx dev) (λ v, v =? used_seen dev)
     (publish dev 0 (stores (chain_stores dev hdr buf st) d));
   let '(len, d) := mmio_load 32 (used_ring dev (used_seen dev mod queue_size dev) + 4) d in
   Some (len, saw_one dev, d)).
Proof. reflexivity. Qed.

(** The driver and the device still agree after an answer. *)
Lemma answer_ready b buf lba (d d3 d4 : D) :
  blk_ready b d → regions_ok b buf →
  let idx := peek 2 (avail_idx (blk_dev b)) (ram d) in
  (∀ a, ¬ (desc (blk_dev b) <= a < desc (blk_dev b) + 4096) →
    ¬ (avail (blk_dev b) <= a < avail (blk_dev b) + 4096) →
    ¬ (req_hdr b <= a < req_hdr b + 16) → ram d3 a = ram d a) →
  read_request (ram d3) (queue_of (blk_dev b) idx) lba buf (req_status b) →
  quiet d4 → vb_queue d4 = Some (queue_of (blk_dev b) (u16 (idx + 1))) →
  answered (sector lba) (ram d3) (ram d4) (queue_of (blk_dev b) idx) buf (req_status b) →
  blk_ready (mk_blk (saw_one (blk_dev b)) (disk_present b) (req_hdr b) (req_status b)) d4.
Proof.
  intros [Hp Hs Hd Hq Hseen] Hr idx Hrest [Hidx _] Hd4 Hq4 [Hu _ _ Ho]. cbn [q_avail q_used q_taken queue_of] in *.
  split; try done.
  - change (vb_queue d4 = Some (queue_of (blk_dev b) (peek 2 (avail_idx (blk_dev b)) (ram d4)))).
    rewrite Hq4. do 2 f_equal. etrans; [symmetry; exact Hidx|]. symmetry. apply peek_ext. intros x Hx.
    assert (avail (blk_dev b) <= x < avail (blk_dev b) + 4096) by (unfold avail_idx in Hx; cbn in Hx; lia).
    apply Ho; [apart 1%nat 5%nat| |apart 1%nat 2%nat].
    intros ->. pose proof (rg_separate _ _ Hr 1%nat 4%nat _ _ _ _ ltac:(done) eq_refl eq_refl). lia.
  - change (u16 (used_seen (blk_dev b) + 1) = peek 2 (used (blk_dev b) + 2) (ram d4)).
    rewrite Hu, Hseen. do 2 f_equal. apply peek_ext. intros x Hx.
    assert (used (blk_dev b) <= x < used (blk_dev b) + 4096) by (unfold used_idx in Hx; lia).
    symmetry. apply Hrest; [apart 2%nat 0%nat|apart 2%nat 1%nat|apart 2%nat 3%nat].
Qed.

(** What the device writes to is in RAM, apart from each other. *)
Lemma request_regions b buf :
  regions_ok b buf →
  let l := [(buf, 512); (req_status b, 1); (used (blk_dev b), 4096)] in
  separate l ∧ ∀ a n x, (a, n) ∈ l → a <= x < a + n → is_ram x.
Proof.
  intros Hr l. set (f := λ i, match i with O => 5 | 1 => 4 | _ => 2 end%nat).
  assert (∀ i r, l !! i = Some r → regions b buf !! f i = Some r ∧ (i < 3)%nat) as Hf
    by (intros [|[|[|i]]] r E; try done; (split; [done|lia])).
  split.
  - intros i j a n c m Hij [Hi ?]%Hf [Hj ?]%Hf. apply (rg_separate _ _ Hr (f i) (f j) a n c m); [|done|done].
    destruct i as [|[|[|i]]], j as [|[|[|j]]]; done || lia.
  - intros a n x [i [Hi _]%Hf]%list_elem_of_lookup_1. by apply (rg_ram _ _ Hr (f i)).
Qed.

(** One call. *)
Lemma virtio_blk_read_step fuel lba buf b (d : D) :
  blk_ready b d → regions_ok b buf → (vb_patience <= fuel)%nat → in_u 32 lba →
  ∃ ok b' d', virtio_blk_read_sector fuel lba buf b d = Some (ok, b', d') ∧
    blk_ready b' d' ∧ regions b' = regions b ∧ ok = bool_decide (is_Some (sector lba)) ∧
    (∀ bs i, sector lba = Some bs → 0 <= i < 512 → ram d' (buf + i) = zget bs i) ∧
    ∀ a, (∀ i r n, regions b buf !! i = Some (r, n) → ¬ (r <= a < r + n)) → ram d' a = ram d a.
Proof.
  intros Hb Hr Hfuel Hlba. pose proof Hb as [Hp Hs Hd _ Hseen].
  destruct (request_prepared b buf lba d Hb Hr) as (Hd2 & Hidx & Hd3 & Hq3 & Hreq & Hrest); [unfold in_u in *; lia|].
  unfold virtio_blk_read_sector. rewrite Hp. cbn [negb]. rewrite submit_eq.
  change (mmio_store 64 (req_hdr b + 8) lba _) with (stores (hdr_stores (req_hdr b) lba) d).
  rewrite publish_stores; [|done|done|intros x Hx; exact (rg_ram _ _ Hr 1 _ _ x eq_refl Hx)]. rewrite Hidx.
  set (d3 := stores (ring_stores _ _ _) _) in *. set (q := queue_of _ _) in *.
  assert (used_seen (blk_dev b) = peek 2 (q_used q + 2) (ram d3)) as Es.
  { change (q_used q + 2) with (used_idx (blk_dev b)). rewrite Hseen. apply peek_ext. intros x Hx. symmetry.
    assert (used (blk_dev b) <= x < used (blk_dev b) + 4096) by (unfold used_idx in Hx; lia).
    apply Hrest; [apart 2%nat 0%nat|apart 2%nat 1%nat|apart 2%nat 3%nat]. }
  destruct (request_regions b buf Hr) as [Hsep Hram].
  destruct (notify_law q d3 lba buf (req_status b) Hd3 Hq3 Hreq Hsep Hram) as [Hready Hans].
  rewrite <- Es in Hready, Hans. apply (ready_within_mono _ fuel _ _ _ _ Hfuel), spin_ready in Hready as [[v d4] Espin].
  destruct (Hans _ _ _ Espin) as (Hd4 & Hq4 & Ha).
  change (mmio_base (blk_dev b)) with (q_base q). change (used_idx (blk_dev b)) with (q_used q + 2). rewrite Espin.
  cbn [mbind option_bind].
  assert (∀ n x i, (2 <= i <= 4)%nat → ∀ a k, regions b buf !! i = Some (a, k) → a <= x → x + Z.of_nat n <= a + k →
    mmio_load (8 * Z.of_nat n) x d4 = (peek n x (ram d4), d4)) as Hload.
  { intros n x i _ a k Hi H1 H2. apply ram_load; [done|]. intros y Hy. apply (rg_ram _ _ Hr i _ _ y Hi). lia. }
  rewrite (Hload 4%nat _ 2%nat ltac:(lia) _ _ eq_refl) by (unfold used_ring; rewrite Hs; div_lia).
  cbn [mbind option_bind req_status]. rewrite (Hload 1%nat _ 4%nat ltac:(lia) _ _ eq_refl) by lia.
  pose proof (answer_ready b buf lba d d3 d4 Hb Hr Hrest Hreq Hd4 Hq4 Ha) as Hready'.
  do 3 eexists. split; [done|]. split; [rewrite Hp in Hready'; exact Hready'|]. split; [done|]. destruct Ha as [_ Hst Hdata Ho]. split; [|split; [done|]].
  - cbn [peek]. rewrite Z.mul_0_r, Z.add_0_r. apply eq_bool_prop_intro. rewrite bool_decide_spec, <- Hst. by rewrite Is_true_true, Z.eqb_eq.
  - intros a Hout. rewrite Ho, Hrest; [done|..]; [| | |exact (Hout 5%nat _ _ eq_refl)| |exact (Hout 2%nat _ _ eq_refl)].
    + exact (Hout 0%nat _ _ eq_refl).
    + exact (Hout 1%nat _ _ eq_refl).
    + exact (Hout 3%nat _ _ eq_refl).
    + intros ->. apply (Hout 4%nat _ _ eq_refl). lia.
Qed.

(** C12: the block driver.  From a state in which driver and device agree, with a device
    that follows the protocol, one call sends the request for sector [lba] and waits for
    its answer: the sector is in the buffer, or the error is reported; apart from the
    buffer only the driver's own rings, header and status changed, and driver and device
    agree again, so any sequence of calls reads the device's sectors, however often the
    16-bit ring indices wrap. *)
Theorem virtio_blk_reads_sectors fuel lba buf b (d : D) :
  blk_ready b d → regions_ok b buf → (vb_patience <= fuel)%nat → in_u 32 lba →
  ∃ ok b' d', virtio_blk_read_sector fuel lba buf b d = Some (ok, b', d') ∧
    blk_ready b' d' ∧ regions b' = regions b ∧ ok = bool_decide (is_Some (sector lba)) ∧
    (∀ bs i, sector lba = Some bs → 0 <= i < 512 → ram d' (buf + i) = zget bs i) ∧
    ∀ a, (∀ i r n, regions b buf !! i = Some (r, n) → ¬ (r <= a < r + n)) → ram d' a = ram d a.
Proof. apply virtio_blk_read_step. Qed.
End reading.

(** ** A device for examples

    Sector 5 can be read; an answer takes two reads of the used index. *)

Record vsim := mk_vsim { vs_ram : bytemem; vs_queue : option queue; vs_busy : option nat }.

Definition vs_base : Z := VIRTIO_MMIO_BASE0.
Definition medium (sec : Z) : option (list Z) := if sec =? 5 then Some (replicate 512 0xAB) else None.

Definition vs_answer (q : queue) (m : bytemem) : bytemem :=
  let a0 := q_desc q + 16 * peek 2 (q_avail q + 4 + 2 * (q_taken q mod 8)) m in
  let a1 := q_desc q + 16 * peek 2 (a0 + 14) m in
  let a2 := q_desc q + 16 * peek 2 (a1 + 14) m in
  let buf := peek 8 a1 m in
  let st := peek 8 a2 m in
  let r := medium (peek 8 (peek 8 a0 m + 8) m) in
  λ a, match r with
       | Some bs => if (buf <=? a) && (a <? buf + 512) then zget bs (a - buf) else
                    if a =? st then 0 else poke 2 (q_used q + 2) (u16 (peek 2 (q_used q + 2) m + 1)) m a
       | None => if a =? st then 1 else poke 2 (q_used q + 2) (u16 (peek 2 (q_used q + 2) m + 1)) m a
       end.

Definition take_one (q : queue) : queue :=
  mk_queue (q_base q) (q_desc q) (q_avail q) (q_used q) (u16 (q_taken q + 1)).

Definition vs_step (d : vsim) : vsim :=
  match vs_busy d, vs_queue d with
  | Some O, Some q => mk_vsim (vs_answer q (vs_ram d)) (Some (take_one q)) None
  | Some (S n), _ => mk_vsim (vs_ram d) (vs_queue d) (Some n)
  | _, _ => d
  end.

#[export] Instance vsim_mmio : Mmio vsim := {|
  mmio_load w a d := let d := vs_step d in (peek (Z.to_nat (w / 8)) a (vs_ram d), d);
  mmio_store w a v d :=
    if (w =? 32) && (a =? vs_base + QUEUE_NOTIFY) then mk_vsim (vs_ram d) (vs_queue d) (Some 1%nat)
    else mk_vsim (poke (Z.to_nat (w / 8)) a v (vs_ram d)) (vs_queue d) (vs_busy d)
|}.

Lemma width_bytes n : Z.to_nat (8 * Z.of_nat n / 8) = n.
Proof. rewrite Z.mul_comm, Z.div_mul by lia. lia. Qed.

(** The registers are not RAM. *)
#[export] Program Instance vsim_ram : Ram vsim := {|
  ram := vs_ram; quiet d := vs_busy d = None ∧ ∀ q, vs_queue d = Some q → q_base q = vs_base; is_ram a := VIRTIO_MMIO_BASE0 + 0x4000 <= a
|}.
Next Obligation.
  intros n a d [Hd _] _. cbn [mmio_load vsim_mmio]. unfold vs_step. rewrite Hd. by rewrite width_bytes.
Qed.
Next Obligation.
  intros n a v d [Hd Hb] Hr. cbn [mmio_store vsim_mmio]. case_if; bool_to_prop.
  - specialize (Hr a ltac:(lia)). unfold vs_base, VIRTIO_MMIO_BASE0, QUEUE_NOTIFY in *. lia.
  - by rewrite width_bytes.
Qed.

Lemma vs_answered q m buf st sec :
  read_request m q sec buf st → separate [(buf, 512); (st, 1); (q_used q, 4096)] →
  answered (medium sec) m (vs_answer q m) q buf st.
Proof.
  intros [_ (i0 & i1 & i2 & hdr & nx & H0 & (A0 & _ & _ & N0) & (A1 & _ & _ & N1) & (A2 & _) & _ & Hsec)] Hsep.
  pose proof (Hsep 0%nat 1%nat _ _ _ _ ltac:(done) eq_refl eq_refl) as S01.
  pose proof (Hsep 0%nat 2%nat _ _ _ _ ltac:(done) eq_refl eq_refl) as S02.
  pose proof (Hsep 1%nat 2%nat _ _ _ _ ltac:(done) eq_refl eq_refl) as S12.
  unfold vs_answer. rewrite H0, N0, N1, A0, A1, A2, Hsec.
  set (w := poke 2 (q_used q + 2) (u16 (peek 2 (q_used q + 2) m + 1)) m).
  set (m' := λ a, _). assert (∀ a, ¬ (buf <= a < buf + 512) → m' a =
    if a =? st then match medium sec with Some _ => 0 | None => 1 end else w a) as Hm'.
  { intros a Ha. unfold m'. destruct (medium sec); [|done].
    destruct (Z.leb_spec buf a), (Z.ltb_spec a (buf + 512)); done || lia. }
  assert (∀ a, q_used q <= a < q_used q + 4096 → m' a = w a) as Hu.
  { intros a Ha. rewrite Hm' by lia. by rewrite (proj2 (Z.eqb_neq _ _)) by lia. }
  split.
  - rewrite (peek_ext 2 _ m' w) by (intros a Ha; apply Hu; lia). unfold w. rewrite peek_poke_eq.
    apply Z.mod_mod. lia.
  - rewrite Hm', Z.eqb_refl by lia. destruct (medium sec); by split; [|intros []].
  - intros bs i E Hi. unfold m'. rewrite E.
    rewrite (proj2 (Z.leb_le _ _)), (proj2 (Z.ltb_lt _ _)) by lia. cbn. f_equal. lia.
  - intros a H1 H2 H3. rewrite Hm' by done. rewrite (proj2 (Z.eqb_neq _ _)) by done. apply poke_out. lia.
Qed.

Lemma next_differs x : x ≠ u16 (x + 1).
Proof. unfold u16. intros H. assert (x mod 2 ^ 16 = (x + 1) mod 2 ^ 16) by (rewrite H at 1; by apply Z.mod_mod). div_lia. Qed.

#[export] Program Instance vsim_blk : VirtioBlk vsim := {|
  sector := medium; vb_queue := vs_queue; vb_patience := 2
|}.
Next Obligation.
  intros n a v d Hd Hr. cbn [mmio_store vsim_mmio]. by case_if.
Qed.
Next Obligation.
  intros q d sec buf st [Hd Hb] Hq Hreq Hsep _ busy d1. pose proof (vs_answered _ _ _ _ _ Hreq Hsep) as Ha.
  pose proof (an_used _ _ _ _ _ _ Ha) as Hu. cbn [ram vsim_ram] in *. pose proof (Hb q Hq) as Hbase.
  set (old := peek 2 (q_used q + 2) (vs_ram d)) in *.
  set (d2 := mk_vsim (vs_answer q (vs_ram d)) (Some (take_one q)) None).
  assert (d1 = mk_vsim (vs_ram d) (Some q) (Some 1%nat)) as ->.
  { unfold d1. cbn [mmio_store vsim_mmio]. rewrite Hbase, !Z.eqb_refl. cbn [andb]. by rewrite Hq. }
  assert (∀ m, mmio_load 16 (q_used q + 2) (mk_vsim m (Some q) (Some 1%nat))
    = (peek 2 (q_used q + 2) m, mk_vsim m (Some q) (Some 0%nat))) as E1 by done.
  assert (mmio_load 16 (q_used q + 2) (mk_vsim (vs_ram d) (Some q) (Some 0%nat)) = (u16 (old + 1), d2)) as E2
    by (cbn [mmio_load vsim_mmio]; unfold vs_step; cbn [vs_busy vs_queue vs_ram]; by rewrite <- Hu).
  assert (busy old = true ∧ busy (u16 (old + 1)) = false) as [B1 B2].
  { unfold busy. fold old. split; [apply Z.eqb_refl|]. apply Z.eqb_neq, not_eq_sym, next_differs. }
  split.
  - cbn [ready_within]. rewrite E1. right. rewrite E2. by left.
  - intros fuel v d3. destruct fuel as [|[|fuel]]; cbn [spin]; [done|rewrite E1; fold old; by rewrite B1|].
    rewrite E1. fold old. rewrite B1, E2, B2. intros [= <- <-]. split; [|done]. split; [done|].
    intros q' [= <-]. exact Hbase.
Qed.

(** ** Witnesses *)

Definition example_blk : blk := mk_blk (mk_device vs_base 8 0x41000000 0x41001000 0x41002000 0 0) true 0x41003000 0x41003020.
Definition example_sim : vsim := mk_vsim (λ _, 0) (Some (mk_queue vs_base 0x41000000 0x41001000 0x41002000 0)) None.

Lemma example_ready : blk_ready example_blk example_sim ∧ regions_ok example_blk 0x41004000.
Proof.
  split.
  - split; [done|done| |done|done]. split; [done|]. by intros q [= <-].
  - assert (∀ i a n, regions example_blk 0x41004000 !! i = Some (a, n) →
      (i < 6)%nat ∧ 0x41000000 <= a ∧ a < 2 ^ 64) as H.
    { intros i a n. do 6 (destruct i as [|i]; [intros [= <- <-]; cbn; lia|]). done. }
    split.
    + intros i j a n c m Hij Hi Hj. destruct (H i a n Hi) as [Hi6 _]. destruct (H j c m Hj) as [Hj6 _].
      do 6 (destruct i as [|i]; [do 6 (destruct j as [|j]; [injection Hi as <- <-; injection Hj as <- <-; cbn; (done || lia)|]); lia|]). lia.
    + intros i a n x Hi Hx. destruct (H i a n Hi). cbn. unfold VIRTIO_MMIO_BASE0. lia.
    + intros i a n Hi. destruct (H i a n Hi). lia.
Qed.

Lemma virtio_blk_reads_sectors_witness :
  (∃ b' d', virtio_blk_read_sector 2 5 0x41004000 example_blk example_sim = Some (true, b', d') ∧ ram d' 0x41004007 = 0xAB) ∧
  ∃ b' d', virtio_blk_read_sector 2 6 0x41004000 example_blk example_sim = Some (false, b', d').
Proof.
  destruct example_ready as [Hb Hr]. split.
  - destruct (virtio_blk_reads_sectors 2 5 0x41004000 example_blk example_sim Hb Hr (le_n 2) ltac:(done))
      as (ok & b' & d' & E & _ & _ & -> & Hdata & _).
    exists b', d'. split; [exact E|]. exact (Hdata (replicate 512 0xAB) 7 eq_refl ltac:(lia)).
  - destruct (virtio_blk_reads_sectors 2 6 0x41004000 example_blk example_sim Hb Hr (le_n 2) ltac:(done))
      as (ok & b' & d' & E & _ & _ & -> & _).
    exists b', d'. exact E.
Defined.
