(* ===== verification/VirtioInput.v ===== *)
(** * Keyboard and mouse on aarch64: drivers/virtio_input.c

    Events come from two virtio devices and are taken when the kernel asks for a character
    or for the mouse.  The keyboard keeps the same state as the PS/2 driver, so the record
    and the ring are those of InputX86.v and Ring.v; the two drivers are shown to type the
    same characters. *)

From S2P Require Import Prelude.
From S2P Require Import FrameAlloc.
From S2P Require Import Heap.
From S2P Require Import Ring.
From S2P Require Import InputX86.
From S2P Require Import Mmio.
From S2P Require Import Virtio.

Definition VIRTIO_INPUT_CFG_ID_NAME : Z := 0x01.
Definition EV_KEY : Z := 0x01.
Definition EV_REL : Z := 0x02.
Definition REL_X : Z := 0x00.
Definition REL_Y : Z := 0x01.
Definition BTN_LEFT : Z := 0x110.
Definition BTN_RIGHT : Z := 0x111.
Definition BTN_MIDDLE : Z := 0x112.
Definition KEY_LEFTSHIFT : Z := 42.
Definition KEY_RIGHTSHIFT : Z := 54.

Record virtio_input_event := mk_event { ev_type : Z; ev_code : Z; ev_value : Z }.

Definition scancode_ascii : list Z :=
  [0; 27] ++ bytes "1234567890-=" ++ [8; 9] ++ bytes "qwertyuiop[]" ++ [10; 0] ++
  bytes "asdfghjkl;'`" ++ [0] ++ bytes "\zxcvbnm,./" ++ [0] ++ bytes "*" ++ [0] ++ bytes " " ++
  replicate 70 0.

Definition scancode_ascii_shift : list Z :=
  [0; 27] ++ bytes "!@#$%^&*()_+" ++ [8; 9] ++ bytes "QWERTYUIOP{}" ++ [10; 0] ++
  bytes "ASDFGHJKL:" ++ [34] ++ bytes "~" ++ [0] ++ bytes "|ZXCVBNM<>?" ++ [0] ++ bytes "*" ++ [0] ++
  bytes " " ++ replicate 70 0.

(** ** Events *)

Abbreviation keyboard := Keyboard.keyboard.

Definition kb_push (c : Z) (k : keyboard) : keyboard := Keyboard.mk_keyboard (push c (Keyboard.buf k)) (Keyboard.shift_held k).

Definition handle_kbd_event (e : virtio_input_event) (k : keyboard) : keyboard :=
  if negb (ev_type e =? EV_KEY) then k else
  if (ev_code e =? KEY_LEFTSHIFT) || (ev_code e =? KEY_RIGHTSHIFT)
  then Keyboard.mk_keyboard (Keyboard.buf k) (truth (ev_value e)) else
  if ev_value e =? 0 then k else
  if 128 <=? ev_code e then k else
  let c := if Keyboard.shift_held k then zget scancode_ascii_shift (ev_code e) else zget scancode_ascii (ev_code e) in
  if truth c then kb_push c k else k.

Record mouse := mk_mouse { mouse_x : Z; mouse_y : Z; mouse_buttons : Z; mouse_dirty : bool }.

(** The screen size is what the framebuffer driver answers. *)
Definition handle_mouse_event (fb_width fb_height : Z) (e : virtio_input_event) (s : mouse) : mouse :=
  if ev_type e =? EV_REL then
    let delta := i32 (ev_value e) in
    if negb (ev_code e =? REL_X) && negb (ev_code e =? REL_Y) then s else
    let mx := if ev_code e =? REL_X then i32 (mouse_x s + delta) else mouse_x s in
    let my := if ev_code e =? REL_X then mouse_y s else i32 (mouse_y s + delta) in
    let max_x := i32 (i32 fb_width - 1) in
    let max_y := i32 (i32 fb_height - 1) in
    let mx := if mx <? 0 then 0 else mx in
    let my := if my <? 0 then 0 else my in
    let mx := if (0 <=? max_x) && (max_x <? mx) then max_x else mx in
    let my := if (0 <=? max_y) && (max_y <? my) then max_y else my in
    mk_mouse mx my (mouse_buttons s) true
  else if ev_type e =? EV_KEY then
    let bit := if ev_code e =? BTN_LEFT then 0x01 else if ev_code e =? BTN_RIGHT then 0x02
               else if ev_code e =? BTN_MIDDLE then 0x04 else 0 in
    if bit =? 0 then s else
    mk_mouse (mouse_x s) (mouse_y s)
      (if truth (ev_value e) then mouse_buttons s .| bit else mouse_buttons s .& u8 (Z.lnot bit)) true
  else s.

(** ** The devices *)

(** The comparison of str_contains at one position: it stops at the end of either string
    or at the first difference. *)
Fixpoint has_prefix (h n : list Z) : bool :=
  match n, h with
  | [], _ => true
  | c :: n, x :: h => (x =? c) && has_prefix h n
  | _ :: _, [] => false
  end.
(** Both strings without their NUL; an empty haystack has no position to compare at. *)
Fixpoint str_contains (h n : list Z) : bool :=
  match h with
  | [] => false
  | _ :: h' => has_prefix h n || str_contains h' n
  end.

Section devices.
Context {D : Type} `{!Mmio D}.

(** An event in memory has 8 bytes. *)
Definition sizeof_event : Z := 8.

Definition seed_queue (dev : virtio_device) (bufs : Z) (d : D) : D :=
  for_up 0 (queue_size dev) (λ i d,
    virtio_publish_avail dev i
      (store_desc dev i (mk_desc (bufs + sizeof_event * i) sizeof_event VIRTQ_DESC_F_WRITE) VIRTQ_DESC_F_WRITE 0 d)) d.

Definition poll_event (dev : virtio_device) (bufs : Z) (d : D) : option virtio_input_event * virtio_device * D :=
  let '(r, dev, d) := virtio_poll_used dev d in
  match r with
  | None => (None, dev, d)
  | Some (idx, _) =>
      let a := bufs + sizeof_event * idx in
      let '(ty, d) := mmio_load 16 a d in
      let '(code, d) := mmio_load 16 (a + 2) d in
      let '(value, d) := mmio_load 32 (a + 4) d in
      (Some (mk_event ty code value), dev, virtio_publish_avail dev idx d)
  end.

(** [while (poll_event(...)) handle(e)]: [None] when the device filled [fuel] buffers in
    the meantime and still has more. *)
Fixpoint drain {S} (fuel : nat) (handle : virtio_input_event → S → S) (bufs : Z) (dev : virtio_device) (s : S) (d : D) :
    option (S * virtio_device * D) :=
  let '(e, dev, d) := poll_event dev bufs d in
  match e with
  | None => Some (s, dev, d)
  | Some e =>
      match fuel with
      | O => None
      | S fuel => drain fuel handle bufs dev (handle e s) d
      end
  end.

(** The static variables: a device that is present, with its buffers. *)
Record input := mk_input {
  kb : keyboard;
  kbd : option (virtio_device * Z);
  mouse_state : mouse;
  mouse_dev : option (virtio_device * Z)
}.

(** The name of a candidate, read from its configuration space. *)
Definition device_name (dev : virtio_device) (d : D) : list Z * D :=
  let d := virtio_config_write8 dev 0 VIRTIO_INPUT_CFG_ID_NAME d in
  let d := virtio_config_write8 dev 1 0 d in
  let '(size, d) := virtio_config_read8 dev 2 d in
  let n := if size <? 128 then size else 128 in
  for_up 0 n (λ b '(name, d), let '(c, d) := virtio_config_read8 dev (8 + b) d in (name ++ [c], d)) ([], d).

Definition take_device {St} `{!FrameOps St} (dev : virtio_device) (h : heap St) (d : D) :
    option (virtio_device * Z * heap St * D) :=
  '(bufs, h) ← kmalloc (sizeof_event * queue_size dev) h;
  Some (dev, bufs, h, seed_queue dev bufs d).

(** The scan of virtio_input_init, from candidate [i]: it ends at the first candidate that
    cannot be probed; there are at most 32 slots, so fuel for 33 is enough. *)
Fixpoint scan {St} `{!FrameOps St} (fuel : nat) (i : Z) (s : input) (h : heap St) (d : D) : option (input * heap St * D) :=
  match kbd s, mouse_dev s with
  | Some _, Some _ => Some (s, h, d)
  | _, _ =>
      let '(r, p, d) := virtio_mmio_probe_nth VIRTIO_DEV_INPUT i (frames h) d in
      let h := set_frames h p in
      match r, fuel with
      | None, _ => Some (s, h, d)
      | Some _, O => None
      | Some dev, S fuel =>
          let '(name, d) := device_name dev d in
          name ← c_string (name ++ [0]);
          if bool_decide (kbd s = None) && str_contains name (bytes "Keyboard") then
            '(dev, bufs, h, d) ← take_device dev h d;
            scan fuel (u32 (i + 1)) (mk_input (kb s) (Some (dev, bufs)) (mouse_state s) (mouse_dev s)) h d
          else if bool_decide (mouse_dev s = None) && str_contains name (bytes "Mouse") then
            '(dev, bufs, h, d) ← take_device dev h d;
            scan fuel (u32 (i + 1)) (mk_input (kb s) (kbd s) (mouse_state s) (Some (dev, bufs))) h d
          else scan fuel (u32 (i + 1)) s h d
      end
  end.

Definition virtio_input_init {St} `{!FrameOps St} (fb_width fb_height : Z) (s : input) (h : heap St) (d : D) :
    option (input * heap St * D) :=
  let m := mk_mouse (i32 (fb_width / 2)) (i32 (fb_height / 2)) (mouse_buttons (mouse_state s)) (mouse_dirty (mouse_state s)) in
  scan 33 0 (mk_input (kb s) (kbd s) m (mouse_dev s)) h d.

Definition virtio_keyboard_getchar (fuel : nat) (s : input) (d : D) : option (Z * input * D) :=
  '(k, dev, d) ← (match kbd s with
                  | None => Some (kb s, None, d)
                  | Some (dev, bufs) => '(k, dev, d) ← drain fuel handle_kbd_event bufs dev (kb s) d; Some (k, Some (dev, bufs), d)
                  end);
  let '(c, r) := pop (Keyboard.buf k) in
  Some (c, mk_input (Keyboard.mk_keyboard r (Keyboard.shift_held k)) dev (mouse_state s) (mouse_dev s), d).

Definition virtio_mouse_get_state (fuel : nat) (fb_width fb_height : Z) (s : input) (d : D) :
    option (option (Z * Z * Z) * input * D) :=
  '(m, dev, d) ← (match mouse_dev s with
                  | None => Some (mouse_state s, None, d)
                  | Some (dev, bufs) =>
                      '(m, dev, d) ← drain fuel (handle_mouse_event fb_width fb_height) bufs dev (mouse_state s) d;
                      Some (m, Some (dev, bufs), d)
                  end);
  if negb (mouse_dirty m) then Some (None, mk_input (kb s) (kbd s) m dev, d) else
  Some (Some (mouse_x m, mouse_y m, mouse_buttons m),
        mk_input (kb s) (kbd s) (mk_mouse (mouse_x m) (mouse_y m) (mouse_buttons m) false) dev, d).
End devices.

(** ** The same keyboard as on x86_64 *)

(** The keys whose event code (from KEY_ESC to KEY_KPDOT) is the make code a PS/2 keyboard sends in
    scan code set 1: all those the tables have a character for.  From code 96 on come the
    keys with an E0 prefix, which are another matter ([keypad_enter_differs]). *)
Definition main_key (code : Z) : Prop := 1 <= code <= 83.

(** The byte a PS/2 keyboard sends where the virtio keyboard reports an event for such a
    key: the make code, also when the key repeats, or the break code. *)
Definition scancode (e : virtio_input_event) : Z :=
  if ev_value e =? 0 then ev_code e .| 0x80 else ev_code e.
Definition key_event (e : virtio_input_event) : Prop := ev_type e = EV_KEY ∧ main_key (ev_code e).

(** Both codes of a key, checked for all keys. *)
Lemma scancodes_agree code :
  main_key code →
  let e v := mk_event EV_KEY code v in
  ((code =? KEY_LEFTSHIFT) || (code =? KEY_RIGHTSHIFT) = (code =? Keyboard.SC_LSHIFT) || (code =? Keyboard.SC_RSHIFT)) ∧
  ((code =? Keyboard.SC_LSHIFT_UP) || (code =? Keyboard.SC_RSHIFT_UP) = false) ∧ truth (code .& 0x80) = false ∧
  ((code .| 0x80 =? Keyboard.SC_LSHIFT) || (code .| 0x80 =? Keyboard.SC_RSHIFT) = false) ∧
  ((code .| 0x80 =? Keyboard.SC_LSHIFT_UP) || (code .| 0x80 =? Keyboard.SC_RSHIFT_UP) =
    (code =? KEY_LEFTSHIFT) || (code =? KEY_RIGHTSHIFT)) ∧ truth ((code .| 0x80) .& 0x80) = true.
Proof.
  intros Hc _.
  assert (Forall (λ code, ((code =? KEY_LEFTSHIFT) || (code =? KEY_RIGHTSHIFT) = (code =? Keyboard.SC_LSHIFT) || (code =? Keyboard.SC_RSHIFT)) ∧
  ((code =? Keyboard.SC_LSHIFT_UP) || (code =? Keyboard.SC_RSHIFT_UP) = false) ∧ truth (code .& 0x80) = false ∧
  ((code .| 0x80 =? Keyboard.SC_LSHIFT) || (code .| 0x80 =? Keyboard.SC_RSHIFT) = false) ∧
  ((code .| 0x80 =? Keyboard.SC_LSHIFT_UP) || (code .| 0x80 =? Keyboard.SC_RSHIFT_UP) =
    (code =? KEY_LEFTSHIFT) || (code =? KEY_RIGHTSHIFT)) ∧ truth ((code .| 0x80) .& 0x80) = true) (seqZ 0 128)) as H
    by (vm_compute; repeat constructor).
  rewrite Forall_forall in H. apply (H code), elem_of_seqZ. unfold main_key in Hc. lia.
Qed.

Lemma event_is_scancode e k : key_event e → handle_kbd_event e k = Keyboard.keyboard_irq (scancode e) k.
Proof.
  intros [Ht Hc]. destruct (scancodes_agree (ev_code e) Hc) as (H1 & H2 & H3 & H4 & H5 & H6).
  unfold handle_kbd_event, Keyboard.keyboard_irq, scancode. rewrite Ht. cbn [Z.eqb negb].
  change (negb (EV_KEY =? EV_KEY)) with false. cbn match.
  destruct (Z.eqb_spec (ev_value e) 0) as [Hv|Hv].
  - rewrite H4, H5, H6, Hv. case_if; done.
  - rewrite <- H1, H2, H3. assert (truth (ev_value e) = true) as -> by (by apply truth_nonzero).
    case_if; [done|]. reflexivity.
Qed.

(** C39: the two keyboards type the same.  Whatever keys of the main block (event codes 1
    to 83, where the scan code is the event code) are pressed, held and released, in any
    order, the aarch64 driver is left with the characters and the shift state that the
    x86_64 driver has after the interrupts of the corresponding PS/2 scan codes; the next
    character read is the same on both.  Keys with a prefixed scan code can differ
    ([keypad_enter_differs]). *)
Theorem keyboards_agree es k :
  Forall key_event es →
  foldl (λ k e, handle_kbd_event e k) k es = foldl (λ k sc, Keyboard.keyboard_irq sc k) k (scancode <$> es) ∧
  pop (Keyboard.buf (foldl (λ k e, handle_kbd_event e k) k es)) =
  (let '(c, k') := Keyboard.keyboard_getchar (foldl (λ k sc, Keyboard.keyboard_irq sc k) k (scancode <$> es)) in
   (c, Keyboard.buf k')).
Proof.
  intros Hes. assert (foldl (λ k e, handle_kbd_event e k) k es =
    foldl (λ k sc, Keyboard.keyboard_irq sc k) k (scancode <$> es)) as ->.
  { revert k. induction Hes as [|e es He _ IH]; intros k; [done|]. cbn. by rewrite IH, event_is_scancode. }
  split; [done|]. unfold Keyboard.keyboard_getchar. by destruct (pop _).
Qed.

(** Shift and a, then b: on the screen "Ab". *)
Lemma keyboards_agree_witness :
  let es := [mk_event EV_KEY 42 1; mk_event EV_KEY 30 1; mk_event EV_KEY 30 0; mk_event EV_KEY 42 0; mk_event EV_KEY 48 1] in
  let k := foldl (λ k e, handle_kbd_event e k) (Keyboard.mk_keyboard ring_reset false) es in
  contents (Keyboard.buf k) = bytes "Ab" ∧
  k = foldl (λ k sc, Keyboard.keyboard_irq sc k) (Keyboard.mk_keyboard ring_reset false) [0x2A; 0x1E; 0x9E; 0xAA; 0x30].
Proof.
  intros es k. destruct (keyboards_agree es (Keyboard.mk_keyboard ring_reset false)) as [E _].
  - unfold es. repeat (apply Forall_cons; split; [split; [done|unfold main_key; cbn; lia]|]). by apply Forall_nil.
  - split; [vm_compute; reflexivity|exact E].
Defined.

(** Keypad Enter, which PS/2 sends as E0 1C and virtio as code 96, and keypad slash (E0 35
    and 98): the x86_64 driver takes the prefix for a break code and types the character, the
    aarch64 one types nothing. *)
Lemma keypad_enter_differs :
  let k := Keyboard.mk_keyboard ring_reset false in
  let ps2 := foldl (λ k sc, Keyboard.keyboard_irq sc k) k in
  contents (Keyboard.buf (ps2 [0xE0; 0x1C])) = [10] ∧ contents (Keyboard.buf (ps2 [0xE0; 0x35])) = bytes "/" ∧
  handle_kbd_event (mk_event EV_KEY 96 1) k = k ∧ handle_kbd_event (mk_event EV_KEY 98 1) k = k.
Proof. by vm_compute. Qed.

(** ** The mouse *)

(** One movement: on a screen of at most 2^30 pixels each way and for displacements below
    2^30 the addition does not overflow, and the cursor stays on the screen. *)
Lemma mouse_moves fw fh e s :
  0 < fw < 2 ^ 30 → 0 < fh < 2 ^ 30 → 0 <= mouse_x s < fw → 0 <= mouse_y s < fh →
  ev_type e = EV_REL → ev_code e = REL_X → - 2 ^ 30 < i32 (ev_value e) < 2 ^ 30 →
  handle_mouse_event fw fh e s =
  mk_mouse (Mouse.clamp (fw - 1) (mouse_x s + i32 (ev_value e))) (mouse_y s) (mouse_buttons s) true.
Proof.
  intros Hw Hh Hx Hy Ht Hc Hv. unfold handle_mouse_event. rewrite Ht, Hc.
  change (EV_REL =? EV_REL) with true. change (REL_X =? REL_X) with true. cbn [negb andb].
  set (dx := i32 (ev_value e)) in *.
  rewrite (i32_id fw), (i32_id fh), (i32_id (fw - 1)), (i32_id (fh - 1)), (i32_id (mouse_x s + dx)) by (unfold in_i; lia).
  rewrite (proj2 (Z.leb_le 0 (fw - 1))), (proj2 (Z.leb_le 0 (fh - 1))) by lia. cbn [andb].
  f_equal; unfold Mouse.clamp; repeat case_if; bool_to_prop; lia.
Qed.
