(* ===== verification/Multiboot.v ===== *)
(** * The memory map of the boot loader: arch/x86_64/mm/multiboot2.c

    The Multiboot2 information structure is bytes in memory, read as the code reads it.
    The theorems say which structures the walk understands, for which it ends and for which
    it never does, what it hands to pmm_init, and that no frame outside the identity-mapped
    first gigabyte, below the first megabyte or of the kernel is ever free, whatever the
    boot loader put there. *)

From S2P Require Import Prelude.
From S2P Require Import FrameAlloc.
From S2P Require Import Pmm.
From S2P Require Import Framebuffer.
From S2P Require Import Mmio.

Definition MULTIBOOT2_BOOTLOADER_MAGIC : Z := 0x36d76289.
Definition MB2_TAG_END : Z := 0.
Definition MB2_TAG_MMAP : Z := 6.
Definition MB2_TAG_FRAMEBUFFER : Z := 8.
Definition MB2_MEM_AVAILABLE : Z := 1.
Definition MB2_FB_TYPE_RGB : Z := 1.
Definition IDENTITY_MAP_LIMIT : Z := 0x40000000.
Definition LOW_MEM_RESERVED : Z := 0x100000.

(** The two static variables ([fb_bpp] is the last field of framebuffer_info), and the
    local array of regions with its count. *)
Record mm := mk_mm {
  total_ram_bytes : Z;
  framebuffer_info : fb_info;
  fb_bpp : Z;
  regions : list mem_region
}.
Definition mm_reset : mm := mk_mm 0 (mk_fb false 0 0 0 0) 0 [].

Definition add_region (st : mm) (lo hi : Z) : mm :=
  mk_mm (total_ram_bytes st) (framebuffer_info st) (fb_bpp st) (regions st ++ [mk_region lo (hi - lo)]).

Section walk.
Variable m : bytemem.

(** One entry of the memory map. *)
Definition take_entry (entry : Z) (st : mm) : mm :=
  if peek 4 (entry + 16) m =? MB2_MEM_AVAILABLE then
    let addr := peek 8 entry m in
    let len := peek 8 (entry + 8) m in
    let st := mk_mm (u64 (total_ram_bytes st + len)) (framebuffer_info st) (fb_bpp st) (regions st) in
    let lo := addr in
    let hi := u64 (addr + len) in
    let lo := if lo <? LOW_MEM_RESERVED then LOW_MEM_RESERVED else lo in
    let hi := if IDENTITY_MAP_LIMIT <? hi then IDENTITY_MAP_LIMIT else hi in
    if lo <? hi then add_region st lo hi else st
  else st.

(** The loop over the entries; [None] when [fuel] was not enough. *)
Fixpoint entries (fuel : nat) (entry mmap_end entry_size : Z) (st : mm) : option mm :=
  if (entry <? mmap_end) && (Z.of_nat (length (regions st)) <? 64) then
    match fuel with
    | O => None
    | S fuel => entries fuel (entry + entry_size) mmap_end entry_size (take_entry entry st)
    end
  else Some st.

Definition take_framebuffer (tag : Z) (st : mm) : mm :=
  if (peek 1 (tag + 29) m =? MB2_FB_TYPE_RGB) && (peek 1 (tag + 28) m =? 32) then
    mk_mm (total_ram_bytes st)
      (mk_fb true (peek 8 (tag + 8) m) (peek 4 (tag + 16) m) (peek 4 (tag + 20) m) (peek 4 (tag + 24) m))
      (peek 1 (tag + 28) m) (regions st)
  else st.

Fixpoint tags (fuel : nat) (tag end_ : Z) (st : mm) : option mm :=
  if tag <? end_ then
    match fuel with
    | O => None
    | S fuel' =>
        let type := peek 4 tag m in
        if type =? MB2_TAG_END then Some st else
        st ← (if type =? MB2_TAG_MMAP
              then entries fuel (tag + 16) (tag + peek 4 (tag + 4) m) (peek 4 (tag + 8) m) st
              else Some st);
        let st := if type =? MB2_TAG_FRAMEBUFFER then take_framebuffer tag st else st in
        tags fuel' (tag + ALIGN_UP 32 (peek 4 (tag + 4) m) 8) end_ st
    end
  else Some st.

(** The linker fixes the ends of the kernel.  The regions are on the stack, so the walk
    starts without any. *)
Definition x86_64_mm_init (fuel : nat) (boot_magic boot_info kernel_start kernel_end : Z) (st : mm) : option (mm * pmm) :=
  let st := mk_mm (total_ram_bytes st) (framebuffer_info st) (fb_bpp st) [] in
  st ← (if (boot_magic =? MULTIBOOT2_BOOTLOADER_MAGIC) && negb (boot_info =? 0) then
          tags fuel (boot_info + 8) (boot_info + peek 4 boot_info m) st
        else Some st);
  Some (st, pmm_init (regions st) kernel_start kernel_end).
End walk.

Definition x86_64_total_ram (st : mm) : Z := total_ram_bytes st.
Definition x86_64_get_framebuffer_info (st : mm) : fb_info := framebuffer_info st.

(** ** Whatever the boot loader says *)

Definition region_ok (r : mem_region) : Prop :=
  LOW_MEM_RESERVED <= mr_base r ∧ 0 < mr_length r ∧ mr_base r + mr_length r <= IDENTITY_MAP_LIMIT.
Definition regions_ok (st : mm) : Prop := Forall region_ok (regions st) ∧ (length (regions st) <= 64)%nat.

Lemma take_entry_ok m e st : Forall region_ok (regions st) → (length (regions st) < 64)%nat → regions_ok (take_entry m e st).
Proof.
  intros Hr Hl. unfold take_entry. case_if; [|split; [done|lia]]. cbv zeta.
  set (lo := if _ <? LOW_MEM_RESERVED then _ else _). set (hi := if IDENTITY_MAP_LIMIT <? _ then _ else _).
  assert (LOW_MEM_RESERVED <= lo ∧ hi <= IDENTITY_MAP_LIMIT) as [H1 H2]
    by (unfold lo, hi; split; case_if; bool_to_prop; lia).
  destruct (Z.ltb_spec lo hi); [|split; cbn; [done|lia]]. split; cbn.
  - apply Forall_app. split; [done|]. repeat constructor; cbn; [done|lia|lia].
  - rewrite length_app. cbn. lia.
Qed.

Lemma entries_ok m fuel e mend sz st st' : regions_ok st → entries m fuel e mend sz st = Some st' → regions_ok st'.
Proof.
  revert e st. induction fuel as [|fuel IH]; intros e st Hst; cbn [entries]; case_if; try done; try (by intros [= <-]).
  bool_to_prop. intros H2. eapply IH, H2. apply take_entry_ok; [apply Hst|lia].
Qed.

Lemma tags_ok m fuel tag end_ st st' : regions_ok st → tags m fuel tag end_ st = Some st' → regions_ok st'.
Proof.
  revert tag st. induction fuel as [|fuel IH]; intros tag st Hst; cbn [tags]; case_if; try done; try (by intros [= <-]).
  case_if; [by intros [= <-]|].
  destruct (if _ =? MB2_TAG_MMAP then _ else _) as [st1|] eqn:E1; [|done]. cbn [mbind option_bind]. intros H2.
  assert (regions_ok st1) as Hst1 by (revert E1; case_if; [by apply entries_ok|by intros [= <-]]).
  eapply IH, H2. case_if; [|done]. unfold take_framebuffer. by case_if.
Qed.

(** A region keeps its end when pmm_init adds it up again, and its frames are inside. *)
Lemma region_frames total r f :
  region_ok r → f ∈ range_frames total (mr_base r) (region_top r) → 256 <= f < 262144.
Proof.
  intros (H1 & H2 & H3) Hf. unfold range_frames, region_top, PMM_FRAME_SIZE, LOW_MEM_RESERVED, IDENTITY_MAP_LIMIT in *.
  rewrite u64_id in Hf by (unfold in_u; lia). apply elem_of_frame_range in Hf. div_lia.
Qed.

(** They end below 1 GB. *)
Lemma regions_top l : Forall region_ok l → highest_top l <= 2 ^ 30.
Proof.
  induction 1 as [|r l (H1 & H2 & H3) _ IH]; cbn; [lia|]. fold (highest_top l).
  unfold region_top, LOW_MEM_RESERVED, IDENTITY_MAP_LIMIT in *. rewrite u64_id by (unfold in_u; lia). lia.
Qed.

(** What pmm_init gets and makes of it. *)
Lemma mm_init_pool m fuel magic info ks ke st st' p :
  0 <= ks → x86_64_mm_init m fuel magic info ks ke st = Some (st', p) →
  p = pmm_init (regions st') ks ke ∧ regions_ok st' ∧ pmm_wf p ∧
  ∀ f, f ∈ free_set p → 256 <= f < 262144 ∧ ¬ (ks / PAGE <= f < bitmap_end_of (regions st') ke / PAGE).
Proof.
  intros Hks. unfold x86_64_mm_init. set (st0 := mk_mm _ _ _ _).
  assert (regions_ok st0) as H0 by (split; [constructor|cbn; lia]).
  destruct (if _ : bool then _ else _) as [st1|] eqn:E; [|done]. cbn [mbind option_bind]. intros [= <- <-].
  assert (regions_ok st1) as Hst by (revert E; case_if; [by apply tags_ok|by intros [= <-]]).
  destruct (init_spec (regions st1) ks ke) as (Hwf & _ & _ & Hfree); [|done|].
  { destruct Hst as [Hr _]. eapply Forall_impl; [exact Hr|]. intros r (H & _). unfold LOW_MEM_RESERVED in H. lia. }
  split_and!; [done|exact Hst|exact Hwf|]. intros f Hin. pose proof (free_set_bounded _ _ Hin) as Hb.
  rewrite elem_of_frame_range in Hb. rewrite Hfree in Hin. apply elem_of_difference in Hin as [Hf Hno]. split.
  - unfold usable_frames in Hf. apply elem_of_union_list in Hf as (X & (r & -> & Hr)%list_elem_of_fmap & Hf).
    destruct Hst as [Hall _]. rewrite Forall_forall in Hall. exact (region_frames _ r f (Hall r Hr) Hf).
  - intros Hk. apply Hno. unfold range_frames. apply elem_of_frame_range. change PMM_FRAME_SIZE with PAGE. lia.
Qed.

(** *** When the walk ends *)

(** The tags the walk comes to from [a]: it stops at the end of the structure and at the
    end tag, and otherwise goes on by the rounded size of the tag. *)
Definition goes_on (m : bytemem) (end_ a : Z) : Prop := a < end_ ∧ peek 4 a m ≠ MB2_TAG_END.
Definition next_tag (m : bytemem) (a : Z) : Z := a + ALIGN_UP 32 (peek 4 (a + 4) m) 8.
Inductive visits (m : bytemem) (end_ : Z) : Z → Z → Prop :=
  | visits_here a : visits m end_ a a
  | visits_next a b : goes_on m end_ a → visits m end_ (next_tag m a) b → visits m end_ a b.

(** Every tag the walk comes to moves it forward, and so does every entry of a memory map. *)
Definition advances (m : bytemem) (end_ a : Z) : Prop :=
  ∀ b, visits m end_ a b → goes_on m end_ b →
    b < next_tag m b ∧ (peek 4 b m = MB2_TAG_MMAP → 0 < peek 4 (b + 8) m).

Lemma entries_end m e mend sz st fuel :
  0 < sz → (Z.to_nat (mend - e) <= fuel)%nat → is_Some (entries m fuel e mend sz st).
Proof.
  intros Hsz. revert e st. induction fuel as [|fuel IH]; intros e st Hf; cbn [entries];
    destruct (Z.ltb_spec e mend) as [He|He]; cbn [andb]; try by eexists.
  - lia.
  - case_if; [|by eexists]. apply IH. lia.
Qed.

Lemma tags_end m end_ a :
  advances m end_ a → ∃ N, ∀ fuel st, (N <= fuel)%nat → is_Some (tags m fuel a end_ st).
Proof.
  remember (Z.to_nat (end_ - a)) as k eqn:Ek. revert a Ek.
  induction k as [k IH] using lt_wf_ind. intros a -> Hadv.
  destruct (decide (goes_on m end_ a)) as [Hgo|Hstop].
  - destruct (Hadv a (visits_here _ _ _) Hgo) as [Hnext Hsz]. pose proof Hgo as [Ha Hty].
    destruct (IH (Z.to_nat (end_ - next_tag m a)) ltac:(lia) (next_tag m a) eq_refl) as [N HN].
    { intros b Hb. apply Hadv. by apply visits_next. }
    exists (S (N `max` Z.to_nat (peek 4 (a + 4) m)))%nat. intros [|fuel] st Hf; [lia|]. cbn [tags].
    rewrite (proj2 (Z.ltb_lt _ _) Ha), (proj2 (Z.eqb_neq _ _) Hty).
    destruct (Z.eqb_spec (peek 4 a m) MB2_TAG_MMAP) as [Hm|_]; [|apply HN; lia].
    destruct (entries_end m (a + 16) (a + peek 4 (a + 4) m) (peek 4 (a + 8) m) st (S fuel)) as [st1 ->]; [by apply Hsz|lia|].
    cbn [mbind option_bind]. apply HN. lia.
  - exists 1%nat. intros [|fuel] st Hf; [lia|]. cbn [tags].
    destruct (Z.ltb_spec a end_); [|by eexists]. destruct (Z.eqb_spec (peek 4 a m) MB2_TAG_END) as [|Hty]; [by eexists|].
    by destruct Hstop.
Qed.

(** A tag of size 0 holds the walk for ever. *)
Lemma tags_stuck m end_ a b fuel st :
  visits m end_ a b → goes_on m end_ b → next_tag m b = b → tags m fuel a end_ st = None.
Proof.
  intros Hv [Hb Hty] Hstay. revert fuel st.
  induction Hv as [b|a b [Ha Hta] _ IH]; intros fuel st.
  - revert st. induction fuel as [|fuel IH]; intros st; cbn [tags]; rewrite (proj2 (Z.ltb_lt _ _) Hb); [done|].
    rewrite (proj2 (Z.eqb_neq _ _) Hty). fold (next_tag m b). rewrite Hstay.
    destruct (if _ =? MB2_TAG_MMAP then _ else _) as [st1|]; [|done]. apply IH.
  - destruct fuel as [|fuel]; cbn [tags]; rewrite (proj2 (Z.ltb_lt _ _) Ha); [done|].
    rewrite (proj2 (Z.eqb_neq _ _) Hta). fold (next_tag m a).
    destruct (if _ =? MB2_TAG_MMAP then _ else _) as [st1|]; [|done]. by apply IH.
Qed.

(** The frames of the kernel, as addresses. *)
Lemma not_kernel ks ke f a rs :
  0 <= ks → ke < 2 ^ 63 → ¬ (ks / PAGE <= f < bitmap_end_of rs ke / PAGE) → f * PAGE <= a < f * PAGE + PAGE →
  (bitmap_end_of rs ke mod PAGE = 0 → ¬ (ks <= a < bitmap_end_of rs ke)) ∧
  (0 <= ke → 2 ^ 27 <= highest_top rs < 2 ^ 62 → ¬ (ks <= a < ke)).
Proof.
  intros Hks Hke Hf Ha. split; [intros Hal [H1 H2]|intros Hke0 Htop [H1 H2]]; apply Hf; clear Hf.
  - unfold PAGE in *. div_lia.
  - unfold bitmap_end_of. change 8 with (2 ^ 3) at 1. rewrite ALIGN_UP_pow2 by lia.
    rewrite u64_id; unfold in_u, PAGE, PMM_FRAME_SIZE in *; div_lia.
Qed.

(** C14: only mapped memory above the BIOS area and outside the kernel is handed out.
    Whatever the structure of the boot loader contains, pmm_init gets at most 64 regions
    that lie between 1 MB and the end of the boot-time identity map, and every frame the
    allocator then has free is in that range and not one of those of the kernel image and
    the bitmap behind it, as mark_range rounds them: so no address of a free frame is in
    the image or the bitmap when the bitmap ends on a frame boundary, nor in the image when
    the regions reach to 128 MB.  And the walk through the structure ends, with this result,
    whenever each tag it comes to moves it forward and each memory map has entries of a
    size; a tag whose size rounds to 0, on the other hand, holds it for ever. *)
Theorem mm_init_stays_in_map m magic info ks ke st :
  0 <= ks → 0 <= ke < 2 ^ 63 →
  let run := λ fuel, x86_64_mm_init m fuel magic info ks ke st in
  let end_ := info + peek 4 info m in
  (∀ fuel st' p, run fuel = Some (st', p) →
     pmm_wf p ∧ regions_ok st' ∧
     ∀ f a, f ∈ free_set p → f * PAGE <= a < f * PAGE + PAGE →
       256 <= f < 262144 ∧ ¬ (ks / PAGE <= f < bitmap_end_of (regions st') ke / PAGE) ∧
       (bitmap_end_of (regions st') ke mod PAGE = 0 → ¬ (ks <= a < bitmap_end_of (regions st') ke)) ∧
       (2 ^ 27 <= highest_top (regions st') → ¬ (ks <= a < ke))) ∧
  (advances m end_ (info + 8) → ∃ N, ∀ fuel, (N <= fuel)%nat → is_Some (run fuel)) ∧
  (∀ b, magic = MULTIBOOT2_BOOTLOADER_MAGIC → info ≠ 0 →
     visits m end_ (info + 8) b → goes_on m end_ b → next_tag m b = b → ∀ fuel, run fuel = None).
Proof.
  intros Hks Hke run end_. split; [|split].
  - intros fuel st' p H. destruct (mm_init_pool m fuel magic info ks ke st st' p Hks H) as (_ & Hr & Hwf & Hfree).
    split; [done|]. split; [done|]. intros f a Hf Ha. destruct (Hfree f Hf) as [Hrange Hno].
    destruct (not_kernel ks ke f a (regions st') Hks ltac:(lia) Hno Ha) as [H1 H2].
    split; [exact Hrange|]. split; [exact Hno|]. split; [exact H1|].
    intros Htop. apply H2; [lia|]. split; [done|].
    pose proof (regions_top _ (proj1 Hr)). lia.
  - intros Hadv. unfold run, x86_64_mm_init. case_if; [|exists 0%nat; intros; by eexists].
    destruct (tags_end m end_ _ Hadv) as [N HN]. exists N. intros fuel Hf.
    destruct (HN fuel (mk_mm (total_ram_bytes st) (framebuffer_info st) (fb_bpp st) []) Hf) as [st1 Es].
    fold end_. rewrite Es. by eexists.
  - intros b -> Hi Hv Hgo Hstay fuel. unfold run, x86_64_mm_init.
    rewrite Z.eqb_refl, (proj2 (Z.eqb_neq _ _) Hi). cbn [andb negb]. fold end_. by rewrite (tags_stuck m end_ _ b).
Qed.

(** ** Structures as the specification describes them *)

Inductive mtag :=
  | TMmap (entry_size : Z) (es : list (Z * Z * Z))
  | TFramebuffer (addr pitch w h bpp ty : Z)
  | TOther (ty : Z).

Section described.
Variable m : bytemem.

Definition entry_at (a : Z) (e : Z * Z * Z) : Prop :=
  let '(addr, len, ty) := e in peek 8 a m = addr ∧ peek 8 (a + 8) m = len ∧ peek 4 (a + 16) m = ty.

Definition tag_at (a sz : Z) (t : mtag) : Prop :=
  peek 4 (a + 4) m = sz ∧
  match t with
  | TMmap esz es =>
      peek 4 a m = MB2_TAG_MMAP ∧ peek 4 (a + 8) m = esz ∧ 0 < esz ∧ sz = 16 + esz * Z.of_nat (length es) ∧
      ∀ i e, es !! i = Some e → entry_at (a + 16 + esz * Z.of_nat i) e
  | TFramebuffer addr pitch w h bpp ty =>
      peek 4 a m = MB2_TAG_FRAMEBUFFER ∧ peek 8 (a + 8) m = addr ∧ peek 4 (a + 16) m = pitch ∧
      peek 4 (a + 20) m = w ∧ peek 4 (a + 24) m = h ∧ peek 1 (a + 28) m = bpp ∧ peek 1 (a + 29) m = ty
  | TOther ty => peek 4 a m = ty ∧ ty ≠ MB2_TAG_END ∧ ty ≠ MB2_TAG_MMAP ∧ ty ≠ MB2_TAG_FRAMEBUFFER
  end.

(** The tags from [a] on, up to the end tag or the end of the structure. *)
Fixpoint tags_at (a end_ : Z) (ts : list mtag) : Prop :=
  match ts with
  | [] => end_ <= a ∨ peek 4 a m = MB2_TAG_END
  | t :: ts => a < end_ ∧ ∃ sz, tag_at a sz t ∧ tags_at (a + ALIGN_UP 32 sz 8) end_ ts
  end.
End described.

(** What each tag means: available memory counts in full, and is usable between 1 MB and
    the end of the identity map; the last 32-bit RGB framebuffer is the display. *)
Definition clip (e : Z * Z * Z) : list mem_region :=
  let '(addr, len, ty) := e in
  let lo := Z.max addr LOW_MEM_RESERVED in
  let hi := Z.min (u64 (addr + len)) IDENTITY_MAP_LIMIT in
  if (ty =? MB2_MEM_AVAILABLE) && (lo <? hi) then [mk_region lo (hi - lo)] else [].
Definition mean_entry (st : mm) (e : Z * Z * Z) : mm :=
  mk_mm (if e.2 =? MB2_MEM_AVAILABLE then u64 (total_ram_bytes st + e.1.2) else total_ram_bytes st)
    (framebuffer_info st) (fb_bpp st) (regions st ++ clip e).
Definition mean_tag (st : mm) (t : mtag) : mm :=
  match t with
  | TMmap _ es => foldl mean_entry st es
  | TFramebuffer addr pitch w h bpp ty =>
      if (ty =? MB2_FB_TYPE_RGB) && (bpp =? 32)
      then mk_mm (total_ram_bytes st) (mk_fb true addr pitch w h) bpp (regions st) else st
  | TOther _ => st
  end.
Definition entry_count (ts : list mtag) : nat :=
  sum_list_with (λ t, match t with TMmap _ es => length es | _ => 0 end)%nat ts.

Lemma take_entry_mean m a e st : entry_at m a e → take_entry m a st = mean_entry st e.
Proof.
  destruct e as [[addr len] ty]. intros (<- & <- & <-). unfold take_entry, mean_entry, clip. cbn [fst snd].
  case_if; [|destruct st; cbn; by rewrite app_nil_r]. cbn [andb].
  assert (∀ x, (if x <? LOW_MEM_RESERVED then LOW_MEM_RESERVED else x) = Z.max x LOW_MEM_RESERVED) as Hlo
    by (intros x; case_if; bool_to_prop; lia).
  assert (∀ x, (if IDENTITY_MAP_LIMIT <? x then IDENTITY_MAP_LIMIT else x) = Z.min x IDENTITY_MAP_LIMIT) as Hhi
    by (intros x; case_if; bool_to_prop; lia).
  rewrite Hlo, Hhi. case_if; [done|]. cbn. by rewrite app_nil_r.
Qed.

Lemma mean_entry_regions st e : (length (regions (mean_entry st e)) <= S (length (regions st)))%nat.
Proof. destruct e as [[addr len] ty]. cbn. rewrite length_app. case_if; cbn; lia. Qed.

Lemma entries_mean m fuel a esz es st :
  0 < esz → (∀ i e, es !! i = Some e → entry_at m (a + esz * Z.of_nat i) e) →
  (length (regions st) + length es <= 64)%nat → (length es <= fuel)%nat →
  entries m fuel a (a + esz * Z.of_nat (length es)) esz st = Some (foldl mean_entry st es) ∧
  (length (regions (foldl mean_entry st es)) <= length (regions st) + length es)%nat.
Proof.
  intros Hesz. revert fuel a st. induction es as [|e es IH]; intros fuel a st Hes Hl Hf; cbn [length foldl] in *.
  - split; [|lia]. destruct fuel; cbn [entries]; by rewrite (proj2 (Z.ltb_ge a _)) by lia.
  - destruct fuel as [|fuel]; [lia|]. cbn [entries]. rewrite (proj2 (Z.ltb_lt a _)), (proj2 (Z.ltb_lt _ 64)) by nia. cbn [andb].
    pose proof (Hes 0%nat e eq_refl) as He. rewrite Z.mul_0_r, Z.add_0_r in He. rewrite (take_entry_mean m a e) by done.
    pose proof (mean_entry_regions st e).
    destruct (IH fuel (a + esz) (mean_entry st e)) as [E Hl']; [|lia|lia|].
    { intros i e' Hi. specialize (Hes (S i) e' Hi). by replace (a + esz + esz * Z.of_nat i) with (a + esz * Z.of_nat (S i)) by lia. }
    replace (a + esz + esz * Z.of_nat (length es)) with (a + esz * Z.of_nat (S (length es))) in E by lia.
    split; [done|lia].
Qed.

Lemma tags_mean m fuel a end_ ts st :
  tags_at m a end_ ts → (length (regions st) + entry_count ts <= 64)%nat → (length ts + entry_count ts < fuel)%nat →
  tags m fuel a end_ st = Some (foldl mean_tag st ts).
Proof.
  revert fuel a st. induction ts as [|t ts IH]; intros fuel a st Hts Hl Hf; (destruct fuel as [|fuel]; [lia|]); cbn [tags foldl] in *.
  - destruct Hts as [Hts|Hts]; [by rewrite (proj2 (Z.ltb_ge _ _))|]. case_if; [|done]. by rewrite Hts.
  - destruct Hts as (Ha & sz & [Hsz Ht] & Hts). rewrite (proj2 (Z.ltb_lt _ _)), Hsz by done.
    cbn [entry_count sum_list_with length] in Hl, Hf. fold (entry_count ts) in Hl, Hf.
    destruct t as [esz es|addr pitch w h bpp ty|ty]; cbn [mean_tag].
    + destruct Ht as (Hty & He & Hpos & -> & Hes). rewrite Hty, He. cbn [Z.eqb Pos.eqb MB2_TAG_MMAP MB2_TAG_END].
      destruct (entries_mean m (S fuel) (a + 16) esz es st Hpos Hes) as [E Hl']; [lia|lia|].
      replace (a + (16 + esz * Z.of_nat (length es))) with (a + 16 + esz * Z.of_nat (length es)) by lia.
      change (6 =? 0) with false. change (6 =? 6) with true. cbn match.
      rewrite E. cbn [mbind option_bind]. change (6 =? MB2_TAG_FRAMEBUFFER) with false. cbn match. apply IH; [done|lia|lia].
    + destruct Ht as (Hty & <- & <- & <- & <- & <- & <-). rewrite Hty.
      change (MB2_TAG_FRAMEBUFFER =? MB2_TAG_END) with false. change (MB2_TAG_FRAMEBUFFER =? MB2_TAG_MMAP) with false.
      change (MB2_TAG_FRAMEBUFFER =? MB2_TAG_FRAMEBUFFER) with true. cbn [mbind option_bind].
      unfold take_framebuffer. apply IH; [done| |lia]. case_if; cbn; lia.
    + destruct Ht as (<- & H1 & H2 & H3).
      rewrite (proj2 (Z.eqb_neq _ _) H1), (proj2 (Z.eqb_neq _ _) H2), (proj2 (Z.eqb_neq _ _) H3).
      cbn [mbind option_bind]. apply IH; [done|lia|lia].
Qed.

Lemma mm_init_described m fuel info ks ke st ts :
  info ≠ 0 → tags_at m (info + 8) (info + peek 4 info m) ts → (entry_count ts <= 64)%nat →
  (length ts + entry_count ts < fuel)%nat →
  let st1 := foldl mean_tag (mk_mm (total_ram_bytes st) (framebuffer_info st) (fb_bpp st) []) ts in
  x86_64_mm_init m fuel MULTIBOOT2_BOOTLOADER_MAGIC info ks ke st = Some (st1, pmm_init (regions st1) ks ke).
Proof.
  intros Hinfo Hts Hc Hf st1. unfold x86_64_mm_init. rewrite Z.eqb_refl, (proj2 (Z.eqb_neq _ _)) by done. cbn [andb negb].
  by rewrite (tags_mean m fuel _ _ ts) by (done || cbn; lia).
Qed.

(** C27: the walk understands the boot loader.  On a structure of tags as the Multiboot2
    specification describes them (in any order, unknown ones among them) with at most 64
    memory-map entries, it ends and finds the amount of RAM, the usable regions clipped
    to the mapped range, and the display, and initialises the allocator with them. *)
Theorem mm_init_parses m fuel info ks ke st ts :
  info ≠ 0 → tags_at m (info + 8) (info + peek 4 info m) ts → (entry_count ts <= 64)%nat →
  (length ts + entry_count ts < fuel)%nat →
  let st1 := foldl mean_tag (mk_mm (total_ram_bytes st) (framebuffer_info st) (fb_bpp st) []) ts in
  x86_64_mm_init m fuel MULTIBOOT2_BOOTLOADER_MAGIC info ks ke st = Some (st1, pmm_init (regions st1) ks ke).
Proof. apply mm_init_described. Qed.

(** ** Witnesses: a machine with 2 MB *)

Definition example_info : bytemem := mem_of 0x9000
  (le 4 160 ++ le 4 0 ++
   le 4 4 ++ le 4 16 ++ le 4 639 ++ le 4 1024 ++
   le 4 6 ++ le 4 88 ++ le 4 24 ++ le 4 0 ++
     (le 8 0 ++ le 8 0x9FC00 ++ le 4 1 ++ le 4 0) ++
     (le 8 0x100000 ++ le 8 0x100000 ++ le 4 1 ++ le 4 0) ++
     (le 8 0xFFFC0000 ++ le 8 0x40000 ++ le 4 2 ++ le 4 0) ++
   le 4 8 ++ le 4 38 ++ le 8 0xFD000000 ++ le 4 3200 ++ le 4 800 ++ le 4 600 ++ le 1 32 ++ le 1 1 ++ le 2 0 ++ le 8 0 ++
   le 4 0 ++ le 4 8).
Definition example_tags : list mtag :=
  [TOther 4; TMmap 24 [(0, 0x9FC00, 1); (0x100000, 0x100000, 1); (0xFFFC0000, 0x40000, 2)];
   TFramebuffer 0xFD000000 3200 800 600 32 1].

Lemma example_described : tags_at example_info (0x9000 + 8) (0x9000 + peek 4 0x9000 example_info) example_tags.
Proof.
  split; [reflexivity|]. exists 16. split; [split; [reflexivity|]; split; [reflexivity|]; split_and!; discriminate|].
  split; [reflexivity|]. exists 88. split.
  { split; [reflexivity|]. split_and!; try reflexivity.
    intros [|[|[|i]]] e; [intros [= <-]..|done]; vm_compute; split_and!; reflexivity. }
  split; [reflexivity|]. exists 38. split; [split; [reflexivity|]; split_and!; reflexivity|].
  right. reflexivity.
Qed.

Lemma mm_init_parses_witness :
  ∃ p, x86_64_mm_init example_info 8 MULTIBOOT2_BOOTLOADER_MAGIC 0x9000 0x100000 0x110000 mm_reset =
    Some (mk_mm 0x19FC00 (mk_fb true 0xFD000000 3200 800 600) 32 [mk_region 0x100000 0x100000], p).
Proof.
  eexists. etrans; [apply (mm_init_parses example_info 8 0x9000 0x100000 0x110000 mm_reset example_tags)|].
  - discriminate.
  - exact example_described.
  - cbn. lia.
  - cbn. lia.
  - reflexivity.
Defined.

(** The same structure: its tags are at 0x9008, 0x9018 and 0x9070, and the end tag at
    0x9098. *)
Lemma example_advances : advances example_info (0x9000 + peek 4 0x9000 example_info) (0x9000 + 8).
Proof.
  assert (∀ a, (a ∈ [0x9008; 0x9018; 0x9070] → next_tag example_info a ∈ [0x9018; 0x9070; 0x9098]) ∧
    (a = 0x9098 → peek 4 a example_info = MB2_TAG_END)) as Htags.
  { intros a. split; [|intros ->; reflexivity]. intros Ha. repeat (apply elem_of_cons in Ha as [->|Ha]); [..|by apply not_elem_of_nil in Ha];
      apply (bool_decide_eq_true_1 _); vm_compute; reflexivity. }
  assert (∀ e a b, visits example_info e a b → a ∈ [0x9008; 0x9018; 0x9070; 0x9098] → b ∈ [0x9008; 0x9018; 0x9070; 0x9098]) as Hin.
  { intros e a b Hv. induction Hv as [|a b [_ Hgo] _ IH]; [done|]. intros Ha. apply IH. apply elem_of_cons. right.
    destruct (decide (a = 0x9098)) as [->|Hne]; [by destruct Hgo; apply (Htags 0x9098)|].
    apply (Htags a). set_solver. }
  intros b Hb Hgo. apply Hin in Hb; [|by apply (bool_decide_eq_true_1 _)].
  repeat (apply elem_of_cons in Hb as [->|Hb]); [..|by apply not_elem_of_nil in Hb];
    (split; [vm_compute; reflexivity|]); vm_compute; congruence.
Qed.

Lemma mm_init_stays_in_map_witness :
  (∃ N, ∀ fuel, (N <= fuel)%nat →
    ∃ st p, x86_64_mm_init example_info fuel MULTIBOOT2_BOOTLOADER_MAGIC 0x9000 0x100000 0x110000 mm_reset = Some (st, p) ∧
    ∀ f, f ∈ free_set p → 256 <= f < 262144) ∧
  ∃ st p, x86_64_mm_init example_info 8 MULTIBOOT2_BOOTLOADER_MAGIC 0x9000 0x100000 0x110000 mm_reset = Some (st, p) ∧
    (271 ∉ free_set p) ∧ 272 ∈ free_set p.
Proof.
  destruct (mm_init_stays_in_map example_info MULTIBOOT2_BOOTLOADER_MAGIC 0x9000 0x100000 0x110000 mm_reset)
    as (H1 & H2 & _); [discriminate|split; [discriminate|reflexivity]|]. split.
  - destruct (H2 example_advances) as [N HN]. exists N. intros fuel Hf. destruct (HN fuel Hf) as [[st p] E].
    exists st, p. split; [exact E|]. intros f Hin. destruct (H1 fuel st p E) as (_ & _ & H).
    apply (H f (f * PAGE) Hin). unfold PAGE. lia.
  - assert (match x86_64_mm_init example_info 8 MULTIBOOT2_BOOTLOADER_MAGIC 0x9000 0x100000 0x110000 mm_reset with
            | Some (_, p) => bool_decide ((271 ∉ free_set p) ∧ 272 ∈ free_set p) | None => false end = true) as H
      by (vm_compute; reflexivity).
    destruct (x86_64_mm_init example_info 8 MULTIBOOT2_BOOTLOADER_MAGIC 0x9000 0x100000 0x110000 mm_reset)
      as [[st p]|]; [|discriminate].
    apply bool_decide_eq_true in H as [H3 H4]. exists st, p. split; [reflexivity|]. split; [exact H3|exact H4].
Defined.
