(* ===== verification/Mmu.v ===== *)
(** * What the processor makes of the tables

    The software walks of vmm.c follow 4 KB pages only.  The processor also stops at block
    entries: the 2 MB and 1 GB pages of x86_64 (bit 7) and of aarch64 (type bits 01), with
    which the kernel itself is mapped at boot.  [mmu] is that walk, after the two
    architecture manuals, over the formats of the page-table files; this file shows how it
    relates to the software walk and what adding one 2 MB page does to it. *)

From S2P Require Import Prelude.
From S2P Require Import FrameAlloc.
From S2P Require Import PageTable.
From S2P Require Import AddressSpace.

(** ** The walk of the processor *)

Section mmu.
Context `{FMT : !PtFormat}.

(** The physical address of [w], from the table [t] of level [n]; [None] is a fault.  A
    block may be at levels 1 and 2, and covers what the levels below would. *)
Fixpoint mmu (n : nat) (m : memory) (t w : Z) : option Z :=
  let e := ent m t (va_index w n) in
  if negb (e_valid e) then None else
  match n with
  | O => Some (e_addr e + w mod PAGE)
  | S k => if e_table e then mmu k m (e_addr e) w
           else if (n <=? 2)%nat then Some (e_addr e + w mod (PAGE * 512 ^ Z.of_nat n)) else None
  end.

(** Nothing of the walk below level 1 is a block: [w] is mapped by a page or not at all. *)
Lemma mmu_is_walk (LAWS : PtLaws) n m t w :
  path_open n m t (va_index w) = true →
  mmu n m t w = (if e_valid (walk n m t (va_index w)) then Some (e_addr (walk n m t (va_index w)) + w mod PAGE) else None).
Proof.
  destruct e_zero as (Hv0 & Ht0 & _).
  revert t. induction n as [|n IH]; intros t Ho; cbn [mmu walk path_open] in *; set (e := ent m t _) in *.
  - destruct (e_valid e) eqn:Hv; cbn [negb]; [by rewrite Hv|by rewrite Hv0].
  - apply andb_true_iff in Ho as [Hb%negb_true_iff Ho]. destruct (e_valid e) eqn:Hv; cbn [negb].
    + rewrite (e_valid_cases e Hv Hb). by apply IH.
    + destruct (e_table e) eqn:Ht; [|by rewrite Hv0]. apply e_table_valid in Ht as [Hv' _]. congruence.
Qed.

Lemma same_mmu (LAWS : PtLaws) n m m' t w : same (tables n m t) m m' → mmu n m' t w = mmu n m t w.
Proof.
  revert t. induction n as [|n IH]; intros t Hs; cbn [mmu].
  - rewrite Hs; [done|apply tables_root|by apply va_index_range with (n := O)].
  - assert (ent m' t (va_index w (S n)) = ent m t (va_index w (S n))) as ->.
    { apply Hs; [apply tables_root|by apply va_index_range with (n := S n)]. }
    set (e := ent m t _). destruct (e_valid e) eqn:Hv; cbn [negb]; [|done]. destruct (e_table e) eqn:Ht; [|done].
    apply IH. intros u j Hu Hj. apply Hs; [|done]. apply elem_of_tables_S. right.
    exists (va_index w (S n)). split; [by apply va_index_range with (n := S n)|]. unfold sub. by fold e; rewrite Ht.
Qed.
End mmu.

(** ** Lists of tables with few entries *)

Lemma bind_seqZ_nil {A} (f : Z → list A) lo n : (∀ i, lo <= i < lo + n → f i = []) → seqZ lo n ≫= f = [].
Proof.
  intros H. assert (Forall (λ i, f i = []) (seqZ lo n)) as HF by (apply Forall_seqZ; intros; by apply H).
  induction HF as [|i l Hi HF IH]; cbn; [done|]. by rewrite Hi, IH.
Qed.

Lemma bind_seqZ_first {A} (f : Z → list A) : (∀ i, 0 < i < 512 → f i = []) → seqZ 0 512 ≫= f = f 0.
Proof.
  intros H. rewrite seqZ_cons by lia. cbn. rewrite bind_seqZ_nil, app_nil_r; [done|]. intros i Hi. apply H. lia.
Qed.

(** ** Adding a block at level 1 *)

Section blocks.
Context `{FMT : !PtFormat, LAWS : !PtLaws} {St : Type} `{OPS : !FrameOps St, FL : !FrameLaws St}.
Implicit Types (s : pm St) (t c a w : Z) (T new : list Z).

(** The level-1 entry of an address, 0 when there is no table for it. *)
Fixpoint slot (n : nat) (m : memory) (t w : Z) : Z :=
  match n with
  | O => 0
  | S k => let e := ent m t (va_index w n) in
           match k with
           | O => e
           | S _ => if e_table e then slot k m (e_addr e) w else 0
           end
  end.

(** No block above level 1 is in the way. *)
Fixpoint reach (n : nat) (m : memory) (t w : Z) : bool :=
  match n with
  | O => true
  | S k => let e := ent m t (va_index w n) in
           match k with
           | O => true
           | S _ => negb (e_block e) && (if e_valid e then reach k m (e_addr e) w else true)
           end
  end.

(** The two addresses have the same level-1 entry. *)
Definition same_slot (n : nat) (w a : Z) : Prop := ∀ k, (1 <= k <= n)%nat → va_index w k = va_index a k.

Lemma mmu_S n m t w : mmu (S n) m t w =
  if negb (e_valid (ent m t (va_index w (S n)))) then None
  else if e_table (ent m t (va_index w (S n))) then mmu n m (e_addr (ent m t (va_index w (S n)))) w
  else if (S n <=? 2)%nat then Some (e_addr (ent m t (va_index w (S n))) + w mod (PAGE * 512 ^ Z.of_nat (S n))) else None.
Proof. done. Qed.

Lemma slot_SS n m t w : slot (S (S n)) m t w =
  if e_table (ent m t (va_index w (S (S n)))) then slot (S n) m (e_addr (ent m t (va_index w (S (S n))))) w else 0.
Proof. done. Qed.

Lemma reach_SS n m t w : reach (S (S n)) m t w =
  negb (e_block (ent m t (va_index w (S (S n))))) &&
  (if e_valid (ent m t (va_index w (S (S n)))) then reach (S n) m (e_addr (ent m t (va_index w (S (S n))))) w else true).
Proof. done. Qed.

(** What mapping [a] by a block at [phys] does, where the slot was empty. *)
Record blocked n t a phys new s s' : Prop := {
  bl_grows : grows (tables n (words s) t) new s s';
  bl_tables : tables n (words s') t ≡ₚ new ++ tables n (words s) t;
  bl_count : (length new < n)%nat;
  bl_here w : same_slot n w a → e_valid (slot n (words s) t a) = false →
    mmu n (words s') t w = Some (phys + w mod (PAGE * 512));
  bl_keep w : ¬ same_slot n w a ∨ e_valid (slot n (words s) t a) = true →
    mmu n (words s') t w = mmu n (words s) t w ∧ slot n (words s') t w = slot n (words s) t w;
  bl_reach w : reach n (words s') t w = reach n (words s) t w
}.

Lemma index_va w k : index (va_index w k).
Proof. by apply (va_index_range w k). Qed.

(** The store at level 1. *)
Lemma block_leaf t a leaf s :
  pool_ok (pool s) → tree 1 s t → e_valid leaf = true → e_table leaf = false →
  blocked 1 t a (e_addr leaf) [] s
    (if e_valid (ent (words s) t (va_index a 1)) then s else store64 (t + 8 * va_index a 1) leaf s).
Proof.
  intros Hok Htree Hv Ht. set (i := va_index a 1). pose proof (index_va a 1) as Hi. fold i in Hi.
  destruct (e_valid (ent (words s) t i)) eqn:Ev.
  - split; [by apply grows_refl; [| |apply outside_refl]|done|cbn; lia| |done|done].
    intros w Hw. cbn [slot]. fold i. by rewrite Ev.
  - pose proof Htree as (Ha & Hnd & Ho). cbn [words store64 pool].
    assert (e_table (ent (words s) t i) = false) as Et.
    { destruct (e_table (ent (words s) t i)) eqn:Et; [|done]. apply e_table_valid in Et as [? _]. congruence. }
    set (m' := st64 (words s) (t + 8 * i) leaf).
    assert (outside ([] ++ t :: sub 0 (words s) t i) (words s) m') as Hout.
    { intros u j Hu Hn Hj. unfold m'. apply ent_st64_ne; try done. left. intros ->. apply Hn. left. }
    assert (∀ j, index j → j ≠ i → ent m' t j = ent (words s) t j) as Hrow
      by (intros j Hj Hne; unfold m'; apply ent_st64_ne; auto).
    assert (∀ j, index j → j ≠ i → sub 0 m' t j = sub 0 (words s) t j ∧
      (e_table (ent (words s) t j) = true → same (tables 0 (words s) (e_addr (ent (words s) t j))) (words s) m')) as Hsub.
    { intros j Hj Hne. apply (other_slot 0 s t i j []); auto. intros u _. apply not_elem_of_nil. }
    assert (ent m' t i = leaf) as Hleaf by (unfold m'; by rewrite ent_st64_eq).
    split.
    + apply grows_refl; [done|done|]. intros u j Hu Hn Hj. unfold m'. apply ent_st64_ne; try done. left. intros ->.
      apply Hn, tables_root.
    + apply (tables_update 0 (words s) m' t i []); [done|intros j Hj Hne; by apply Hsub|].
      unfold sub. by rewrite Hleaf, Ht, Et.
    + cbn. lia.
    + intros w Hw _. cbn [mmu]. rewrite (Hw 1%nat) by lia. fold i. change (words (store64 _ _ s)) with m'. rewrite Hleaf, Hv, Ht. done.
    + intros w [Hw|Hw]; [|cbn [slot] in Hw; fold i in Hw; congruence].
      assert (va_index w 1 ≠ i) as Hne.
      { intros E. apply Hw. intros k Hk. assert (k = 1%nat) as -> by lia. done. }
      pose proof (index_va w 1) as Hj. cbn [mmu slot]. rewrite Hrow by done. split; [|done].
      destruct (negb (e_valid _)); [done|]. destruct (e_table (ent (words s) t (va_index w 1))) eqn:E; [|done].
      apply (same_mmu LAWS 0). by apply Hsub.
    + done.
Qed.

Lemma same_slot_reach n m m' t w :
  same (tables n m t) m m' → slot n m' t w = slot n m t w ∧ reach n m' t w = reach n m t w.
Proof.
  revert t. induction n as [|n IH]; intros t Hs; [done|]. pose proof (index_va w (S n)) as Hi.
  cbn [slot reach]. rewrite (Hs t) by (done || apply tables_root). set (e := ent m t _). destruct n as [|n]; [done|].
  assert (e_table e = true → same (tables (S n) m (e_addr e)) m m') as Hsub.
  { intros Ht u j Hu Hj. apply Hs; [|done]. apply elem_of_tables_S. right. exists (va_index w (S (S n))).
    split; [done|]. unfold sub. fold e. by rewrite Ht. }
  split.
  - destruct (e_table e); [|done]. by apply IH, Hsub.
  - destruct (e_block e) eqn:Eb; [done|]. destruct (e_valid e) eqn:Ev; [|done]. cbn [negb andb].
    by apply IH, Hsub, e_valid_cases.
Qed.

(** An empty table maps nothing. *)
Lemma empty_blocks n m t w :
  (∀ j, index j → ent m t j = 0) → mmu (S n) m t w = None ∧ slot (S n) m t w = 0 ∧ reach (S n) m t w = true.
Proof.
  destruct e_zero as (Hv & Ht & Hb). intros Hz. cbn [mmu slot reach]. rewrite Hz by apply index_va.
  rewrite Hv, Ht, Hb. cbn [negb andb]. by destruct n.
Qed.

(** What get_or_create leaves of the child table: the old one, or an empty one. *)
Lemma child_blocks n (m m1 : memory) e c w :
  (if e_valid e then c = e_addr e ∧ same (tables (S n) m c) m m1 else ∀ j, index j → ent m1 c j = 0) →
  mmu (S n) m1 c w = (if e_valid e then mmu (S n) m (e_addr e) w else None) ∧
  slot (S n) m1 c w = (if e_valid e then slot (S n) m (e_addr e) w else 0) ∧
  reach (S n) m1 c w = (if e_valid e then reach (S n) m (e_addr e) w else true).
Proof.
  destruct (e_valid e); [|apply empty_blocks]. intros [-> Hs].
  destruct (same_slot_reach _ _ _ _ w Hs) as [-> ->]. by rewrite (same_mmu LAWS _ _ _ _ w Hs).
Qed.

Lemma same_slot_S n w a : same_slot (S n) w a ↔ va_index w (S n) = va_index a (S n) ∧ same_slot n w a.
Proof.
  unfold same_slot. split.
  - intros H. split; [apply H; lia|]. intros k Hk. apply H. lia.
  - intros [H1 H2] k Hk. destruct (decide (k = S n)) as [->|]; [done|]. apply H2. lia.
Qed.

(** From the subtree to the tree. *)
Lemma block_step n t a phys s c s1 new1 s2 new2 :
  let e := ent (words s) t (va_index a (S (S n))) in
  pool_ok (pool s) → tree (S (S n)) s t → e_block e = false →
  grows [t] new1 s s1 → (length new1 <= 1)%nat →
  e_table (ent (words s1) t (va_index a (S (S n)))) = true → e_addr (ent (words s1) t (va_index a (S (S n)))) = c →
  (∀ j, index j → j ≠ va_index a (S (S n)) → ent (words s1) t j = ent (words s) t j) →
  tables (S n) (words s1) c = new1 ++ sub (S n) (words s) t (va_index a (S (S n))) →
  (if e_valid e then c = e_addr e ∧ same (tables (S n) (words s) c) (words s) (words s1)
   else ∀ j, index j → ent (words s1) c j = 0) →
  blocked (S n) c a phys new2 s1 s2 →
  blocked (S (S n)) t a phys (new2 ++ new1) s s2.
Proof.
  intros e Hok Htree Hb Hg1 Hlen1 Htb Hc Hoth Htab Hcase [Hg2 HP Hlen2 Hhere Hkeep Hreach].
  pose proof (index_va a (S (S n))) as Hi. set (i := va_index a (S (S n))) in *.
  destruct (subtree_step (S n) t i s c s1 new1 s2 new2) as (Hg & HPt & Hrow & Hsub); try done.
  pose proof (e_table_valid _ Htb) as [Hv1 Hb1].
  assert (∀ x, e_table x = e_valid x && negb (e_block x)) as Htv.
  { intros x. destruct (e_table x) eqn:Et; [by apply e_table_valid in Et as [-> ->]|].
    destruct (e_valid x) eqn:Ev; [|done]. destruct (e_block x) eqn:Eb; [done|]. by rewrite (e_valid_cases x Ev Eb) in Et. }
  assert (e_table e = e_valid e) as Het by (by rewrite Htv, Hb, andb_true_r).
  assert (slot (S n) (words s1) c a = slot (S (S n)) (words s) t a) as Hslot.
  { rewrite (proj1 (proj2 (child_blocks n _ _ e c a Hcase))), slot_SS. fold i e. by rewrite Het. }
  split; [exact Hg|exact HPt|rewrite length_app; lia|..].
  - intros w [Hw1 Hw]%same_slot_S Hs. rewrite (mmu_S (S n)), Hw1. fold i. rewrite Hrow, Hv1, Htb, Hc. cbn [negb].
    apply Hhere; [done|]. by rewrite Hslot.
  - intros w Hw. rewrite !(mmu_S (S n)), !(slot_SS n). destruct (decide (va_index w (S (S n)) = i)) as [E|E].
    + destruct (Hkeep w) as [E1 E2].
      { destruct Hw as [Hw|Hw]; [left|right; by rewrite Hslot]. intros H. by apply Hw, same_slot_S. }
      destruct (child_blocks n _ _ e c w Hcase) as (C1 & C2 & _).
      rewrite E, Hrow, Hv1, Htb, Hc, E1, E2, C1, C2. fold e. cbn [negb]. rewrite Het. by destruct (e_valid e).
    + destruct (Hsub _ (index_va w _) E) as [-> Hs]. destruct (e_table (ent (words s) t (va_index w (S (S n))))) eqn:Et; [|by split].
      rewrite (same_mmu LAWS _ _ _ _ w (Hs eq_refl)). split; [done|]. apply (same_slot_reach _ _ _ _ w (Hs eq_refl)).
  - intros w. rewrite !(reach_SS n). destruct (decide (va_index w (S (S n)) = i)) as [E|E].
    + destruct (child_blocks n _ _ e c w Hcase) as (_ & _ & C).
      rewrite E, Hrow, Hv1, Hb1, Hc, Hreach, C. fold e. by rewrite Hb.
    + destruct (Hsub _ (index_va w _) E) as [-> Hs]. set (x := ent (words s) t (va_index w (S (S n)))) in *.
      destruct (e_block x) eqn:Eb; [done|]. destruct (e_valid x) eqn:Ev; [|done]. by destruct (same_slot_reach _ _ _ _ w (Hs (e_valid_cases _ Ev Eb))) as [_ ->].
Qed.
End blocks.
