(* ===== verification/Boot.v ===== *)
(** * From the boot tables to address spaces: arch_mm_init of the two arch.c files

    The first page tables are written before there is an allocator: by boot.asm on x86_64,
    by mmu_boot.c on aarch64 (VmmA64.v).  arch_mm_init then sets up the frame allocator and
    takes the live tables over as the kernel's space.  The theorems show that this gives
    the state the rest of the development starts from. *)

From S2P Require Import Prelude.
From S2P Require Import FrameAlloc.
From S2P Require Import Pmm.
From S2P Require Import Heap.
From S2P Require Import PageTable.
From S2P Require Import AddressSpace.
From S2P Require Import Framebuffer.
From S2P Require Import Mmio.
From S2P Require Import Multiboot.
From S2P Require Import Mmu.
From S2P Require VmmX86.
From S2P Require VmmA64.

(** The state before the boot: nothing has been allocated, [root] is in the CPU's root
    register. *)
Definition reset_state (m : memory) (p : pmm) (root : Z) : vmm pmm := mk_vmm m (boot_heap p) ∅ 0 root.
Definition set_pool (s : vmm pmm) (p : pmm) : vmm pmm := with_pm s (mk_pm (v_mem s) p).

Definition after_heap_init (s : vmm pmm) : vmm pmm :=
  mk_vmm (v_mem s) (heap_init (v_heap s)) (v_spaces s) (v_kernel s) (v_active s).

(** The tables of the boot are inside the kernel image, which pmm_init keeps. *)
Lemma reserved_owned regions ks ke T :
  Forall (λ r, 0 <= mr_base r) regions → PAGE <= ks → ke <= highest_top regions → highest_top regions < 2 ^ 48 →
  Forall (λ t, page_aligned t ∧ ks <= t ∧ t + PAGE <= ke) T → owned (pmm_init regions ks ke) T.
Proof.
  intros Hr Hks Hke Htop HT t Ht. rewrite Forall_forall in HT. destruct (HT t Ht) as (Ha & Hlo & Hhi).
  destruct (init_spec regions ks ke Hr) as (_ & Htot & _ & Hfree); [unfold PAGE in Hks; lia|].
  unfold page_aligned, PAGE, PMM_FRAME_SIZE in *. split_and!; [done| | |div_lia].
  - cbn [fa_managed pmm_frame_ops]. rewrite elem_of_frame_range, Htot. div_lia.
  - cbn [fa_free pmm_frame_ops]. rewrite Hfree. intros [_ Hn]%elem_of_difference. apply Hn.
    unfold range_frames, bitmap_end_of, PMM_FRAME_SIZE. rewrite elem_of_frame_range, Htot.
    change 8 with (2 ^ 3) at 1. rewrite ALIGN_UP_pow2 by lia. rewrite u64_id; [|unfold in_u]; div_lia.
Qed.

(** ** x86_64 *)

Module X86.

(** [mov [a], eax]: the low half of the 64-bit entry; the other one keeps its value. *)
Definition mov32 (m : memory) (a v : Z) : memory := st64 m a (ld64 m a / 2 ^ 32 * 2 ^ 32 + u32 v).

(** The identity map of the first gigabyte, in 2 MB pages. *)
Definition setup_page_tables (pml4_table pdp_table pd_table : Z) (m : memory) : memory :=
  let m := mov32 m pml4_table (pdp_table .| 0x3) in
  let m := mov32 m pdp_table (pd_table .| 0x3) in
  for_up 0 512 (λ ecx m, mov32 m (pd_table + ecx * 8) (u32 (0x200000 * ecx) .| 0x83)) m.

Definition arch_mm_init (info : bytemem) (fuel : nat) (boot_magic boot_info kernel_start kernel_end : Z)
    (st : mm) (s : vmm pmm) : option (mm * vmm pmm) :=
  '(st, p) ← x86_64_mm_init info fuel boot_magic boot_info kernel_start kernel_end st;
  Some (st, VmmX86.vmm_init (set_pool s p)).

Definition arch_get_total_ram (st : mm) : Z := x86_64_total_ram st.

#[local] Existing Instance VmmX86.x86_format.
#[local] Existing Instance VmmX86.x86_laws.

(** Three tables inside the kernel image, which the boot loader has zeroed. *)
Record boot_tables (m : memory) (ks ke pml4 pdp pd : Z) : Prop := {
  bt_aligned : Forall page_aligned [pml4; pdp; pd];
  bt_distinct : NoDup [pml4; pdp; pd];
  bt_inside : Forall (λ t, ks <= t ∧ t + PAGE <= ke) [pml4; pdp; pd];
  bt_zero : Forall (λ t, ∀ j, index j → ent m t j = 0) [pml4; pdp; pd]
}.

Lemma ent_mov32 m t i u j v :
  page_aligned t → page_aligned u → index i → index j → ent m t i = 0 → in_u 32 v →
  ent (mov32 m (t + 8 * i) v) u j = if (u =? t) && (j =? i) then v else ent m u j.
Proof.
  intros Ht Hu Hi Hj Hz Hv. unfold mov32. change (ld64 m (t + 8 * i)) with (ent m t i). rewrite Hz, u32_id by done.
  by rewrite ent_st64 by done.
Qed.

(** The entries of the three tables. *)
Definition boot_entry (pml4 pdp pd t j : Z) : Z :=
  if t =? pml4 then (if j =? 0 then pdp .| 0x3 else 0)
  else if t =? pdp then (if j =? 0 then pd .| 0x3 else 0)
  else (0x200000 * j) .| 0x83.

Lemma in_u32_lor a b : in_u 32 a → in_u 32 b → in_u 32 (a .| b).
Proof.
  unfold in_u. intros Ha Hb. assert (0 <= a .| b) as Hn by (apply Z.lor_nonneg; lia). split; [done|].
  destruct (decide (a .| b = 0)) as [->|Hne]; [lia|]. apply Z.log2_lt_pow2; [lia|]. rewrite Z.log2_lor by lia.
  assert (∀ x, 0 <= x < 2 ^ 32 → Z.log2 x < 32) as H.
  { intros x Hx. destruct (decide (x = 0)) as [->|]; [done|]. apply Z.log2_lt_pow2; lia. }
  pose proof (H a Ha). pose proof (H b Hb). lia.
Qed.

Lemma setup_entries m ks ke pml4 pdp pd t j :
  boot_tables m ks ke pml4 pdp pd → 0 <= ks → ke <= 2 ^ 30 → t ∈ [pml4; pdp; pd] → index j →
  ent (setup_page_tables pml4 pdp pd m) t j = boot_entry pml4 pdp pd t j.
Proof.
  intros [Hal Hnd Hin Hz] Hks Hke Ht Hj. unfold setup_page_tables, boot_entry.
  rewrite !Forall_cons in Hal, Hin, Hz. destruct Hal as (A1 & A2 & A3 & _), Hin as (I1 & I2 & I3 & _), Hz as (Z1 & Z2 & Z3 & _).
  assert (pml4 ≠ pdp ∧ pml4 ≠ pd ∧ pdp ≠ pd) as (D1 & D2 & D3).
  { rewrite !NoDup_cons, !not_elem_of_cons in Hnd. naive_solver. }
  assert (index 0) as H0 by (unfold index; lia). unfold PAGE in *.
  assert (page_aligned t) as At by (rewrite !elem_of_cons, elem_of_nil in Ht; naive_solver).
  set (m1 := mov32 m pml4 _). set (m2 := mov32 m1 pdp _).
  assert (∀ u i, page_aligned u → index i → ent m2 u i =
    if (u =? pdp) && (i =? 0) then pd .| 0x3 else if (u =? pml4) && (i =? 0) then pdp .| 0x3 else ent m u i) as E2.
  { intros u i Hu Hi. unfold m2, m1. replace pdp with (pdp + 8 * 0) at 2 by lia. replace pml4 with (pml4 + 8 * 0) at 1 by lia.
    assert (ent (mov32 m (pml4 + 8 * 0) (pdp .| 0x3)) pdp 0 = 0) as Hz0.
    { rewrite ent_mov32; try done; [|by apply Z1|apply in_u32_lor; unfold in_u; lia].
      rewrite (proj2 (Z.eqb_neq pdp pml4)) by done. by apply Z2. }
    rewrite ent_mov32; try done; [|apply in_u32_lor; unfold in_u; lia]. case_match; [done|].
    rewrite ent_mov32; try done; [by apply Z1|apply in_u32_lor; unfold in_u; lia]. }
  assert (∀ u k, page_aligned u → index k →
    ent (for_up 0 512 (λ ecx m, mov32 m (pd + ecx * 8) (u32 (0x200000 * ecx) .| 0x83)) m2) u k =
    if (u =? pd) && (k <? Z.max 0 512) then (0x200000 * k) .| 0x83 else ent m2 u k) as E3.
  { apply (for_up_inv (λ i m', ∀ u k, page_aligned u → index k →
        ent m' u k = if (u =? pd) && (k <? i) then (0x200000 * k) .| 0x83 else ent m2 u k)).
    - intros u k Hu Hk. unfold index in Hk. by rewrite (proj2 (Z.ltb_ge k 0)), andb_false_r by lia.
    - intros i m' Hi IH u k Hu Hk. rewrite u32_id by (unfold in_u; lia). rewrite (Z.mul_comm i).
      rewrite ent_mov32; try done; [|rewrite IH by done|apply in_u32_lor; unfold in_u; lia].
      + rewrite IH by done. destruct (Z.eqb_spec u pd) as [->|]; cbn [andb]; [|done]. unfold index in *.
        destruct (Z.eqb_spec k i) as [E|E], (Z.ltb_spec k i), (Z.ltb_spec k (i + 1)); try lia; try done. by rewrite E.
      + rewrite Z.eqb_refl, (proj2 (Z.ltb_ge i i)) by lia. cbn [andb].
        rewrite E2, (proj2 (Z.eqb_neq pd pdp)), (proj2 (Z.eqb_neq pd pml4)) by done. by apply Z3. }
  rewrite E3 by done. assert ((j <? Z.max 0 512) = true) as -> by (unfold index in Hj; lia). rewrite andb_true_r. clear E3.
  rewrite !elem_of_cons, elem_of_nil in Ht. destruct Ht as [->|[->|[->|[]]]]; rewrite ?Z.eqb_refl.
  - rewrite (proj2 (Z.eqb_neq pml4 pd)), E2, (proj2 (Z.eqb_neq pml4 pdp)), Z.eqb_refl by done. cbn [andb].
    case_match; [done|by apply Z1].
  - rewrite (proj2 (Z.eqb_neq pdp pd)), (proj2 (Z.eqb_neq pdp pml4)), E2, Z.eqb_refl, (proj2 (Z.eqb_neq pdp pml4)) by done.
    cbn [andb]. case_match; [done|by apply Z2].
  - by rewrite (proj2 (Z.eqb_neq pd pml4)), (proj2 (Z.eqb_neq pd pdp)) by done.
Qed.

Lemma big_entry j : index j →
  e_valid ((0x200000 * j) .| 0x83) = true ∧ e_table ((0x200000 * j) .| 0x83) = false ∧
  e_addr ((0x200000 * j) .| 0x83) = 0x200000 * j.
Proof.
  intros Hj. set (P := λ j, e_valid ((0x200000 * j) .| 0x83) && negb (e_table ((0x200000 * j) .| 0x83)) &&
    (e_addr ((0x200000 * j) .| 0x83) =? 0x200000 * j)).
  assert (forallb P (seqZ 0 512) = true) as H by (vm_compute; reflexivity).
  rewrite List.forallb_forall in H. unfold P in H. specialize (H j). rewrite <- list_elem_of_In, elem_of_seqZ in H.
  specialize (H Hj). bool_to_prop. done.
Qed.

Lemma boot_link t : page_aligned t → 0 <= t < 2 ^ 32 →
  e_valid (t .| 0x3) = true ∧ e_table (t .| 0x3) = true ∧ e_addr (t .| 0x3) = t.
Proof.
  intros Ha Ht. assert (0 <= t / PAGE < e_frames) as Hf by (change e_frames with (2 ^ 40); unfold PAGE; div_lia).
  destruct (e_link_law 0 _ Hf) as [Htab Haddr]. rewrite <- (aligned_frame t Ha) in Htab, Haddr.
  assert (e_link 0 t = t .| 0x3) as E by (cbn; by rewrite <- !Z.lor_assoc). rewrite E in *.
  split; [by apply e_table_valid|done].
Qed.

(** Tables with these entries form a tree, and the processor translates the first
    gigabyte to itself and nothing else. *)
Lemma big_tables m pml4 pdp pd :
  page_aligned pdp → page_aligned pd → 0 <= pdp < 2 ^ 32 → 0 <= pd < 2 ^ 32 →
  (∀ j, index j → ent m pml4 j = if j =? 0 then pdp .| 0x3 else 0) →
  (∀ j, index j → ent m pdp j = if j =? 0 then pd .| 0x3 else 0) →
  (∀ j, index j → ent m pd j = (0x200000 * j) .| 0x83) →
  tables 3 m pml4 = [pml4; pdp; pd] ∧
  ∀ w, 0 <= w < 2 ^ 48 → mmu 3 m pml4 w = if w <? 2 ^ 30 then Some w else None.
Proof.
  intros A2 A3 R2 R3 E1 E2 E3.
  destruct (boot_link pdp A2 R2) as (V2 & T2 & L2), (boot_link pd A3 R3) as (V3 & T3 & L3).
  assert (index 0) as H0 by (unfold index; lia). destruct e_zero as (Z1 & Z2 & _). split.
  - cbn [tables]. rewrite bind_seqZ_first; rewrite ?E1 by done; [|intros i Hi; rewrite E1, (proj2 (Z.eqb_neq i 0)), Z2 by (unfold index; lia); done].
    rewrite Z.eqb_refl, T2, L2. cbn [tables]. f_equal. f_equal.
    rewrite bind_seqZ_first; rewrite ?E2 by done; [|intros i Hi; rewrite E2, (proj2 (Z.eqb_neq i 0)), Z2 by (unfold index; lia); done].
    rewrite Z.eqb_refl, T3, L3. f_equal.
    apply bind_seqZ_nil. intros i Hi. rewrite E3 by (unfold index; lia). by rewrite (proj1 (proj2 (big_entry i ltac:(unfold index; lia)))).
  - intros w Hw. assert (∀ k, index (va_index w k)) as Hix by (intros k; by apply (va_index_range w k)).
    pose proof (va_index_digit w 3) as W3. pose proof (va_index_digit w 2) as W2. pose proof (va_index_digit w 1) as W1.
    change (512 ^ Z.of_nat 3) with 134217728 in W3. change (512 ^ Z.of_nat 2) with 262144 in W2. change (512 ^ Z.of_nat 1) with 512 in W1.
    cbn [mmu]. rewrite E1 by done. destruct (Z.eqb_spec (va_index w 3) 0) as [I|I].
    2:{ rewrite Z1. cbn [negb]. destruct (Z.ltb_spec w (2 ^ 30)); [|done]. div_lia. }
    rewrite V2, T2, L2. cbn [negb mmu]. rewrite E2 by done. destruct (Z.eqb_spec (va_index w 2) 0) as [J|J].
    2:{ rewrite Z1. cbn [negb]. destruct (Z.ltb_spec w (2 ^ 30)); [|done]. div_lia. }
    rewrite V3, T3, L3. cbn [negb mmu]. rewrite E3 by done. destruct (big_entry _ (Hix 1%nat)) as (-> & -> & ->).
    cbn [negb Nat.leb]. change (PAGE * 512 ^ Z.of_nat 1) with 2097152.
    destruct (Z.ltb_spec w (2 ^ 30)); [f_equal|]; div_lia.
Qed.

Lemma setup_tables m ks ke pml4 pdp pd :
  boot_tables m ks ke pml4 pdp pd → 0 <= ks → ke <= 2 ^ 30 →
  tables 3 (setup_page_tables pml4 pdp pd m) pml4 = [pml4; pdp; pd] ∧
  ∀ w, 0 <= w < 2 ^ 48 → mmu 3 (setup_page_tables pml4 pdp pd m) pml4 w = if w <? 2 ^ 30 then Some w else None.
Proof.
  intros Hbt Hks Hke. pose proof (setup_entries m ks ke pml4 pdp pd) as He. pose proof Hbt as [Hal Hnd Hin _].
  revert He. generalize (setup_page_tables pml4 pdp pd m). intros m' He.
  rewrite !Forall_cons in Hal, Hin. destruct Hal as (A1 & A2 & A3 & _), Hin as (I1 & I2 & I3 & _). unfold PAGE in *.
  assert (pml4 ≠ pdp ∧ pml4 ≠ pd ∧ pdp ≠ pd) as (D1 & D2 & D3).
  { rewrite !NoDup_cons, !not_elem_of_cons in Hnd. naive_solver. }
  apply big_tables; try done; try lia; intros j Hj; (rewrite He; [|done..|rewrite !elem_of_cons; tauto|done]); unfold boot_entry.
  - by rewrite Z.eqb_refl.
  - by rewrite Z.eqb_refl, (proj2 (Z.eqb_neq pdp pml4)) by done.
  - by rewrite (proj2 (Z.eqb_neq pd pml4)), (proj2 (Z.eqb_neq pd pdp)) by done.
Qed.

Lemma booted_state info fuel magic binfo ks ke st m pml4 pdp pd p0 st' s' :
  boot_tables m ks ke pml4 pdp pd → PAGE <= ks →
  arch_mm_init info fuel magic binfo ks ke st (reset_state (setup_page_tables pml4 pdp pd m) p0 pml4) = Some (st', s') →
  ke <= highest_top (regions st') →
  ∃ p, s' = mk_vmm (setup_page_tables pml4 pdp pd m) (boot_heap p) ∅ pml4 pml4 ∧ pool_ok p ∧
    tree 3 (mk_pm (setup_page_tables pml4 pdp pd m) p) pml4 ∧
    (∀ w, 0 <= w < 2 ^ 48 → mmu 3 (setup_page_tables pml4 pdp pd m) pml4 w = if w <? 2 ^ 30 then Some w else None) ∧
    ∀ f, f ∈ free_set p → 256 <= f < 262144.
Proof.
  intros Hbt Hks E Hke. unfold arch_mm_init in E.
  destruct (x86_64_mm_init info fuel magic binfo ks ke st) as [[st1 p]|] eqn:Em; [|done].
  cbn [mbind option_bind] in E. injection E as <- <-. unfold PAGE in Hks.
  destruct (mm_init_pool info fuel magic binfo ks ke st st1 p ltac:(lia) Em) as (Hp & Hok & Hwf & Hfree').
  assert (∀ f, f ∈ free_set p → 256 <= f < 262144) as Hfree by (intros f Hf; by apply Hfree').
  pose proof (regions_top _ (proj1 Hok)) as Htop.
  assert (Forall (λ r, 0 <= mr_base r) (regions st1)) as Hbase.
  { eapply Forall_impl; [apply Hok|]. intros r (H & _). unfold LOW_MEM_RESERVED in H. lia. }
  destruct (setup_tables m ks ke pml4 pdp pd Hbt) as [Htab Hmmu]; [lia|lia|]. pose proof Hbt as [Hal Hnd Hin _].
  assert (pml4 .& VmmX86.ADDR_MASK = pml4) as Hroot.
  { rewrite VmmX86.ADDR_MASK_ones. rewrite (aligned_frame pml4) by (by inversion Hal). apply land_page_mask; [lia|].
    inversion Hin as [|? ? [? ?]]. unfold PAGE in *. div_lia. }
  exists p. unfold VmmX86.vmm_init, set_pool. cbn [v_mem v_heap v_spaces v_active v_kernel reset_state with_pm words pool].
  rewrite Hroot. split; [done|]. split_and!; [| |exact Hmmu|exact Hfree].
  - split; [split; [done|]; intros H; apply Hfree in H; lia|].
    intros f. cbn [fa_managed pmm_frame_ops]. rewrite elem_of_frame_range, Hp.
    destruct (init_spec (regions st1) ks ke Hbase) as (_ & -> & _); [lia|]. change e_frames with (2 ^ 40).
    unfold PMM_FRAME_SIZE. div_lia.
  - split; [by inversion Hal|]. cbn [words pool]. rewrite Htab. split; [done|]. rewrite Hp.
    apply reserved_owned; [done|unfold PAGE; lia|done|lia|]. apply Forall_and. split; [exact Hal|exact Hin].
Qed.

(** C13: the boot on x86_64 ends in a state the rest of the kernel is proved against.  Over
    the tables boot.asm wrote, and for a Multiboot2 structure of any tags as the
    specification describes them, with at most 64 memory-map entries and memory up to the end
    of the kernel image at least, arch_mm_init returns, and it (and heap_init after it)
    establishes the invariant of the address spaces with the kernel's space as the only
    one; the processor maps the first gigabyte to itself and nothing else; and every frame
    the allocator can hand out is in it, so the kernel may use a physical address as a
    pointer. *)
Theorem arch_mm_init_ready info fuel binfo ks ke st m pml4 pdp pd p0 ts :
  boot_tables m ks ke pml4 pdp pd → PAGE <= ks →
  binfo ≠ 0 → tags_at info (binfo + 8) (binfo + peek 4 binfo info) ts → (entry_count ts <= 64)%nat →
  (length ts + entry_count ts < fuel)%nat →
  let st' := foldl mean_tag (mk_mm (total_ram_bytes st) (framebuffer_info st) (fb_bpp st) []) ts in
  ke <= highest_top (regions st') →
  ∃ s', arch_mm_init info fuel MULTIBOOT2_BOOTLOADER_MAGIC binfo ks ke st
      (reset_state (setup_page_tables pml4 pdp pd m) p0 pml4) = Some (st', s') ∧
    spaces_rep 3 s' [] ∧ (∃ AL, spaces_rep 3 (after_heap_init s') AL) ∧
    v_kernel s' = pml4 ∧ v_active s' = pml4 ∧
    (∀ w, 0 <= w < 2 ^ 48 → mmu 3 (v_mem s') (v_active s') w = if w <? 2 ^ 30 then Some w else None) ∧
    ∀ f a, f ∈ fa_free (frames (v_heap s')) → f * PAGE <= a < f * PAGE + PAGE → mmu 3 (v_mem s') (v_active s') a = Some a.
Proof.
  intros Hbt Hks Hb Hts Hc Hf st' Hke.
  pose proof (mm_init_described info fuel binfo ks ke st ts Hb Hts Hc Hf) as Em. fold st' in Em.
  set (s0 := reset_state (setup_page_tables pml4 pdp pd m) p0 pml4).
  assert (∃ s', arch_mm_init info fuel MULTIBOOT2_BOOTLOADER_MAGIC binfo ks ke st s0 = Some (st', s')) as [s' E]
    by (unfold arch_mm_init; rewrite Em; by eexists).
  exists s'. split; [exact E|].
  destruct (booted_state _ _ _ _ _ _ _ _ _ _ _ _ _ _ Hbt Hks E Hke) as (p & -> & Hp & Htree & Hmmu & Hfree).
  destruct (boot_kernel_rep 3 p _ pml4 pml4 Hp Htree) as [H1 H2]. split_and!; [exact H1|exact H2|done|done|exact Hmmu|].
  intros f a Hfa Ha. apply Hfree in Hfa. unfold PAGE in Ha. cbn [v_mem v_active]. by rewrite Hmmu, (proj2 (Z.ltb_lt _ _)) by lia.
Qed.
End X86.

(** ** aarch64 *)

Module A64.

Definition AARCH64_RAM_BASE : Z := 0x40000000.
Definition AARCH64_RAM_SIZE : Z := 1024 * 1024 * 1024.

Definition arch_mm_init (kernel_start kernel_end : Z) (s : vmm pmm) : vmm pmm :=
  let region := mk_region AARCH64_RAM_BASE AARCH64_RAM_SIZE in
  VmmA64.vmm_init (set_pool s (pmm_init [region] kernel_start kernel_end)).

Definition arch_get_total_ram : Z := AARCH64_RAM_SIZE.

#[local] Existing Instance VmmA64.a64_format.
#[local] Existing Instance VmmA64.a64_laws.

(** The state when arch_mm_init is called: the MMU is on, over the two blocks. *)
Definition mmu_on (boot_l1_table : Z) (m : memory) (r : VmmA64.mmu_regs) (p : pmm) : vmm pmm :=
  let '(m, r) := VmmA64.aarch64_mmu_init boot_l1_table m r in reset_state m p (VmmA64.ttbr0_el1 r).

Lemma block_table t m r :
  page_aligned t → (∀ j, index j → ent m t j = 0) →
  let m' := fst (VmmA64.aarch64_mmu_init t m r) in
  tables 2 m' t = [t] ∧ ∀ w, 0 <= w < 2 ^ 39 → mmu 2 m' t w = if w <? 2 ^ 31 then Some w else None.
Proof.
  intros Ht Hz. destruct (VmmA64.aarch64_mmu_init t m r) as [m' r'] eqn:E. cbn [fst].
  unfold VmmA64.aarch64_mmu_init in E. injection E as E _.
  set (e0 := 0x00000000 .| _ .| _ .| _ .| _ .| _ .| _ .| _) in E. set (e1 := 0x40000000 .| _ .| _ .| _ .| _ .| _) in E.
  assert (index 0 ∧ index 1) as [H0 H1] by (unfold index; lia).
  assert (∀ j, index j → ent m' t j = if j =? 0 then e0 else if j =? 1 then e1 else 0) as He.
  { intros j Hj. subst m'. rewrite !ent_st64, Z.eqb_refl, Hz by done. cbn [andb].
    destruct (Z.eqb_spec j 1) as [->|]; [done|]. by destruct (j =? 0). }
  assert (e_valid e0 = true ∧ e_table e0 = false ∧ e_addr e0 = 0) as (V0 & T0 & L0) by (vm_compute; done).
  assert (e_valid e1 = true ∧ e_table e1 = false ∧ e_addr e1 = 0x40000000) as (V1 & T1 & L1) by (vm_compute; done).
  clear E. clearbody e0 e1. destruct e_zero as (Z1 & Z2 & _). split.
  - cbn [tables]. f_equal. apply bind_seqZ_nil. intros i Hi. rewrite He by (unfold index; lia).
    destruct (i =? 0); [by rewrite T0|]. destruct (i =? 1); [by rewrite T1|by rewrite Z2].
  - intros w Hw. pose proof (va_index_digit w 2) as W2. change (512 ^ Z.of_nat 2) with 262144 in W2.
    cbn [mmu]. rewrite He by (by apply (va_index_range w 2)). change (PAGE * 512 ^ Z.of_nat 2) with 1073741824.
    destruct (Z.eqb_spec (va_index w 2) 0) as [I|I]; [|destruct (Z.eqb_spec (va_index w 2) 1) as [J|J]].
    + rewrite V0, T0, L0. cbn [negb Nat.leb]. destruct (Z.ltb_spec w (2 ^ 31)); [f_equal|]; div_lia.
    + rewrite V1, T1, L1. cbn [negb Nat.leb]. destruct (Z.ltb_spec w (2 ^ 31)); [f_equal|]; div_lia.
    + rewrite Z1. cbn [negb]. destruct (Z.ltb_spec w (2 ^ 31)); [div_lia|done].
Qed.

(** C24: the same on aarch64, over the two 1 GB blocks of mmu_boot.c and the fixed RAM of
    the virt machine. *)
Theorem a64_arch_mm_init_ready ks ke m r l1 p0 :
  page_aligned l1 → (∀ j, index j → ent m l1 j = 0) → ks <= l1 → l1 + PAGE <= ke →
  AARCH64_RAM_BASE <= ks → ke <= AARCH64_RAM_BASE + AARCH64_RAM_SIZE →
  let s' := arch_mm_init ks ke (mmu_on l1 m r p0) in
  spaces_rep 2 s' [] ∧ (∃ AL, spaces_rep 2 (after_heap_init s') AL) ∧
  v_kernel s' = l1 ∧ v_active s' = l1 ∧
  (∀ w, 0 <= w < 2 ^ 39 → mmu 2 (v_mem s') (v_active s') w = if w <? 2 ^ 31 then Some w else None) ∧
  ∀ f a, f ∈ fa_free (frames (v_heap s')) → f * PAGE <= a < f * PAGE + PAGE → mmu 2 (v_mem s') (v_active s') a = Some a.
Proof.
  intros Ha Hz Hlo Hhi Hks Hke. unfold arch_mm_init, mmu_on. destruct (block_table l1 m r Ha Hz) as [Htab Hmmu].
  assert (VmmA64.ttbr0_el1 (snd (VmmA64.aarch64_mmu_init l1 m r)) = l1) as Httbr by done.
  destruct (VmmA64.aarch64_mmu_init l1 m r) as [m' r']. cbn [fst snd] in *. rewrite Httbr.
  set (regs := [_]). assert (highest_top regs = 0x80000000) as Htop by done.
  unfold AARCH64_RAM_BASE, AARCH64_RAM_SIZE, PAGE in *.
  assert (Forall (λ r, 0 <= mr_base r) regs) as Hbase by (repeat constructor; cbn; lia).
  destruct (init_spec regs ks ke Hbase) as (Hwf & Htot & _ & Hfree); [lia|].
  assert (∀ f, f ∈ free_set (pmm_init regs ks ke) → 0x40000 <= f < 0x80000) as Hin.
  { intros f. rewrite Hfree. intros [Hf _]%elem_of_difference. unfold usable_frames in Hf. cbn in Hf.
    rewrite union_empty_r_L in Hf. unfold range_frames in Hf. apply elem_of_frame_range in Hf. rewrite Htot, Htop in Hf.
    change (region_top _) with 0x80000000 in Hf. unfold PMM_FRAME_SIZE in Hf. cbn [mr_base] in Hf. div_lia. }
  assert (pool_ok (pmm_init regs ks ke)) as Hpool.
  { split; [split; [done|]; intros H; apply Hin in H; lia|]. intros f. cbn [fa_managed pmm_frame_ops].
    rewrite elem_of_frame_range, Htot, Htop. change e_frames with (2 ^ 36). unfold PMM_FRAME_SIZE. div_lia. }
  assert (tree 2 (mk_pm m' (pmm_init regs ks ke)) l1) as Htree.
  { split; [done|]. cbn [words pool]. rewrite Htab. split; [apply NoDup_singleton|].
    apply reserved_owned; [done|unfold PAGE; lia|rewrite Htop; lia|rewrite Htop; lia|]. repeat constructor; [done|lia|unfold PAGE; lia]. }
  assert (l1 .& VmmA64.ADDR_MASK = l1) as Hroot.
  { rewrite VmmA64.a64_ADDR_MASK_ones, (aligned_frame l1) by done. apply land_page_mask; [lia|]. unfold PAGE. div_lia. }
  destruct (boot_kernel_rep 2 (pmm_init regs ks ke) m' l1 l1 Hpool Htree) as [H1 H2].
  unfold VmmA64.vmm_init, after_heap_init, set_pool. cbn [v_mem v_heap v_spaces v_active v_kernel reset_state with_pm words pool].
  rewrite Hroot. split_and!; [exact H1|exact H2|done|done|exact Hmmu|].
  intros f a Hf Hfa. apply Hin in Hf. rewrite Hmmu, (proj2 (Z.ltb_lt _ _)) by lia. done.
Qed.
End A64.

(** ** Witnesses *)

(** The boot information of Multiboot.v, with a kernel of 64 KB at 1 MB. *)
Definition booted_x86 : option (mm * vmm pmm) :=
  X86.arch_mm_init example_info 8 MULTIBOOT2_BOOTLOADER_MAGIC 0x9000 0x100000 0x110000 mm_reset
    (reset_state (X86.setup_page_tables 0x10A000 0x10B000 0x10C000 ∅) VmmX86.boot_pool 0x10A000).

Lemma ent_empty t j : ent ∅ t j = 0.
Proof. unfold ent, ld64. by rewrite lookup_empty. Qed.

Lemma example_tables : X86.boot_tables ∅ 0x100000 0x110000 0x10A000 0x10B000 0x10C000.
Proof.
  split; [repeat constructor|apply (bool_decide_eq_true_1 _); reflexivity|repeat constructor; discriminate|].
  repeat constructor; intros j _; apply ent_empty.
Qed.

(** The machine of booted_x86, which later files go on from. *)
Lemma booted_x86_rep :
  ∃ st s, booted_x86 = Some (st, s) ∧ spaces_rep (FMT := VmmX86.x86_format) 3 s [] ∧
    (∃ AL, spaces_rep (FMT := VmmX86.x86_format) 3 (after_heap_init s) AL) ∧ v_kernel s = 0x10A000 ∧ v_active s = 0x10A000.
Proof.
  assert (match booted_x86 with Some (st, _) => 0x110000 <=? highest_top (regions st) | None => false end = true) as H
    by (vm_compute; reflexivity).
  destruct booted_x86 as [[st s]|] eqn:E; [|done]. apply Z.leb_le in H. exists st, s. split; [done|].
  destruct (X86.booted_state _ _ _ _ _ _ _ _ _ _ _ _ _ _ example_tables ltac:(done) E H) as (p & -> & Hp & Htree & _).
  destruct (boot_kernel_rep (FMT := VmmX86.x86_format) 3 p _ 0x10A000 0x10A000 Hp Htree) as [H1 H2].
  split; [exact H1|]. split; [exact H2|]. split; reflexivity.
Qed.

Lemma arch_mm_init_ready_witness :
  ∃ st s, booted_x86 = Some (st, s) ∧ spaces_rep (FMT := VmmX86.x86_format) 3 s [] ∧
    mmu (FMT := VmmX86.x86_format) 3 (v_mem s) (v_active s) 0xB8000 = Some 0xB8000 ∧
    mmu (FMT := VmmX86.x86_format) 3 (v_mem s) (v_active s) 0x50000000 = None.
Proof.
  destruct (X86.arch_mm_init_ready example_info 8 0x9000 0x100000 0x110000 mm_reset ∅
    0x10A000 0x10B000 0x10C000 VmmX86.boot_pool example_tags example_tables)
    as (s & E & H1 & _ & _ & _ & H2 & _); [discriminate|discriminate|exact example_described|cbn; lia|cbn; lia|vm_compute; discriminate|].
  eexists _, s. split; [exact E|]. split; [exact H1|]. split; rewrite H2 by lia; reflexivity.
Defined.

Definition booted_a64 : vmm pmm :=
  A64.arch_mm_init 0x40080000 0x400A0000
    (A64.mmu_on 0x40090000 ∅ (VmmA64.mk_mmu_regs 0 0 0 0x30D00800) VmmA64.boot_pool).

Lemma a64_arch_mm_init_ready_witness :
  spaces_rep (FMT := VmmA64.a64_format) 2 booted_a64 [] ∧
  mmu (FMT := VmmA64.a64_format) 2 (v_mem booted_a64) (v_active booted_a64) 0x7FFFF000 = Some 0x7FFFF000 ∧
  mmu (FMT := VmmA64.a64_format) 2 (v_mem booted_a64) (v_active booted_a64) 0x80000000 = None.
Proof.
  destruct (A64.a64_arch_mm_init_ready 0x40080000 0x400A0000 ∅ (VmmA64.mk_mmu_regs 0 0 0 0x30D00800) 0x40090000 VmmA64.boot_pool)
    as (H1 & _ & _ & _ & H2 & _); [reflexivity|intros j _; apply ent_empty|discriminate..|].
  split; [exact H1|]. split; unfold booted_a64; rewrite H2 by lia; reflexivity.
Defined.
