(* ===== verification/Paging.v ===== *)
(** * The framebuffer's place in the kernel's map: arch/x86_64/mm/paging.c and fb_init

    The framebuffer is PCI memory, above the gigabyte the boot maps.  paging_identity_map
    adds 2 MB pages for it to the live tables; fb_init of drivers/framebuffer.c calls it. *)

From S2P Require Import Prelude.
From S2P Require Import FrameAlloc.
From S2P Require Import Heap.
From S2P Require Import PageTable.
From S2P Require Import AddressSpace.
From S2P Require Import Framebuffer.
From S2P Require Import Mmu.
From S2P Require Import VmmX86.
From S2P Require Import Multiboot.
From S2P Require Import Boot.
From S2P Require Import Pmm.

Definition PAGE_PRESENT : Z := 1 ≪ 0.
Definition PAGE_WRITABLE : Z := 1 ≪ 1.
Definition PAGE_HUGE : Z := 1 ≪ 7.
Definition PAGE_ADDR_MASK : Z := 0x000FFFFFFFFFF000.

Section code.
Context {St : Type} `{!FrameOps St}.

Definition get_pml4 (cr3 : Z) : Z := cr3 .& PAGE_ADDR_MASK.

Definition ensure_table (parent index : Z) (s : pm St) : Z * pm St :=
  let s :=
    if negb (truth (ent (words s) parent index .& PAGE_PRESENT)) then
      let '(frame, pool) := alloc_frame (pool s) in
      let m := zeroed_table frame (words s) in
      mk_pm (st64 m (parent + 8 * index) (frame .| PAGE_PRESENT .| PAGE_WRITABLE)) pool
    else s in
  (ent (words s) parent index .& PAGE_ADDR_MASK, s).

(** The body of the loop, for one 2 MB page. *)
Definition map_big_page (pml4 addr : Z) (s : pm St) : pm St :=
  let pml4_i := (addr ≫ 39) .& 0x1FF in
  let pdp_i := (addr ≫ 30) .& 0x1FF in
  let pd_i := (addr ≫ 21) .& 0x1FF in
  let '(pdp, s) := ensure_table pml4 pml4_i s in
  let '(pd, s) := ensure_table pdp pdp_i s in
  if negb (truth (ent (words s) pd pd_i .& PAGE_PRESENT))
  then store64 (pd + 8 * pd_i) (addr .| PAGE_PRESENT .| PAGE_WRITABLE .| PAGE_HUGE) s
  else s.

(** Both ends are multiples of 2 MB, so the loop runs over the pages between them; the
    reload of CR3 flushes the TLB, which the model does not have. *)
Definition paging_identity_map (phys size : Z) (s : vmm St) : vmm St :=
  let start := ALIGN_DOWN phys 0x200000 in
  let end_ := ALIGN_UP 64 (u64 (phys + size)) 0x200000 in
  let pml4 := get_pml4 (v_active s) in
  with_pm s (for_up 0 ((end_ - start) / 0x200000) (λ k, map_big_page pml4 (start + 0x200000 * k)) (v_pm s)).

(** fb_init: the pointer the driver keeps, to framebuffer_info of multiboot2.c. *)
Definition fb_init (info : fb_info) (s : vmm St) : option fb_info * vmm St :=
  (Some info,
   if negb (fb_present info) then s
   else paging_identity_map (fb_addr info) (u64 (fb_pitch info * fb_h info)) s).
End code.

(** ** Proofs *)

#[local] Existing Instance x86_format.
#[local] Existing Instance x86_laws.

Section proofs.
Context {St : Type} `{OPS : !FrameOps St, FL : !FrameLaws St}.
Implicit Types (s : pm St) (t a w : Z).

(** A table that is there, or a new one: get_or_create of PageTable.v, where no huge page
    is in the way. *)
Lemma ensure_table_eq parent i s :
  e_block (ent (words s) parent i) = false → page_aligned parent → index i →
  ensure_table parent i s = get_or_create 0 parent i s.
Proof.
  intros Hb Ha Hi. unfold ensure_table, get_or_create. rewrite Hb. cbn [e_valid e_addr e_link e_widen x86_format].
  change PAGE_PRESENT with VMM_PRESENT. change PAGE_ADDR_MASK with ADDR_MASK.
  destruct (truth (ent (words s) parent i .& VMM_PRESENT)) eqn:Ev; cbn [negb].
  - change (truth (0 .& VMM_USER)) with false. cbn match. rewrite ent_st64_eq by done.
    assert (st64 (words s) (parent + 8 * i) (ent (words s) parent i) = words s) as ->; [|by destruct s].
    unfold st64, ent, ld64 in *. destruct (words s !! ((parent + 8 * i) / 8)) as [e|] eqn:E; cbn [default].
    + by apply insert_id.
    + unfold default, id in Ev. by rewrite Z.land_0_l in Ev.
  - destruct (alloc_frame (pool s)) as [f q]. cbn [words pool].
    by rewrite Z.lor_0_r.
Qed.

Lemma big_leaf a : 0 <= a < 2 ^ 48 → a mod 0x200000 = 0 →
  let leaf := a .| PAGE_PRESENT .| PAGE_WRITABLE .| PAGE_HUGE in
  e_valid leaf = true ∧ e_table leaf = false ∧ e_addr leaf = a.
Proof.
  intros Ha Hm leaf. cbn [e_valid e_table e_addr x86_format]. assert (leaf = (a / PAGE * PAGE) .| 0x83) as ->.
  { unfold leaf, PAGE. rewrite <- !Z.lor_assoc. change (PAGE_PRESENT .| (PAGE_WRITABLE .| PAGE_HUGE)) with 0x83. f_equal. div_lia. }
  assert (truth (((a / PAGE * PAGE) .| 0x83) .& VMM_HUGE) = true) as Hh.
  { change VMM_HUGE with 128. by rewrite Z.land_lor_distr_l, land_page_low. }
  rewrite Hh, andb_false_r. split; [|split; [done|]].
  - change VMM_PRESENT with 1. by rewrite Z.land_lor_distr_l, land_page_low.
  - rewrite ADDR_MASK_ones, Z.land_lor_distr_l, land_page_mask by (unfold PAGE; lia || div_lia).
    change (0x83 .& (Z.ones 40 ≪ 12)) with 0. rewrite Z.lor_0_r. unfold PAGE. div_lia.
Qed.

(** One page of the loop. *)
Lemma map_big_page_spec t a s :
  pool_ok (pool s) → tree 3 s t → reach 3 (words s) t a = true → (2 <= size (fa_free (pool s)))%nat →
  0 <= a < 2 ^ 48 → a mod 0x200000 = 0 →
  ∃ new, blocked 3 t a a new s (map_big_page t a s).
Proof.
  intros Hok Htree Hreach Hsz Ha Hm. rewrite (reach_SS 1) in Hreach.
  apply andb_true_iff in Hreach as [Hb%negb_true_iff Hreach]. pose proof (index_va a 3) as I3. pose proof (index_va a 2) as I2.
  destruct (get_or_create_spec 2 0 t (va_index a 3) s Hok Htree I3 Hb) as
    (c & s1 & new1 & E & Hg & Hlen & _ & Htb & Hc & Hoth & Htab & Hcase & _); [lia|].
  pose proof (child_tree 2 t _ s c s1 new1 Hok Htree I3 Hg Hc Htab) as Htree1.
  pose proof (gr_ok _ _ _ _ Hg) as Hok1. pose proof (grows_size _ _ _ _ Hg) as Hsz1.
  assert (reach 2 (words s1) c a = true) as Hreach1 by (rewrite (proj2 (proj2 (child_blocks 1 _ _ _ c a Hcase))); done).
  rewrite (reach_SS 0) in Hreach1. apply andb_true_iff in Hreach1 as [Hb1%negb_true_iff _].
  destruct (get_or_create_spec 1 0 c (va_index a 2) s1 Hok1 Htree1 I2 Hb1) as
    (c2 & s2 & new2 & E2 & Hg2 & Hlen2 & _ & Htb2 & Hc2 & Hoth2 & Htab2 & Hcase2 & _); [lia|].
  pose proof (child_tree 1 c _ s1 c2 s2 new2 Hok1 Htree1 I2 Hg2 Hc2 Htab2) as Htree2.
  pose proof (gr_ok _ _ _ _ Hg2) as Hok2. destruct (big_leaf a Ha Hm) as (Hv & Ht & Hphys).
  pose proof (block_leaf c2 a _ s2 Hok2 Htree2 Hv Ht) as Hblock. rewrite Hphys in Hblock.
  pose proof (block_step 0 c a a s1 c2 s2 new2 _ [] Hok1 Htree1 Hb1 Hg2 Hlen2 Htb2 Hc2 Hoth2 Htab2 Hcase2 Hblock) as Hblock2.
  pose proof (block_step 1 t a a s c s1 new1 _ _ Hok Htree Hb Hg Hlen Htb Hc Hoth Htab Hcase Hblock2) as Hblock3.
  eexists. unfold map_big_page. change ((a ≫ 39) .& 0x1FF) with (va_index a 3). change ((a ≫ 30) .& 0x1FF) with (va_index a 2).
  change ((a ≫ 21) .& 0x1FF) with (va_index a 1).
  rewrite (ensure_table_eq t _ s Hb (proj1 Htree) I3), E, (ensure_table_eq c _ s1 Hb1 (proj1 Htree1) I2), E2.
  change (truth (ent (words s2) c2 (va_index a 1) .& PAGE_PRESENT)) with (e_valid (ent (words s2) c2 (va_index a 1))).
  destruct (e_valid (ent (words s2) c2 (va_index a 1))); exact Hblock3.
Qed.

Definition BIG : Z := 0x200000.

Lemma slot_page n m t w a : same_slot n w a → slot n m t w = slot n m t a ∧ reach n m t w = reach n m t a.
Proof.
  revert t. induction n as [|n IH]; intros t; [done|]. intros [E Hs]%same_slot_S. cbn [slot reach]. rewrite E.
  destruct n as [|n]; [done|]. destruct (IH (e_addr (ent m t (va_index a (S (S n))))) Hs) as [-> ->]. done.
Qed.

Lemma same_slot_page w a : 0 <= w < 2 ^ 48 → 0 <= a < 2 ^ 48 → same_slot 3 w a ↔ w / BIG = a / BIG.
Proof.
  intros Hw Ha. unfold same_slot, BIG. setoid_rewrite va_index_digit. split.
  - intros H. pose proof (H 1%nat ltac:(lia)) as H1. pose proof (H 2%nat ltac:(lia)) as H2. pose proof (H 3%nat ltac:(lia)) as H3.
    change (512 ^ Z.of_nat 1) with 512 in H1. change (512 ^ Z.of_nat 2) with 262144 in H2. change (512 ^ Z.of_nat 3) with 134217728 in H3.
    div_lia.
  - intros E k Hk. assert (∀ x, 0 <= x → x / 4096 / 512 ^ Z.of_nat k = x / BIG / 512 ^ Z.of_nat (k - 1)) as H.
    { intros x Hx. replace (512 ^ Z.of_nat k) with (512 * 512 ^ Z.of_nat (k - 1))
        by (rewrite <- Z.pow_succ_r by lia; f_equal; lia).
      assert (0 < 512 ^ Z.of_nat (k - 1)) by (apply Z.pow_pos_nonneg; lia).
      rewrite <- (Z.div_div _ 512) by lia. f_equal. unfold BIG. by rewrite Z.div_div. }
    unfold BIG in H. by rewrite !H, E by lia.
Qed.

(** The map of [lo .. hi - 1] to itself, where the slots were empty. *)
Record region_mapped t lo hi s s' : Prop := {
  rm_grown : ∃ new, grows (tables 3 (words s) t) new s s' ∧ tables 3 (words s') t ≡ₚ new ++ tables 3 (words s) t ∧
    Z.of_nat (length new) <= 2 * ((hi - lo) / BIG);
  rm_reach w : reach 3 (words s') t w = reach 3 (words s) t w;
  rm_in w : 0 <= w < 2 ^ 48 → lo <= w < hi → e_valid (slot 3 (words s) t w) = false → mmu 3 (words s') t w = Some w;
  rm_keep w : 0 <= w < 2 ^ 48 → ¬ (lo <= w < hi) ∨ e_valid (slot 3 (words s) t w) = true →
    mmu 3 (words s') t w = mmu 3 (words s) t w ∧ slot 3 (words s') t w = slot 3 (words s) t w
}.

Lemma region_tree t lo hi s s' :
  pool_ok (pool s) → tree 3 s t → region_mapped t lo hi s s' →
  pool_ok (pool s') ∧ tree 3 s' t ∧ Z.of_nat (size (fa_free (pool s))) <= Z.of_nat (size (fa_free (pool s'))) + 2 * ((hi - lo) / BIG).
Proof.
  intros Hok (Ha & Hnd & Ho) [(new & Hg & HP & Hlen) _ _ _]. split; [apply (gr_ok _ _ _ _ Hg)|]. split.
  - apply (grown_tree 3 _ new s s' t Hok Hg Ha). by eexists.
  - pose proof (grows_size _ _ _ _ Hg). lia.
Qed.

Lemma region_step t lo a s s1 :
  pool_ok (pool s) → tree 3 s t → region_mapped t lo a s s1 → reach 3 (words s) t a = true →
  2 * ((a - lo) / BIG) + 2 <= Z.of_nat (size (fa_free (pool s))) → 0 <= lo <= a → a < 2 ^ 48 → lo mod BIG = 0 → a mod BIG = 0 →
  region_mapped t lo (a + BIG) s (map_big_page t a s1).
Proof.
  intros Hok Htree Hr Hreach Hsz Hlo Ha Hlm Hm. destruct (region_tree t lo a s s1 Hok Htree Hr) as (Hok1 & Htree1 & Hsz1).
  destruct Hr as [(new1 & Hg1 & HP1 & Hlen1) Hreach1 Hin1 Hkeep1].
  destruct (map_big_page_spec t a s1 Hok1 Htree1) as (new2 & [Hg2 HP2 Hlen2 Hhere Hkeep Hreach2]);
    [by rewrite Hreach1|lia|lia|exact Hm|].
  assert (slot 3 (words s1) t a = slot 3 (words s) t a) as Hslot by (apply Hkeep1; [lia|left; lia]).
  assert (∀ w, 0 <= w < 2 ^ 48 → same_slot 3 w a → a <= w < a + BIG ∧ a + w mod BIG = w ∧ slot 3 (words s) t w = slot 3 (words s) t a) as Hsame.
  { intros w Hw Hs. pose proof Hs as E%same_slot_page; [|lia..]. unfold BIG in *. split; [div_lia|]. split; [div_lia|].
    by apply slot_page. }
  assert (∀ w, 0 <= w < 2 ^ 48 → same_slot 3 w a ∨ ¬ same_slot 3 w a) as Hdec.
  { intros w Hw. rewrite same_slot_page by lia. destruct (decide (w / BIG = a / BIG)); auto. }
  assert (∀ w, 0 <= w < 2 ^ 48 → ¬ same_slot 3 w a → ¬ (a <= w < a + BIG)) as Hother.
  { intros w Hw Hs H. apply Hs, same_slot_page; [done|lia|]. unfold BIG in *. div_lia. }
  split.
  - exists (new2 ++ new1). split; [|split].
    + apply (grows_trans _ _ new1 new2 s s1 _ Hg1 Hg2). intros u. by rewrite HP1.
    + rewrite HP2, HP1. by rewrite (assoc_L (++)).
    + rewrite length_app. unfold BIG in *. div_lia.
  - intros w. by rewrite Hreach2, Hreach1.
  - intros w Hw Hwin Hv. destruct (Hdec w Hw) as [Hs|Hs].
    + destruct (Hsame w Hw Hs) as (_ & E & Es). rewrite Hhere; [by f_equal|done|]. by rewrite Hslot, <- Es.
    + pose proof (Hother w Hw Hs). destruct (Hkeep w (or_introl Hs)) as [-> _]. apply Hin1; [done|lia|done].
  - intros w Hw Hcase. destruct (Hdec w Hw) as [Hs|Hs].
    + destruct (Hsame w Hw Hs) as (Hin & _ & Es). assert (e_valid (slot 3 (words s) t w) = true) as Hv by (destruct Hcase; [lia|done]).
      destruct (Hkeep w) as [-> ->]; [right; by rewrite Hslot, <- Es|]. apply Hkeep1; [done|by right].
    + pose proof (Hother w Hw Hs). destruct (Hkeep w (or_introl Hs)) as [-> ->]. apply Hkeep1; [done|].
      destruct Hcase as [Hc|Hc]; [left; unfold BIG in *; lia|by right].
Qed.

Lemma region_loop t lo k s :
  pool_ok (pool s) → tree 3 s t → 0 <= lo → lo mod BIG = 0 → 0 <= k → lo + BIG * k <= 2 ^ 48 →
  (∀ w, lo <= w < lo + BIG * k → reach 3 (words s) t w = true) → 2 * k <= Z.of_nat (size (fa_free (pool s))) →
  region_mapped t lo (lo + BIG * k) s (for_up 0 k (λ j, map_big_page t (lo + 0x200000 * j)) s).
Proof.
  intros Hok Htree Hlo Hm Hk Htop Hreach Hsz. unfold BIG in *.
  assert (0 <= Z.max 0 k ∧ region_mapped t lo (lo + 0x200000 * Z.max 0 k) s
    (for_up 0 k (λ j, map_big_page t (lo + 0x200000 * j)) s)) as [_ H]; [|by rewrite Z.max_r in H by lia].
  apply (for_up_inv (λ j s', 0 <= j ∧ region_mapped t lo (lo + 0x200000 * j) s s')).
  - split; [lia|]. rewrite Z.mul_0_r, Z.add_0_r. split; [|done|intros; lia|done].
    exists []. split; [by apply grows_refl; [| |apply outside_refl]|]. split; [done|]. cbn. unfold BIG. div_lia.
  - intros j s' Hj [Hj0 IH]. split; [lia|]. replace (lo + 0x200000 * (j + 1)) with (lo + 0x200000 * j + BIG) by (unfold BIG; lia).
    apply region_step; try done; [apply Hreach; lia| |lia|lia|unfold BIG; div_lia]. unfold BIG.
    replace (lo + 2097152 * j - lo) with (j * 2097152) by lia. rewrite Z.div_mul by lia. lia.
Qed.

(** An address whose slot is empty is not mapped. *)
Lemma empty_slot n m t w : reach (S n) m t w = true → e_valid (slot (S n) m t w) = false → mmu (S n) m t w = None.
Proof.
  revert t. induction n as [|n IH]; intros t.
  - cbn [slot mmu]. intros _ Hv. by rewrite Hv.
  - rewrite (reach_SS n), (slot_SS n), (mmu_S (S n)). set (e := ent m t _).
    intros [Hb%negb_true_iff Hr]%andb_true_iff. destruct (e_valid e) eqn:Hv; [|done]. cbn [negb].
    rewrite (e_valid_cases e Hv Hb). by apply IH.
Qed.
End proofs.

Section framebuffer.
Context {St : Type} `{OPS : !FrameOps St, FL : !FrameLaws St}.
Implicit Types (s : vmm St).

Definition fb_first (info : fb_info) : Z := fb_addr info / BIG * BIG.
Definition fb_pages (info : fb_info) : Z := (fb_addr info + fb_pitch info * fb_h info + BIG - 1) / BIG - fb_addr info / BIG.

(** What the boot loader has to hand over: a framebuffer in the address space of the
    processor, where the kernel has no larger page and nothing else, and memory for the
    tables. *)
Record mappable s (info : fb_info) : Prop := {
  ma_present : fb_present info = true;
  ma_addr : 0 <= fb_addr info;
  ma_pitch : in_u 32 (fb_pitch info);
  ma_height : in_u 32 (fb_h info);
  ma_top : fb_first info + BIG * fb_pages info <= 2 ^ 48;
  ma_reach w : fb_first info <= w < fb_first info + BIG * fb_pages info → reach 3 (v_mem s) (v_active s) w = true;
  ma_free w : fb_first info <= w < fb_first info + BIG * fb_pages info →
    e_valid (slot 3 (v_mem s) (v_active s) w) = true → mmu 3 (v_mem s) (v_active s) w = Some w;
  ma_frames : 2 * fb_pages info <= Z.of_nat (size (fa_free (frames (v_heap s))))
}.

Lemma fb_init_region s AL x info :
  spaces_rep 3 s AL → as_root s x = Some (v_active s) → mappable s info →
  ∃ p, fb_init info s = (Some info, with_pm s p) ∧
    region_mapped (v_active s) (fb_first info) (fb_first info + BIG * fb_pages info) (v_pm s) p.
Proof.
  intros Hs Hx [Hp Ha Hpi Hh Htop Hreach _ Hsz]. unfold in_u in *.
  assert (tree 3 (v_pm s) (v_active s)) as Htree by exact (sp_tree _ _ _ Hs x _ Hx).
  assert (0 <= fb_pitch info * fb_h info < 2 ^ 64) as Hprod by nia.
  assert (fb_addr info + fb_pitch info * fb_h info <= 2 ^ 48) as Hend by (unfold fb_first, fb_pages, BIG in *; div_lia).
  assert (get_pml4 (v_active s) = v_active s) as Hroot.
  { pose proof Htree as (Hal & _ & Ho). destruct (Ho (v_active s) (tables_root _ _ _)) as (_ & Hm & _).
    destruct (sp_pool _ _ _ Hs) as [Hw Hb]. pose proof (fa_bounds _ _ Hw Hm) as [H0 _]. pose proof (Hb _ Hm) as H1.
    change e_frames with (2 ^ 40) in H1. unfold get_pml4. change PAGE_ADDR_MASK with (Z.ones 40 ≪ 12).
    rewrite (aligned_frame _ Hal). apply land_page_mask; lia. }
  assert (ALIGN_DOWN (fb_addr info) 0x200000 = fb_first info) as Hstart.
  { change 0x200000 with (2 ^ 21). rewrite ALIGN_DOWN_pow2 by lia. change (2 ^ 21) with BIG. unfold fb_first. lia. }
  assert (ALIGN_UP 64 (fb_addr info + fb_pitch info * fb_h info) 0x200000 = fb_first info + fb_pages info * BIG) as Hup.
  { change 0x200000 with (2 ^ 21). rewrite ALIGN_UP_pow2 by lia. change (2 ^ 21) with BIG. unfold fb_first, fb_pages. lia. }
  eexists. unfold fb_init, paging_identity_map. rewrite Hp, Hroot. cbn [negb].
  rewrite (u64_id (fb_pitch info * fb_h info)), (u64_id (fb_addr info + _)) by (unfold in_u; lia).
  rewrite Hstart, Hup. replace (fb_first info + fb_pages info * BIG - fb_first info) with (fb_pages info * BIG) by lia.
  change 0x200000 with BIG. rewrite Z.div_mul by done. split; [done|].
  apply region_loop; try done; [apply (sp_pool _ _ _ Hs)|unfold fb_first, fb_pages, BIG; div_lia..].
Qed.

(** With or without a framebuffer: the invariant, and the frames that are managed. *)
Lemma fb_init_rep s AL x info :
  spaces_rep 3 s AL → as_root s x = Some (v_active s) → (fb_present info = true → mappable s info) →
  ∃ s', fb_init info s = (Some info, s') ∧ spaces_rep 3 s' AL ∧
    fa_managed (frames (v_heap s')) = fa_managed (frames (v_heap s)).
Proof.
  intros Hs Hx Hma. destruct (fb_present info) eqn:Hp.
  - destruct (fb_init_region s AL x info Hs Hx (Hma eq_refl)) as (p & -> & [(new & Hg & HP & _) _ _ _]).
    eexists. split; [done|]. split; [by eapply grown_rep|]. apply (gr_managed _ _ _ _ Hg).
  - exists s. unfold fb_init. rewrite Hp. by split.
Qed.

(** C23: fb_init makes the framebuffer usable and breaks nothing.  Every byte of it is mapped
    at its own address, in the live tables; every address that was mapped before keeps its
    translation; the other spaces do not change, and the invariant of the address spaces
    holds with the new tables. *)
Theorem fb_init_maps_framebuffer s AL x info :
  spaces_rep 3 s AL → as_root s x = Some (v_active s) → mappable s info →
  let '(fb, s') := fb_init info s in
  fb = Some info ∧ spaces_rep 3 s' AL ∧ v_active s' = v_active s ∧
  (∀ a, fb_addr info <= a < fb_addr info + fb_pitch info * fb_h info → mmu 3 (v_mem s') (v_active s') a = Some a) ∧
  (∀ w p, 0 <= w < 2 ^ 48 → mmu 3 (v_mem s) (v_active s) w = Some p → mmu 3 (v_mem s') (v_active s') w = Some p) ∧
  (∀ y r w, y ≠ x → as_root s y = Some r → as_root s' y = Some r ∧ mmu 3 (v_mem s') r w = mmu 3 (v_mem s) r w).
Proof.
  intros Hs Hx Hma. destruct (fb_init_region s AL x info Hs Hx Hma) as (p & -> & [(new & Hg & HP & _) _ Hin Hkeep]).
  destruct Hma as [_ Ha Hpi Hh Htop Hreach Hfree _]. unfold in_u in *.
  assert (∀ w, 0 <= w < 2 ^ 48 → mmu 3 (v_mem s) (v_active s) w ≠ None →
    mmu 3 (words p) (v_active s) w = mmu 3 (v_mem s) (v_active s) w) as Hk.
  { intros w Hw Hne. apply Hkeep; [done|]. destruct (e_valid (slot 3 (words (v_pm s)) (v_active s) w)) eqn:Ev; [by right|left].
    intros Hr. apply Hne, (empty_slot 2); [by apply Hreach|exact Ev]. }
  split; [done|]. split; [by eapply grown_rep|]. split; [done|]. split; [|split].
  - intros a Haa. assert (0 <= fb_pitch info * fb_h info) as Hprod by nia.
    assert (fb_first info <= a < fb_first info + BIG * fb_pages info) as Hr by (unfold fb_first, fb_pages, BIG in *; div_lia).
    destruct (e_valid (slot 3 (words (v_pm s)) (v_active s) a)) eqn:Ev; [|by apply Hin; [lia| |]].
    pose proof (Hfree a Hr Ev) as E. cbn [v_mem with_pm v_active]. rewrite Hk, E; [done|lia|congruence].
  - intros w q Hw E. cbn [v_mem with_pm v_active]. by rewrite Hk, E by (done || congruence).
  - intros y r w Hne Hy. rewrite as_root_with_pm. split; [done|]. apply (same_mmu x86_laws).
    exact (other_space _ _ _ _ _ _ _ _ _ Hs Hx Hy (not_eq_sym Hne) Hg).
Qed.
End framebuffer.

(** ** Witness *)

(** The machine of Boot.v with the framebuffer its boot loader announces: 800 by 600, at
    0xFD000000. *)
Lemma example_mappable st s : booted_x86 = Some (st, s) → mappable s (framebuffer_info st) ∧ framebuffer_info st = mk_fb true 0xFD000000 3200 800 600.
Proof.
  intros E.
  assert (match booted_x86 with
    | Some (st, s) => reach 3 (v_mem s) (v_active s) 0xFD000000 && negb (e_valid (slot 3 (v_mem s) (v_active s) 0xFD000000)) &&
        (2 <=? Z.of_nat (size (fa_free (frames (v_heap s)))))
    | None => false end = true) as H by (vm_compute; reflexivity).
  assert (fst <$> booted_x86 = Some (mk_mm 0x19FC00 (mk_fb true 0xFD000000 3200 800 600) 32 [mk_region 0x100000 0x100000])) as Hst
    by (vm_compute; reflexivity).
  rewrite E in H, Hst. injection Hst as ->. apply andb_true_iff in H as [[H1 H2%negb_true_iff]%andb_true_iff H3%Z.leb_le].
  assert (∀ w, 0xFD000000 <= w < 0xFD000000 + BIG → same_slot 3 w 0xFD000000) as Hs.
  { intros w Hw. apply same_slot_page; unfold BIG in *; [lia|lia|]. div_lia. }
  clear E. split; [|reflexivity].
  split; [reflexivity|discriminate|split; [discriminate|reflexivity]|split; [discriminate|reflexivity]|vm_compute; discriminate| | |exact H3].
  - intros w Hw. by destruct (slot_page 3 (v_mem s) (v_active s) w 0xFD000000 (Hs w Hw)) as [_ ->].
  - intros w Hw. destruct (slot_page 3 (v_mem s) (v_active s) w 0xFD000000 (Hs w Hw)) as [-> _]. by rewrite H2.
Qed.

Lemma fb_init_maps_framebuffer_witness :
  ∃ st s, booted_x86 = Some (st, s) ∧ let '(fb, s') := fb_init (framebuffer_info st) s in
    mmu 3 (v_mem s') (v_active s') (0xFD000000 + 3200 * 599) = Some (0xFD000000 + 3200 * 599).
Proof.
  destruct booted_x86_rep as (st & s & E & Hs & _ & Hk & Ha). exists st, s. split; [exact E|].
  destruct (example_mappable st s E) as [Hm Hi].
  assert (as_root s kernel_space = Some (v_active s)) as Hx by (cbn; rewrite Hk, Ha; reflexivity).
  pose proof (fb_init_maps_framebuffer s [] kernel_space (framebuffer_info st) Hs Hx Hm) as H.
  destruct (fb_init (framebuffer_info st) s) as [fb s']. destruct H as (_ & _ & _ & H & _). apply H. rewrite Hi. cbn. lia.
Defined.
