(* ===== verification/FwCfg.v ===== *)
(** * The framebuffer on aarch64: fw_cfg and ramfb in drivers/framebuffer.c

    The screen of the virt machine is memory the kernel allocates; it tells the device
    where through fw_cfg, whose numbers are big-endian.  The drawing half of the file is in
    Framebuffer.v.  What fw_cfg does is the class [FwCfg], after its specification. *)

From S2P Require Import Prelude.
From S2P Require Import FrameAlloc.
From S2P Require Import Pmm.
From S2P Require Import Framebuffer.
From S2P Require Import Mmio.

Definition FW_CFG_BASE : Z := 0x09020000.
Definition FW_CFG_DATA : Z := FW_CFG_BASE + 0x00.
Definition FW_CFG_SELECTOR : Z := FW_CFG_BASE + 0x08.
Definition FW_CFG_DMA_ADDR : Z := FW_CFG_BASE + 0x10.
Definition FW_CFG_FILE_DIR : Z := 0x19.
Definition FW_CFG_DMA_CTL_ERROR : Z := 1 ≪ 0.
Definition FW_CFG_DMA_CTL_SELECT : Z := 1 ≪ 3.
Definition FW_CFG_DMA_CTL_WRITE : Z := 1 ≪ 4.
Definition RAMFB_FORMAT_XRGB8888 : Z := 0x34325258.
Definition RAMFB_WIDTH : Z := 800.
Definition RAMFB_HEIGHT : Z := 600.
Definition RAMFB_BPP : Z := 4.

Definition bswap16 (v : Z) : Z := u16 ((v ≪ 8) .| (v ≫ 8)).
Definition bswap32 (v : Z) : Z :=
  u32 ((v .& 0xFF) ≪ 24) .| u32 ((v .& 0xFF00) ≪ 8) .| ((v ≫ 8) .& 0xFF00) .| ((v ≫ 24) .& 0xFF).
Definition bswap64 (v : Z) : Z := u64 (bswap32 (u32 v) ≪ 32) .| bswap32 (u32 (v ≫ 32)).

(** Strings are the bytes to the end of the object; [None] is a read past it. *)
Fixpoint str_eq (a b : list Z) : option bool :=
  match a, b with
  | x :: a', y :: b' => if truth x && (x =? y) then str_eq a' b' else Some (x =? y)
  | _, _ => None
  end.

Section code.
Context {D : Type} `{!Mmio D}.

Definition fw_cfg_select (key : Z) (d : D) : D := mmio_store 16 FW_CFG_SELECTOR (bswap16 key) d.
Definition fw_cfg_read_byte (d : D) : Z * D := mmio_load 8 FW_CFG_DATA d.

(** [count = (count << 8) | byte], four times. *)
Definition read_count (d : D) : Z * D :=
  for_up 0 4 (λ _ '(count, d), let '(v, d) := fw_cfg_read_byte d in (u32 (count ≪ 8) .| v, d)) (0, d).
Definition read_entry (d : D) : list Z * D :=
  for_up 0 64 (λ _ '(entry, d), let '(v, d) := fw_cfg_read_byte d in (entry ++ [v], d)) ([], d).

(** [name] is the string with its NUL. *)
Definition find_body (name : list Z) (d : D) : ctl D (option Z * D) :=
  let '(entry, d) := read_entry d in
  let select := u16 ((zget entry 4 ≪ 8) .| zget entry 5) in
  match str_eq (drop 8 entry) name with
  | None => Return (None, d)
  | Some true => Return (Some select, d)
  | Some false => Continue d
  end.
Definition fw_cfg_find_file (name : list Z) (d : D) : option Z * D :=
  let d := fw_cfg_select FW_CFG_FILE_DIR d in
  let '(count, d) := read_count d in
  match for_ret 0 count (λ _, find_body name) d with
  | Return r => r
  | Continue d => (Some 0, d)
  end.

(** [access] is the address of the static structure.  [None] when the device did not
    finish within [fuel] reads. *)
Definition dma_busy (v : Z) : bool :=
  let ctl := bswap32 v in negb (ctl =? 0) && negb (truth (ctl .& FW_CFG_DMA_CTL_ERROR)).
Definition fw_cfg_dma_write (fuel : nat) (access selector data length : Z) (d : D) : option (bool * D) :=
  let d := mmio_store 32 access (bswap32 (u32 (selector ≪ 16) .| FW_CFG_DMA_CTL_SELECT .| FW_CFG_DMA_CTL_WRITE)) d in
  let d := mmio_store 32 (access + 4) (bswap32 length) d in
  let d := mmio_store 64 (access + 8) (bswap64 data) d in
  let d := mmio_store 64 FW_CFG_DMA_ADDR (bswap64 access) d in
  '(v, d) ← spin fuel 32 access dma_busy d;
  Some (bswap32 v =? 0, d).

(** The initialiser of the local [cfg], at address [cfg]. *)
Definition store_cfg (cfg buf : Z) (d : D) : D :=
  let d := mmio_store 64 cfg (bswap64 buf) d in
  let d := mmio_store 32 (cfg + 8) (bswap32 RAMFB_FORMAT_XRGB8888) d in
  let d := mmio_store 32 (cfg + 12) 0 d in
  let d := mmio_store 32 (cfg + 16) (bswap32 RAMFB_WIDTH) d in
  let d := mmio_store 32 (cfg + 20) (bswap32 RAMFB_HEIGHT) d in
  mmio_store 32 (cfg + 24) (bswap32 (RAMFB_WIDTH * RAMFB_BPP)) d.
Definition sizeof_cfg : Z := 28.

Definition fb_init {St} `{!FrameOps St} (fuel : nat) (access cfg : Z) (fb : fb_info) (p : St) (d : D) :
    option (fb_info * St * D) :=
  let '(sel, d) := fw_cfg_find_file (bytes "etc/ramfb" ++ [0]) d in
  sel ← sel;
  if sel =? 0 then Some (fb, p, d) else
  let fb_bytes := RAMFB_WIDTH * RAMFB_HEIGHT * RAMFB_BPP in
  let frames := (fb_bytes + PMM_FRAME_SIZE - 1) / PMM_FRAME_SIZE in
  let '(buf, p) := alloc_frames frames p in
  if negb (truth buf) then Some (fb, p, d) else
  let d := store_cfg cfg buf d in
  '(ok, d) ← fw_cfg_dma_write fuel access sel cfg sizeof_cfg d;
  if negb (ok : bool) then Some (fb, p, d) else
  Some (mk_fb true buf (RAMFB_WIDTH * RAMFB_BPP) RAMFB_WIDTH RAMFB_HEIGHT, p, d).
End code.

(** ** Big-endian numbers *)

(** The [n] bytes at [a], most significant first. *)
Fixpoint be_peek (n : nat) (a : Z) (m : bytemem) : Z :=
  match n with O => 0 | S n => m a * 256 ^ Z.of_nat n + be_peek n (a + 1) m end.
(** The number a big-endian register of [n] bytes takes the bytes of a store of [v] for, and
    what is in memory after a load of [v]. *)
Definition wire (n : nat) (v : Z) : Z := be_peek n 0 (poke n 0 v (λ _, 0)).
(** The bytes of a number, most significant first. *)
Definition be (n : nat) (v : Z) : list Z := reverse (le n v).

Lemma bswap16_digits v : in_u 16 v → bswap16 v = v mod 256 * 256 + v / 256.
Proof.
  intros Hv. unfold bswap16, in_u, u16 in *. rewrite Z.shiftr_div_pow2 by lia.
  change (2 ^ 8) with 256. rewrite lor_shiftl_low by (cbn; div_lia). change (2 ^ 8) with 256. div_lia.
Qed.

Lemma land_FF x : x .& 0xFF = x mod 256.
Proof. change 0xFF with (Z.ones 8). by rewrite Z.land_ones by lia. Qed.

Lemma land_FF00 x : x .& 0xFF00 = (x / 256 mod 256) ≪ 8.
Proof.
  change 256 with (2 ^ 8). rewrite <- Z.land_ones, <- Z.shiftr_div_pow2 by lia. change 0xFF00 with (Z.ones 8 ≪ 8).
  apply Z.bits_inj'. intros n Hn. rewrite Z.land_spec, !Z.shiftl_spec by lia.
  destruct (Z.lt_ge_cases n 8); [by rewrite !(Z.testbit_neg_r _ (n - 8)), andb_false_r by lia|].
  rewrite Z.land_spec, Z.shiftr_spec by lia. do 2 f_equal. lia.
Qed.

(** The four bytes change places. *)
Lemma bswap32_digits v : in_u 32 v →
  bswap32 v = v mod 256 * 2 ^ 24 + v / 256 mod 256 * 2 ^ 16 + v / 2 ^ 16 mod 256 * 2 ^ 8 + v / 2 ^ 24.
Proof.
  unfold in_u. intros Hv. unfold bswap32. rewrite !land_FF, !land_FF00, !Z.shiftr_div_pow2, Z.shiftl_shiftl by lia.
  rewrite (u32_id (_ ≪ 24)), (u32_id (_ ≪ (8 + 8))) by (unfold in_u; rewrite Z.shiftl_mul_pow2 by lia; div_lia).
  rewrite <- !Z.lor_assoc. change (2 ^ 8) with 256 at 1. rewrite Z.div_div by lia. change (256 * 256) with (2 ^ 16).
  rewrite (Z.mod_small (v / 2 ^ 24)) by div_lia.
  rewrite (lor_shiftl_low _ (v / 2 ^ 24) 8) by (lia || div_lia). rewrite (lor_shiftl_low _ _ (8 + 8)) by (lia || div_lia).
  rewrite lor_shiftl_low by (lia || div_lia). change (2 ^ (8 + 8)) with (2 ^ 16). lia.
Qed.

Lemma bswap32_range v : in_u 32 v → in_u 32 (bswap32 v).
Proof. intros Hv. rewrite bswap32_digits by done. unfold in_u in *. div_lia. Qed.

Lemma bswap64_digits v : in_u 64 v → bswap64 v = bswap32 (v mod 2 ^ 32) * 2 ^ 32 + bswap32 (v / 2 ^ 32).
Proof.
  unfold in_u. intros Hv. unfold bswap64. change (u32 v) with (v mod 2 ^ 32). rewrite Z.shiftr_div_pow2 by lia.
  rewrite (u32_id (v / 2 ^ 32)) by (unfold in_u; div_lia).
  assert (in_u 32 (bswap32 (v mod 2 ^ 32)) ∧ in_u 32 (bswap32 (v / 2 ^ 32))) as [H1 H2]
    by (split; apply bswap32_range; unfold in_u; div_lia). unfold in_u in *.
  rewrite u64_id by (unfold in_u; rewrite Z.shiftl_mul_pow2; lia). by rewrite lor_shiftl_low.
Qed.

Definition byte (c : Z) : Prop := 0 <= c < 256.

Lemma digits4 c0 c1 c2 c3 : byte c0 → byte c1 → byte c2 → byte c3 →
  let x := c0 + 256 * (c1 + 256 * (c2 + 256 * c3)) in
  x mod 256 = c0 ∧ x / 256 mod 256 = c1 ∧ x / 2 ^ 16 mod 256 = c2 ∧ x / 2 ^ 24 = c3.
Proof.
  intros H0 H1 H2 H3 x. unfold byte in *. change (2 ^ 16) with (256 * 256). change (2 ^ 24) with (256 * (256 * 256)).
  assert (x / 256 = c1 + 256 * (c2 + 256 * c3)) as E1 by (unfold x; div_lia).
  assert ((c1 + 256 * (c2 + 256 * c3)) / 256 = c2 + 256 * c3) as E2 by div_lia.
  assert ((c2 + 256 * c3) / 256 = c3) as E3 by div_lia.
  rewrite <- !Z.div_div, E1, E2, E3 by lia. unfold x. split_and!; div_lia.
Qed.

Lemma undigits4 v : in_u 32 v → ∃ c0 c1 c2 c3, byte c0 ∧ byte c1 ∧ byte c2 ∧ byte c3 ∧ v = c0 + 256 * (c1 + 256 * (c2 + 256 * c3)).
Proof.
  unfold in_u, byte. intros Hv. exists (v mod 256), (v / 256 mod 256), (v / 256 / 256 mod 256), (v / 256 / 256 / 256).
  split_and!; try (by apply Z.mod_pos_bound); div_lia.
Qed.

(** Swapping twice. *)
Lemma bswap32_bytes c0 c1 c2 c3 : byte c0 → byte c1 → byte c2 → byte c3 →
  bswap32 (c0 + 256 * (c1 + 256 * (c2 + 256 * c3))) = c3 + 256 * (c2 + 256 * (c1 + 256 * c0)).
Proof.
  intros H0 H1 H2 H3. destruct (digits4 c0 c1 c2 c3 H0 H1 H2 H3) as (E0 & E1 & E2 & E3). unfold byte in *.
  rewrite bswap32_digits by (unfold in_u; lia). rewrite E0, E1, E2, E3. lia.
Qed.

Lemma bswap32_involutive v : in_u 32 v → bswap32 (bswap32 v) = v.
Proof. intros (c0 & c1 & c2 & c3 & ? & ? & ? & ? & ->)%undigits4. by rewrite !bswap32_bytes. Qed.

Lemma poke_byte n a v m i : 0 <= i < Z.of_nat n → poke n a v m (a + i) = v / 2 ^ (8 * i) mod 2 ^ 8.
Proof.
  intros Hi. unfold poke. destruct (Z.leb_spec a (a + i)), (Z.ltb_spec (a + i) (a + Z.of_nat n)); try lia. cbn [andb].
  do 3 f_equal. lia.
Qed.

(** What the device reads of a field the driver stored. *)
Lemma be_peek4 a v m : in_u 32 v → (∀ i, 0 <= i < 4 → m (a + i) = bswap32 v / 2 ^ (8 * i) mod 2 ^ 8) → be_peek 4 a m = v.
Proof.
  intros (c0 & c1 & c2 & c3 & ? & ? & ? & ? & ->)%undigits4. rewrite bswap32_bytes by done. intros Hm.
  destruct (digits4 c3 c2 c1 c0) as (E0 & E1 & E2 & E3); try done.
  pose proof (Hm 0 ltac:(lia)) as M0. pose proof (Hm 1 ltac:(lia)) as M1. pose proof (Hm 2 ltac:(lia)) as M2. pose proof (Hm 3 ltac:(lia)) as M3.
  change (8 * 0) with 0 in M0. change (8 * 1) with 8 in M1. change (8 * 2) with 16 in M2. change (8 * 3) with 24 in M3.
  rewrite Z.add_0_r, Z.div_1_r in M0. change (2 ^ 8) with 256 in M0, M1, M2, M3. rewrite E0 in M0. rewrite E1 in M1. rewrite E2 in M2. rewrite E3 in M3.
  cbn [be_peek]. rewrite <- !Z.add_assoc. change (1 + 1) with 2. change (1 + 2) with 3. rewrite M0, M1, M2, M3.
  unfold byte in *. rewrite (Z.mod_small c0) by lia. change (256 ^ Z.of_nat 3) with 16777216. change (256 ^ Z.of_nat 2) with 65536.
  change (256 ^ Z.of_nat 1) with 256. change (256 ^ Z.of_nat 0) with 1. lia.
Qed.

Lemma be_peek8 a v m : in_u 64 v → (∀ i, 0 <= i < 8 → m (a + i) = bswap64 v / 2 ^ (8 * i) mod 2 ^ 8) → be_peek 8 a m = v.
Proof.
  intros Hv Hm. rewrite bswap64_digits in Hm by done. unfold in_u in Hv.
  assert (in_u 32 (v mod 2 ^ 32) ∧ in_u 32 (v / 2 ^ 32)) as [Hlo Hhi] by (split; unfold in_u; div_lia).
  assert (be_peek 8 a m = be_peek 4 a m * 2 ^ 32 + be_peek 4 (a + 4) m) as ->.
  { replace (a + 4) with (a + 1 + 1 + 1 + 1) by lia. cbn [be_peek].
    change (256 ^ Z.of_nat 7) with (256 ^ Z.of_nat 3 * 2 ^ 32). change (256 ^ Z.of_nat 6) with (256 ^ Z.of_nat 2 * 2 ^ 32).
    change (256 ^ Z.of_nat 5) with (256 ^ Z.of_nat 1 * 2 ^ 32). change (256 ^ Z.of_nat 4) with (256 ^ Z.of_nat 0 * 2 ^ 32). ring. }
  pose proof (bswap32_range _ Hlo) as Rlo. pose proof (bswap32_range _ Hhi) as Rhi. unfold in_u in Rlo, Rhi.
  rewrite (be_peek4 a (v / 2 ^ 32)), (be_peek4 (a + 4) (v mod 2 ^ 32)); [div_lia|done| |done|].
  - intros i Hi. rewrite <- Z.add_assoc, Hm by lia. replace (8 * (4 + i)) with (32 + 8 * i) by lia.
    rewrite Z.pow_add_r, <- Z.div_div, Z.div_add_l by (lia || apply Z.pow_nonzero || apply Z.pow_pos_nonneg; lia).
    by rewrite (Z.div_small (bswap32 (v / 2 ^ 32))), Z.add_0_r by lia.
  - intros i Hi. rewrite Hm by lia. set (x := bswap32 (v / 2 ^ 32)). set (y := bswap32 (v mod 2 ^ 32)).
    replace (y * 2 ^ 32 + x) with (x + y * 2 ^ (32 - 8 * i - 8) * 2 ^ 8 * 2 ^ (8 * i))
      by (rewrite <- !Z.mul_assoc, <- !Z.pow_add_r by lia; replace (32 - 8 * i - 8 + (8 + 8 * i)) with 32 by lia; lia).
    by rewrite Z.div_add, Z.mod_add by (lia || apply Z.pow_nonzero; lia).
Qed.

(** What the driver's swapped numbers are on the wire. *)
Lemma wire16 v : in_u 16 v → wire 2 (bswap16 v) = v.
Proof.
  intros Hv. unfold wire. cbn [be_peek]. rewrite (poke_byte 2 0 _ _ 0), (poke_byte 2 0 _ _ 1) by lia.
  rewrite bswap16_digits by done. change (2 ^ (8 * 0)) with 1. change (2 ^ (8 * 1)) with 256. change (2 ^ 8) with 256.
  change (256 ^ Z.of_nat 1) with 256. change (256 ^ Z.of_nat 0) with 1. unfold in_u in Hv. change (2 ^ 16) with 65536 in Hv. div_lia.
Qed.

Lemma wire64 v : in_u 64 v → wire 8 (bswap64 v) = v.
Proof. intros Hv. apply be_peek8; [done|]. intros i Hi. by apply poke_byte. Qed.

Lemma wire32 v : bswap32 v = wire 4 v.
Proof.
  assert (bswap32 v = bswap32 (v mod 2 ^ 32)) as ->.
  { unfold bswap32. rewrite !land_FF, !land_FF00, !Z.shiftr_div_pow2 by lia.
    assert (v mod 2 ^ 32 mod 256 = v mod 256 ∧ v mod 2 ^ 32 / 256 mod 256 = v / 256 mod 256 ∧
      v mod 2 ^ 32 / 2 ^ 8 / 256 mod 256 = v / 2 ^ 8 / 256 mod 256 ∧ v mod 2 ^ 32 / 2 ^ 24 mod 256 = v / 2 ^ 24 mod 256) as (-> & -> & -> & ->)
      by (split_and!; div_lia). done. }
  assert (in_u 32 (v mod 2 ^ 32)) as Hu by (unfold in_u; div_lia). pose proof (bswap32_range _ Hu) as Hr.
  symmetry. unfold wire. apply be_peek4; [done|]. intros i Hi. rewrite poke_byte, bswap32_involutive by (done || lia).
  assert (i = 0 ∨ i = 1 ∨ i = 2 ∨ i = 3) as [->|[->|[->| ->]]] by lia; cbn [Z.mul Pos.mul]; div_lia.
Qed.

(** ** Names *)

Definition c_name (s : list Z) : Prop := Forall (λ c, c ≠ 0) s.

Lemma str_eq_names s n r r' : c_name s → c_name n → str_eq (s ++ 0 :: r) (n ++ 0 :: r') = Some (bool_decide (s = n)).
Proof.
  intros Hs. revert n. induction Hs as [|x s Hx Hs IH]; intros [|y n] Hn; cbn [app str_eq].
  - done.
  - apply Forall_cons in Hn as [Hy _]. rewrite (proj2 (Z.eqb_neq 0 y)) by done. done.
  - rewrite (proj2 (Z.eqb_neq x 0)) by done. by rewrite andb_false_r.
  - apply Forall_cons in Hn as [Hy Hn]. destruct (Z.eqb_spec x y) as [->|Hne].
    + rewrite (proj2 (truth_nonzero y) Hy). cbn [andb]. rewrite IH by done. f_equal. apply bool_decide_ext. split; [by intros ->|by intros [=]].
    + rewrite andb_false_r. f_equal. symmetry. apply bool_decide_eq_false. by intros [=].
Qed.

(** ** The device *)

(** A file of the directory: its size, its selector and its name. *)
Record file := mk_file { f_size : Z; f_select : Z; f_name : list Z }.
Definition file_ok (f : file) : Prop := in_u 16 (f_select f) ∧ c_name (f_name f) ∧ (length (f_name f) <= 55)%nat.

Definition entry_bytes (f : file) : list Z :=
  be 4 (f_size f) ++ be 2 (f_select f) ++ be 2 0 ++ f_name f ++ replicate (56 - length (f_name f)) 0.
Definition dir_bytes (files : list file) : list Z :=
  be 4 (Z.of_nat (length files)) ++ (files ≫= entry_bytes).

Definition lookup_file (name : list Z) (files : list file) : option Z :=
  f_select <$> head (filter (λ f, f_name f = name) files).

(** The control word read as [c], of a transfer that goes on. *)
Definition in_transfer (c : Z) : bool := negb (wire 4 c =? 0) && negb (truth (wire 4 c .& 1)).

(** The items behind the selectors, the bytes the data register still has to give, and
    which items may be written with how many bytes. *)
Class FwCfg (D : Type) `{!Mmio D, !Ram D} := {
  fw_item : D → Z → list Z;
  fw_cursor : D → list Z;
  fw_accepts : Z → Z → bool;
  fw_patience : nat;
  fw_select_law v d : quiet d →
    let d' := mmio_store 16 FW_CFG_SELECTOR v d in
    quiet d' ∧ (∀ k, fw_item d' k = fw_item d k) ∧ (∀ b, ram d' b = ram d b) ∧ fw_cursor d' = fw_item d (wire 2 v);
  fw_read_law d : quiet d →
    let '(v, d') := mmio_load 8 FW_CFG_DATA d in
    quiet d' ∧ (∀ k, fw_item d' k = fw_item d k) ∧ (∀ b, ram d' b = ram d b) ∧
    v = default 0 (head (fw_cursor d)) ∧ fw_cursor d' = tail (fw_cursor d);
  fw_ram_store n a v d k : quiet d → (∀ b, a <= b < a + Z.of_nat n → is_ram b) →
    fw_item (mmio_store (8 * Z.of_nat n) a v d) k = fw_item d k;
  (** A transfer: told where the big-endian descriptor is, the device copies the bytes
      into the item and clears the control word, or sets the error bit. *)
  fw_dma_law v a sel len addr d :
    quiet d → in_u 16 sel → wire 8 v = a →
    be_peek 4 a (ram d) = sel * 2 ^ 16 + FW_CFG_DMA_CTL_SELECT + FW_CFG_DMA_CTL_WRITE →
    be_peek 4 (a + 4) (ram d) = len → be_peek 8 (a + 8) (ram d) = addr →
    (∀ b, a <= b < a + 16 → is_ram b) → (∀ b, addr <= b < addr + len → is_ram b) →
    let d1 := mmio_store 64 FW_CFG_DMA_ADDR v d in
    ready_within fw_patience 32 a in_transfer d1 ∧
    ∀ fuel c d2, spin fuel 32 a in_transfer d1 = Some (c, d2) →
      quiet d2 ∧ (wire 4 c =? 0) = fw_accepts sel len ∧
      ∀ k, fw_item d2 k = if (k =? sel) && fw_accepts sel len then (λ i, ram d (addr + i)) <$> seqZ 0 len else fw_item d k
}.

Lemma dma_busy_wire c : dma_busy c = in_transfer c.
Proof. unfold dma_busy, in_transfer. cbv zeta. by rewrite wire32. Qed.

Lemma spin_ext {D} `{!Mmio D} fuel w a p q (d : D) : (∀ v, p v = q v) → spin fuel w a p d = spin fuel w a q d.
Proof.
  intros H. revert d. induction fuel as [|fuel IH]; intros d; [done|]. cbn [spin].
  destruct (mmio_load w a d) as [v d']. rewrite H. case_if; [apply IH|done].
Qed.

Section proofs.
Context {D : Type} `{MM : !Mmio D, RAM : !Ram D, FW : !FwCfg D}.
Implicit Types (d : D).

Definition fw_same d d' : Prop := quiet d' ∧ (∀ k, fw_item d' k = fw_item d k) ∧ ∀ b, ram d' b = ram d b.

Lemma fw_same_trans d d1 d2 : fw_same d d1 → fw_same d1 d2 → fw_same d d2.
Proof. intros (_ & I1 & R1) (Q & I2 & R2). split; [done|]. split; intros x; [by rewrite I2|by rewrite R2]. Qed.

(** [n] bytes of the data register. *)
Lemma read_bytes {S} (f : Z → S → S) n i x d l r :
  quiet d → fw_cursor d = l ++ r → length l = n →
  ∃ d', for_n n i (λ _ '(x, d), let '(v, d) := fw_cfg_read_byte d in (f v x, d)) (x, d) = (foldl (λ x v, f v x) x l, d') ∧
    fw_same d d' ∧ fw_cursor d' = r.
Proof.
  revert i x d l. induction n as [|n IH]; intros i x d l Hd Hc Hl.
  - destruct l; [|done]. exists d. by split_and!.
  - destruct l as [|v l]; [done|]. cbn [for_n]. unfold fw_cfg_read_byte at 2. pose proof (fw_read_law d Hd) as H.
    destruct (mmio_load 8 FW_CFG_DATA d) as [v' d1]. destruct H as (Q & I & R & Ev & Ec). rewrite Hc in Ev, Ec. cbn in Ev, Ec. subst v'.
    destruct (IH (i + 1) (f v x) d1 l Q Ec ltac:(cbn in Hl; lia)) as (d2 & E & Hs & Hc2). exists d2. split; [exact E|]. split; [|done].
    by apply (fw_same_trans d d1).
Qed.

Lemma be4_bytes c0 c1 c2 c3 : byte c0 → byte c1 → byte c2 → byte c3 →
  be 4 (c0 + 256 * (c1 + 256 * (c2 + 256 * c3))) = [c3; c2; c1; c0].
Proof.
  intros H0 H1 H2 H3. destruct (digits4 c0 c1 c2 c3 H0 H1 H2 H3) as (E0 & E1 & E2 & E3).
  set (x := c0 + _) in *. change (be 4 x) with [x / 256 ^ 3 mod 256; x / 256 ^ 2 mod 256; x / 256 ^ 1 mod 256; x / 1 mod 256].
  change (256 ^ 3) with (2 ^ 24). change (256 ^ 2) with (2 ^ 16). change (256 ^ 1) with 256.
  rewrite Z.div_1_r, E0, E1, E2, E3. unfold byte in H3. by rewrite (Z.mod_small c3).
Qed.

Lemma read_count_spec d n r :
  quiet d → in_u 32 n → fw_cursor d = be 4 n ++ r → ∃ d', read_count d = (n, d') ∧ fw_same d d' ∧ fw_cursor d' = r.
Proof.
  intros Hd (c0 & c1 & c2 & c3 & H0 & H1 & H2 & H3 & ->)%undigits4 Hc. rewrite be4_bytes in Hc by done.
  destruct (read_bytes (λ v c, u32 (c ≪ 8) .| v) 4 0 0 d _ r Hd Hc eq_refl) as (d' & E & Hs & Hc').
  exists d'. split; [|done]. etrans; [exact E|]. f_equal. cbn [foldl]. unfold byte in *.
  assert (∀ c v, 0 <= c < 2 ^ 24 → 0 <= v < 256 → u32 (c ≪ 8) .| v = c * 256 + v) as H.
  { intros c v Hcr Hv. rewrite u32_id by (unfold in_u; rewrite Z.shiftl_mul_pow2; lia). by apply lor_shiftl_low. }
  rewrite (H 0 c3), (H _ c2), (H _ c1), (H _ c0) by lia. lia.
Qed.

Lemma read_entry_spec d f r :
  quiet d → file_ok f → fw_cursor d = entry_bytes f ++ r →
  ∃ d', read_entry d = (entry_bytes f, d') ∧ fw_same d d' ∧ fw_cursor d' = r.
Proof.
  intros Hd (_ & _ & Hlen) Hc.
  assert (length (entry_bytes f) = 64%nat) as Hl.
  { unfold entry_bytes. rewrite !length_app, length_replicate. change (length (be 4 _)) with 4%nat.
    change (length (be 2 (f_select f))) with 2%nat. change (length (be 2 0)) with 2%nat. lia. }
  destruct (read_bytes (λ v e, e ++ [v]) 64 0 [] d _ r Hd Hc Hl) as (d' & E & Hs & Hc').
  exists d'. split; [|done]. etrans; [exact E|]. f_equal.
  assert (∀ (l acc : list Z), foldl (λ x v, x ++ [v]) acc l = acc ++ l) as ->; [|done].
  induction l as [|v l IH]; intros acc; cbn [foldl]; [by rewrite app_nil_r|]. by rewrite IH, <- (assoc_L (++)).
Qed.

(** One entry of the directory. *)
Lemma find_body_spec d name f r :
  quiet d → file_ok f → c_name name → fw_cursor d = entry_bytes f ++ r →
  ∃ d', find_body (name ++ [0]) d = (if decide (f_name f = name) then Return (Some (f_select f), d') else Continue d') ∧
    fw_same d d' ∧ fw_cursor d' = r.
Proof.
  intros Hd Hf Hn Hc. destruct (read_entry_spec d f r Hd Hf Hc) as (d' & E & Hs & Hc'). exists d'. split; [|done].
  unfold find_body. rewrite E. destruct Hf as (Hsel & Hname & Hlen). unfold in_u in Hsel.
  assert (drop 8 (entry_bytes f) = f_name f ++ 0 :: replicate (55 - length (f_name f)) 0) as ->.
  { change (drop 8 (entry_bytes f)) with (f_name f ++ replicate (56 - length (f_name f)) 0).
    by replace (56 - length (f_name f))%nat with (S (55 - length (f_name f))) by lia. }
  rewrite str_eq_names by done.
  assert (u16 ((zget (entry_bytes f) 4 ≪ 8) .| zget (entry_bytes f) 5) = f_select f) as ->.
  { change (zget (entry_bytes f) 4) with (f_select f / 256 ^ 1 mod 256). change (zget (entry_bytes f) 5) with (f_select f / 1 mod 256).
    rewrite lor_shiftl_low by (lia || apply Z.mod_pos_bound; lia). change (256 ^ 1) with 256. change (2 ^ 8) with 256.
    unfold u16. rewrite Z.div_1_r. div_lia. }
  case_decide as Hd'; [by rewrite bool_decide_true|by rewrite bool_decide_false].
Qed.

Lemma find_files name files i d r :
  Forall file_ok files → c_name name → quiet d → fw_cursor d = (files ≫= entry_bytes) ++ r →
  ∃ d', fw_same d d' ∧ for_ret_n (length files) i (λ _, find_body (name ++ [0])) d =
    match lookup_file name files with Some sel => Return (Some sel, d') | None => Continue d' end.
Proof.
  intros Hf Hn. revert i d. induction Hf as [|f files Hf Hfs IH]; intros i d Hd Hc; [by exists d|].
  rewrite bind_cons, <- (assoc_L (++)) in Hc. destruct (find_body_spec d name f _ Hd Hf Hn Hc) as (d1 & E & Hs & Hc1).
  cbn [length for_ret_n]. rewrite E. unfold lookup_file. rewrite filter_cons. case_decide; [by exists d1|].
  destruct (IH (i + 1) d1 (proj1 Hs) Hc1) as (d2 & Hs2 & E2). exists d2. split; [by apply (fw_same_trans d d1)|exact E2].
Qed.

(** The search for a file. *)
Lemma find_file_spec name files d :
  Forall file_ok files → c_name name → in_u 32 (Z.of_nat (length files)) → quiet d → fw_item d FW_CFG_FILE_DIR = dir_bytes files →
  ∃ d', fw_cfg_find_file (name ++ [0]) d = (Some (default 0 (lookup_file name files)), d') ∧ fw_same d d'.
Proof.
  intros Hf Hn Hlen Hd Hdir. unfold fw_cfg_find_file, fw_cfg_select.
  destruct (fw_select_law (bswap16 FW_CFG_FILE_DIR) d Hd) as (Q & I & R & C). rewrite wire16 in C by done. set (d1 := mmio_store 16 _ _ d) in *. rewrite Hdir in C.
  destruct (read_count_spec d1 _ _ Q Hlen C) as (d2 & -> & Hs2 & C2). rewrite <- (app_nil_r (_ ≫= _)) in C2.
  unfold for_ret. rewrite Z.sub_0_r, Nat2Z.id.
  destruct (find_files name files 0 d2 [] Hf Hn (proj1 Hs2) C2) as (d3 & Hs3 & ->). exists d3.
  split; [by destruct (lookup_file name files)|]. apply (fw_same_trans d d1); [done|]. by apply (fw_same_trans d1 d2).
Qed.

(** *** Writing an item *)

Definition cfg_stores (cfg buf : Z) : list (nat * Z * Z) :=
  [(8%nat, cfg, bswap64 buf); (4%nat, cfg + 8, bswap32 RAMFB_FORMAT_XRGB8888); (4%nat, cfg + 12, 0);
   (4%nat, cfg + 16, bswap32 RAMFB_WIDTH); (4%nat, cfg + 20, bswap32 RAMFB_HEIGHT); (4%nat, cfg + 24, bswap32 (RAMFB_WIDTH * RAMFB_BPP))].
Definition dma_stores (access sel data len : Z) : list (nat * Z * Z) :=
  [(4%nat, access, bswap32 (u32 (sel ≪ 16) .| FW_CFG_DMA_CTL_SELECT .| FW_CFG_DMA_CTL_WRITE));
   (4%nat, access + 4, bswap32 len); (8%nat, access + 8, bswap64 data)].

Lemma pokes_app l1 l2 m : pokes (l1 ++ l2) m = pokes l2 (pokes l1 m).
Proof. unfold pokes. by rewrite foldl_app. Qed.

(** The bytes of a field that later stores leave alone. *)
Lemma pokes_field l1 n a v l2 m i :
  0 <= i < Z.of_nat n → Forall (λ w, w.1.2 + Z.of_nat w.1.1 <= a ∨ a + Z.of_nat n <= w.1.2) l2 →
  pokes (l1 ++ (n, a, v) :: l2) m (a + i) = v / 2 ^ (8 * i) mod 2 ^ 8.
Proof.
  intros Hi Hl. rewrite pokes_app. cbn [pokes foldl]. fold (pokes l2 (poke n a v (pokes l1 m))).
  rewrite <- (poke_byte n a v (pokes l1 m) i Hi). generalize (poke n a v (pokes l1 m)).
  induction Hl as [|[[k b] x] l2 Hw _ IH]; intros m'; [done|]. cbn [pokes foldl]. fold (pokes l2 (poke k b x m')).
  rewrite IH. apply poke_out. cbn in Hw. lia.
Qed.

Lemma item_byte (m : bytemem) a n j : 0 <= j < n → mem_of 0 ((λ i, m (a + i)) <$> seqZ 0 n) j = m (a + j).
Proof.
  intros Hj. unfold mem_of. rewrite Z.sub_0_r, list_lookup_fmap, lookup_seqZ_lt by lia. cbn. f_equal. lia.
Qed.

(** The configuration, as the device reads it. *)
Record ramfb_config (m : bytemem) (buf : Z) : Prop := {
  rc_addr : be_peek 8 0 m = buf;
  rc_fourcc : be_peek 4 8 m = RAMFB_FORMAT_XRGB8888;
  rc_flags : be_peek 4 12 m = 0;
  rc_width : be_peek 4 16 m = 800;
  rc_height : be_peek 4 20 m = 600;
  rc_stride : be_peek 4 24 m = 3200
}.

Lemma config_read cfg buf (m m' : bytemem) :
  in_u 64 buf → (∀ b, cfg <= b < cfg + 28 → m' b = pokes (cfg_stores cfg buf) m b) →
  ramfb_config (mem_of 0 ((λ i, m' (cfg + i)) <$> seqZ 0 28)) buf.
Proof.
  intros Hb Hm. assert (∀ j, 0 <= j < 28 → mem_of 0 ((λ i, m' (cfg + i)) <$> seqZ 0 28) j = pokes (cfg_stores cfg buf) m (cfg + j)) as E
    by (intros j Hj; rewrite item_byte by done; apply Hm; lia).
  assert (∀ l1 n k v l2, cfg_stores cfg buf = l1 ++ (n, cfg + k, v) :: l2 → 0 <= k → k + Z.of_nat n <= 28 →
    Forall (λ w : nat * Z * Z, w.1.2 + Z.of_nat w.1.1 <= cfg + k ∨ cfg + k + Z.of_nat n <= w.1.2) l2 →
    ∀ i, 0 <= i < Z.of_nat n → mem_of 0 ((λ i, m' (cfg + i)) <$> seqZ 0 28) (k + i) = v / 2 ^ (8 * i) mod 2 ^ 8) as F.
  { intros l1 n k v l2 El Hk Hn HF i Hi. rewrite E, El, Z.add_assoc by lia. by apply pokes_field. }
  split.
  - apply be_peek8; [done|]. apply (F [] 8%nat 0 _ (tail (cfg_stores cfg buf))); [cbn; by rewrite Z.add_0_r|lia|lia|repeat constructor; cbn; lia].
  - apply be_peek4; [done|]. apply (F (take 1 (cfg_stores cfg buf)) 4%nat 8 _ (drop 2 (cfg_stores cfg buf))); [done|lia|lia|repeat constructor; cbn; lia].
  - apply be_peek4; [done|]. apply (F (take 2 (cfg_stores cfg buf)) 4%nat 12 _ (drop 3 (cfg_stores cfg buf))); [done|lia|lia|repeat constructor; cbn; lia].
  - apply be_peek4; [done|]. apply (F (take 3 (cfg_stores cfg buf)) 4%nat 16 _ (drop 4 (cfg_stores cfg buf))); [done|lia|lia|repeat constructor; cbn; lia].
  - apply be_peek4; [done|]. apply (F (take 4 (cfg_stores cfg buf)) 4%nat 20 _ (drop 5 (cfg_stores cfg buf))); [done|lia|lia|repeat constructor; cbn; lia].
  - apply be_peek4; [done|]. apply (F (take 5 (cfg_stores cfg buf)) 4%nat 24 _ []); [done|lia|lia|constructor].
Qed.

Lemma stores_items l lo hi d k :
  quiet d → Forall (inside lo hi) l → (∀ b, lo <= b < hi → is_ram b) → fw_item (stores l d) k = fw_item d k.
Proof.
  intros Hd Hl Hram. revert d Hd. induction Hl as [|[[n a] v] l Hw _ IH]; intros d Hd; [done|]. cbn [stores foldl].
  fold (stores l (mmio_store (8 * Z.of_nat n) a v d)). unfold inside in Hw. cbn in Hw.
  assert (∀ b, a <= b < a + Z.of_nat n → is_ram b) as Ha by (intros b Hb; apply Hram; lia).
  rewrite IH by (by apply ram_store). by apply fw_ram_store.
Qed.

(** A transfer of [len] bytes at [data]. *)
Lemma dma_write_spec fuel access sel data len d :
  quiet d → in_u 16 sel → in_u 64 access → in_u 64 data → in_u 32 len → (fw_patience <= fuel)%nat →
  (∀ b, access <= b < access + 16 → is_ram b) → (∀ b, data <= b < data + len → is_ram b) →
  access + 16 <= data ∨ data + len <= access →
  ∃ d', fw_cfg_dma_write fuel access sel data len d = Some (fw_accepts sel len, d') ∧ quiet d' ∧
    ∀ k, fw_item d' k = if (k =? sel) && fw_accepts sel len then (λ i, ram d (data + i)) <$> seqZ 0 len else fw_item d k.
Proof.
  intros Hd Hsel Hacc Hdata Hlen Hfuel Hra Hrd Hsep. unfold fw_cfg_dma_write.
  change (mmio_store 64 (access + 8) (bswap64 data) _) with (stores (dma_stores access sel data len) d).
  assert (Forall (inside access (access + 16)) (dma_stores access sel data len)) as Hin
    by (repeat constructor; unfold inside; cbn; lia).
  destruct (run_stores _ _ _ d Hd Hin Hra) as [Q R].
  pose proof (λ k, stores_items _ _ _ d k Hd Hin Hra) as I. set (d1 := stores _ d) in *.
  assert (u32 (sel ≪ 16) .| FW_CFG_DMA_CTL_SELECT .| FW_CFG_DMA_CTL_WRITE = sel * 2 ^ 16 + FW_CFG_DMA_CTL_SELECT + FW_CFG_DMA_CTL_WRITE) as Ec.
  { unfold in_u in Hsel. rewrite u32_id by (unfold in_u; rewrite Z.shiftl_mul_pow2; lia). rewrite <- Z.lor_assoc.
    change (FW_CFG_DMA_CTL_SELECT .| FW_CFG_DMA_CTL_WRITE) with 24. rewrite lor_shiftl_low by lia.
    change FW_CFG_DMA_CTL_SELECT with 8. change FW_CFG_DMA_CTL_WRITE with 16. lia. }
  assert (in_u 32 (sel * 2 ^ 16 + FW_CFG_DMA_CTL_SELECT + FW_CFG_DMA_CTL_WRITE)) as Hc.
  { unfold in_u in *. change FW_CFG_DMA_CTL_SELECT with 8. change FW_CFG_DMA_CTL_WRITE with 16. lia. }
  destruct (fw_dma_law (bswap64 access) access sel len data d1 Q Hsel (wire64 _ Hacc)) as [Hready Hdone]; [| | |done|done|].
  - apply be_peek4; [done|]. intros i Hi. rewrite R. unfold dma_stores. rewrite Ec.
    apply (pokes_field [] 4%nat); [lia|repeat constructor; cbn; lia].
  - apply be_peek4; [done|]. intros i Hi. rewrite R. apply (pokes_field (take 1 (dma_stores access sel data len)) 4%nat); [lia|repeat constructor; cbn; lia].
  - apply be_peek8; [done|]. intros i Hi. rewrite R. apply (pokes_field (take 2 (dma_stores access sel data len)) 8%nat); [lia|constructor].
  - apply (ready_within_mono _ fuel _ _ _ _ Hfuel), spin_ready in Hready as [[v d2] Espin].
    rewrite (spin_ext _ _ _ dma_busy in_transfer) by apply dma_busy_wire. rewrite Espin. cbn [mbind option_bind]. rewrite wire32.
    destruct (Hdone _ _ _ Espin) as (Q2 & -> & I2). exists d2. split; [done|]. split; [done|]. intros k. rewrite I2.
    destruct ((k =? sel) && fw_accepts sel len); [|apply I]. apply list_fmap_ext. intros j x Hx%lookup_seqZ.
    rewrite R. apply (pokes_out _ _ _ _ _ Hin). lia.
Qed.

(** The machine: a directory, RAM for the two structures, apart from each other. *)
Record ramfb_machine (files : list file) (access cfg : Z) d : Prop := {
  rb_quiet : quiet d;
  rb_dir : fw_item d FW_CFG_FILE_DIR = dir_bytes files;
  rb_count : in_u 32 (Z.of_nat (length files));
  rb_files : Forall file_ok files;
  rb_access : in_u 64 access;
  rb_cfg : in_u 64 cfg;
  rb_access_ram b : access <= b < access + 16 → is_ram b;
  rb_cfg_ram b : cfg <= b < cfg + 28 → is_ram b;
  rb_apart : access + 16 <= cfg ∨ cfg + 28 <= access
}.

Lemma ramfb_select files d : Forall file_ok files → in_u 16 (default 0 (lookup_file (bytes "etc/ramfb") files)).
Proof.
  intros Hf. unfold lookup_file. destruct (filter _ files) as [|f l] eqn:E; [done|]. cbn.
  assert (f ∈ filter (λ f, f_name f = bytes "etc/ramfb") files) as [_ Hin]%list_elem_of_filter by (rewrite E; left).
  rewrite Forall_forall in Hf. by apply (Hf f Hin).
Qed.

(** C22: the ramfb screen.  fb_init finds the file in the directory, takes memory for the
    screen from the frame allocator and hands the device a configuration that it reads,
    big-endian, as that memory, 800 by 600, 32 bits per pixel; only when the device took it
    does the driver report a screen, of the same geometry.  Without the file, or without
    memory, nothing changes; when the device refuses, there is no screen either. *)
Theorem fb_init_configures_ramfb {St} `{OPS : !FrameOps St, FL : !FrameLaws St} fuel access cfg files fb (p : St) d :
  ramfb_machine files access cfg d → fa_wf p → (fw_patience <= fuel)%nat →
  let sel := default 0 (lookup_file (bytes "etc/ramfb") files) in
  ∃ fb' p' d', fb_init fuel access cfg fb p d = Some (fb', p', d') ∧ quiet d' ∧
    if decide (sel = 0 ∨ (alloc_frames 469 p).1 = 0) then fb' = fb ∧ p' = p ∧ ∀ k, fw_item d' k = fw_item d k else
    ∃ f, (alloc_frames 469 p).1 = f * PAGE ∧ frame_range f (f + 469) ⊆ fa_free p ∧ fa_free p' = fa_free p ∖ frame_range f (f + 469) ∧
      if fw_accepts sel 28
      then fb' = mk_fb true (f * PAGE) 3200 800 600 ∧ ramfb_config (mem_of 0 (fw_item d' sel)) (f * PAGE)
      else fb' = fb ∧ ∀ k, fw_item d' k = fw_item d k.
Proof.
  intros [Hd Hdir Hcount Hfiles Hacc Hcfg Hra Hrc Hsep] Hp Hfuel sel. unfold fb_init.
  destruct (find_file_spec (bytes "etc/ramfb") files d Hfiles ltac:(by repeat constructor) Hcount Hd Hdir) as (d1 & -> & Q1 & I1 & R1).
  fold sel. cbn [mbind option_bind]. pose proof (ramfb_select files d Hfiles) as Hsel. fold sel in Hsel.
  destruct (Z.eqb_spec sel 0) as [E|Hne]; [by exists fb, p, d1; rewrite decide_True by auto|].
  change ((RAMFB_WIDTH * RAMFB_HEIGHT * RAMFB_BPP + PMM_FRAME_SIZE - 1) / PMM_FRAME_SIZE) with 469.
  destruct (alloc_frames_law p 469 Hp) as [->|(f & p' & Hsub & -> & _ & _ & Hfree)]; [done| |].
  { exists fb, p, d1. by rewrite decide_True by auto. }
  assert (f ∈ fa_free p) as Hf by (apply Hsub, elem_of_frame_range; lia).
  pose proof (fa_bounds p f Hp (fa_free_managed p Hp f Hf)) as Hfb.
  assert (f ≠ 0) as Hf0 by (intros ->; by apply (fa_zero p)). assert (f * PAGE ≠ 0) as Hbuf by (unfold PAGE; lia).
  cbn [fst]. destruct (decide (sel = 0 ∨ f * PAGE = 0)) as [[?|?]|_]; [done|done|].
  rewrite (proj2 (truth_nonzero _) Hbuf). cbn [negb].
  change (store_cfg cfg (f * PAGE) d1) with (stores (cfg_stores cfg (f * PAGE)) d1).
  assert (Forall (inside cfg (cfg + 28)) (cfg_stores cfg (f * PAGE))) as Hin by (repeat constructor; unfold inside; cbn; lia).
  destruct (run_stores _ _ _ d1 Q1 Hin Hrc) as [Q2 R2]. pose proof (λ k, stores_items _ _ _ d1 k Q1 Hin Hrc) as I2.
  set (d2 := stores _ d1) in *.
  destruct (dma_write_spec fuel access sel cfg 28 d2 Q2 Hsel Hacc Hcfg ltac:(done) Hfuel Hra Hrc Hsep) as (d3 & E3 & Q3 & I3).
  unfold sizeof_cfg. rewrite E3. cbn [mbind option_bind]. destruct (fw_accepts sel 28) eqn:Eacc; cbn [negb].
  - do 3 eexists. split; [done|]. split; [exact Q3|]. exists f. split; [done|]. split; [exact Hsub|]. split; [exact Hfree|]. split; [done|].
    rewrite I3, Z.eqb_refl. cbn [andb]. apply (config_read cfg (f * PAGE) (ram d1)); [unfold in_u, PAGE; lia|]. intros b _. apply R2.
  - do 3 eexists. split; [done|]. split; [exact Q3|]. exists f. split; [done|]. split; [exact Hsub|]. split; [exact Hfree|]. split; [done|].
    intros k. by rewrite I3, andb_false_r, I2, I1.
Qed.
End proofs.

(** ** A simulated device *)

(** It transfers at once; RAM starts at 1 GB; item 0x2A takes 28 bytes. *)
Record fsim := mk_fsim { fs_ram : bytemem; fs_items : Z → list Z; fs_cursor : list Z }.

Definition fs_accepts (sel len : Z) : bool := (sel =? 0x2A) && (len =? 28).

Definition fs_dma (a : Z) (d : fsim) : fsim :=
  let sel := be_peek 4 a (fs_ram d) / 2 ^ 16 in
  let len := be_peek 4 (a + 4) (fs_ram d) in
  let addr := be_peek 8 (a + 8) (fs_ram d) in
  if fs_accepts sel len
  then mk_fsim (poke 4 a 0 (fs_ram d))
         (λ k, if k =? sel then (λ i, fs_ram d (addr + i)) <$> seqZ 0 len else fs_items d k) (fs_cursor d)
  else mk_fsim (poke 4 a 0x01000000 (fs_ram d)) (fs_items d) (fs_cursor d).

#[export] Instance fsim_mmio : Mmio fsim := {|
  mmio_load w a d :=
    if (w =? 8) && (a =? FW_CFG_DATA) then (default 0 (head (fs_cursor d)), mk_fsim (fs_ram d) (fs_items d) (tail (fs_cursor d)))
    else (peek (Z.to_nat (w / 8)) a (fs_ram d), d);
  mmio_store w a v d :=
    if (w =? 16) && (a =? FW_CFG_SELECTOR) then mk_fsim (fs_ram d) (fs_items d) (fs_items d (wire 2 v))
    else if (w =? 64) && (a =? FW_CFG_DMA_ADDR) then fs_dma (wire 8 v) d
    else mk_fsim (poke (Z.to_nat (w / 8)) a v (fs_ram d)) (fs_items d) (fs_cursor d)
|}.

Lemma ram_not_register n w a :
  (∀ b, a <= b < a + Z.of_nat n → 0x40000000 <= b) → w ≠ 0 →
  ((8 * Z.of_nat n =? w) && (a =? FW_CFG_DATA) = false) ∧ ((8 * Z.of_nat n =? w) && (a =? FW_CFG_SELECTOR) = false) ∧
  ((8 * Z.of_nat n =? w) && (a =? FW_CFG_DMA_ADDR) = false).
Proof.
  intros H Hw. unfold FW_CFG_DATA, FW_CFG_SELECTOR, FW_CFG_DMA_ADDR, FW_CFG_BASE.
  split_and!; apply andb_false_iff; rewrite !Z.eqb_neq; destruct n as [|n]; [left; lia|right|left; lia|right|left; lia|right];
    specialize (H a ltac:(lia)); lia.
Qed.

Lemma width_of_bytes n : Z.to_nat (8 * Z.of_nat n / 8) = n.
Proof. rewrite Z.mul_comm, Z.div_mul by lia. lia. Qed.

#[export] Program Instance fsim_ram : Ram fsim := {|
  ram := fs_ram; quiet _ := True; is_ram a := 0x40000000 <= a
|}.
Next Obligation.
  intros n a d _ Hr. cbn [mmio_load fsim_mmio]. destruct (ram_not_register n 8 a Hr ltac:(done)) as (-> & _). by rewrite width_of_bytes.
Qed.
Next Obligation.
  intros n a v d _ Hr. cbn [mmio_store fsim_mmio]. destruct (ram_not_register n 16 a Hr ltac:(done)) as (_ & -> & _).
  destruct (ram_not_register n 64 a Hr ltac:(done)) as (_ & _ & ->). by rewrite width_of_bytes.
Qed.

Lemma fsim_done m items c a : ready_within 1 32 a in_transfer (mk_fsim m items c) ↔ in_transfer (peek 4 a m) = false.
Proof.
  cbn [ready_within mmio_load fsim_mmio]. change (32 =? 8) with false. cbn [andb fs_ram]. change (Z.to_nat (32 / 8)) with 4%nat. tauto.
Qed.

Lemma fsim_spin fuel m items c a v d :
  in_transfer (peek 4 a m) = false → spin fuel 32 a in_transfer (mk_fsim m items c) = Some (v, d) → v = peek 4 a m ∧ d = mk_fsim m items c.
Proof.
  destruct fuel as [|fuel]; intros Hb; [done|]. cbn [spin mmio_load fsim_mmio]. change (32 =? 8) with false. cbn [andb fs_ram].
  change (Z.to_nat (32 / 8)) with 4%nat. rewrite Hb. by intros [= <- <-].
Qed.

#[export] Program Instance fsim_fw : FwCfg fsim := {|
  fw_item := fs_items; fw_cursor := fs_cursor; fw_accepts := fs_accepts; fw_patience := 1
|}.
Next Obligation.
  intros v d _. cbn [mmio_store fsim_mmio]. rewrite !Z.eqb_refl. done.
Qed.
Next Obligation. intros d _. cbn [mmio_load fsim_mmio]. by rewrite !Z.eqb_refl. Qed.
Next Obligation.
  intros n a v d k _ Hr. cbn [mmio_store fsim_mmio]. destruct (ram_not_register n 16 a Hr ltac:(done)) as (_ & -> & _).
  by destruct (ram_not_register n 64 a Hr ltac:(done)) as (_ & _ & ->).
Qed.
Next Obligation.
  intros v a sel len addr d _ Hsel <- Hc Hlen Haddr Hra _. cbn [ram fsim_ram is_ram] in *. set (a := wire 8 v) in *.
  assert (mmio_store 64 FW_CFG_DMA_ADDR v d = fs_dma a d) as ->.
  { cbn [mmio_store fsim_mmio]. change (64 =? 16) with false. by rewrite !Z.eqb_refl. }
  unfold fs_dma. rewrite Hc, Hlen, Haddr.
  assert ((sel * 2 ^ 16 + FW_CFG_DMA_CTL_SELECT + FW_CFG_DMA_CTL_WRITE) / 2 ^ 16 = sel) as ->.
  { change FW_CFG_DMA_CTL_SELECT with 8. change FW_CFG_DMA_CTL_WRITE with 16. div_lia. }
  destruct (fs_accepts sel len) eqn:Eacc.
  - assert (peek 4 a (poke 4 a 0 (fs_ram d)) = 0) as Ep by (by rewrite peek_poke_eq).
    split; [apply fsim_done; by rewrite Ep|]. intros fuel w d2 Es. apply fsim_spin in Es as [-> ->]; [|by rewrite Ep].
    rewrite Ep. split_and!; [done|done|]. intros k. cbn. by rewrite andb_true_r.
  - assert (peek 4 a (poke 4 a 0x01000000 (fs_ram d)) = 0x01000000) as Ep by (by rewrite peek_poke_eq).
    split; [apply fsim_done; by rewrite Ep|]. intros fuel w d2 Es. apply fsim_spin in Es as [-> ->]; [|by rewrite Ep].
    rewrite Ep. split_and!; [done|done|]. intros k. cbn. by rewrite andb_false_r.
Qed.

(** *** Witness *)

Definition ramfb_files : list file := [mk_file 27 0x29 (bytes "bootorder"); mk_file 28 0x2A (bytes "etc/ramfb")].
Definition example_fw : fsim := mk_fsim (λ _, 0) (λ k, if k =? FW_CFG_FILE_DIR then dir_bytes ramfb_files else []) [].

(** 512 frames, the first eight in use. *)
Definition ramfb_pool : pmm := mk_pmm (0xFF :: replicate 63 0) 0 64 512 504.

Lemma ramfb_pool_wf : fa_wf ramfb_pool.
Proof.
  split; [|by apply (bool_decide_eq_true_1 _); vm_compute].
  split; [simpl; lia|done|done| |by vm_compute]. apply Forall_forall. intros x Hx.
  assert (x = 0xFF ∨ x = 0) as [->| ->]; [|unfold in_u; lia..].
  apply elem_of_cons in Hx as [->|Hx]; [by left|right]. by apply elem_of_replicate in Hx as [-> _].
Qed.

Lemma ramfb_example : ramfb_machine ramfb_files 0x41000000 0x41000010 example_fw.
Proof.
  split; try done; try (unfold in_u; cbn; lia); [|intros b Hb; cbn; lia..].
  repeat constructor; cbn; try done; unfold in_u; lia.
Qed.

Lemma fb_init_configures_ramfb_witness :
  ∃ p d, fb_init 1 0x41000000 0x41000010 (mk_fb false 0 0 0 0) ramfb_pool example_fw = Some (mk_fb true 0x8000 3200 800 600, p, d) ∧
    ramfb_config (mem_of 0 (fw_item d 0x2A)) 0x8000.
Proof.
  destruct (fb_init_configures_ramfb 1 0x41000000 0x41000010 ramfb_files (mk_fb false 0 0 0 0) ramfb_pool example_fw
    ramfb_example ramfb_pool_wf (Nat.le_refl 1)) as (fb & p & d & E & _ & H).
  assert ((alloc_frames 469 ramfb_pool).1 = 0x8000) as Ea by (vm_compute; reflexivity).
  rewrite Ea in H. change (default 0 (lookup_file (bytes "etc/ramfb") ramfb_files)) with 0x2A in H.
  destruct (decide (0x2A = 0 ∨ 0x8000 = 0)) as [[Hx|Hx]|_]; [discriminate Hx|discriminate Hx|].
  destruct H as (f & Hf & _ & _ & H). change (fw_accepts 0x2A 28) with true in H. destruct H as [-> H].
  assert (f = 8) as -> by (unfold PAGE in Hf; lia). exists p, d. split; [exact E|exact H].
Defined.
