(* ===== verification/VfsDisk.v ===== *)
(** * The filesystem over a driver: fs/vfs.c above arch_disk_read_sector

    Vfs.v reads sectors from a fixed function.  Here the same code is run over a driver,
    whose device changes state with every call and may keep the caller waiting: a state
    monad with faults.  A driver that keeps the promise [DiskLaws] makes the code
    compute what Vfs.v computes; the ATA driver and the virtio driver keep it. *)

From S2P Require Import Prelude.
From S2P Require Import Vfs.
From S2P Require Import PortIo.
From S2P Require Import Ata.
From S2P Require Import Mmio.
From S2P Require Import Virtio.

(** ** Computations with a device *)

(** [None] is a fault, or a wait that does not end. *)
Definition io (D A : Type) : Type := D → option (A * D).

#[export] Instance io_ret {D} : MRet (io D) := λ A a d, Some (a, d).
#[export] Instance io_bind {D} : MBind (io D) := λ A B f m d, '(a, d) ← m d; f a d.
Definition lift {D A} (r : option A) : io D A := λ d, a ← r; Some (a, d).

(** [for (i = lo; i < hi; i++)] with a [return] in the body. *)
Fixpoint io_for {D R} (n : nat) (i : Z) (body : Z → io D (ctl unit R)) : io D (ctl unit R) :=
  match n with
  | O => mret (Continue ())
  | S n => c ← body i; match c with Continue _ => io_for n (i + 1) body | Return r => mret (Return r) end
  end.

(** The two functions of arch.h; the result of a read is what the array holds when the
    call returns true. *)
Class Disk (D : Type) := {
  arch_disk_available : D → bool;
  arch_disk_read_sector : Z → io D (option (list Z))
}.

Section code.
Context {D : Type} `{!Disk D}.

Definition vfs_init (v : vfs) : io D vfs := λ d,
  if negb (arch_disk_available d) then Some (v, d) else
  '(r, d) ← arch_disk_read_sector 0 d;
  match r with
  | None => Some (v, d)
  | Some sector =>
      let raw := read_superblock sector in
      Some (if negb (sb_magic raw =? MKFS_MAGIC) then v else mk_vfs true raw, d)
  end.

Fixpoint read_data (fuel : nat) (start sectors_needed to_copy s copied : Z) (dst : list Z) : io D (bool * list Z) :=
  if (s <? sectors_needed) && (copied <? to_copy) then
    match fuel with
    | O => lift None
    | S fuel =>
        r ← arch_disk_read_sector (u32 (start + s));
        match r with
        | None => mret (false, dst)
        | Some tmp =>
            let chunk := u32 (to_copy - copied) in
            let chunk := if SECTOR_SIZE <? chunk then SECTOR_SIZE else chunk in
            dst ← lift (copy_bytes (Z.to_nat chunk) 0 tmp copied dst);
            read_data fuel start sectors_needed to_copy (u32 (s + 1)) (u32 (copied + chunk)) dst
        end
    end
  else mret (true, dst).

Definition read_found (sector : list Z) (off : Z) (buf : list Z) (buf_size : Z) (out_size : option Z) : io D read_result :=
  let size := dirent_size_bytes sector off in
  let to_copy := if size <? buf_size then size else buf_size in
  let sectors_needed := u32 (size + SECTOR_SIZE - 1) / SECTOR_SIZE in
  r ← read_data (Z.to_nat sectors_needed) (dirent_start_sector sector off) sectors_needed to_copy 0 0 buf;
  mret (if negb (fst r) then (false, snd r, out_size) else (true, snd r, (λ _, size) <$> out_size)).

Definition scan_body (sector name buf : list Z) (buf_size : Z) (out_size : option Z) (i : Z) :
    io D (ctl unit read_result) :=
  let off := i * DIR_ENTRY_SIZE in
  eq ← lift (str_eq (dirent_name sector off) name);
  if negb eq then mret (Continue ()) else
  r ← read_found sector off buf buf_size out_size;
  mret (Return r).

Fixpoint dir_loop (fuel : nat) (remaining dir_sector : Z) (name buf : list Z) (buf_size : Z)
    (out_size : option Z) : io D read_result :=
  if 0 <? remaining then
    match fuel with
    | O => lift None
    | S fuel =>
        r ← arch_disk_read_sector dir_sector;
        match r with
        | None => mret (false, buf, out_size)
        | Some sector =>
            let n := if remaining <? ENTRIES_PER_SECTOR then remaining else ENTRIES_PER_SECTOR in
            c ← io_for (Z.to_nat n) 0 (scan_body sector name buf buf_size out_size);
            match c with
            | Return r => mret r
            | Continue _ => dir_loop fuel (remaining - n) (u32 (dir_sector + 1)) name buf buf_size out_size
            end
        end
    end
  else mret (false, buf, out_size).

Definition vfs_read_file (v : vfs) (name buf : list Z) (buf_size : Z) (out_size : option Z) : io D read_result :=
  if negb (available v) then mret (false, buf, out_size) else
  dir_loop (Z.to_nat (sb_file_count (sb v))) (sb_file_count (sb v)) (sb_dir_start_sector (sb v)) name buf buf_size out_size.
End code.

(** ** What a driver promises *)

(** In every state that is in order a read gives the sector of one fixed function, and
    leaves a state that is in order. *)
Class DiskLaws (D : Type) `{!Disk D} := {
  disk_ok : D → Prop;
  disk_sector : Z → option (list Z);
  disk_wf_law : disk_wf disk_sector;
  disk_available_law d : disk_ok d → arch_disk_available d = true;
  disk_read_law lba d : disk_ok d → in_u 32 lba →
    ∃ d', arch_disk_read_sector lba d = Some (disk_sector lba, d') ∧ disk_ok d'
}.

Section refinement.
Context {D : Type} `{DISK : !Disk D, LAWS : !DiskLaws D}.

(** From any state in order [m] gives what [r] is, and ends in order; it faults where [r]
    does. *)
Definition runs {A} (m : io D A) (r : option A) : Prop :=
  ∀ d, disk_ok d → match r with Some a => ∃ d', m d = Some (a, d') ∧ disk_ok d' | None => m d = None end.

Lemma runs_ret {A} (a : A) : runs (mret a) (Some a).
Proof. intros d Hd. by exists d. Qed.

Lemma runs_lift {A} (r : option A) : runs (lift r) r.
Proof. intros d Hd. unfold lift. destruct r as [a|]; [by exists d|done]. Qed.

Lemma runs_bind {A B} (m : io D A) r (f : A → io D B) g :
  runs m r → (∀ a, r = Some a → runs (f a) (g a)) → runs (m ≫= f) (r ≫= g).
Proof.
  intros Hm Hf d Hd. specialize (Hm d Hd). destruct r as [a|]; cbn [mbind option_bind].
  - destruct Hm as (d1 & E & Hd1). specialize (Hf a eq_refl d1 Hd1).
    unfold mbind, io_bind. rewrite E. exact Hf.
  - unfold mbind, io_bind. by rewrite Hm.
Qed.

Lemma runs_read {B} lba (f : option (list Z) → io D B) r :
  in_u 32 lba → runs (f (disk_sector lba)) r → runs (arch_disk_read_sector lba ≫= f) r.
Proof.
  intros Hl Hf d Hd. destruct (disk_read_law lba d Hd Hl) as (d1 & E & Hd1). specialize (Hf d1 Hd1).
  unfold mbind, io_bind. by rewrite E.
Qed.

Lemma read_data_runs fuel start sn tc s c dst :
  runs (read_data fuel start sn tc s c dst) (Vfs.read_data disk_sector fuel start sn tc s c dst).
Proof.
  revert s c dst. induction fuel as [|fuel IH]; intros s c dst; cbn [read_data Vfs.read_data].
  - destruct (_ && _); [apply (runs_lift None)|apply runs_ret].
  - destruct (_ && _); [|apply runs_ret]. apply runs_read; [apply u32_range|].
    destruct (disk_sector _) as [tmp|]; [|apply runs_ret].
    apply runs_bind; [apply runs_lift|]. intros dst' _. apply IH.
Qed.

Lemma read_found_runs sector off buf buf_size out :
  runs (read_found sector off buf buf_size out) (Vfs.read_found disk_sector sector off buf buf_size out).
Proof.
  unfold read_found, Vfs.read_found. apply runs_bind; [apply read_data_runs|].
  intros [ok buf'] _. cbn [fst snd]. destruct ok; apply runs_ret.
Qed.

(** How the scan of a directory sector ends: a fault is a [Return None] there. *)
Definition outcome {R} (c : ctl unit (option R)) : option (ctl unit R) :=
  match c with Continue _ => Some (Continue ()) | Return None => None | Return (Some r) => Some (Return r) end.

Lemma scan_body_runs sector name buf buf_size out i :
  runs (scan_body sector name buf buf_size out i) (outcome (Vfs.scan_body disk_sector sector name buf buf_size out i ())).
Proof.
  unfold scan_body, Vfs.scan_body. intros d Hd. pose proof (runs_lift (str_eq (dirent_name sector (i * DIR_ENTRY_SIZE)) name) d Hd) as He.
  destruct (str_eq _ name) as [[]|]; cbn [outcome].
  - pose proof (read_found_runs sector (i * DIR_ENTRY_SIZE) buf buf_size out d Hd) as Hf.
    unfold mbind, io_bind, lift. cbn [mbind option_bind negb].
    destruct (Vfs.read_found _ _ _ _ _ _) as [r|]; [|by rewrite Hf]. destruct Hf as (d1 & E & Hd1). rewrite E. by exists d1.
  - by exists d.
  - done.
Qed.

Lemma scan_runs n i sector name buf buf_size out :
  runs (io_for n i (scan_body sector name buf buf_size out))
    (outcome (for_ret_n n i (Vfs.scan_body disk_sector sector name buf buf_size out) ())).
Proof.
  revert i. induction n as [|n IH]; intros i; cbn [io_for for_ret_n]; [apply runs_ret|].
  pose proof (scan_body_runs sector name buf buf_size out i) as Hb. intros d Hd. specialize (Hb d Hd).
  destruct (Vfs.scan_body _ _ _ _ _ _ _ _) as [[]|[r|]]; cbn [outcome] in *.
  - destruct Hb as (d1 & E & Hd1). unfold mbind, io_bind. rewrite E. apply (IH (i + 1) d1 Hd1).
  - destruct Hb as (d1 & E & Hd1). unfold mbind, io_bind. rewrite E. by exists d1.
  - unfold mbind, io_bind. by rewrite Hb.
Qed.

Lemma dir_loop_runs fuel remaining dir_sector name buf buf_size out :
  in_u 32 dir_sector →
  runs (dir_loop fuel remaining dir_sector name buf buf_size out)
    (Vfs.dir_loop disk_sector fuel remaining dir_sector name buf buf_size out).
Proof.
  revert remaining dir_sector. induction fuel as [|fuel IH]; intros remaining ds Hds; cbn [dir_loop Vfs.dir_loop].
  - destruct (0 <? remaining); [apply (runs_lift None)|apply runs_ret].
  - destruct (0 <? remaining); [|apply runs_ret]. apply runs_read; [done|].
    destruct (disk_sector ds) as [sector|]; [|apply runs_ret]. set (n := if _ <? _ then _ else _).
    pose proof (scan_runs (Z.to_nat n) 0 sector name buf buf_size out) as Hs.
    unfold for_ret. rewrite Z.sub_0_r. destruct (for_ret_n _ _ _ _) as [[]|[r|]]; cbn [outcome] in Hs.
    + intros d Hd. destruct (Hs d Hd) as (d1 & E & Hd1). unfold mbind, io_bind. rewrite E. by apply IH; [apply u32_range|].
    + intros d Hd. destruct (Hs d Hd) as (d1 & E & Hd1). unfold mbind, io_bind. rewrite E. by exists d1.
    + intros d Hd. unfold mbind, io_bind. by rewrite (Hs d Hd).
Qed.

Lemma vfs_read_file_runs v name buf buf_size out :
  in_u 32 (sb_dir_start_sector (sb v)) →
  runs (vfs_read_file v name buf buf_size out) (Vfs.vfs_read_file disk_sector v name buf buf_size out).
Proof.
  intros Hs. unfold vfs_read_file, Vfs.vfs_read_file. destruct (available v); cbn [negb]; [by apply dir_loop_runs|apply runs_ret].
Qed.

Lemma vfs_init_runs v : runs (vfs_init v) (Some (Vfs.vfs_init true disk_sector v)).
Proof.
  intros d Hd. unfold vfs_init, Vfs.vfs_init. rewrite (disk_available_law d Hd). cbn [negb].
  destruct (disk_read_law 0 d Hd) as (d1 & E & Hd1); [unfold in_u; lia|]. rewrite E. cbn [mbind option_bind].
  exists d1. split; [|done]. by destruct (disk_sector 0).
Qed.

(** The superblock in memory was read from the disk. *)
Lemma vfs_init_start v :
  in_u 32 (sb_dir_start_sector (sb v)) → in_u 32 (sb_dir_start_sector (sb (Vfs.vfs_init true disk_sector v))).
Proof.
  intros Hv. unfold Vfs.vfs_init. cbn [negb]. destruct (disk_sector 0) as [sector|] eqn:E; [|done].
  destruct (disk_wf_law 0 sector E) as [_ Hb]. case_if; [done|]. cbn [sb]. unfold read_superblock. cbn [sb_dir_start_sector].
  by apply le32_range.
Qed.
End refinement.

(** ** Files on a disk *)

(** Disk [b] has the sectors that disk [a] has. *)
Definition has_sectors (a b : Z → option (list Z)) : Prop :=
  ∀ lba sec, in_u 32 lba → a lba = Some sec → b lba = Some sec.

Lemma disk_holds_has a b sb fs : has_sectors a b → disk_holds a sb fs → disk_holds b sb fs.
Proof.
  intros Hab (Hc & Hlt & Hds & Hdir). split_and!; [done..|]. intros j Hj Hj0.
  destruct (Hdir j Hj Hj0) as (sector & E & He). exists sector. split; [by apply Hab; [apply u32_range|]|].
  intros i f Hi Hk. destruct (He i f Hi Hk) as (H1 & H2 & H3 & H4 & Hdata). split_and!; [done..|].
  intros s Hs. destruct (Hdata s Hs) as (sec & Es & H5). exists sec. split; [|done]. by apply Hab; [apply u32_range|].
Qed.

Lemma vfs_init_has a b v : has_sectors a b → is_Some (a 0) → Vfs.vfs_init true b v = Vfs.vfs_init true a v.
Proof. intros Hab [s E]. unfold Vfs.vfs_init. cbn [negb]. by rewrite E, (Hab 0 s) by (unfold in_u; lia || done). Qed.

Lemma image_first fs : mkfs_ok fs → is_Some (image_sector (mkfs fs) 0).
Proof.
  intros Hok. pose proof (ds_bounds fs Hok) as (Hds & _). pose proof (data_offset_nonneg fs (length fs)).
  destruct (image_sector_read fs Hok 0) as [-> _]; [lia|by eexists].
Qed.

Section files.
Context {D : Type} `{DISK : !Disk D, LAWS : !DiskLaws D}.

(** C11: from the driver to the bytes of a file.  Over any driver that keeps its promise, on
    a disk that has the sectors of an image mkfs built, vfs_init finds the filesystem and
    vfs_read_file, through the driver and whatever the device's state, gives the first
    bytes of the file and its size, or fails without an effect when there is no such file;
    no call waits for ever, and the driver is in order for the next one. *)
Theorem files_from_driver fs name r buf buf_size out_size v d :
  disk_ok d → has_sectors (image_sector (mkfs fs)) disk_sector → mkfs_ok fs → 0 ∉ name →
  0 <= buf_size <= Z.of_nat (length buf) → Z.of_nat (length buf) < 2 ^ 32 →
  ∃ v1 d1 d2, vfs_init v d = Some (v1, d1) ∧ vfs_available v1 = true ∧ disk_ok d1 ∧
    vfs_read_file v1 (name ++ 0 :: r) buf buf_size out_size d1 =
      Some (read_spec fs name buf buf_size out_size, d2) ∧ disk_ok d2.
Proof.
  intros Hd Hhas Hok Hname Hsize Hbuf. destruct (vfs_init_runs v d Hd) as (d1 & E1 & Hd1).
  rewrite (vfs_init_has _ _ _ Hhas (image_first fs Hok)), (image_init fs Hok) in E1. set (v1 := mk_vfs true _) in E1.
  pose proof (disk_holds_has _ _ _ _ Hhas (image_holds fs Hok)) as Hh.
  assert (in_u 32 (sb_dir_start_sector (sb v1))) as Hs by apply Hh.
  pose proof (vfs_read_file_runs v1 (name ++ 0 :: r) buf buf_size out_size Hs d1 Hd1) as Hr.
  assert (Vfs.vfs_read_file disk_sector v1 (name ++ 0 :: r) buf buf_size out_size = Some (read_spec fs name buf buf_size out_size)) as Es
    by (by apply vfs_read_spec).
  rewrite Es in Hr. destruct Hr as (d2 & E2 & Hd2). exists v1, d1, d2. by split_and!.
Qed.
End files.

(** ** The drivers keep the promise *)

Section ata.
Context {D : Type} `{IO : !PortIo D, ATA : !AtaLaws D, QUIET : !AtaQuiet D}.
(** What the caller's array holds before the call. *)
Variable array : list Z.

(** disk_present and the device.  The driver waits for as long as the drive takes. *)
Definition ata_disk : Disk (bool * D) := {|
  arch_disk_available s := ata_available (fst s);
  arch_disk_read_sector lba s :=
    '(ok, buf, d) ← ata_read_sector (patience (snd s)) (fst s) lba array (snd s);
    Some (if (ok : bool) then Some buf else None, (fst s, d))
|}.

#[program] Definition ata_disk_laws (Ha : length array = 512%nat) (Hb : Z.of_nat seek_bound < 100000) :
    DiskLaws (bool * D) (Disk0 := ata_disk) := {|
  disk_ok s := fst s = true ∧ drive (snd s) = Ata.Idle;
  disk_sector := sector_bytes;
  disk_wf_law := sector_bytes_wf
|}.
Next Obligation. intros Ha Hb [p d] [E _]. exact E. Qed.
Next Obligation.
  intros Ha Hb lba [p d] [E Hd] Hl. cbn in E, Hd. subst p. cbn [arch_disk_read_sector ata_disk fst snd].
  destruct (read_sector_step (patience d) lba array d Hd (le_n _) Hb Hl Ha) as (_ & d' & Hd' & ->).
  exists (true, d'). by destruct (sector_bytes lba).
Qed.
End ata.

Section virtio.
Context {D : Type} `{MM : !Mmio D, RAM : !Ram D, VB : !VirtioBlk D}.
(** The address of the caller's array. *)
Variable array : Z.

Definition virtio_disk : Disk (blk * D) := {|
  arch_disk_available s := virtio_blk_available (fst s);
  arch_disk_read_sector lba s :=
    '(ok, b, d) ← virtio_blk_read_sector vb_patience lba array (fst s) (snd s);
    Some (if (ok : bool) then Some ((λ i, ram d (array + i)) <$> seqZ 0 512) else None, (b, d))
|}.

Lemma array_contents (m : bytemem) bs :
  length bs = 512%nat → (∀ i, 0 <= i < 512 → m (array + i) = zget bs i) → (λ i, m (array + i)) <$> seqZ 0 512 = bs.
Proof.
  intros Hl Hm. apply (list_eq_same_length _ _ 512); [done|by rewrite length_fmap, length_seqZ|].
  intros i x y Hi Hx Hy. rewrite list_lookup_fmap, lookup_seqZ_lt in Hx by lia. injection Hx as <-.
  rewrite Hm by lia. unfold zget. rewrite Z.add_0_l, Nat2Z.id. by apply list_lookup_total_correct.
Qed.

#[program] Definition virtio_disk_laws (Hw : disk_wf sector) : DiskLaws (blk * D) (Disk0 := virtio_disk) := {|
  disk_ok s := blk_ready (fst s) (snd s) ∧ regions_ok (fst s) array;
  disk_sector := sector;
  disk_wf_law := Hw
|}.
Next Obligation. intros Hw [b d] [Hb _]. exact (br_present _ _ Hb). Qed.
Next Obligation.
  intros Hw lba [b d] [Hb Hr] Hl. cbn [fst snd] in *. cbn [arch_disk_read_sector virtio_disk fst snd].
  destruct (virtio_blk_read_step vb_patience lba array b d Hb Hr (le_n _) Hl) as (ok & b' & d' & -> & Hb' & Hreg & -> & Hdata & _).
  cbn [mbind option_bind]. exists (b', d'). split.
  - destruct (sector lba) as [bs|] eqn:E; [|done]. rewrite bool_decide_eq_true_2 by by eexists. do 3 f_equal.
    apply array_contents; [apply (Hw _ _ E)|]. intros i Hi. by apply Hdata.
  - cbn [fst snd]. split; [done|]. assert (regions b' array = regions b array) as Hra by (by rewrite Hreg).
    destruct Hr as [H1 H2 H3]. split; rewrite Hra; done.
Qed.
End virtio.

(** ** Witness: the ATA driver over a drive with an image in it *)

Fixpoint words_of (l : list Z) : list Z :=
  match l with b0 :: b1 :: l => b0 + 2 ^ 8 * b1 :: words_of l | _ => [] end.

Lemma words_of_spec n l :
  length l = (2 * n)%nat → Forall (in_u 8) l →
  length (words_of l) = n ∧ Forall (in_u 16) (words_of l) ∧ bytes_of (words_of l) = l.
Proof.
  revert l. induction n as [|n IH]; intros l Hl Hf.
  - apply nil_length_inv in Hl as ->. split_and!; [done|constructor|done].
  - destruct l as [|b0 [|b1 l]]; [cbn in Hl; lia|cbn in Hl; lia|]. cbn [length] in Hl.
    apply Forall_cons in Hf as [H0 [H1 Hf]%Forall_cons]. destruct (IH l ltac:(lia) Hf) as (I1 & I2 & I3).
    unfold in_u in H0, H1. cbn [words_of length]. split; [by rewrite I1|]. split.
    + constructor; [unfold in_u; lia|done].
    + unfold bytes_of in *. rewrite bind_cons, I3. cbn [app]. f_equal; [|f_equal]; div_lia.
Qed.

Section drive.
Variable img : list Z.
Hypothesis img_bytes : Forall (in_u 8) img.
Hypothesis img_size : 512 <= Z.of_nat (length img) < 2 ^ 37.

Definition image_words (lba : Z) : option (list Z) := words_of <$> image_sector img lba.

Lemma image_sector_bytes lba sec : image_sector img lba = Some sec → length sec = 512%nat ∧ Forall (in_u 8) sec ∧ lba < 2 ^ 28.
Proof.
  unfold image_sector. destruct (Z.leb_spec (lba * SECTOR_SIZE + SECTOR_SIZE) (Z.of_nat (length img))); [|done].
  unfold SECTOR_SIZE in *. intros [= <-]. split; [rewrite length_take, length_drop; lia|].
  split; [by apply Forall_take, Forall_drop|lia].
Qed.

Lemma image_words_ok lba ws : image_words lba = Some ws → length ws = 256%nat ∧ Forall (in_u 16) ws.
Proof.
  unfold image_words. destruct (image_sector img lba) as [sec|] eqn:E; [|done]. intros [= <-].
  destruct (image_sector_bytes lba sec E) as (Hl & Hf & _). by destruct (words_of_spec 256 sec Hl Hf) as (? & ? & _).
Qed.

#[local] Instance drive_io : PortIo sim := sim_io image_words 0x80.
#[local] Instance drive_laws : AtaLaws sim := sim_laws image_words image_words_ok 0x80 eq_refl.

Lemma drive_has_image : has_sectors (image_sector img) (sector_bytes (D := sim)).
Proof.
  intros lba sec Hl E. destruct (image_sector_bytes lba sec E) as (Hlen & Hf & Hlt). unfold sector_bytes, in_u in *.
  rewrite Z.mod_small by lia. cbn [sector_words drive_laws sim_laws]. unfold image_words. rewrite E. cbn [fmap option_fmap option_map].
  by destruct (words_of_spec 256 sec Hlen Hf) as (_ & _ & ->).
Qed.
End drive.

Definition disk_fs : list file := [mk_file (bytes "hello.txt") (bytes "Hi"); mk_file (bytes "x") (replicate 600 7)].

Lemma disk_fs_ok : mkfs_ok disk_fs.
Proof.
  split; [| |simpl; lia|by vm_compute].
  - intros f Hf. apply elem_of_cons in Hf as [->| ->%list_elem_of_singleton];
      (split; [apply (bool_decide_eq_true_1 _); by vm_compute|simpl; lia]).
  - intros f Hf. apply elem_of_cons in Hf as [->| ->%list_elem_of_singleton]; simpl; lia.
Qed.

Lemma disk_fs_bytes : Forall (in_u 8) (mkfs disk_fs).
Proof.
  apply Forall_forall. intros b Hb. assert (Forall (λ b, 0 <= b < 256) (mkfs disk_fs)) as HF
    by (apply (bool_decide_eq_true_1 _); vm_compute; reflexivity).
  rewrite Forall_forall in HF. exact (HF b Hb).
Qed.

Lemma disk_fs_size : 512 <= Z.of_nat (length (mkfs disk_fs)) < 2 ^ 37.
Proof. assert (length (mkfs disk_fs) = 2560%nat) as -> by (vm_compute; reflexivity). lia. Qed.

Section witness.
#[local] Instance example_drive : PortIo sim := sim_io (image_words (mkfs disk_fs)) 0x80.
#[local] Instance example_drive_laws : AtaLaws sim :=
  sim_laws (image_words (mkfs disk_fs)) (image_words_ok (mkfs disk_fs) disk_fs_bytes disk_fs_size) 0x80 eq_refl.
#[local] Instance example_drive_quiet : AtaQuiet sim :=
  sim_quiet (image_words (mkfs disk_fs)) (image_words_ok (mkfs disk_fs) disk_fs_bytes disk_fs_size) 0x80 eq_refl eq_refl eq_refl.
#[local] Instance example_disk : Disk (bool * sim) := ata_disk (replicate 512 0xCC).
#[local] Instance example_disk_laws : DiskLaws (bool * sim) := ata_disk_laws (replicate 512 0xCC) eq_refl eq_refl.

Lemma files_from_driver_witness :
  ∃ v1 d1 d2, vfs_init vfs_reset (true, mk_sim Ata.Idle ∅ 2) = Some (v1, d1) ∧
    vfs_read_file v1 (bytes "hello.txt" ++ 0 :: []) (replicate 5 9) 5 (Some 0) d1 = Some ((true, bytes "Hi" ++ [9; 9; 9], Some 2), d2).
Proof.
  destruct (files_from_driver (D := bool * sim) disk_fs (bytes "hello.txt") [] (replicate 5 9) 5 (Some 0) vfs_reset
    (true, mk_sim Ata.Idle ∅ 2)) as (v1 & d1 & d2 & E1 & _ & _ & E2 & _).
  - split; reflexivity.
  - exact (drive_has_image (mkfs disk_fs) disk_fs_bytes disk_fs_size).
  - exact disk_fs_ok.
  - apply (bool_decide_eq_true_1 _). vm_compute. reflexivity.
  - cbn. lia.
  - cbn. lia.
  - exists v1, d1, d2. split; [exact E1|exact E2].
Defined.
End witness.
