(* ===== verification/Arch.v ===== *)
(** * The architecture layer: arch/x86_64/arch.c and arch/aarch64/arch.c

    The functions of arch.h that kernel_main calls, each composed from the drivers' models.
    arch_mm_init and arch_get_total_ram are in Boot.v.  arch_late_init is the whole
    function: the self-test, the first process and the report of its exit code; the text
    of that report is proved to be what it should and to fit the arrays it is built in.
    The first process itself, _start of the two userland files, is there as the system
    calls it makes. *)

From S2P Require Import Prelude.
From S2P Require Import FrameAlloc.
From S2P Require Import Pmm.
From S2P Require Import Heap.
From S2P Require Import Switch.
From S2P Require Import Vfs.
From S2P Require Import Framebuffer.
From S2P Require Import Sched.
From S2P Require Import Gui.
From S2P Require Import Kernel.
From S2P Require Import PageTable.
From S2P Require Import AddressSpace.
From S2P Require Import UserPages.
From S2P Require Import Process.
From S2P Require Import Selftest.
From S2P Require Import VmmX86.
From S2P Require Import VmmA64.
From S2P Require Import PortIo.
From S2P Require Import Interrupts.
From S2P Require Import Descriptors.
From S2P Require Import InputX86.
From S2P Require Import Ata.
From S2P Require Import Mmio.
From S2P Require Import Timers.
From S2P Require Import ProcessArch.
From S2P Require Import Virtio.
From S2P Require Import VirtioInput.
From S2P Require Import Multiboot.
From S2P Require Import Boot.
From S2P Require Import Paging.
From S2P Require Import FwCfg.

(** The state of process_run with other page tables. *)
Definition with_vm {St R} (p : proc St R) (s : vmm St) : proc St R :=
  mk_proc s (p_cpu p) (p_stacks p) (kernel_return_sp p) (process_exit_code p) (interrupts_on p).

(** ** x86_64 *)

Module X86.
#[local] Existing Instances VmmX86.x86_format VmmX86.x86_laws ProcessArch.X86.vm ProcessArch.X86.vm_laws.

Definition arch_name : list Z := bytes "x86_64".

Definition arch_early_init (table tss_addr kernel_stack : Z) (s : gdt_state) : tss * gdt_state * Z :=
  tss_init tss_addr kernel_stack (gdt_init table s).

Definition test_va : Z := 0x50000000.
Definition vmm_selftest (s : vmm pmm) : option (bool * vmm pmm) := Selftest.vmm_selftest test_va s.

(** *** The report: its text in [buf], built with [tmp] *)

Fixpoint put_label (label : list Z) (n : Z) (buf : list Z) : option (Z * list Z) :=
  match label with
  | [] => Some (n, buf)
  | c :: label => buf ← store buf n c; put_label label (n + 1) buf
  end.

Fixpoint push_digits (fuel : nat) (v t : Z) (tmp : list Z) : option (Z * list Z) :=
  if 0 <? v then
    match fuel with
    | O => None
    | S fuel => tmp ← store tmp t (48 + v mod 10); push_digits fuel (v / 10) (t + 1) tmp
    end
  else Some (t, tmp).

Fixpoint pop_digits (t : nat) (tmp : list Z) (n : Z) (buf : list Z) : option (Z * list Z) :=
  match t with
  | O => Some (n, buf)
  | S t => c ← tmp !! t; buf ← store buf n c; pop_digits t tmp (n + 1) buf
  end.

Definition exit_text (exit_code : Z) (tmp buf : list Z) : option (list Z) :=
  let label := if exit_code <? 0 then bytes "USERLAND: LOAD FAILED" else bytes "USERLAND: EXIT " in
  '(n, buf) ← put_label label 0 buf;
  '(n, buf) ← (if 0 <=? exit_code then
                 let v := u32 exit_code in
                 '(t, tmp) ← (if v =? 0 then tmp ← store tmp 0 48; Some (1, tmp) else Some (0, tmp));
                 '(t, tmp) ← push_digits 10 v t tmp;
                 pop_digits (Z.to_nat t) tmp n buf
               else Some (n, buf));
  store buf n 0.

Section machine.
Context {D : Type} `{!PortIo D}.

(** The state arch_late_init works on. *)
Record machine := mk_machine {
  x_dev : D;
  x_ints : interrupts;
  x_disk : bool;
  x_fb : option fb_info;
  x_mouse : Mouse.mouse;
  x_proc : proc pmm regs_x86;
  x_video : video
}.

Section late.
(** The addresses of the handlers and the trampolines, framebuffer_info of multiboot2.c,
    the image, where the launch parameters are, the two arrays as they are found, what the
    process does until its exit call has switched back, and what it draws. *)
Variables (keyboard_irq mouse_irq process_trampoline thread_trampoline : Z) (info : fb_info).
Variables (hello : list Z) (params : Z) (tmp buf : list Z).
Variables (process : proc pmm regs_x86 → proc pmm regs_x86) (drawing : video → video).

Definition process_run : list Z → Z → Z → (proc pmm regs_x86 → proc pmm regs_x86) → proc pmm regs_x86 →
    option (Z * proc pmm regs_x86) :=
  let _ := ProcessArch.X86.switch thread_trampoline in
  let _ := ProcessArch.X86.launch process_trampoline in
  Process.process_run.

Definition arch_late_init (k : machine) : option (late * machine) :=
  let '(ints, d) := Keyboard.keyboard_init keyboard_irq (x_ints k) (x_dev k) in
  let '(disk, d) := ata_init d in
  let '(fb, s) := Paging.fb_init info (p_vm (x_proc k)) in
  if Framebuffer.X86.fb_available fb then
    let '(mouse, ints, d) :=
      Mouse.mouse_init (Framebuffer.X86.fb_width fb) (Framebuffer.X86.fb_height fb) mouse_irq (x_mouse k) ints d in
    '(ok, s) ← vmm_selftest s;
    let v := Framebuffer.X86.fb_draw_string fb 10 10 (if (ok : bool) then 0x0000FF00 else 0x00FF0000) 0x00102030
               (if ok then bytes "VMM: OK" else bytes "VMM: FAIL") (x_video k) in
    let p := with_vm (x_proc k) s in
    if negb ok then Some (Panicked (bytes "VMM self-test failed"), mk_machine d ints disk fb mouse p v) else
    '(exit_code, p) ← process_run hello (Z.of_nat (length hello)) params process p;
    text ← exit_text exit_code tmp buf;
    text ← c_string text;
    let v := Framebuffer.X86.fb_draw_string fb 10 20 (if exit_code =? 0 then 0x0000FF00 else 0x00FF0000) 0x00102030
               text (drawing v) in
    Some (Returned, mk_machine d ints disk fb mouse p v)
  else Some (Returned, mk_machine d ints disk fb (x_mouse k) (with_vm (x_proc k) s) (x_video k)).

(** arch_late_init as the call of Kernel.v: the heap, the registers and the stacks are the
    kernel's, the rest of the state is that of [k]. *)
Definition on_core (k : machine) (co : core pmm regs_x86) : machine :=
  let p := x_proc k in
  let s := p_vm p in
  mk_machine (x_dev k) (x_ints k) (x_disk k) (x_fb k) (x_mouse k)
    (mk_proc (mk_vmm (v_mem s) (co_heap co) (v_spaces s) (v_kernel s) (v_active s))
       (co_cpu co) (co_stacks co) (kernel_return_sp p) (process_exit_code p) (interrupts_on p))
    (x_video k).
Definition core_of (k : machine) : core pmm regs_x86 :=
  mk_core (v_heap (p_vm (x_proc k))) (p_cpu (x_proc k)) (p_stacks (x_proc k)).
Definition layer (k : machine) : ArchLate pmm regs_x86 := λ co,
  '(out, k) ← arch_late_init (on_core k co); Some (out, core_of k).
End late.
End machine.
Arguments machine : clear implicits.

(** *** The functions that pass a call on to a driver *)

Section wrappers.
Context {D : Type} `{!PortIo D}.

Definition arch_interrupts_init (isr_stubs irq_stubs : list Z) (isr128 table : Z) (s : interrupts) (d : D) :
    interrupts * D := idt_init isr_stubs irq_stubs isr128 table s d.
Definition arch_timer_init (pit_tick_at hz : Z) (s : interrupts) (d : D) : option (interrupts * D) :=
  pit_init pit_tick_at hz s d.
Definition arch_timer_ticks (ticks : Z) : Z := pit_get_ticks ticks.
Definition arch_keyboard_getchar (k : Keyboard.keyboard) : Z * Keyboard.keyboard := Keyboard.keyboard_getchar k.
Definition arch_mouse_get_state (s : Mouse.mouse) : option (Z * Z * Z) * Mouse.mouse := Mouse.mouse_get_state s.
Definition arch_gfx_available (fb : option fb_info) : bool := Framebuffer.X86.fb_available fb.
Definition arch_gfx_width (fb : option fb_info) : Z := Framebuffer.X86.fb_width fb.
Definition arch_gfx_height (fb : option fb_info) : Z := Framebuffer.X86.fb_height fb.
Definition arch_gfx_put_pixel (fb : option fb_info) := Framebuffer.X86.fb_put_pixel fb.
Definition arch_gfx_fill_rect (fb : option fb_info) := Framebuffer.X86.fb_fill_rect fb.
Definition arch_gfx_draw_line (fb : option fb_info) := Framebuffer.X86.fb_draw_line fb.
Definition arch_gfx_draw_string (fb : option fb_info) := Framebuffer.X86.fb_draw_string fb.
Definition arch_disk_available (disk : bool) : bool := ata_available disk.
Definition arch_disk_read_sector (fuel : nat) (disk : bool) (lba : Z) (buf : list Z) (d : D) :
    option (bool * list Z * D) := ata_read_sector fuel disk lba buf d.
End wrappers.
End X86.

(** ** aarch64 *)

Module A64.
#[local] Existing Instances VmmA64.a64_format VmmA64.a64_laws ProcessArch.A64.a64_vm_laws ProcessArch.A64.vm.

Definition arch_name : list Z := bytes "aarch64".

Definition test_va : Z := 0x80000000.
Definition vmm_selftest (s : vmm pmm) : option (bool * vmm pmm) := Selftest.vmm_selftest test_va s.

Section machine.
Context {D : Type} `{!Mmio D}.
Variable fuel : nat.

Definition arch_early_init (boot_l1_table : Z) (m : PageTable.memory) (r : mmu_regs) (d : D) :
    PageTable.memory * mmu_regs * D :=
  (aarch64_mmu_init boot_l1_table m r, uart_init d).

Definition puts (s : list Z) (d : D) : option D := uart_puts fuel s d.

Definition put_dec (v : Z) (buf : list Z) (d : D) : option D :=
  let i := 10 in
  buf ← store buf i 0;
  if v =? 0 then uart_putc fuel 48 d else
  '(i, buf) ← put_dec_loop 10 v i buf;
  s ← c_string (drop (Z.to_nat i) buf);
  puts s d.

(** The report of the process's exit code. *)
Definition report_exit (exit_code : Z) (buf : list Z) (d : D) : option D :=
  if exit_code <? 0 then puts (bytes "USERLAND: LOAD FAILED" ++ [10]) d else
  d ← puts (bytes "USERLAND: EXIT ") d;
  d ← put_dec (u32 exit_code) buf d;
  puts [10] d.

Record machine := mk_machine {
  m_dev : D;
  m_proc : proc pmm regs_a64;
  m_blk : blk;
  m_fb : fb_info;
  m_input : input
}.

Definition with_v_heap (s : vmm pmm) (h : heap pmm) : vmm pmm :=
  mk_vmm (v_mem s) h (v_spaces s) (v_kernel s) (v_active s).

Section late.
(** [access] and [cfg] are the addresses of the two structures of fb_init, [output] is what
    the process does to the devices: what it writes to the console. *)
Variables (process_trampoline thread_trampoline : Z) (hello : list Z) (params access cfg : Z) (buf : list Z).
Variables (process : proc pmm regs_a64 → proc pmm regs_a64) (output : D → D).

Definition process_run : list Z → Z → Z → (proc pmm regs_a64 → proc pmm regs_a64) → proc pmm regs_a64 →
    option (Z * proc pmm regs_a64) :=
  let _ := ProcessArch.A64.switch thread_trampoline in
  let _ := ProcessArch.A64.launch process_trampoline in
  Process.process_run.

Definition arch_late_init (k : machine) : option (late * machine) :=
  '(ok, s) ← vmm_selftest (p_vm (m_proc k));
  d ← puts (if (ok : bool) then bytes "VMM: OK" ++ [10] else bytes "VMM: FAIL" ++ [10]) (m_dev k);
  let p := with_vm (m_proc k) s in
  if negb ok then Some (Panicked (bytes "VMM self-test failed"), mk_machine d p (m_blk k) (m_fb k) (m_input k)) else
  '(exit_code, p) ← process_run hello (Z.of_nat (length hello)) params process p;
  d ← report_exit exit_code buf (output d);
  '(b, h, d) ← virtio_blk_init (m_blk k) (v_heap (p_vm p)) d;
  '(fb, q, d) ← FwCfg.fb_init fuel access cfg (m_fb k) (frames h) d;
  let h := set_frames h q in
  d ← puts (if Framebuffer.A64.fb_available fb then bytes "FB: OK" ++ [10] else bytes "FB: NOT AVAILABLE" ++ [10]) d;
  '(i, h, d) ← virtio_input_init (Framebuffer.A64.fb_width fb) (Framebuffer.A64.fb_height fb) (m_input k) h d;
  Some (Returned, mk_machine d (with_vm p (with_v_heap (p_vm p) h)) b fb i).
End late.

(** *** The functions that pass a call on to a driver *)

Definition arch_console_init (d : D) : D := d.
Definition arch_console_putc (c : Z) (d : D) : option D := uart_putc fuel c d.
Definition arch_console_clear (d : D) : D := d.
Definition arch_keyboard_getchar (s : input) (d : D) : option (Z * input * D) := virtio_keyboard_getchar fuel s d.
Definition arch_mouse_get_state (fb : fb_info) (s : input) (d : D) : option (option (Z * Z * Z) * input * D) :=
  virtio_mouse_get_state fuel (Framebuffer.A64.fb_width fb) (Framebuffer.A64.fb_height fb) s d.
Definition arch_gfx_available (fb : fb_info) : bool := Framebuffer.A64.fb_available fb.
Definition arch_gfx_width (fb : fb_info) : Z := Framebuffer.A64.fb_width fb.
Definition arch_gfx_height (fb : fb_info) : Z := Framebuffer.A64.fb_height fb.
Definition arch_gfx_put_pixel (fb : fb_info) := Framebuffer.A64.fb_put_pixel fb.
Definition arch_gfx_fill_rect (fb : fb_info) := Framebuffer.A64.fb_fill_rect fb.
Definition arch_gfx_draw_line (fb : fb_info) := Framebuffer.A64.fb_draw_line fb.
Definition arch_gfx_draw_string (fb : fb_info) := Framebuffer.A64.fb_draw_string fb.
Definition arch_timer_ticks (t : timer) : Z := generic_timer_ticks t.
Definition arch_disk_available (b : blk) : bool := virtio_blk_available b.
Definition arch_disk_read_sector (lba buf : Z) (b : blk) (d : D) : option (bool * blk * D) :=
  virtio_blk_read_sector fuel lba buf b d.
End machine.
Arguments machine : clear implicits.

Definition arch_timer_init {D} `{!Irq D} (hz : Z) (t : timer) (d : D) : option (timer * D) := generic_timer_init hz t d.

(** [vbar] is VBAR_EL1, which takes the address of vector_table. *)
Definition arch_interrupts_init {D} `{!Mmio D} (vector_table : Z) (vbar : Z) (d : D) : Z * D :=
  (vector_table, gic_init d).
End A64.

(** ** The first process: userland/hello.c and userland/hello_aarch64.c

    _start, as the system calls it makes; the registers a call does not use keep their
    values.  [msg] is the address of its string. *)

Section hello_x86.
#[local] Existing Instances ProcessArch.X86.vm.
Variables (thread_trampoline : Z) (string_at : Z → list Z) (fb : option fb_info).

Definition syscall4 (num a1 a2 a3 a4 : Z) (r : registers) (p : proc pmm regs_x86) (v : video) :
    option (registers * proc pmm regs_x86 * video) :=
  ProcessArch.X86.syscall_dispatch thread_trampoline string_at fb
    (mk_registers (r15 r) (r14 r) (r13 r) (r12 r) (r11 r) a4 (r9 r) (r8 r) (rbp r) a1 a2 a3 (rcx r) (rbx r) num
      SYSCALL_VECTOR (err_code r) (rip r) (cs r) (rflags r) (user_rsp r) (ss r)) p v.

Definition hello_start (msg : Z) (r : registers) (p : proc pmm regs_x86) (v : video) :
    option (proc pmm regs_x86 * video) :=
  '(r, p, v) ← syscall4 ProcessArch.X86.SYS_DEBUG_DRAW 40 300 msg 0x0000FF00 r p v;
  '(r, p, v) ← syscall4 ProcessArch.X86.SYS_EXIT 0 0 0 0 r p v;
  Some (p, v).
End hello_x86.

Section hello_a64.
#[local] Existing Instances ProcessArch.A64.vm.
Context {D : Type} `{!Mmio D}.
Variables (thread_trampoline : Z) (fuel : nat) (string_at : Z → list Z).

Definition syscall1 (num a0 : Z) (r : ProcessArch.A64.aarch64_regs) (p : proc pmm regs_a64) (d : D) :
    option (ProcessArch.A64.aarch64_regs * proc pmm regs_a64 * D) :=
  ProcessArch.A64.aarch64_svc_handler thread_trampoline fuel string_at
    (ProcessArch.A64.mk_aarch64_regs (zset (zset (ProcessArch.A64.x r) 8 num) 0 a0) (ProcessArch.A64.elr r) (ProcessArch.A64.spsr r)) p d.

Definition hello_a64_start (msg : Z) (r : ProcessArch.A64.aarch64_regs) (p : proc pmm regs_a64) (d : D) :
    option (proc pmm regs_a64 * D) :=
  '(r, p, d) ← syscall1 ProcessArch.A64.SYS_WRITE msg r p d;
  '(r, p, d) ← syscall1 ProcessArch.A64.SYS_EXIT 0 r p d;
  Some (p, d).
End hello_a64.

(** ** The text of the report *)

Lemma store_mid pre x q v : store (pre ++ x :: q) (Z.of_nat (length pre)) v = Some (pre ++ v :: q).
Proof.
  unfold store. rewrite length_app. replace (_ && _) with true by (symmetry; apply andb_true_iff; rewrite Z.leb_le, Z.ltb_lt; cbn; lia).
  unfold zset. by rewrite Nat2Z.id, insert_app_r_alt, Nat.sub_diag by lia.
Qed.

(** [k] cells of an array are left. *)
Lemma first_cell {A} (l : list A) k : (S k <= length l)%nat → ∃ x q, l = x :: q ∧ (k <= length q)%nat.
Proof. destruct l as [|x q]; [cbn; lia|]. exists x, q. cbn in *. split; [done|lia]. Qed.

Lemma put_label_spec label pre q :
  (length label <= length q)%nat →
  X86.put_label label (Z.of_nat (length pre)) (pre ++ q) =
  Some (Z.of_nat (length (pre ++ label)), (pre ++ label) ++ drop (length label) q).
Proof.
  revert pre q. induction label as [|c label IH]; intros pre q Hl; cbn [X86.put_label].
  - by rewrite (right_id_L [] (++)).
  - destruct (first_cell q (length label) Hl) as (x & r & -> & Hr). rewrite store_mid. cbn [mbind option_bind].
    replace (Z.of_nat (length pre) + 1) with (Z.of_nat (length (pre ++ [c]))) by (rewrite length_app; cbn; lia).
    replace (pre ++ c :: r) with ((pre ++ [c]) ++ r) by (by rewrite <- (assoc_L (++))).
    rewrite IH by done. by rewrite <- !(assoc_L (++)).
Qed.

Lemma decimal_snoc ds d : decimal (ds ++ [d]) = 10 * decimal ds + (d - 48).
Proof. unfold decimal. by rewrite fold_left_app. Qed.

(** The digits come out last first. *)
Lemma push_digits_spec fuel v pre q :
  0 <= v < 10 ^ Z.of_nat fuel → (fuel <= length q)%nat →
  ∃ ds k, X86.push_digits fuel v (Z.of_nat (length pre)) (pre ++ q) =
      Some (Z.of_nat (length (pre ++ reverse ds)), (pre ++ reverse ds) ++ drop k q) ∧
    digits ds ∧ decimal ds = v ∧ (length ds <= fuel)%nat ∧ head ds ≠ Some 48 ∧ (0 < v → ds ≠ []).
Proof.
  revert v pre q. induction fuel as [|fuel IH]; intros v pre q Hv Hq; cbn [X86.push_digits].
  - assert (v = 0) as -> by (simpl in Hv; lia). exists [], 0%nat. rewrite reverse_nil, (right_id_L [] (++)).
    split_and!; [done|constructor|done|done|done|lia].
  - destruct (Z.ltb_spec 0 v) as [Hpos|Hz].
    2:{ assert (v = 0) as -> by lia. exists [], 0%nat. rewrite reverse_nil, (right_id_L [] (++)). split_and!; [done|constructor|done|cbn; lia|done|lia]. }
    destruct (first_cell q fuel Hq) as (x & r & -> & Hr). rewrite store_mid. cbn [mbind option_bind].
    replace (Z.of_nat (length pre) + 1) with (Z.of_nat (length (pre ++ [48 + v mod 10]))) by (rewrite length_app; cbn; lia).
    replace (pre ++ (48 + v mod 10) :: r) with ((pre ++ [48 + v mod 10]) ++ r) by (by rewrite <- (assoc_L (++))).
    rewrite Nat2Z.inj_succ, Z.pow_succ_r in Hv by lia.
    destruct (IH (v / 10) (pre ++ [48 + v mod 10]) r) as (ds & k & E & Hd & Hval & Hlen & Hhead & Hne); [div_lia|lia|].
    exists (ds ++ [48 + v mod 10]), (S k). rewrite E, reverse_snoc, <- !(assoc_L (++)). cbn [app drop].
    split; [done|]. split; [|split; [|split; [|split]]].
    + apply Forall_app. split; [done|]. repeat constructor; div_lia.
    + rewrite decimal_snoc, Hval. div_lia.
    + rewrite length_app. cbn. lia.
    + destruct ds as [|d ds]; [|done]. cbn. intros [= H]. change (decimal []) with 0 in Hval. div_lia.
    + intros _ H%(f_equal length). rewrite length_app in H. cbn in H. lia.
Qed.

Lemma pop_digits_spec ds tl pre q :
  (length ds <= length q)%nat →
  X86.pop_digits (length ds) (reverse ds ++ tl) (Z.of_nat (length pre)) (pre ++ q) =
  Some (Z.of_nat (length (pre ++ ds)), (pre ++ ds) ++ drop (length ds) q).
Proof.
  revert tl pre q. induction ds as [|d ds IH]; intros tl pre q Hl; cbn [X86.pop_digits length].
  - by rewrite (right_id_L [] (++)).
  - destruct (first_cell q (length ds) Hl) as (x & r & -> & Hr). rewrite reverse_cons, <- (assoc_L (++)).
    rewrite lookup_app_r, length_reverse, Nat.sub_diag by (by rewrite length_reverse).
    cbn [app lookup list_lookup mbind option_bind]. rewrite store_mid. cbn [mbind option_bind].
    replace (Z.of_nat (length pre) + 1) with (Z.of_nat (length (pre ++ [d]))) by (rewrite length_app; cbn; lia).
    replace (pre ++ d :: r) with ((pre ++ [d]) ++ r) by (by rewrite <- (assoc_L (++))).
    rewrite IH by done. by rewrite <- !(assoc_L (++)).
Qed.

(** What the report should say. *)
Definition is_report (exit_code : Z) (text : list Z) : Prop :=
  if exit_code <? 0 then text = bytes "USERLAND: LOAD FAILED" else
  ∃ ds, text = bytes "USERLAND: EXIT " ++ ds ∧ digits ds ∧ decimal ds = exit_code ∧ ds ≠ [] ∧
    (exit_code = 0 ∨ head ds ≠ Some 48).

Lemma digits_not_nul ds : digits ds → Forall (λ c, c ≠ 0) ds.
Proof. intros H. eapply Forall_impl; [exact H|]. cbn. lia. Qed.

Lemma small_code code : 0 <= code < 2 ^ 31 → u32 code = code ∧ 0 <= code < 10 ^ 10.
Proof. intros H. split; [apply u32_id; unfold in_u|]; lia. Qed.

(** The digits of the code, most significant first. *)
Lemma report_digits code tmp pre q :
  0 <= code < 2 ^ 31 → length tmp = 10%nat → (10 <= length q)%nat →
  ∃ ds, (
      '(t, tmp) ← (if u32 code =? 0 then tmp ← store tmp 0 48; Some (1, tmp) else Some (0, tmp));
      '(t, tmp) ← X86.push_digits 10 (u32 code) t tmp;
      X86.pop_digits (Z.to_nat t) tmp (Z.of_nat (length pre)) (pre ++ q)) =
    Some (Z.of_nat (length (pre ++ ds)), (pre ++ ds) ++ drop (length ds) q) ∧
    digits ds ∧ decimal ds = code ∧ (length ds <= 10)%nat ∧ ds ≠ [] ∧ (code = 0 ∨ head ds ≠ Some 48).
Proof.
  intros Hc Htmp Hq. destruct (small_code code Hc) as [-> Hv]. destruct (Z.eqb_spec code 0) as [->|Hne].
  - destruct (first_cell tmp 9) as (x & r & -> & _); [lia|]. exists [48].
    change (store (x :: r) 0 48) with (Some (48 :: r)). cbn [mbind option_bind X86.push_digits Z.ltb Z.compare].
    split; [exact (pop_digits_spec [48] r pre q ltac:(cbn; lia))|]. split_and!; [by repeat constructor|done|cbn; lia|done|by left].
  - destruct (push_digits_spec 10 code [] tmp Hv) as (ds & k & E & Hd & Hval & Hlen & Hh & Hn); [lia|].
    exists ds. cbn [mbind option_bind]. cbn [length app] in E. change (Z.of_nat 0) with 0 in E. rewrite E. cbn [mbind option_bind].
    rewrite Nat2Z.id, length_reverse. split; [apply pop_digits_spec; lia|]. split_and!; [done..|apply Hn; lia|by right].
Qed.

Lemma exit_text_report code tmp buf :
  - 2 ^ 31 <= code < 2 ^ 31 → length tmp = 10%nat → length buf = 32%nat →
  ∃ buf' text, X86.exit_text code tmp buf = Some buf' ∧ c_string buf' = Some text ∧ is_report code text.
Proof.
  intros Hc Htmp Hbuf. unfold X86.exit_text, is_report. set (label := if code <? 0 then _ else bytes "USERLAND: EXIT ").
  assert (length label <= 21)%nat as Hll by (unfold label; destruct (code <? 0); cbn; lia).
  pose proof (put_label_spec label [] buf ltac:(lia)) as E. cbn [length app] in E. change (Z.of_nat 0) with 0 in E.
  rewrite E. cbn [mbind option_bind]. clear E.
  assert (Forall (λ c, c ≠ 0) label) as Hnul.
  { unfold label. destruct (code <? 0); apply (bool_decide_eq_true_1 _); reflexivity. }
  assert (∀ t q, Forall (λ c, c ≠ 0) t → (1 <= length q)%nat → ∃ buf',
    store (t ++ q) (Z.of_nat (length t)) 0 = Some buf' ∧ c_string buf' = Some t) as Hend.
  { intros t q Ht Hq. destruct (first_cell q 0 Hq) as (x & r & -> & _). rewrite store_mid. eexists. split; [done|]. by apply c_string_app. }
  destruct (Z.ltb_spec code 0) as [Hneg|Hpos].
  - rewrite (proj2 (Z.leb_gt _ _)) by lia. cbn [mbind option_bind].
    destruct (Hend label (drop (length label) buf) Hnul) as (b & E & Ht); [rewrite length_drop; lia|]. by exists b, label.
  - rewrite (proj2 (Z.leb_le _ _)) by lia. assert (label = bytes "USERLAND: EXIT ") as Hl by (unfold label; by destruct (Z.ltb_spec code 0); [lia|]).
    assert (length label = 15%nat) by (by rewrite Hl).
    destruct (report_digits code tmp label (drop (length label) buf)) as (ds & E & Hd & Hval & Hlen & Hne & Hh); [lia|done|rewrite length_drop; lia|].
    cbv zeta. rewrite E. cbn [mbind option_bind].
    destruct (Hend (label ++ ds) (drop (length ds) (drop (length label) buf))) as (b & Eb & Ht).
    { apply Forall_app. split; [done|by apply digits_not_nul]. }
    { rewrite !length_drop. lia. }
    exists b, (label ++ ds). split; [done|]. split; [done|]. exists ds. rewrite Hl. by split_and!.
Qed.

Section x86_late.
#[local] Existing Instances VmmX86.x86_format VmmX86.x86_laws ProcessArch.X86.vm ProcessArch.X86.vm_laws.
Context {D : Type} `{!PortIo D}.

Lemma late_init_cases keyboard_irq mouse_irq process_trampoline thread_trampoline info hello params tmp buf
    process drawing (k : X86.machine D) ok s1 code p2 :
  length tmp = 10%nat → length buf = 32%nat → - 2 ^ 31 <= code < 2 ^ 31 →
  X86.vmm_selftest (snd (Paging.fb_init info (p_vm (X86.x_proc k)))) = Some (ok, s1) →
  (ok = true → X86.process_run process_trampoline thread_trampoline hello (Z.of_nat (length hello)) params process
    (with_vm (X86.x_proc k) s1) = Some (code, p2)) →
  ∃ k' out, X86.arch_late_init keyboard_irq mouse_irq process_trampoline thread_trampoline info hello params tmp buf
      process drawing k = Some (out, k') ∧
    X86.x_fb k' = Some info ∧
    if negb (fb_present info) then out = Returned ∧ X86.x_video k' = X86.x_video k else
    let shown := Framebuffer.X86.fb_draw_string (Some info) 10 10 (if ok then 0x0000FF00 else 0x00FF0000) 0x00102030
                   (bytes (if ok then "VMM: OK" else "VMM: FAIL")) (X86.x_video k) in
    if ok then
      out = Returned ∧ X86.x_proc k' = p2 ∧ ∃ text, is_report code text ∧
        X86.x_video k' = Framebuffer.X86.fb_draw_string (Some info) 10 20
          (if code =? 0 then 0x0000FF00 else 0x00FF0000) 0x00102030 text (drawing shown)
    else out = Panicked (bytes "VMM self-test failed") ∧ X86.x_video k' = shown.
Proof.
  intros Htmp Hbuf Hc Hself Hrun. unfold X86.arch_late_init.
  destruct (Keyboard.keyboard_init _ _ _) as [ints d]. destruct (ata_init d) as [disk d1].
  destruct (Paging.fb_init info _) as [fb s] eqn:Efb. cbn [snd] in Hself.
  assert (fb = Some info) as -> by (unfold Paging.fb_init in Efb; congruence).
  unfold Framebuffer.X86.fb_available, available. destruct (fb_present info); cbn [negb].
  2:{ eexists _, Returned. split; [done|]. by split. }
  destruct (Mouse.mouse_init _ _ _ _ _ _) as [[mouse ints'] d2]. rewrite Hself. cbn [mbind option_bind].
  destruct ok; cbn [negb]; [|eexists _, _; split; [done|]; by split].
  rewrite (Hrun eq_refl). cbn [mbind option_bind].
  destruct (exit_text_report code tmp buf Hc Htmp Hbuf) as (buf' & text & E1 & E2 & Hr). rewrite E1. cbn [mbind option_bind].
  rewrite E2. cbn [mbind option_bind]. eexists _, _. split; [done|]. split; [done|]. split; [done|]. split; [done|]. by exists text.
Qed.

(** C40: arch_late_init on x86_64, on each of its branches.  Without a framebuffer it only
    sets up the keyboard and the disk.  With one, a failed self-test is shown and is a
    panic; after a passed one the first process runs and its exit code is on the screen
    in decimal, below the result of the test, or the message that it could not be loaded:
    the text fits [buf] and its digits fit [tmp], for every code. *)
Theorem late_init_shows_exit keyboard_irq mouse_irq process_trampoline thread_trampoline info hello params tmp buf
    process drawing (k : X86.machine D) ok s1 code p2 :
  length tmp = 10%nat → length buf = 32%nat → - 2 ^ 31 <= code < 2 ^ 31 →
  X86.vmm_selftest (snd (Paging.fb_init info (p_vm (X86.x_proc k)))) = Some (ok, s1) →
  (ok = true → X86.process_run process_trampoline thread_trampoline hello (Z.of_nat (length hello)) params process
    (with_vm (X86.x_proc k) s1) = Some (code, p2)) →
  ∃ k' out, X86.arch_late_init keyboard_irq mouse_irq process_trampoline thread_trampoline info hello params tmp buf
      process drawing k = Some (out, k') ∧
    X86.x_fb k' = Some info ∧
    if negb (fb_present info) then out = Returned ∧ X86.x_video k' = X86.x_video k else
    let shown := Framebuffer.X86.fb_draw_string (Some info) 10 10 (if ok then 0x0000FF00 else 0x00FF0000) 0x00102030
                   (bytes (if ok then "VMM: OK" else "VMM: FAIL")) (X86.x_video k) in
    if ok then
      out = Returned ∧ X86.x_proc k' = p2 ∧ ∃ text, is_report code text ∧
        X86.x_video k' = Framebuffer.X86.fb_draw_string (Some info) 10 20
          (if code =? 0 then 0x0000FF00 else 0x00FF0000) 0x00102030 text (drawing shown)
    else out = Panicked (bytes "VMM self-test failed") ∧ X86.x_video k' = shown.
Proof. apply late_init_cases. Qed.

(** What arch_late_init needs in the machine [k] to do its work: the address spaces in
    order, a framebuffer that can be mapped, memory for the self-test at a page the kernel
    does not use, and an image that can be loaded and whose process ends with [code]. *)
Record late_ready process_trampoline thread_trampoline info hello params process (k : X86.machine D) code : Prop := {
  lr_spaces : ∃ AL, spaces_rep 3 (p_vm (X86.x_proc k)) AL;
  lr_live : ∃ x, as_root (p_vm (X86.x_proc k)) x = Some (v_active (p_vm (X86.x_proc k)));
  lr_code : - 2 ^ 31 <= code < 2 ^ 31;
  lr_screen : fb_present info = true → mappable (p_vm (X86.x_proc k)) info;
  lr_test s1 : fb_present info = true → s1 = snd (Paging.fb_init info (p_vm (X86.x_proc k))) →
    ready 3 Create s1 ∧ path_open 3 (v_mem s1) (v_kernel s1) (va_index X86.test_va) = true ∧
    vm_translate kernel_space X86.test_va s1 = Some 0 ∧
    ∃ x c, vm_create s1 = Some (x, c) ∧ (4 <= size (fa_free (frames (v_heap c))))%nat;
  lr_process s2 : fb_present info = true →
    X86.vmm_selftest (snd (Paging.fb_init info (p_vm (X86.x_proc k)))) = Some (true, s2) →
    let _ := ProcessArch.X86.switch thread_trampoline in
    let _ := ProcessArch.X86.launch process_trampoline in
    let _ := ProcessArch.X86.switch_laws thread_trampoline in
    let _ := ProcessArch.X86.launch_laws process_trampoline thread_trampoline in
    let p := with_vm (X86.x_proc k) s2 in
    ∃ K AL eh phs x c, loadable 3 hello (Z.of_nat (length hello)) params K p AL eh phs x c ∧
      process_exits 3 hello (Z.of_nat (length hello)) params p eh phs process code
}.

(** The x86_64 layer keeps what the kernel's boot relies on. *)
Lemma x86_late_keeps keyboard_irq mouse_irq process_trampoline thread_trampoline info hello params tmp buf
    process drawing (k : X86.machine D) h c m t0 t1 b code :
  length tmp = 10%nat → length buf = 32%nat →
  late_ready process_trampoline thread_trampoline info hello params process (X86.on_core k (mk_core h c m)) code →
  let layer := X86.layer keyboard_irq mouse_irq process_trampoline thread_trampoline info hello params tmp buf process drawing k in
  (∀ out co, layer (mk_core h c m) = Some (out, co) → boot_memory (co_heap co) t0 t1 b) →
  late_keeps (LATE := layer) h c m t0 t1 b.
Proof.
  intros Htmp Hbuf [[AL Hs] [x Hx] Hc Hscreen Htest Hproc] layer Hmem. set (k0 := X86.on_core k (mk_core h c m)) in *.
  destruct (Paging.fb_init_rep _ AL x info Hs Hx Hscreen) as (s1 & Efb & Hs1 & Hm1).
  assert (∃ k', X86.arch_late_init keyboard_irq mouse_irq process_trampoline thread_trampoline info hello params tmp buf
      process drawing k0 = Some (Returned, k') ∧ p_cpu (X86.x_proc k') = c ∧
    (∃ AL', heap_rep (v_heap (p_vm (X86.x_proc k'))) AL') ∧
    fa_managed (frames (v_heap (p_vm (X86.x_proc k')))) = fa_managed (frames h)) as (k' & E & Hcpu & [AL' Hr] & Hm).
  { destruct (fb_present info) eqn:Hp.
    - destruct (Htest s1 eq_refl) as (Hready & Hopen & H0 & y & c1 & Ec & Hsz); [by rewrite Efb|].
      destruct (selftest_step 3 s1 AL X86.test_va y c1 Hs1 Hready) as (s2 & AL2 & Eself & _ & _ & _ & Hm2 & _);
        [split; [discriminate|reflexivity]|reflexivity|done..|].
      rewrite Efb in Hproc. destruct (Hproc s2 eq_refl Eself) as (K & AL3 & eh & phs & z & c2 & Hload & Hexits).
      destruct (process_run_step (SW := ProcessArch.X86.switch thread_trampoline) (LO := ProcessArch.X86.launch process_trampoline)
        (SWL := ProcessArch.X86.switch_laws thread_trampoline)
        (LL := ProcessArch.X86.launch_laws process_trampoline thread_trampoline) 3 ltac:(reflexivity) _ _ _ _ _ _ _ _ _ _ _ _ Hload Hexits)
        as (p4 & Erun & Hcpu & _ & _ & [AL4 Hrep] & Hm4 & _).
      destruct (late_init_cases keyboard_irq mouse_irq process_trampoline thread_trampoline info hello params tmp buf
        process drawing k0 true s2 code p4 Htmp Hbuf Hc) as (k' & out & E & _ & H); [by rewrite Efb|done|].
      rewrite Hp in H. destruct H as (-> & <- & _). exists k'. split; [exact E|]. split; [exact Hcpu|].
      split; [exists AL4; apply (sp_heap _ _ _ Hrep)|]. rewrite Hm4. cbn [p_vm with_vm]. by rewrite Hm2, Hm1.
    - unfold X86.arch_late_init. rewrite Efb. destruct (Keyboard.keyboard_init _ _ _) as [ints d]. destruct (ata_init d) as [disk d1].
      unfold Framebuffer.X86.fb_available, available. rewrite Hp. eexists. split; [done|]. split; [done|].
      split; [exists AL; apply (sp_heap _ _ _ Hs1)|]. exact Hm1. }
  assert (layer (mk_core h c m) = Some (Returned, X86.core_of k')) as El by (unfold layer, X86.layer; fold k0; by rewrite E).
  exists (v_heap (p_vm (X86.x_proc k'))), (p_stacks (X86.x_proc k')), AL'. split; [|split; [exact Hr|split; [exact Hm|exact (Hmem _ _ El)]]].
  etrans; [exact El|]. unfold X86.core_of. by rewrite Hcpu.
Qed.
End x86_late.

Section a64_late.
Context {D : Type} `{!Mmio D}.

Lemma uart_puts_app fuel s t (d : D) : uart_puts fuel (s ++ t) d = (d ← uart_puts fuel s d; uart_puts fuel t d).
Proof.
  revert d. induction s as [|c s IH]; intros d; cbn [uart_puts app]; [done|].
  destruct (uart_putc fuel c d) as [d1|]; [|done]. cbn [mbind option_bind]. apply IH.
Qed.

Lemma put_dec_prints fuel v buf :
  0 <= v < 10 ^ 10 → length buf = 11%nat →
  ∃ ds, (∀ d : D, A64.put_dec fuel v buf d = uart_puts fuel ds d) ∧ digits ds ∧ decimal ds = v ∧ ds ≠ [] ∧ (v = 0 ∨ head ds ≠ Some 48).
Proof.
  intros Hv Hl. unfold A64.put_dec. assert (store buf 10 0 = Some (take 10 buf ++ [] ++ [0])) as ->.
  { rewrite <- (take_drop 10 buf) at 1. destruct (first_cell (drop 10 buf) 0) as (x & r & Ed & _); [rewrite length_drop; lia|].
    assert (length (take 10 buf) = 10%nat) as Ht by (rewrite length_take; lia). rewrite Ed.
    change 10 with (Z.of_nat 10). rewrite <- Ht at 2. rewrite store_mid.
    apply (f_equal length) in Ed. rewrite length_drop in Ed. cbn in Ed. destruct r; [done|cbn in Ed; lia]. }
  cbn [mbind option_bind]. destruct (Z.eqb_spec v 0) as [->|Hne].
  { exists [48]. split_and!; [|by repeat constructor|done|done|by left]. intros d. cbn [uart_puts]. by destruct (uart_putc fuel 48 d). }
  assert (length (take 10 buf) = 10%nat) as Ht by (rewrite length_take; lia).
  destruct (put_dec_loop_spec 10 v (take 10 buf) [] [0]) as (i & pre & ds & E & Hi & Hd & Hval & Hh & _ & Hne2);
    [exact Hv|lia|constructor|left; lia|].
  rewrite Ht in E. change (Z.of_nat 10) with 10 in E. rewrite E. cbn [mbind option_bind].
  rewrite Hi, Nat2Z.id, drop_app_length, c_string_app by (by apply digits_not_nul). cbn [mbind option_bind].
  exists ds. split; [done|]. split; [done|]. cbn [length] in Hval. change (decimal []) with 0 in Hval.
  split; [lia|]. split; [apply Hne2; left; lia|by right].
Qed.

(** The report on aarch64 sends the same text to the serial port, a line of its own: for
    every exit code the bytes are those of the message, and the digits fit their array. *)
Lemma report_exit_prints fuel code buf (d : D) :
  - 2 ^ 31 <= code < 2 ^ 31 → length buf = 11%nat →
  ∃ text, is_report code text ∧ A64.report_exit fuel code buf d = uart_puts fuel (text ++ [10]) d.
Proof.
  intros Hc Hl. unfold A64.report_exit, is_report. destruct (Z.ltb_spec code 0).
  - by eexists.
  - destruct (small_code code ltac:(lia)) as [-> Hv]. unfold A64.puts.
    destruct (put_dec_prints fuel code buf) as (ds & E & Hds); [lia|done|].
    exists (bytes "USERLAND: EXIT " ++ ds). split; [by exists ds|].
    rewrite <- (assoc_L (++)), uart_puts_app. destruct (uart_puts fuel _ d) as [d1|]; [|done]. cbn [mbind option_bind].
    by rewrite uart_puts_app, E.
Qed.
End a64_late.

(** The process draws its greeting and exits with code 0. *)
Lemma hello_runs tr string_at info msg rest r (p : proc pmm regs_x86) v :
  fb_present info = true → string_at msg = bytes "HELLO FROM RING 3" ++ 0 :: rest →
  hello_start tr string_at (Some info) msg r p v =
  Some (ProcessArch.X86.process_syscall_exit tr 0 p,
        Framebuffer.X86.fb_draw_string (Some info) 40 300 0x0000FF00 0 (bytes "HELLO FROM RING 3") v).
Proof.
  intros Hp Hs. unfold hello_start, syscall4, ProcessArch.X86.syscall_dispatch. cbn [rax rdi rsi rdx r10].
  change (ProcessArch.X86.SYS_DEBUG_DRAW =? ProcessArch.X86.SYS_EXIT) with false.
  rewrite !Z.eqb_refl, Hs, c_string_app by (apply (bool_decide_eq_true_1 _); reflexivity).
  unfold Framebuffer.X86.fb_available, available. rewrite Hp. reflexivity.
Qed.

(** On aarch64 the greeting is a line on the console. *)
Lemma call_registers l num a : length l = 31%nat → zget (zset (zset l 8 num) 0 a) 8 = num ∧ zget (zset (zset l 8 num) 0 a) 0 = a.
Proof. intros Hl. by rewrite !zget_zset by (rewrite ?zset_length; lia). Qed.

Lemma hello_a64_runs {D} `{!Mmio D} tr fuel string_at msg rest r (p : proc pmm regs_a64) (d : D) :
  length (ProcessArch.A64.x r) = 31%nat → string_at msg = bytes "HELLO FROM EL0" ++ 10 :: 0 :: rest →
  hello_a64_start tr fuel string_at msg r p d =
  (d ← uart_puts fuel (bytes "HELLO FROM EL0" ++ [10]) d; Some (ProcessArch.A64.process_syscall_exit tr 0 p, d)).
Proof.
  intros Hl Hs. unfold hello_a64_start, syscall1, ProcessArch.A64.aarch64_svc_handler. cbn [ProcessArch.A64.x].
  destruct (call_registers (ProcessArch.A64.x r) ProcessArch.A64.SYS_WRITE msg Hl) as [-> ->].
  change (ProcessArch.A64.SYS_WRITE =? ProcessArch.A64.SYS_EXIT) with false. rewrite Z.eqb_refl, Hs.
  change (bytes "HELLO FROM EL0" ++ 10 :: 0 :: rest) with ((bytes "HELLO FROM EL0" ++ [10]) ++ 0 :: rest).
  rewrite c_string_app by (apply (bool_decide_eq_true_1 _); reflexivity). cbn [mbind option_bind].
  destruct (uart_puts _ _ d) as [d1|]; [|done]. cbn [mbind option_bind ProcessArch.A64.with_x0 ProcessArch.A64.x].
  destruct (call_registers (zset (zset (zset (ProcessArch.A64.x r) 8 ProcessArch.A64.SYS_WRITE) 0 msg) 0 0) ProcessArch.A64.SYS_EXIT 0) as [-> ->];
    [by rewrite !zset_length|]. done.
Qed.

(** ** Witnesses: the machine of Boot.v after heap_init *)

Section witness.
#[local] Existing Instances VmmX86.x86_format VmmX86.x86_laws ProcessArch.X86.vm ProcessArch.X86.vm_laws.

Definition booted : vmm pmm :=
  match booted_x86 with Some (_, s) => after_heap_init s | None => VmmX86.boot_vmm end.

Lemma booted_rep : ∃ AL, spaces_rep 3 booted AL.
Proof. unfold booted. by destruct booted_x86_rep as (st & s & -> & _ & H & _). Qed.

Definition ready_create (s : vmm pmm) : bool :=
  (length (tables 3 (v_mem s) (v_kernel s)) <=? size (fa_free (frames (v_heap s))))%nat &&
  match kmalloc sizeof_address_space (v_heap (with_pm s (snd (pt_clone 3 (v_kernel s) (v_pm s))))) with
  | Some (a, _) => negb (a =? 0)
  | None => false
  end.

Lemma ready_create_ready s : ready_create s = true → ready 3 Create s.
Proof.
  intros [H1%Nat.leb_le H2]%andb_true_iff. split; [exact H1|].
  destruct (kmalloc _ _) as [[a h]|]; [|done]. exists a, h. split; [done|]. by apply negb_true_iff, Z.eqb_neq in H2.
Qed.

Definition enough_frames (c : option (as_ptr * vmm pmm)) : bool :=
  match c with Some (_, s) => (4 <=? size (fa_free (frames (v_heap s))))%nat | None => false end.

Lemma booted_ready : ready 3 Create booted.
Proof. apply ready_create_ready. vm_compute. reflexivity. Qed.
#[local] Opaque booted.


(** The framebuffer of the boot loader, and the process of ProcessArch.v. *)
Definition example_screen : fb_info := mk_fb true 0xFD000000 3200 800 600.
Definition example_machine : X86.machine logger :=
  X86.mk_machine (mk_logger [] []) interrupts_reset false None Mouse.mouse_reset
    (mk_proc booted (mk_context (mk_regs_x86 1 2 3 4 5 6) 0x60000 0xC0DE) (λ _, 0) 0 0 true) ∅.

Definition passed (r : option (bool * vmm pmm)) : bool := match r with Some (ok, _) => ok | None => false end.
Definition returned (r : option (Z * proc pmm regs_x86)) : Z := match r with Some (c, _) => c | None => -1 end.

Lemma late_init_shows_exit_witness :
  ∃ k' text, X86.arch_late_init 0x1000 0x2000 0x88 0x77 example_screen small_elf 0x60010 (replicate 10 0xCC) (replicate 32 0xCC)
      small_process (λ v, v) example_machine = Some (Returned, k') ∧ is_report 42 text ∧
    X86.x_video k' = Framebuffer.X86.fb_draw_string (Some example_screen) 10 20 0x00FF0000 0x00102030 text
      (Framebuffer.X86.fb_draw_string (Some example_screen) 10 10 0x0000FF00 0x00102030 (bytes "VMM: OK") ∅).
Proof.
  set (s0 := snd (Paging.fb_init example_screen (p_vm (X86.x_proc example_machine)))).
  set (run := λ s, X86.process_run 0x88 0x77 small_elf (Z.of_nat (length small_elf)) 0x60010 small_process
    (with_vm (X86.x_proc example_machine) s)).
  assert (match X86.vmm_selftest s0 with Some (true, s) => returned (run s) | _ => -1 end = 42) as H
    by (vm_compute; reflexivity).
  destruct (X86.vmm_selftest s0) as [[[|] s1]|] eqn:E1; [|discriminate H|discriminate H].
  destruct (run s1) as [[c p2]|] eqn:E2; [|discriminate H]. cbn [returned] in H. subst c.
  destruct (late_init_shows_exit 0x1000 0x2000 0x88 0x77 example_screen small_elf 0x60010 (replicate 10 0xCC) (replicate 32 0xCC)
    small_process (λ v, v) example_machine true s1 42 p2) as (k' & out & E & _ & H).
  - reflexivity.
  - reflexivity.
  - split; [discriminate|reflexivity].
  - exact E1.
  - intros _. exact E2.
  - destruct H as (-> & _ & text & Hr & Hv). exists k', text. split; [exact E|]. split; [exact Hr|exact Hv].
Defined.
(** The whole boot on that machine, with this layer in the place of arch_late_init: the
    self-test passes, the process runs, and the kernel reaches its loop. *)
Definition example_layer : ArchLate pmm regs_x86 :=
  X86.layer 0x1000 0x2000 0x88 0x77 example_screen small_elf 0x60010 (replicate 10 0xCC) (replicate 32 0xCC)
    small_process (λ v, v) example_machine.
Definition booted_pool : pmm :=
  match booted_x86 with Some (_, s) => frames (v_heap s) | None => VmmX86.boot_pool end.

Definition runs (r : option (kernel pmm regs_x86 * list event)) : bool :=
  match r with
  | Some (k, _) => match kernel_state k with KERNEL_STATE_RUNNING => negb (current (k_sched k) =? 0) | _ => false end
  | None => false
  end.

Lemma x86_machine_boots :
  runs (let _ := ProcessArch.X86.switch 0x77 in
    kernel_boot (LATE := example_layer) example_platform
      (mk_kernel KERNEL_STATE_BOOT
        (mk_sched ∅ 0 0 false (boot_heap booted_pool) (p_cpu (X86.x_proc example_machine)) (λ _, 0)) vfs_reset gui_boot)) = true.
Proof. vm_compute. reflexivity. Qed.
End witness.
