(* ===== verification/System.v ===== *)
(** * The running kernel on x86_64: its two threads and its interrupts

    The last part of kernel_main is a loop that is never left.  Here it is put together
    with what runs beside it: the blinker thread, the timer, keyboard and mouse
    interrupts that isr_handler dispatches, and kernel_panic.  A thread is cut into the
    steps between which an interrupt may come: the reads of mouse_get_state and
    keyboard_getchar one by one, the input and the redraw half of gui_update, every call
    of a drawing function.  Handlers run with interrupts off and are one step. *)

From S2P Require Import Prelude.
From S2P Require Import FrameAlloc.
From S2P Require Import Pmm.
From S2P Require Import Heap.
From S2P Require Import Switch.
From S2P Require Import Sched.
From S2P Require Import Vfs.
From S2P Require Import Framebuffer.
From S2P Require Import Gui.
From S2P Require Import Kernel.
From S2P Require Import Ring.
From S2P Require Import PortIo.
From S2P Require Import Interrupts.
From S2P Require Import InputX86.
From S2P Require Import Timers.

(** ** Data *)

(** Where kernel_main's thread is in its loop. *)
Inductive main_pc :=
  | Top
  | Mouse_x
  | Mouse_y (mx : Z)
  | Mouse_buttons (mx my : Z)
  | Mouse_clear (mx my btn : Z)
  | Input (m : option (Z * Z * Z))
  | Clock
  | Painting (ops : list draw_op)
  | Key_load
  | Key_advance (c : Z)
  | Echo (c : Z).

(** The parts that do not change: the framebuffer, the thread records of the two threads
    and the addresses of the three handlers. *)
Record setup := mk_setup {
  su_fb : option fb_info;
  su_main : Z;
  su_blinker : Z;
  su_pit_tick : Z;
  su_keyboard_irq : Z;
  su_mouse_irq : Z
}.

Section machine.
Context {St : Type} `{!FrameOps St} {R : Type} `{!SwitchOps R} {D : Type} `{!PortIo D}.

(** [m_painting] are the calls the blinker's turn has still to make, [m_console] the
    characters given to arch_console_putc. *)
Record machine := mk_machine {
  m_kernel : kernel St R;
  m_ints : interrupts;
  m_ticks : Z;
  m_keyboard : Keyboard.keyboard;
  m_mouse : Mouse.mouse;
  m_main : main_pc;
  m_blinker : blinker;
  m_painting : list draw_op;
  m_video : video;
  m_console : list Z;
  m_if : bool;
  m_halted : bool
}.

Definition with_kernel (k : kernel St R) (M : machine) : machine :=
  mk_machine k (m_ints M) (m_ticks M) (m_keyboard M) (m_mouse M) (m_main M) (m_blinker M)
    (m_painting M) (m_video M) (m_console M) (m_if M) (m_halted M).
Definition with_ticks (t : Z) (M : machine) : machine :=
  mk_machine (m_kernel M) (m_ints M) t (m_keyboard M) (m_mouse M) (m_main M) (m_blinker M)
    (m_painting M) (m_video M) (m_console M) (m_if M) (m_halted M).
Definition with_keyboard (k : Keyboard.keyboard) (M : machine) : machine :=
  mk_machine (m_kernel M) (m_ints M) (m_ticks M) k (m_mouse M) (m_main M) (m_blinker M)
    (m_painting M) (m_video M) (m_console M) (m_if M) (m_halted M).
Definition with_mouse (s : Mouse.mouse) (M : machine) : machine :=
  mk_machine (m_kernel M) (m_ints M) (m_ticks M) (m_keyboard M) s (m_main M) (m_blinker M)
    (m_painting M) (m_video M) (m_console M) (m_if M) (m_halted M).
Definition at_pc (pc : main_pc) (M : machine) : machine :=
  mk_machine (m_kernel M) (m_ints M) (m_ticks M) (m_keyboard M) (m_mouse M) pc (m_blinker M)
    (m_painting M) (m_video M) (m_console M) (m_if M) (m_halted M).
Definition with_blinker (b : blinker) (ops : list draw_op) (M : machine) : machine :=
  mk_machine (m_kernel M) (m_ints M) (m_ticks M) (m_keyboard M) (m_mouse M) (m_main M) b
    ops (m_video M) (m_console M) (m_if M) (m_halted M).
Definition with_video (v : video) (M : machine) : machine :=
  mk_machine (m_kernel M) (m_ints M) (m_ticks M) (m_keyboard M) (m_mouse M) (m_main M) (m_blinker M)
    (m_painting M) v (m_console M) (m_if M) (m_halted M).
Definition with_console (out : list Z) (M : machine) : machine :=
  mk_machine (m_kernel M) (m_ints M) (m_ticks M) (m_keyboard M) (m_mouse M) (m_main M) (m_blinker M)
    (m_painting M) (m_video M) out (m_if M) (m_halted M).
Definition with_flags (iflag halted : bool) (M : machine) : machine :=
  mk_machine (m_kernel M) (m_ints M) (m_ticks M) (m_keyboard M) (m_mouse M) (m_main M) (m_blinker M)
    (m_painting M) (m_video M) (m_console M) iflag halted.

Definition with_sched (s : sched St R) (k : kernel St R) : kernel St R :=
  mk_kernel (kernel_state k) s (k_vfs k) (k_gui k).
Definition with_gui (g : gui) (k : kernel St R) : kernel St R :=
  mk_kernel (kernel_state k) (k_sched k) (k_vfs k) g.

(** ** The processor *)

Definition arch_interrupts_enable (M : machine) : machine := with_flags true (m_halted M) M.
Definition arch_interrupts_disable (M : machine) : machine := with_flags false (m_halted M) M.
Definition arch_cpu_halt (M : machine) : machine := with_flags false true M.
Definition arch_console_putc (c : Z) (M : machine) : machine := with_console (m_console M ++ [c]) M.

Section setup.
Context (su : setup).

Definition paint (op : draw_op) (M : machine) : option machine :=
  v ← run_op (su_fb su) 0 op (m_video M); Some (with_video v M).

(** What the events of Kernel.v do here. *)
Definition exec (e : event) (M : machine) : option machine :=
  match e with
  | Putc c => Some (arch_console_putc c M)
  | Draw op => paint op M
  | Arch "arch_interrupts_disable" => Some (arch_interrupts_disable M)
  | Arch "arch_cpu_halt" => Some (arch_cpu_halt M)
  | Arch _ => Some M
  end.

Definition exec_all (ev : list event) (M : machine) : option machine :=
  foldl (λ r e, r ≫= exec e) (Some M) ev.

(** What gui.c and the blinker see of the rest; the mouse is read step by step. *)
Definition outside_of (m : option (Z * Z * Z)) (M : machine) : outside :=
  mk_outside (X86.fb_available (su_fb su)) (X86.fb_width (su_fb su)) (X86.fb_height (su_fb su)) m
    (pit_get_ticks (m_ticks M)).

(** ** The threads *)

Definition main_step (M : machine) : option machine :=
  let s := m_mouse M in
  let r := Keyboard.buf (m_keyboard M) in
  match m_main M with
  | Top =>
      Some (at_pc (if X86.fb_available (su_fb su)
                   then (if Mouse.state_dirty s then Mouse_x else Input None)
                   else (if r_tail r =? r_head r then Top else Key_load)) M)
  | Mouse_x => Some (at_pc (Mouse_y (Mouse.mouse_x s)) M)
  | Mouse_y mx => Some (at_pc (Mouse_buttons mx (Mouse.mouse_y s)) M)
  | Mouse_buttons mx my => Some (at_pc (Mouse_clear mx my (Mouse.mouse_buttons s)) M)
  | Mouse_clear mx my btn =>
      let s := Mouse.mk_mouse (Mouse.mouse_x s) (Mouse.mouse_y s) (Mouse.mouse_buttons s) false
                 (Mouse.packet s) (Mouse.packet_index s) in
      Some (at_pc (Input (Some (mx, my, btn))) (with_mouse s M))
  | Input m =>
      let g := gui_input (outside_of m M) (k_gui (m_kernel M)) in
      Some (at_pc Clock (with_kernel (with_gui g (m_kernel M)) M))
  | Clock =>
      let '(g, ops) := gui_redraw (outside_of None M) (k_gui (m_kernel M)) in
      Some (at_pc (Painting ops) (with_kernel (with_gui g (m_kernel M)) M))
  | Painting [] => Some (at_pc Top M)
  | Painting (op :: ops) => M ← paint op M; Some (at_pc (Painting ops) M)
  | Key_load => Some (at_pc (Key_advance (zget (r_buf r) (r_tail r))) M)
  | Key_advance c =>
      let r := mk_ring (r_buf r) (r_head r) (u32 (r_tail r + 1) mod KB_BUF_SIZE) in
      Some (at_pc (Echo c) (with_keyboard (Keyboard.mk_keyboard r (Keyboard.shift_held (m_keyboard M))) M))
  | Echo c => Some (at_pc Top (if truth c then arch_console_putc c M else M))
  end.

Definition draws (ev : list event) : list draw_op :=
  omap (λ e, match e with Draw op => Some op | _ => None end) ev.

Definition blinker_step (M : machine) : option machine :=
  match m_painting M with
  | [] => let '(b, ev) := blinker_turn (outside_of None M) (m_blinker M) in
          Some (with_blinker b (draws ev) M)
  | op :: ops => M ← paint op M; Some (with_blinker (m_blinker M) ops M)
  end.

(** One step of the running thread. *)
Definition thread_step (M : machine) : option machine :=
  let t := sched_current (k_sched (m_kernel M)) in
  if t =? su_main su then main_step M else
  if t =? su_blinker su then blinker_step M else None.

(** Its computation on registers and stack, of which Sched.v keeps account. *)
Definition compute (c : context R) (m : memory) (M : machine) : machine :=
  with_kernel (with_sched (running (k_sched (m_kernel M)) c m) (m_kernel M)) M.

(** ** The interrupts *)

(** [d] is the state of the devices at that time. *)
Definition interrupt (regs : registers) (d : D) (M : machine) : option machine :=
  let '(t, d) := isr_handler regs (m_ints M) d in
  match t with
  | Handler h =>
      if h =? su_pit_tick su then
        '(t, s) ← pit_tick (m_ticks M) (k_sched (m_kernel M));
        Some (with_ticks t (with_kernel (with_sched s (m_kernel M)) M))
      else if h =? su_keyboard_irq su then
        let '(sc, _) := inb Keyboard.KB_DATA_PORT d in
        Some (with_keyboard (Keyboard.keyboard_irq sc (m_keyboard M)) M)
      else if h =? su_mouse_irq su then
        let '(data, _) := inb Mouse.I8042_DATA d in
        Some (with_mouse (Mouse.mouse_irq (X86.fb_width (su_fb su)) (X86.fb_height (su_fb su)) data (m_mouse M)) M)
      else None
  | Return => Some M
  | Panic msg =>
      '(k, ev) ← kernel_panic (bytes msg ++ [0]) (m_kernel M);
      exec_all ev (with_kernel k M)
  | Syscall | Fault => None
  end.

(** ** The system

    Beside the machine a configuration has what is known of it: the threads in the order
    they run, with their contexts, and the characters the keyboard has accepted. *)
Record config := mk_config { cf_machine : machine; cf_threads : list (entry (R:=R)); cf_typed : list Z }.

Definition queued (M : machine) : list Z := contents (Keyboard.buf (m_keyboard M)).

(** What an interrupt has appended to the keyboard's queue. *)
Definition newly_typed (M M' : machine) : list Z := drop (length (queued M)) (queued M').

Inductive sys_step : config → config → Prop :=
  | step_interrupt M T typed regs d M' :
      m_if M = true → IRQ_BASE <= int_no regs < IRQ_BASE + IRQ_COUNT →
      interrupt regs d M = Some M' →
      sys_step (mk_config M T typed)
        (mk_config M' (if int_no regs =? IRQ_BASE then rot1 T else T) (typed ++ newly_typed M M'))
  | step_exception M T typed regs d M' :
      0 <= int_no regs < IRQ_BASE → interrupt regs d M = Some M' →
      sys_step (mk_config M T typed) (mk_config M' T typed)
  | step_thread M e T typed c m M' :
      m_halted M = false → in_stack e c →
      (∀ e' x, e' ∈ T → e_lo e' <= x < e_hi e' → m x = mem (k_sched (m_kernel M)) x) →
      thread_step (compute c m M) = Some M' →
      sys_step (mk_config M (e :: T) typed) (mk_config M' (with_ctx e c :: T) typed).

(** The handlers are at three different places, and installed. *)
Record installed (i : interrupts) : Prop := {
  in_handlers : irq_handlers i =
    <[12%nat := su_mouse_irq su]> (<[1%nat := su_keyboard_irq su]> (<[0%nat := su_pit_tick su]> (replicate 16 0)));
  in_nodup : NoDup [0; su_pit_tick su; su_keyboard_irq su; su_mouse_irq su]
}.
End setup.
End machine.
Arguments machine : clear implicits.
Arguments config : clear implicits.

(** ** The invariant *)

Section proofs.
Context {St : Type} `{!FrameOps St, !FrameLaws St} {R : Type} `{!SwitchOps R, !SwitchLaws R}.
Context {D : Type} `{!PortIo D} (in_byte : ∀ p (d : D), in_u 8 (fst (inb p d))).
Context (su : setup).
Context (small : X86.fb_available (su_fb su) = true →
  0 < X86.fb_width (su_fb su) < 2 ^ 30 ∧ 0 < X86.fb_height (su_fb su) < 2 ^ 30).
Implicit Types (M : machine St R).

Abbreviation screen_w := (X86.fb_width (su_fb su)).
Abbreviation screen_h := (X86.fb_height (su_fb su)).
Abbreviation graphics := (X86.fb_available (su_fb su)).

Definition on_screen_at (x y : Z) : Prop := 0 <= x < screen_w ∧ 0 <= y < screen_h.

(** What kernel_main's thread knows at its point. *)
Definition pc_fine M : Prop :=
  match m_main M with
  | Top | Clock | Input None => True
  | Mouse_x => graphics = true
  | Mouse_y mx => graphics = true ∧ 0 <= mx < screen_w
  | Mouse_buttons mx my | Mouse_clear mx my _ | Input (Some (mx, my, _)) => graphics = true ∧ on_screen_at mx my
  | Painting ops => Forall no_line ops
  | Key_load => queued M ≠ []
  | Key_advance c => head (queued M) = Some c
  | Echo c => c ≠ 0
  end.

(** The character that is neither in the ring nor on the console. *)
Definition in_hand M : list Z := match m_main M with Echo c => [c] | _ => [] end.

Definition video_fine (v0 v : video) : Prop :=
  match su_fb su with Some i => stays_on_screen i v0 v | None => v = v0 end.

Record running_inv (v0 : video) (out0 : list Z) (c : config St R) : Prop := {
  ri_installed : installed su (m_ints (cf_machine c));
  ri_sched : ring_rep (k_sched (m_kernel (cf_machine c)), cf_threads c);
  ri_threads : e_addr <$> cf_threads c ≡ₚ [su_main su; su_blinker su];
  ri_state : kernel_state (m_kernel (cf_machine c)) = KERNEL_STATE_RUNNING;
  ri_on : m_if (cf_machine c) = true ∧ m_halted (cf_machine c) = false;
  ri_gui : gui_wf (k_gui (m_kernel (cf_machine c)));
  ri_cursor : graphics = true →
    on_screen_at (cursor_x (k_gui (m_kernel (cf_machine c)))) (cursor_y (k_gui (m_kernel (cf_machine c))));
  ri_mouse : graphics = true → Mouse.mouse_ok screen_w screen_h (m_mouse (cf_machine c));
  ri_ring : ring_wf (Keyboard.buf (m_keyboard (cf_machine c))) ∧ 0 ∉ queued (cf_machine c);
  ri_pc : pc_fine (cf_machine c);
  ri_painting : Forall no_line (m_painting (cf_machine c));
  ri_video : video_fine v0 (m_video (cf_machine c));
  ri_echo : ∃ out, m_console (cf_machine c) = out0 ++ out ∧
    cf_typed c = out ++ in_hand (cf_machine c) ++ queued (cf_machine c)
}.

(** *** Interrupts *)

(** The entry of the table for a concrete vector. *)
Ltac pick_handler :=
  lazymatch goal with
  | |- context [Z.to_nat ?z] => let k := eval vm_compute in (Z.to_nat z) in change (Z.to_nat z) with k
  end; cbn.

Lemma dispatch M regs (d : D) :
  installed su (m_ints M) → IRQ_BASE <= int_no regs < IRQ_BASE + IRQ_COUNT →
  ∃ d', isr_handler regs (m_ints M) d =
    ((if int_no regs =? 32 then Handler (su_pit_tick su) else
      if int_no regs =? 33 then Handler (su_keyboard_irq su) else
      if int_no regs =? 44 then Handler (su_mouse_irq su) else Return), d').
Proof.
  intros [Hh Hnd] Hn. unfold IRQ_BASE, IRQ_COUNT in Hn. unfold isr_handler. rewrite Hh.
  apply NoDup_cons in Hnd as [H0 _]. rewrite !not_elem_of_cons in H0. destruct H0 as (Hp & Hk & Hm & _).
  unfold SYSCALL_VECTOR, IRQ_BASE. destruct (Z.eqb_spec (int_no regs) 0x80); [lia|].
  destruct (Z.ltb_spec (int_no regs) 32); [lia|].
  rewrite u32_id, i32_id by (unfold in_u, in_i; lia). generalize (outb 0x20 0x20 (if 8 <=? int_no regs - 32 then outb 0xA0 0x20 d else d)).
  intros d1. exists d1.
  set (vec := int_no regs) in *. assert (vec ∈ seqZ 32 16) as Hin by (apply elem_of_seqZ; lia). clearbody vec.
  apply not_eq_sym, Z.eqb_neq in Hp. apply not_eq_sym, Z.eqb_neq in Hk. apply not_eq_sym, Z.eqb_neq in Hm.
  change (seqZ 32 16) with [32;33;34;35;36;37;38;39;40;41;42;43;44;45;46;47] in Hin.
  repeat (apply elem_of_cons in Hin as [->|Hin]; [by pick_handler; rewrite ?Hp, ?Hk, ?Hm|]).
  by apply not_elem_of_nil in Hin.
Qed.

(** The keyboard interrupt appends to the queue. *)
Lemma keyboard_appends sc k :
  ring_wf (Keyboard.buf k) → 0 ∉ contents (Keyboard.buf k) →
  ring_wf (Keyboard.buf (Keyboard.keyboard_irq sc k)) ∧
  ∃ q, contents (Keyboard.buf (Keyboard.keyboard_irq sc k)) = contents (Keyboard.buf k) ++ q ∧ 0 ∉ q.
Proof.
  intros Hw H0.
  assert (∃ q, contents (Keyboard.buf k) = contents (Keyboard.buf k) ++ q ∧ 0 ∉ q) as Hsame
    by (exists []; rewrite app_nil_r; split; [done|apply not_elem_of_nil]).
  unfold Keyboard.keyboard_irq. repeat (case_if; [by split|]).
  set (ch := if Keyboard.shift_held k then _ else _). destruct (truth ch) eqn:Ech; [|by split].
  cbn. destruct (push_refines ch _ Hw) as [Hw' ->]. split; [done|].
  unfold queue_push. case_decide; [done|]. exists [ch]. split; [done|].
  rewrite list_elem_of_singleton. intros <-. by apply truth_nonzero in Ech.
Qed.

Lemma newly_typed_same M M' : queued M' = queued M → newly_typed M M' = [].
Proof. unfold newly_typed. intros ->. apply drop_all. Qed.

Lemma pc_fine_append M M' q :
  m_main M' = m_main M → queued M' = queued M ++ q → pc_fine M → pc_fine M'.
Proof.
  unfold pc_fine. intros -> ->. destruct (m_main M) as [| | | | |m| | | | |]; try done.
  - by destruct (queued M).
  - by destruct (queued M).
Qed.

Lemma tick_now (s : sched St R) T :
  ring_rep (s, T) → ∃ s', sched_tick s = Some s' ∧ ring_rep (s', rot1 T) ∧ (e_addr <$> rot1 T) ≡ₚ (e_addr <$> T).
Proof.
  intros (e & L & HT & Hr). cbn in HT, Hr. subst T. pose proof (sr_cpu _ _ _ Hr) as Hc.
  destruct (tick_rep s e L (cpu s) (mem s) Hr) as (s' & Es & Hr').
  - rewrite Hc. apply (sr_room _ _ _ Hr). left.
  - done.
  - exists s'. replace (running s (cpu s) (mem s)) with s in Es by (by destruct s).
    split; [done|]. rewrite Hc in Hr'. replace (with_ctx e (e_ctx e)) with e in Hr' by (by destruct e).
    split; [done|]. cbn. rewrite fmap_app. cbn. symmetry. apply Permutation_cons_append.
Qed.

(** An interrupt is always handled, and keeps the invariant. *)
Lemma interrupt_inv v0 out0 M T typed regs (d : D) :
  running_inv v0 out0 (mk_config M T typed) → IRQ_BASE <= int_no regs < IRQ_BASE + IRQ_COUNT →
  ∃ M', interrupt su regs d M = Some M' ∧
    running_inv v0 out0
      (mk_config M' (if int_no regs =? IRQ_BASE then rot1 T else T) (typed ++ newly_typed M M')).
Proof.
  intros [Hin Hs Ht Hst Hon Hg Hcu Hmo [Hw H0] Hpc Hpa Hv (out & Ho & Hq)] Hn. cbn in *.
  destruct (dispatch M regs d Hin Hn) as [d' Hd]. unfold interrupt. rewrite Hd.
  destruct Hin as [Hh Hnd]. pose proof Hnd as (_ & (Hpk & (Hkm & _)%NoDup_cons)%NoDup_cons)%NoDup_cons.
  rewrite !not_elem_of_cons in Hpk. rewrite not_elem_of_cons in Hkm. destruct Hpk as (Hpk & Hpm & _), Hkm as [Hkm _].
  change IRQ_BASE with 32 in *. destruct (Z.eqb_spec (int_no regs) 32) as [E|E].
  - rewrite Z.eqb_refl. destruct (tick_now _ _ Hs) as (s' & Es & Hs' & HT). unfold pit_tick. rewrite Es. cbn.
    eexists. split; [done|]. rewrite newly_typed_same, app_nil_r by done. split; cbn; try done; [by rewrite HT|by exists out].
  - destruct (Z.eqb_spec (int_no regs) 33) as [E1|E1]; [|destruct (Z.eqb_spec (int_no regs) 44) as [E2|E2]].
    + rewrite (proj2 (Z.eqb_neq (su_keyboard_irq su) _)), Z.eqb_refl by congruence.
      destruct (inb _ d') as [sc d2]. destruct (keyboard_appends sc _ Hw H0) as (Hw' & q & Eq & Hq0).
      eexists. split; [done|]. set (M' := with_keyboard _ M).
      assert (queued M' = queued M ++ q) as EM by done.
      assert (newly_typed M M' = q) as -> by (unfold newly_typed; by rewrite EM, drop_app_length).
      split; cbn; try done.
      * split; [done|]. rewrite EM. set_solver.
      * by apply (pc_fine_append M M' q).
      * exists out. split; [done|]. rewrite EM, Hq. by rewrite <- !(assoc_L (++)).
    + rewrite (proj2 (Z.eqb_neq (su_mouse_irq su) _)), (proj2 (Z.eqb_neq (su_mouse_irq su) _)), Z.eqb_refl by congruence.
      pose proof (in_byte Mouse.I8042_DATA d') as Hb. destruct (inb _ d') as [data d2]. cbn in Hb.
      eexists. split; [done|]. rewrite newly_typed_same, app_nil_r by done. split; cbn; try done; [|by exists out].
      intros Hgr. destruct (small Hgr). apply Mouse.mouse_irq_ok; [done|done|exact Hb|by apply Hmo].
    + exists M. split; [done|]. rewrite newly_typed_same, app_nil_r by done. split; cbn; try done. by exists out.
Qed.

(** *** Drawing *)

Lemma run_op_off op v v' : run_op None 0 op v = Some v' → no_line op → v' = v.
Proof.
  destruct op as [x y rgb|x y w h rgb|rgb|x0 y0 x1 y1 rgb|x y fg bg str]; cbn; try (by intros [= <-]); [done|].
  intros [= <-] _. unfold X86.fb_draw_string, draw_string. generalize (u32 x) at 2. generalize (u32 y). revert v.
  induction str as [|ch str IH]; intros v cy cx; cbn [draw_string_from]; [done|]. case_if; rewrite IH; [done|].
  unfold draw_char. apply for_up_nop. intros row t _. by apply for_up_nop.
Qed.

Lemma paint_fine op v0 M :
  no_line op → video_fine v0 (m_video M) →
  ∃ v, paint su op M = Some (with_video v M) ∧ video_fine v0 v.
Proof.
  intros Hop Hv. assert (is_Some (run_op (su_fb su) 0 op (m_video M))) as [v Ev] by (destruct op; by eauto).
  exists v. unfold paint. rewrite Ev. split; [done|]. unfold video_fine in *. destruct (su_fb su) as [i|].
  - etrans; [exact Hv|]. by apply (run_op_stays i 0 op).
  - rewrite <- Hv. by apply (run_op_off op).
Qed.

(** *** The threads *)

Lemma compute_inv v0 out0 M e T typed c m :
  running_inv v0 out0 (mk_config M (e :: T) typed) → in_stack e c →
  (∀ e' x, e' ∈ T → e_lo e' <= x < e_hi e' → m x = mem (k_sched (m_kernel M)) x) →
  running_inv v0 out0 (mk_config (compute c m M) (with_ctx e c :: T) typed).
Proof.
  intros [Hin Hs Ht Hst Hon Hg Hcu Hmo Hr Hpc Hpa Hv He] Hc Hm. cbn in *.
  destruct Hs as (e' & T' & [= <- <-] & Hs). split; cbn; try done.
  - exists (with_ctx e c), T. split; [done|]. by apply running_rep.
Qed.

Lemma key_ready M : ring_wf (Keyboard.buf (m_keyboard M)) → queued M ≠ [] →
  r_tail (Keyboard.buf (m_keyboard M)) ≠ r_head (Keyboard.buf (m_keyboard M)).
Proof.
  intros Hw Hq E. apply Hq, nil_length_inv. unfold queued. rewrite length_contents. unfold count.
  by rewrite E, Z.sub_diag.
Qed.

(** Reading the mouse. *)
Lemma mouse_steps_inv v0 out0 M T typed :
  running_inv v0 out0 (mk_config M T typed) →
  (m_main M = Mouse_x ∨ (∃ mx, m_main M = Mouse_y mx) ∨ (∃ mx my, m_main M = Mouse_buttons mx my) ∨
   ∃ mx my b, m_main M = Mouse_clear mx my b) →
  ∃ M', main_step su M = Some M' ∧ running_inv v0 out0 (mk_config M' T typed).
Proof.
  intros [Hin Hs Ht Hst Hon Hg Hcu Hmo Hr Hpc Hpa Hv (out & Ho & Hq)] Hc. cbn in *. unfold main_step.
  unfold pc_fine, in_hand in *.
  assert (graphics = true) as Hgr by (destruct Hc as [E|[[? E]|[(? & ? & E)|(? & ? & ? & E)]]]; rewrite E in Hpc; naive_solver).
  pose proof (Hmo Hgr) as [Hmx Hmy Hp Hi].
  destruct Hc as [E|[[? E]|[(? & ? & E)|(? & ? & ? & E)]]]; rewrite E in Hpc, Hq |- *;
    (eexists; split; [reflexivity|]); split; cbn; try done; try (by exists out);
    unfold pc_fine, on_screen_at; cbn; tauto.
Qed.

(** Reading the keyboard. *)
Lemma key_steps_inv v0 out0 M T typed :
  running_inv v0 out0 (mk_config M T typed) →
  (m_main M = Key_load ∨ (∃ c, m_main M = Key_advance c) ∨ ∃ c, m_main M = Echo c) →
  ∃ M', main_step su M = Some M' ∧ running_inv v0 out0 (mk_config M' T typed).
Proof.
  intros [Hin Hs Ht Hst Hon Hg Hcu Hmo [Hw H0] Hpc Hpa Hv (out & Ho & Hq)] Hc. cbn in *. unfold main_step.
  unfold pc_fine, in_hand in *. destruct Hc as [E|[[ch E]|[ch E]]]; rewrite E in Hpc, Hq |- *; (eexists; split; [reflexivity|]).
  - destruct (contents_nonempty _ Hw (key_ready M Hw Hpc)) as [Eq _].
    split; cbn; try done; [|by exists out]. unfold pc_fine, queued. cbn. by rewrite Eq.
  - assert (queued M ≠ []) as Hne by (by destruct (queued M)).
    destruct (contents_nonempty _ Hw (key_ready M Hw Hne)) as [Eq Er]. rewrite <- Er. fold (queued M) in Eq.
    assert (queued M = ch :: contents (snd (pop (Keyboard.buf (m_keyboard M))))) as EM
      by (rewrite Eq in Hpc; injection Hpc as <-; exact Eq).
    rewrite EM in H0, Hq. apply not_elem_of_cons in H0 as [Hch H0].
    split; cbn; try done.
    + split; [|done]. by apply pop_refines.
    + exists out. by split.
  - rewrite (proj2 (truth_nonzero ch) Hpc). split; cbn; try done. exists (out ++ [ch]).
    rewrite Ho, <- !(assoc_L (++)). split; [done|]. by rewrite Hq.
Qed.

Lemma main_step_inv v0 out0 M T typed :
  running_inv v0 out0 (mk_config M T typed) →
  ∃ M', main_step su M = Some M' ∧ running_inv v0 out0 (mk_config M' T typed).
Proof.
  intros HI. destruct (m_main M) as [| |mx|mx my|mx my b|im| |[|op ops]| |ch|ch] eqn:E;
    try (apply mouse_steps_inv; [done|]; rewrite E; by eauto 8); try (apply key_steps_inv; [done|]; rewrite E; by eauto 8);
    destruct HI as [Hin Hs Ht Hst Hon Hg Hcu Hmo [Hw H0] Hpc Hpa Hv (out & Ho & Hq)]; cbn in *;
    unfold main_step; unfold pc_fine, in_hand in *; rewrite E in Hpc, Hq |- *.
  - eexists. split; [done|]. split; cbn; try done; unfold pc_fine, in_hand; cbn.
    + destruct graphics; [by destruct (Mouse.state_dirty (m_mouse M))|]. case_if; bool_to_prop; [done|]. cbn.
      destruct (contents_nonempty _ Hw) as [Eq _]; [done|]. unfold queued. cbn. by rewrite Eq.
    + exists out. split; [done|]. destruct graphics; [by destruct (Mouse.state_dirty (m_mouse M))|by case_if].
  - eexists. split; [done|]. split; cbn; try done; [by apply gui_input_wf| |by exists out].
    intros Hgr. pose proof (gui_input_cursor (outside_of su im M) (k_gui (m_kernel M))) as Hc. cbn [mouse outside_of] in Hc.
    destruct im as [[[mx my] b]|]; injection Hc as -> ->; [by apply Hpc|by apply Hcu].
  - pose proof (gui_redraw_wf (outside_of su None M) _ Hg) as Hg'.
    pose proof (gui_redraw_no_line (outside_of su None M) (k_gui (m_kernel M))) as Hnl.
    assert (∀ o g, cursor_x (fst (gui_redraw o g)) = cursor_x g ∧ cursor_y (fst (gui_redraw o g)) = cursor_y g) as Hcur
      by (intros o g; unfold gui_redraw; by case_if).
    destruct (Hcur (outside_of su None M) (k_gui (m_kernel M))) as [Hx Hy].
    destruct (gui_redraw _ _) as [g' ops]. cbn in *. eexists. split; [done|].
    split; cbn; try done; [by rewrite Hx, Hy|by exists out].
  - eexists. split; [done|]. split; cbn; try done. by exists out.
  - apply Forall_cons in Hpc as [Hop Hops]. destruct (paint_fine op v0 M Hop Hv) as (v & -> & Hv'). cbn.
    eexists. split; [done|]. split; cbn; try done. by exists out.
Qed.

Lemma blinker_step_inv v0 out0 M T typed :
  running_inv v0 out0 (mk_config M T typed) →
  ∃ M', blinker_step su M = Some M' ∧ running_inv v0 out0 (mk_config M' T typed).
Proof.
  intros [Hin Hs Ht Hst Hon Hg Hcu Hmo Hr Hpc Hpa Hv (out & Ho & Hq)]. cbn in *. unfold blinker_step.
  destruct (m_painting M) as [|op ops].
  - destruct (blinker_turn _ _) as [b ev] eqn:Eb. eexists. split; [done|]. split; cbn; try done; [|by exists out].
    assert (Forall no_line (draws (snd (blinker_turn (outside_of su None M) (m_blinker M))))) as H; [|by rewrite Eb in H].
    unfold blinker_turn. destruct (100 <=? _); [|constructor]. destruct (gfx_available _); by repeat constructor.
  - apply Forall_cons in Hpa as [Hop Hops]. destruct (paint_fine op v0 M Hop Hv) as (v & -> & Hv'). cbn.
    eexists. split; [done|]. split; cbn; try done. by exists out.
Qed.

(** The timer gives the processor to the other thread. *)
Lemma tick_alternates v0 out0 M T typed regs (d : D) M' :
  running_inv v0 out0 (mk_config M T typed) → int_no regs = IRQ_BASE → interrupt su regs d M = Some M' →
  sched_current (k_sched (m_kernel M')) ≠ sched_current (k_sched (m_kernel M)).
Proof.
  intros HI Hn E. destruct (interrupt_inv _ _ _ _ _ regs d HI) as (M2 & E2 & HI2).
  { rewrite Hn. unfold IRQ_BASE, IRQ_COUNT. lia. }
  rewrite E in E2. injection E2 as <-. rewrite Hn, Z.eqb_refl in HI2.
  destruct (ri_sched _ _ _ HI) as (e & L & HT & Hs). cbn in HT, Hs. subst T.
  pose proof (Permutation_length (ri_threads _ _ _ HI)) as Hl. cbn in Hl. rewrite length_fmap in Hl.
  destruct L as [|e1 [|]]; [discriminate| |discriminate].
  destruct (ri_sched _ _ _ HI2) as (e' & L' & [= <- <-] & Hs'). cbn in Hs'. unfold sched_current.
  rewrite (sr_current _ _ _ Hs), (sr_current _ _ _ Hs'). pose proof (sr_nodup _ _ _ Hs) as Hnd. cbn in Hnd.
  apply NoDup_cons in Hnd as [Hni _]. rewrite list_elem_of_singleton in Hni. congruence.
Qed.

(** The running thread can always make its step. *)
Lemma thread_inv v0 out0 M e T typed c m :
  running_inv v0 out0 (mk_config M (e :: T) typed) → in_stack e c →
  (∀ e' x, e' ∈ T → e_lo e' <= x < e_hi e' → m x = mem (k_sched (m_kernel M)) x) →
  ∃ M', thread_step su (compute c m M) = Some M' ∧
    running_inv v0 out0 (mk_config M' (with_ctx e c :: T) typed).
Proof.
  intros HI Hc Hm. pose proof (compute_inv _ _ _ _ _ _ _ _ HI Hc Hm) as HI'. unfold thread_step, sched_current.
  destruct (ri_sched _ _ _ HI') as (e' & T' & [= <- <-] & Hs). cbn [cf_machine fst] in Hs.
  rewrite (sr_current _ _ _ Hs). cbn [with_ctx e_addr].
  assert (e_addr e ∈ [su_main su; su_blinker su]) as Hin.
  { pose proof (ri_threads _ _ _ HI') as Ht. cbn in Ht. rewrite <- Ht. left. }
  destruct (Z.eqb_spec (e_addr e) (su_main su)) as [E|E]; [by apply main_step_inv|].
  rewrite (proj2 (Z.eqb_eq _ (su_blinker su))); [by apply blinker_step_inv|].
  apply elem_of_cons in Hin as [?|Hin%list_elem_of_singleton]; done.
Qed.

(** ** Panic *)

Lemma exec_all_app ev1 ev2 M : exec_all su (ev1 ++ ev2) M = exec_all su ev1 M ≫= exec_all su ev2.
Proof.
  unfold exec_all. rewrite foldl_app. destruct (foldl _ (Some M) ev1) as [M1|]; [done|]. cbn.
  by induction ev2.
Qed.

Lemma exec_all_cons e ev M : exec_all su (e :: ev) M = exec su e M ≫= exec_all su ev.
Proof. apply (exec_all_app [e]). Qed.

Lemma exec_puts l M : exec_all su (puts l) M = Some (with_console (m_console M ++ l) M).
Proof.
  unfold exec_all, puts. revert M. induction l as [|ch l IH]; intros M; cbn.
  - rewrite app_nil_r. by destruct M.
  - etrans; [apply IH|]. cbn. by rewrite <- (assoc_L (++)).
Qed.

Definition dead (k : kernel St R) : kernel St R := mk_kernel KERNEL_STATE_PANIC (k_sched k) (k_vfs k) (k_gui k).

(** The machine after a panic with the message [msg]. *)
Definition panicked (msg : list Z) M : machine St R :=
  with_console (m_console M ++ bytes "PANIC: " ++ msg) (with_flags false true (with_kernel (dead (m_kernel M)) M)).

Lemma exception_text n msg : exception_names !! n = Some msg → c_string (bytes msg ++ [0]) = Some (bytes msg).
Proof.
  intros H. apply (c_string_app (bytes msg) []).
  assert (forallb (λ s, forallb (λ ch, negb (ch =? 0)) (bytes s)) exception_names = true) as Hall by (vm_compute; done).
  rewrite forallb_forall in Hall. specialize (Hall msg). rewrite <- list_elem_of_In in Hall.
  specialize (Hall (list_elem_of_lookup_2 _ _ _ H)). rewrite forallb_forall in Hall.
  apply Forall_forall. intros ch Hch%list_elem_of_In. specialize (Hall ch Hch). bool_to_prop. lia.
Qed.

Lemma exception_panics regs (d : D) M :
  0 <= int_no regs < IRQ_BASE →
  ∃ msg, exception_names !! Z.to_nat (int_no regs) = Some msg ∧
    interrupt su regs d M = Some (panicked (bytes msg) M).
Proof.
  intros Hn. change IRQ_BASE with 32 in Hn.
  destruct (exception_names !! Z.to_nat (int_no regs)) as [msg|] eqn:E.
  2:{ apply lookup_ge_None in E. cbn in E. lia. }
  exists msg. split; [done|]. unfold interrupt, isr_handler. unfold SYSCALL_VECTOR.
  rewrite (proj2 (Z.eqb_neq _ _)), (proj2 (Z.ltb_lt _ _)), E by lia. cbn [fst snd].
  unfold kernel_panic, console_puts. rewrite (exception_text _ _ E). cbn [fmap option_fmap option_map mbind option_bind].
  cbn [app]. rewrite exec_all_cons. cbn [exec mbind option_bind]. rewrite exec_all_app, exec_puts. cbn [mbind option_bind]. rewrite exec_all_app, exec_puts. cbn [mbind option_bind].
  unfold panicked. cbn. by rewrite <- !(assoc_L (++)).
Qed.

Lemma frozen_step M T typed c :
  m_halted M = true → m_if M = false → kernel_state (m_kernel M) = KERNEL_STATE_PANIC →
  sys_step su (mk_config M T typed) c → ∃ out, cf_machine c = with_console (m_console M ++ out) M.
Proof.
  intros Hh Hi Hk Hs. inversion Hs as [? ? ? ? ? ? Hon|? ? ? regs d M' Hn E|? ? ? ? ? ? ? Hrun]; subst; [congruence| |congruence].
  destruct (exception_panics regs d M Hn) as (msg & _ & E'). rewrite E in E'. injection E' as ->.
  exists (bytes "PANIC: " ++ bytes msg). destruct M as [[]]. cbn in *. by subst.
Qed.

Lemma frozen_steps M T typed c :
  m_halted M = true → m_if M = false → kernel_state (m_kernel M) = KERNEL_STATE_PANIC →
  rtc (sys_step su) (mk_config M T typed) c → ∃ out, cf_machine c = with_console (m_console M ++ out) M.
Proof.
  intros Hh Hi Hk Hs. remember (mk_config M T typed) as c0 eqn:Ec. revert M T typed Ec Hh Hi Hk.
  induction Hs as [|c0 c1 c2 H1 _ IH]; intros M T typed -> Hh Hi Hk.
  - exists []. rewrite app_nil_r. by destruct M.
  - destruct (frozen_step M T typed c1 Hh Hi Hk H1) as [o1 E1]. destruct c1 as [M1 T1 ty1]. cbn in E1. subst M1.
    destruct (IH _ T1 ty1 eq_refl Hh Hi Hk) as [o2 ->]. exists (o1 ++ o2). cbn. by rewrite (assoc_L (++)).
Qed.

(** ** Reachable configurations *)

Definition halted_for_good (c : config St R) : Prop :=
  m_halted (cf_machine c) = true ∧ m_if (cf_machine c) = false ∧
  kernel_state (m_kernel (cf_machine c)) = KERNEL_STATE_PANIC.

Lemma sys_step_inv v0 out0 c c' :
  sys_step su c c' → running_inv v0 out0 c → running_inv v0 out0 c' ∨ halted_for_good c'.
Proof.
  intros Hs HI. destruct Hs as [M T typed regs d M' _ Hn E|M T typed regs d M' Hn E|M e T typed c m M' _ Hc Hm E].
  - destruct (interrupt_inv _ _ _ _ _ regs d HI Hn) as (M2 & E2 & HI2). left. by simplify_eq.
  - destruct (exception_panics regs d M Hn) as (msg & _ & E'). simplify_eq. right. by repeat split.
  - destruct (thread_inv _ _ _ _ _ _ _ _ HI Hc Hm) as (M2 & E2 & HI2). left. by simplify_eq.
Qed.

Lemma reachable_inv v0 out0 c c' :
  rtc (sys_step su) c c' → running_inv v0 out0 c → running_inv v0 out0 c' ∨ halted_for_good c'.
Proof.
  induction 1 as [|c c1 c' H1 Hs IH]; [by left|]. intros HI.
  destruct (sys_step_inv _ _ _ _ H1 HI) as [HI1|(Hh & Hi & Hk)]; [by apply IH|]. right.
  destruct c1 as [M1 T1 ty1]. destruct (frozen_steps M1 T1 ty1 c' Hh Hi Hk Hs) as [out E].
  unfold halted_for_good. by rewrite E.
Qed.

(** ** A turn of the loop without interruption *)

Lemma paint_all ops v0 :
  Forall no_line ops →
  ∃ v, ∀ M, m_video M = v0 → exec_all su (Draw <$> ops) M = Some (with_video v M) ∧
    rtc (λ M M', main_step su M = Some M') (at_pc (Painting ops) M) (at_pc Top (with_video v M)).
Proof.
  intros Hops. revert v0. induction Hops as [|op ops Hop _ IH]; intros v0.
  - exists v0. intros M <-. split; [by destruct M|]. apply rtc_once. by destruct M.
  - assert (is_Some (run_op (su_fb su) 0 op v0)) as [v Ev] by (destruct op; by eauto).
    destruct (IH v) as [v' H]. exists v'. intros M <-. destruct (H (with_video v M) eq_refl) as [E Hr]. split.
    + rewrite fmap_cons, exec_all_cons. cbn [exec]. unfold paint. rewrite Ev. exact E.
    + eapply rtc_l; [|exact Hr]. cbn. unfold paint. cbn [m_video at_pc]. by rewrite Ev.
Qed.

(** Reading the mouse, and the keyboard. *)
Lemma mouse_turn M :
  m_main M = Top → graphics = true →
  rtc (λ M M', main_step su M = Some M') M
    (at_pc (Input (fst (Mouse.mouse_get_state (m_mouse M)))) (with_mouse (snd (Mouse.mouse_get_state (m_mouse M))) M)).
Proof.
  intros Ht Hg. unfold Mouse.mouse_get_state. destruct (Mouse.state_dirty (m_mouse M)) eqn:Ed; cbn [negb fst snd].
  - do 4 (eapply rtc_l; [unfold main_step; rewrite ?Ht; cbn; rewrite ?Hg, ?Ed; reflexivity|]).
    apply rtc_once. reflexivity.
  - apply rtc_once. unfold main_step. rewrite Ht, Hg, Ed. by destruct M.
Qed.

Lemma key_turn M :
  m_main M = Top → graphics = false →
  let '(key, k') := Keyboard.keyboard_getchar (m_keyboard M) in
  rtc (λ M M', main_step su M = Some M') M
    (with_keyboard k' (if truth key then arch_console_putc key M else M)).
Proof.
  intros Ht Hg. unfold Keyboard.keyboard_getchar, pop. destruct (r_tail _ =? r_head _) eqn:E.
  - cbn. apply rtc_once. unfold main_step. rewrite Ht, Hg, E. destruct M as [? ? ? []]. cbn in *. by rewrite Ht.
  - eapply rtc_l; [unfold main_step; rewrite Ht, Hg, E; reflexivity|]. eapply rtc_l; [reflexivity|].
    eapply rtc_l; [reflexivity|]. apply rtc_once. cbn. destruct (truth _); destruct M; cbn in *; by rewrite Ht.
Qed.

(** A turn of the loop that is not interrupted is [kernel_idle]: these steps are those of
    Kernel.v, cut where an interrupt may come. *)
Lemma turn_is_kernel_idle M :
  m_main M = Top →
  let '(report, s') := Mouse.mouse_get_state (m_mouse M) in
  let '(key, k') := Keyboard.keyboard_getchar (m_keyboard M) in
  let '(k, ev) := kernel_idle (outside_of su report M) key (m_kernel M) in
  ∃ M1, exec_all su ev M = Some M1 ∧
    rtc (λ M M', main_step su M = Some M') M
      (with_kernel k (if graphics then with_mouse s' M1 else with_keyboard k' M1)).
Proof.
  clear small. intros Ht. pose proof (mouse_turn M Ht) as Hm. pose proof (key_turn M Ht) as Hk.
  destruct (Mouse.mouse_get_state (m_mouse M)) as [report s'].
  destruct (Keyboard.keyboard_getchar (m_keyboard M)) as [key k'].
  unfold kernel_idle. cbn [gfx_available outside_of fst snd] in *. destruct graphics eqn:Hgr.
  - unfold gui_update. cbn [gfx_available outside_of]. rewrite Hgr. cbn [negb].
    set (g := gui_input _ _). destruct (gui_redraw (outside_of su report M) g) as [g' ops] eqn:Eg.
    pose proof (gui_redraw_no_line (outside_of su report M) g) as Hnl. rewrite Eg in Hnl.
    destruct (paint_all ops (m_video M) Hnl) as [v Hv]. destruct (Hv M eq_refl) as [Ev _].
    exists (with_video v M). split; [by rewrite exec_all_app, Ev|].
    etrans; [by apply Hm|]. eapply rtc_l; [reflexivity|]. eapply rtc_l.
    { cbn [main_step m_main at_pc m_kernel with_kernel with_gui k_gui with_mouse].
      change (gui_redraw _ _) with (gui_redraw (outside_of su report M) g). rewrite Eg. reflexivity. }
    destruct (Hv (with_kernel (with_gui g' (m_kernel M)) (with_mouse s' M)) eq_refl) as [_ Hr].
    destruct M. cbn in *. subst. exact Hr.
  - exists (if truth key then arch_console_putc key M else M). split; [by destruct (truth key)|].
    replace (with_kernel _ _) with (with_keyboard k' (if truth key then arch_console_putc key M else M)); [by apply Hk|].
    destruct M as [[]]. by destruct (truth key).
Qed.

(** ** From the boot on *)

(** The machine when kernel_main enters its loop with the kernel [k]: the interrupts are
    on, the blinker has not run yet, and the drivers are as the boot left them. *)
Definition entered (k : kernel St R) (i : interrupts) (t : Z) (kb : Keyboard.keyboard) (ms : Mouse.mouse)
    (v : video) (out : list Z) : machine St R :=
  mk_machine k i t kb ms Top (mk_blinker false 0) [] v out true false.

(** What the drivers left behind. *)
Record drivers_ready (i : interrupts) (kb : Keyboard.keyboard) (ms : Mouse.mouse) : Prop := {
  dr_installed : installed su i;
  dr_keyboard : ring_wf (Keyboard.buf kb) ∧ 0 ∉ contents (Keyboard.buf kb);
  dr_mouse : graphics = true → Mouse.mouse_ok screen_w screen_h ms
}.

Lemma entered_inv k i t kb ms v out o e0 e1 :
  drivers_ready i kb ms → sched_rep (k_sched k) e0 [e1] → e_addr e0 = su_main su → e_addr e1 = su_blinker su →
  kernel_state k = KERNEL_STATE_RUNNING → k_gui k = gui_init o gui_boot →
  gfx_available o = graphics → gfx_width o = screen_w → gfx_height o = screen_h →
  running_inv v out (mk_config (entered k i t kb ms v out) [e0; e1] (contents (Keyboard.buf kb))).
Proof.
  intros [Hin Hkb Hms] Hs E0 E1 Hst Hg Ha Hw Hh. split; cbn; try done.
  - by exists e0, [e1].
  - by rewrite E0, E1.
  - rewrite Hg. apply gui_init_wf.
  - intros Hgr. destruct (small Hgr) as [Sw Sh]. rewrite Hg. unfold gui_init. rewrite Ha, Hgr, Hw, Hh. cbn.
    unfold on_screen_at. rewrite !i32_id by (unfold in_i; div_lia). div_lia.
  - unfold video_fine. by destruct (su_fb su).
  - exists []. rewrite app_nil_r. by split.
Qed.

(** C2: the running kernel.  After a boot with the drivers installed, and an arch_late_init
    that keeps its promise ([late_keeps]), whatever the
    interleaving of timer, keyboard and mouse interrupts with the steps of the two threads,
    and until an exception: both threads stay in the ring with their contexts, the
    compositor's windows and the mouse's packet buffer stay in their arrays, the cursor
    stays on the screen, video memory changes only at visible pixels, and the characters
    typed are those echoed on the console, the one in hand and those queued, in order (all of
    this is [running_inv]).  No interrupt and no step of the running thread ever faults, so
    the system never gets stuck; and every timer interrupt gives the processor to the other
    thread. *)
Theorem kernel_runs_safely `{LATE : !ArchLate St R} p vf s0 nid c m t0 t1 b lo hi i t kb ms v out :
  fa_wf s0 → disk_wf (p_read_sector p) → (128 <= length (garbage p))%nat → 0 <= total_ram p < 2 ^ 64 →
  lo + frame_size <= c_sp c <= hi → (∀ x, lo <= x < hi → x / PAGE ∉ fa_managed s0) →
  (∀ ev h, boot_heap_check (boot_heap s0) = Some (ev, h) → late_keeps h c m t0 t1 b) →
  t0 = su_main su → t1 = su_blinker su → drivers_ready i kb ms →
  gfx_available (display p) = graphics → gfx_width (display p) = screen_w → gfx_height (display p) = screen_h →
  ∃ k ev, kernel_boot p (mk_kernel KERNEL_STATE_BOOT (mk_sched ∅ 0 nid false (boot_heap s0) c m) vf gui_boot) = Some (k, ev) ∧
  let e0 := mk_entry t0 c lo hi in
  let e1 := mk_entry t1 (entry_context (b + THREAD_STACK_SIZE) blinker_entry 0) b (b + THREAD_STACK_SIZE) in
  ∀ cf, rtc (sys_step su) (mk_config (entered k i t kb ms v out) [e0; e1] (contents (Keyboard.buf kb))) cf →
    m_halted (cf_machine cf) = false →
    running_inv v out cf ∧
    (∀ regs (d : D), IRQ_BASE <= int_no regs < IRQ_BASE + IRQ_COUNT →
       ∃ M', interrupt su regs d (cf_machine cf) = Some M' ∧
         (int_no regs = IRQ_BASE →
          sched_current (k_sched (m_kernel M')) ≠ sched_current (k_sched (m_kernel (cf_machine cf))))) ∧
    ∃ e T, cf_threads cf = e :: T ∧ ∀ c' m', in_stack e c' →
      (∀ e' x, e' ∈ T → e_lo e' <= x < e_hi e' → m' x = mem (k_sched (m_kernel (cf_machine cf))) x) →
      is_Some (thread_step su (compute c' m' (cf_machine cf))).
Proof.
  intros Hw Hdisk Hgb Hram Hsp Hbs Hmem E0 E1 Hdr Ha Hsw Hsh.
  destruct (boot_reaches_idle p vf gui_boot s0 nid c m t0 t1 b lo hi Hw Hdisk Hgb Hram Hsp Hbs Hmem)
    as (k & ds & ok & rest & E & Hst & Hg & Hs & _).
  exists k, (boot_events ds ok ++ rest). split; [exact E|]. intros e0 e1 cf Hrun Hlive.
  destruct (reachable_inv v out _ _ Hrun) as [HI|(Hh & _)]; [|split; [exact HI|]|congruence].
  { exact (entered_inv k i t kb ms v out (display p) e0 e1 Hdr Hs E0 E1 Hst Hg Ha Hsw Hsh). }
  destruct cf as [M T typed]. split.
  - intros regs d Hn. destruct (interrupt_inv _ _ _ _ _ regs d HI Hn) as (M' & EM & _). exists M'.
    split; [exact EM|]. intros Ht. exact (tick_alternates _ _ _ _ _ _ _ _ HI Ht EM).
  - destruct (ri_sched _ _ _ HI) as (e & T' & HT & _). cbn in HT. subst T. exists e, T'. split; [done|].
    intros c' m' Hc Hm. destruct (thread_inv _ _ _ _ _ _ _ _ HI Hc Hm) as (M' & EM & _). by exists M'.
Qed.

(** C19: panic is final.  An exception of the processor, in whatever state it comes,
    prints PANIC and the name of the exception; from then on the machine is halted with its
    interrupts off: whatever still happens, nothing but the console ever changes. *)
Theorem panic_is_final regs (d : D) M T typed :
  0 <= int_no regs < IRQ_BASE →
  ∃ msg, exception_names !! Z.to_nat (int_no regs) = Some msg ∧
    interrupt su regs d M = Some (panicked (bytes msg) M) ∧
    ∀ c, rtc (sys_step su) (mk_config (panicked (bytes msg) M) T typed) c →
      ∃ out, cf_machine c = with_console (m_console M ++ bytes "PANIC: " ++ bytes msg ++ out) (panicked (bytes msg) M).
Proof.
  intros Hn. destruct (exception_panics regs d M Hn) as (msg & Hmsg & E). exists msg. split; [done|]. split; [done|].
  intros c Hc. destruct (frozen_steps (panicked (bytes msg) M) T typed c) as [out ->]; [done..|].
  exists out. f_equal. cbn. by rewrite <- !(assoc_L (++)).
Qed.

(** What idt_init, pit_init, keyboard_init and mouse_init leave is ready. *)
Lemma drivers_are_ready {E : Type} `{!PortIo E} hz i0 (d0 : E) i1 d1 :
  irq_handlers i0 = replicate 16 0 → NoDup [0; su_pit_tick su; su_keyboard_irq su; su_mouse_irq su] →
  pit_init (su_pit_tick su) hz i0 d0 = Some (i1, d1) →
  let '(i2, d2) := Keyboard.keyboard_init (su_keyboard_irq su) i1 d1 in
  let '(ms, i3, _) := Mouse.mouse_init screen_w screen_h (su_mouse_irq su) Mouse.mouse_reset i2 d2 in
  drivers_ready i3 (Keyboard.mk_keyboard ring_reset false) ms.
Proof.
  intros H0 Hnd. unfold pit_init. case_if; [done|]. intros [= <- <-].
  unfold Keyboard.keyboard_init, irq_install_handler. cbn [Z.leb Z.compare].
  unfold Mouse.mouse_init. destruct (Mouse.mouse_read _) as [st d3]. unfold irq_install_handler. cbn.
  split; [split; [cbn; by rewrite H0|done]| |].
  - destruct ring_reset_wf as [Hw Hc]. cbn. rewrite Hc. split; [done|]. apply not_elem_of_nil.
  - intros Hgr. destruct (small Hgr). split; cbn; [..|split; [done|by repeat constructor]|lia];
      rewrite i32_id by (unfold in_i; div_lia); div_lia.
Qed.
End proofs.

(** ** Witnesses *)

(** Ports that answer bytes from a list. *)
#[local] Instance byte_ports : PortIo (list Z) := {|
  outb _ _ d := d;
  inb _ d := (u8 (zget d 0), tail d);
  outw _ _ d := d;
  inw _ d := (u16 (zget d 0), tail d)
|}.

Lemma byte_ports_in p (d : list Z) : in_u 8 (fst (inb p d)).
Proof. apply u8_range. Qed.

#[local] Instance example_switch : SwitchOps regs_x86 := switch_ops_x86 0x77.
#[local] Instance example_switch_laws : SwitchLaws regs_x86 := switch_laws_x86 0x77.

Definition example_setup : setup :=
  mk_setup (Some (mk_fb true 0xFD000000 3200 800 600)) 0x1030 0x1078 0xA100 0xA200 0xA300.

Lemma example_small :
  X86.fb_available (su_fb example_setup) = true →
  0 < X86.fb_width (su_fb example_setup) < 2 ^ 30 ∧ 0 < X86.fb_height (su_fb example_setup) < 2 ^ 30.
Proof. cbn. lia. Qed.

Definition example_ints : interrupts :=
  mk_interrupts [] 0 0 [0xA100; 0xA200; 0; 0; 0; 0; 0; 0; 0; 0; 0; 0; 0xA300; 0; 0; 0].
Definition example_keys : Keyboard.keyboard := Keyboard.mk_keyboard ring_reset false.
Definition example_mouse : Mouse.mouse := Mouse.mk_mouse 400 300 0 false [0; 0; 0] 0.

Lemma sys_example_ready : drivers_ready example_setup example_ints example_keys example_mouse.
Proof.
  split.
  - split; [reflexivity|]. apply (bool_decide_eq_true_1 _). by vm_compute.
  - destruct ring_reset_wf as [Hw Hc]. cbn. rewrite Hc. split; [done|apply not_elem_of_nil].
  - intros _. split; cbn; [lia..|split; [done|by repeat constructor]|lia].
Qed.

Definition vector (n : Z) : registers := mk_registers 0 0 0 0 0 0 0 0 0 0 0 0 0 0 0 n 0 0 0 0 0 0.

Definition example_main : entry (R:=regs_x86) := mk_entry 0x1030 boot_cpu 0x3F000 0x40000.
Definition example_blinker : entry (R:=regs_x86) :=
  mk_entry 0x1078 (entry_context (0x10C0 + THREAD_STACK_SIZE) blinker_entry 0) 0x10C0 (0x10C0 + THREAD_STACK_SIZE).

(** The boot, then a timer interrupt: the blinker runs next, and can make its step. *)
Lemma kernel_runs_safely_witness :
  ∃ k ev M, kernel_boot (LATE := example_late) example_platform
      (mk_kernel KERNEL_STATE_BOOT
        (mk_sched ∅ 0 0 false (boot_heap example_frames) boot_cpu (λ _, 0)) vfs_reset gui_boot) = Some (k, ev) ∧
    interrupt example_setup (vector 32) (@nil Z) (entered k example_ints 0 example_keys example_mouse ∅ []) = Some M ∧
    running_inv example_setup ∅ [] (mk_config M [example_blinker; example_main] []) ∧
    sched_current (k_sched (m_kernel M)) = 0x1078.
Proof.
  destruct (kernel_runs_safely (LATE := example_late) byte_ports_in example_setup example_small example_platform vfs_reset example_frames 0 boot_cpu
    (λ _, 0) 0x1030 0x1078 0x10C0 0x3F000 0x40000 example_ints 0 example_keys example_mouse ∅ []
    example_frames_wf example_disk_wf) as (k & ev & E & H).
  - apply Nat.leb_le. reflexivity.
  - simpl. lia.
  - simpl. lia.
  - intros x Hx. change (fa_managed example_frames) with (frame_range 0 40).
    rewrite elem_of_frame_range. unfold PAGE. div_lia.
  - apply example_late_keeps.
  - reflexivity.
  - reflexivity.
  - apply sys_example_ready.
  - reflexivity.
  - reflexivity.
  - reflexivity.
  - exists k, ev. destruct (H _ (rtc_refl _ _) eq_refl) as (_ & Hint & _).
    destruct (Hint (vector 32) [] ltac:(cbn; unfold IRQ_BASE, IRQ_COUNT; lia)) as (M & EM & _). exists M.
    split; [exact E|]. split; [exact EM|]. cbn [cf_machine] in EM.
    assert (sys_step example_setup
      (mk_config (entered k example_ints 0 example_keys example_mouse ∅ []) [example_main; example_blinker] [])
      (mk_config M [example_blinker; example_main] ([] ++ newly_typed (entered k example_ints 0 example_keys example_mouse ∅ []) M))) as Hstep.
    { apply (step_interrupt example_setup _ [example_main; example_blinker] [] (vector 32) []); [reflexivity|cbn; unfold IRQ_BASE, IRQ_COUNT; lia|exact EM]. }
    assert (m_halted M = false ∧ newly_typed (entered k example_ints 0 example_keys example_mouse ∅ []) M = []) as [Hh Hnt].
    { unfold interrupt in EM. cbn in EM. destruct (pit_tick _ _) as [[t s]|] in EM; [|discriminate].
      injection EM as <-. split; reflexivity. }
    rewrite Hnt in Hstep. destruct (H _ (rtc_once _ _ Hstep) Hh) as (HI & _ & _). split; [exact HI|].
    destruct (ri_sched _ _ _ _ HI) as (e & T & [= <- <-] & Hs). exact (sr_current _ _ _ Hs).
Defined.

(** A machine for the other examples; no thread is switched. *)
Definition example_machine (g : gui) (ms : Mouse.mouse) : machine pmm regs_x86 :=
  entered (mk_kernel KERNEL_STATE_RUNNING boot_sched vfs_reset g) example_ints 0 example_keys ms ∅ [].

Lemma panic_is_final_witness :
  ∃ M, interrupt example_setup (vector 14) (@nil Z) (example_machine gui_boot example_mouse) = Some M ∧
    m_console M = bytes "PANIC: Page Fault" ∧
    ∀ c, rtc (sys_step example_setup) (mk_config M [] []) c → m_halted (cf_machine c) = true.
Proof.
  destruct (panic_is_final example_setup (vector 14) (@nil Z) (example_machine gui_boot example_mouse) [] [])
    as (msg & Hmsg & E & H); [cbn; unfold IRQ_BASE; lia|].
  injection Hmsg as <-. eexists. split; [exact E|]. split; [reflexivity|].
  intros c Hc. destruct (H c Hc) as [out ->]. reflexivity.
Defined.

(** ** A lost release

    mouse_get_state reads the buttons and then clears state_dirty.  A packet that arrives
    between the two is lost: here the button goes up there, nothing is reported any more,
    and the window stays grabbed. *)
Definition steps (n : nat) (M : machine pmm regs_x86) : option (machine pmm regs_x86) :=
  Nat.iter n (λ r, r ≫= main_step example_setup) (Some M).

Definition pressed_mouse : Mouse.mouse := Mouse.mk_mouse 350 110 1 true [9; 0; 0] 0.

Theorem mouse_release_lost :
  ∃ M1 M2 M3, steps 4 (example_machine example_gui pressed_mouse) = Some M1 ∧
    foldl (λ r b, r ≫= interrupt example_setup (vector 44) [b]) (Some M1) [8; 0; 0] = Some M2 ∧
    Mouse.mouse_buttons (m_mouse M2) = 0 ∧ Mouse.state_dirty (m_mouse M2) = true ∧
    steps 2 M2 = Some M3 ∧ Mouse.mouse_buttons (m_mouse M3) = 0 ∧
    fst (Mouse.mouse_get_state (m_mouse M3)) = None ∧ drag_window (k_gui (m_kernel M3)) = 1.
Proof. do 3 eexists. do 2 (split; [reflexivity|]). repeat split. Qed.
