(* ===== verification/Stubs.v ===== *)
(** * The assembly files: interrupt entries, the context switch, the trampolines

    boot/isr_stubs.asm, context_switch.asm and usermode.asm of x86_64 and
    boot/exceptions.S, context_switch.S and usermode.S of aarch64 as programs: lists of
    the instructions they are made of, run by an interpreter for these instructions on
    the registers and the stack memory of Switch.v.  The C models rely on what is proved here: the
    register frame a handler is given has the layout of the C structure, the interrupted
    program goes on with what the frame holds when the handler returns, and the switch
    routines are the functions of Switch.v.  Addresses do not wrap, as in Switch.v. *)

From S2P Require Import Prelude.
From S2P Require Import Switch.
From S2P Require Import PortIo.
From S2P Require Import Interrupts.
From S2P Require Import ProcessArch.

(** Reads a word of a memory given by its stores. *)
Ltac mem_read := repeat (rewrite mem_set_ne by lia); first [reflexivity|apply mem_set_at; lia|f_equal; lia].

Lemma words_at_lookup m sp vs :
  words_at m sp vs ↔ ∀ i v, vs !! i = Some v → m (sp + 8 * Z.of_nat i) = v.
Proof.
  revert sp. induction vs as [|w vs IH]; intros sp; cbn [words_at]; [by split; [intros _ [] ?|]|]. rewrite IH. split.
  - intros [Hw H] [|i] v Hi; [cbn in Hi; injection Hi as <-; rewrite <- Hw; f_equal; lia|].
    rewrite <- (H i v) by done. f_equal. lia.
  - intros H. split; [rewrite <- (H 0%nat w) by done; f_equal; lia|]. intros i v Hi. rewrite <- (H (S i) v) by done. f_equal. lia.
Qed.

Lemma mem_set_ext (m m' : memory) a a' v v' :
  a = a' → v = v' → (∀ x, m x = m' x) → ∀ x, m⟦a := v⟧ x = m'⟦a' := v'⟧ x.
Proof. intros -> -> H x. unfold mem_set. by case_match. Qed.

(** ** x86_64 *)

Module X86.

Inductive reg :=
  | RAX | RBX | RCX | RDX | RSI | RDI | RBP | RSP
  | R8 | R9 | R10 | R11 | R12 | R13 | R14 | R15.
#[global] Instance reg_eq_dec : EqDecision reg.
Proof. solve_decision. Defined.

Record cpu := mk_cpu {
  gpr : reg → Z;
  c_rip : Z;
  c_cs : Z;
  c_rflags : Z;
  c_ss : Z;
  ram : memory
}.

(** [Call] is a call of the C function at an address, up to its return; the segment
    registers other than cs and ss have no effect here. *)
Inductive instr :=
  | PushI (v : Z)
  | Push (r : reg)
  | Pop (r : reg)
  | Mov (d s : reg)
  | Load (d b : reg) (off : Z)
  | Store (b s : reg)
  | AddI (r : reg) (n : Z)
  | OrI (r : reg) (n : Z)
  | Pushfq
  | Sti
  | Call (f : Z)
  | CallR (r : reg)
  | Ret
  | Iretq.

Definition set (r : reg) (v : Z) (s : cpu) : cpu :=
  mk_cpu (λ q, if decide (q = r) then v else gpr s q) (c_rip s) (c_cs s) (c_rflags s) (c_ss s) (ram s).
Definition poke (a v : Z) (s : cpu) : cpu :=
  mk_cpu (gpr s) (c_rip s) (c_cs s) (c_rflags s) (c_ss s) ((ram s)⟦a := v⟧).
Definition push (v : Z) (s : cpu) : cpu := set RSP (gpr s RSP - 8) (poke (gpr s RSP - 8) v s).
Definition pushes (vs : list Z) (s : cpu) : cpu := fold_left (λ s v, push v s) vs s.
Definition with_flags (f : Z) (s : cpu) : cpu :=
  mk_cpu (gpr s) (c_rip s) (c_cs s) f (c_ss s) (ram s).

Section run.
(** What the C function at an address does. *)
Context (ext : Z → cpu → cpu).

Definition step (i : instr) (s : cpu) : cpu :=
  match i with
  | PushI v => push v s
  | Push r => push (gpr s r) s
  | Pop r => set r (ram s (gpr s RSP)) (set RSP (gpr s RSP + 8) s)
  | Mov d r => set d (gpr s r) s
  | Load d b off => set d (ram s (gpr s b + off)) s
  | Store b r => poke (gpr s b) (gpr s r) s
  | AddI r n => set r (gpr s r + n) s
  | OrI r n => set r (gpr s r .| n) s
  | Pushfq => push (c_rflags s) s
  | Sti => with_flags (c_rflags s .| 0x200) s
  | Call f => ext f s
  | CallR r => ext (gpr s r) s
  | Ret =>
      let sp := gpr s RSP in
      set RSP (sp + 8) (mk_cpu (gpr s) (ram s sp) (c_cs s) (c_rflags s) (c_ss s) (ram s))
  | Iretq =>
      let sp := gpr s RSP in
      set RSP (ram s (sp + 24))
        (mk_cpu (gpr s) (ram s sp) (ram s (sp + 8)) (ram s (sp + 16)) (ram s (sp + 32)) (ram s))
  end.

Definition run (p : list instr) (s : cpu) : cpu := fold_left (λ s i, step i s) p s.

Lemma run_app p q s : run (p ++ q) s = run q (run p s).
Proof. apply fold_left_app. Qed.
End run.

(** *** isr_stubs.asm *)

Definition ISR_ERR : list Z := [8; 10; 11; 12; 13; 14; 17; 21; 30].

(** The stub of vector [n] up to its jump. *)
Definition isr (n : Z) : list instr := (if existsb (Z.eqb n) ISR_ERR then [] else [PushI 0]) ++ [PushI n].

Definition isr_save : list instr :=
  Push <$> [RAX; RBX; RCX; RDX; RSI; RDI; RBP; R8; R9; R10; R11; R12; R13; R14; R15].

Definition isr_restore : list instr :=
  (Pop <$> [R15; R14; R13; R12; R11; R10; R9; R8; RBP; RDI; RSI; RDX; RCX; RBX; RAX]) ++ [AddI RSP 16; Iretq].

Definition isr_common_stub (isr_handler : Z) : list instr :=
  isr_save ++ [Mov RDI RSP; Call isr_handler] ++ isr_restore.

(** *** context_switch.asm *)

Definition arch_context_switch_code : list instr :=
  (Push <$> [RBP; RBX; R12; R13; R14; R15]) ++ [Store RDI RSP; Mov RSP RSI] ++
  (Pop <$> [R15; R14; R13; R12; RBX; RBP]) ++ [Ret].

(** thread_exit does not return, so the endless loop after it is not reached. *)
Definition thread_trampoline_code (thread_exit : Z) : list instr :=
  [Sti; Mov RDI R13; CallR R12; Call thread_exit].

(** *** usermode.asm *)

Definition enter_usermode_code : list instr :=
  [Push RDX; Push RSI; Pushfq; Pop RAX; OrI RAX 0x200; Push RAX; Push RCX; Push RDI; Iretq].

(** The call pushes a return address that is not used. *)
Definition process_trampoline_code : list instr :=
  [Load RDI R12 0; Load RSI R12 8; Load RDX R12 16; Load RCX R12 24; PushI 0] ++ enter_usermode_code.

(** *** The processor's part *)

(** The exceptions for which it pushes an error code. *)
Definition error_code (n : Z) : bool := existsb (Z.eqb n) [8; 10; 11; 12; 13; 14; 17; 21; 29; 30].

(** Taking the interrupt: on the stack of the task state when it comes from ring 3,
    aligned to 16 bytes, through an interrupt gate (interrupts off). *)
Definition stack_top (rsp0 : Z) (s : cpu) : Z := (if c_cs s .& 3 =? 3 then rsp0 else gpr s RSP) / 16 * 16.

Definition deliver (rsp0 handler : Z) (n err : Z) (s : cpu) : cpu :=
  let t := pushes ([c_ss s; gpr s RSP; c_rflags s; c_cs s; c_rip s] ++ (if error_code n then [err] else []))
             (set RSP (stack_top rsp0 s) s) in
  mk_cpu (gpr t) handler 0x08 (Z.clearbit (c_rflags s) 9) (c_ss s) (ram t).

(** The words of registers_t, and what they should be. *)
Definition frame_words (r : registers) : list Z :=
  [Interrupts.r15 r; Interrupts.r14 r; Interrupts.r13 r; Interrupts.r12 r; r11 r; r10 r; r9 r; r8 r;
   Interrupts.rbp r; rdi r; rsi r; rdx r; rcx r; Interrupts.rbx r; rax r;
   int_no r; err_code r; rip r; cs r; rflags r; user_rsp r; ss r].

Definition snapshot (n err : Z) (s : cpu) : registers :=
  mk_registers (gpr s R15) (gpr s R14) (gpr s R13) (gpr s R12) (gpr s R11) (gpr s R10) (gpr s R9) (gpr s R8)
    (gpr s RBP) (gpr s RDI) (gpr s RSI) (gpr s RDX) (gpr s RCX) (gpr s RBX) (gpr s RAX)
    n (if error_code n then err else 0) (c_rip s) (c_cs s) (c_rflags s) (gpr s RSP) (c_ss s).

(** The program goes on with the registers [r]. *)
Definition resumed (r : registers) (s : cpu) : Prop :=
  gpr s <$> [R15; R14; R13; R12; R11; R10; R9; R8; RBP; RDI; RSI; RDX; RCX; RBX; RAX] = take 15 (frame_words r) ∧
  c_rip s = rip r ∧ c_cs s = cs r ∧ c_rflags s = rflags r ∧ gpr s RSP = user_rsp r ∧ c_ss s = ss r.

(** *** Lemmas *)

Lemma set_eq r v s : gpr (set r v s) r = v.
Proof. cbn. by rewrite decide_True. Qed.
Lemma set_ne r q v s : q ≠ r → gpr (set r v s) q = gpr s q.
Proof. intros. cbn. by rewrite decide_False. Qed.

Lemma ram_set r v s : ram (set r v s) = ram s.
Proof. done. Qed.
Lemma gpr_poke a v s r : gpr (poke a v s) r = gpr s r.
Proof. done. Qed.
Lemma ram_poke a v s : ram (poke a v s) = (ram s)⟦a := v⟧.
Proof. done. Qed.

(** The registers and the memory of a state given by its steps. *)
Ltac read_state :=
  cbn [run fold_left step]; unfold push;
  repeat first [rewrite set_eq | rewrite set_ne by discriminate | rewrite ram_set | rewrite gpr_poke | rewrite ram_poke].

Lemma pushes_spec vs s :
  let t := pushes vs s in
  gpr t RSP = gpr s RSP - 8 * Z.of_nat (length vs) ∧ (∀ q, q ≠ RSP → gpr t q = gpr s q) ∧
  ram t = snd (push_all vs (gpr s RSP) (ram s)) ∧
  c_rip t = c_rip s ∧ c_cs t = c_cs s ∧ c_rflags t = c_rflags s ∧ c_ss t = c_ss s.
Proof.
  revert s. induction vs as [|v vs IH]; intros s; [cbn; split_and!; [lia|done..]|].
  destruct (IH (push v s)) as (H1 & H2 & H3 & H4). cbn [pushes fold_left push_all length]. fold (pushes vs (push v s)).
  split; [rewrite H1; unfold push; rewrite set_eq; lia|]. split; [|split; [|done]].
  - intros q Hq. rewrite H2 by done. unfold push. by rewrite set_ne.
  - rewrite H3. unfold push. by rewrite set_eq.
Qed.

Lemma run_push ext rs s : RSP ∉ rs → run ext (Push <$> rs) s = pushes (gpr s <$> rs) s.
Proof.
  revert s. induction rs as [|r rs IH]; intros s Hr; [done|]. apply not_elem_of_cons in Hr as [Hr1 Hr2].
  cbn [fmap list_fmap run fold_left step pushes]. fold (run ext (Push <$> rs) (push (gpr s r) s)).
  fold (pushes (gpr s <$> rs) (push (gpr s r) s)). rewrite IH by done. f_equal.
  apply list_fmap_ext. intros i q Hq. unfold push. rewrite set_ne; [done|]. intros ->. by apply Hr2, list_elem_of_lookup_2 with i.
Qed.

(** Popping the words [vs] into the registers [rs]. *)
Lemma run_pop ext rs s vs :
  NoDup rs → RSP ∉ rs → length vs = length rs → words_at (ram s) (gpr s RSP) vs →
  let t := run ext (Pop <$> rs) s in
  gpr t <$> rs = vs ∧ gpr t RSP = gpr s RSP + 8 * Z.of_nat (length rs) ∧
  (∀ q, q ∉ rs → q ≠ RSP → gpr t q = gpr s q) ∧ ram t = ram s.
Proof.
  revert s vs. induction rs as [|r rs IH]; intros s vs Hnd Hr Hl Hw.
  { destruct vs; [|done]. cbn. split_and!; [done|lia|done|done]. }
  destruct vs as [|v vs]; [done|]. destruct Hw as [Hv Hw]. apply NoDup_cons in Hnd as [Hni Hnd].
  apply not_elem_of_cons in Hr as [Hr1 Hr2].
  set (s1 := set r (ram s (gpr s RSP)) (set RSP (gpr s RSP + 8) s)).
  assert (gpr s1 RSP = gpr s RSP + 8) as Hsp by (unfold s1; by rewrite set_ne, set_eq).
  destruct (IH s1 vs Hnd Hr2 ltac:(by injection Hl)) as (H1 & H2 & H3 & H4); [by rewrite Hsp|].
  cbn [fmap list_fmap run fold_left step]. fold s1. fold (run ext (Pop <$> rs) s1). split_and!.
  - f_equal; [|exact H1]. rewrite H3 by done. unfold s1. by rewrite set_eq.
  - rewrite H2, Hsp. cbn [length]. lia.
  - intros q [Hq1 Hq2]%not_elem_of_cons Hq3. rewrite H3 by done. unfold s1. by rewrite !set_ne.
  - exact H4.
Qed.

Lemma push_all_app vs ws sp m :
  push_all (vs ++ ws) sp m = push_all ws (fst (push_all vs sp m)) (snd (push_all vs sp m)).
Proof. revert sp m. induction vs as [|v vs IH]; intros sp m; [done|]. cbn. apply IH. Qed.

Lemma push_all_fst vs sp m : fst (push_all vs sp m) = sp - 8 * Z.of_nat (length vs).
Proof. pose proof (push_all_spec vs sp m) as H. destruct (push_all vs sp m). apply H. Qed.

Definition saved_regs : list reg :=
  [RAX; RBX; RCX; RDX; RSI; RDI; RBP; R8; R9; R10; R11; R12; R13; R14; R15].

Lemma saved_no_rsp : RSP ∉ saved_regs.
Proof. apply (bool_decide_eq_true_1 _). by vm_compute. Qed.

Lemma gpr_pushes vs s (rs : list reg) : RSP ∉ rs → gpr (pushes vs s) <$> rs = gpr s <$> rs.
Proof.
  intros Hr. apply list_fmap_ext. intros i q Hq. apply pushes_spec. intros ->.
  by apply Hr, list_elem_of_lookup_2 with i.
Qed.

(** The stub is a row of pushes. *)
Lemma isr_pushes ext n d :
  n ≠ 29 →
  let t := pushes ((if error_code n then [] else [0]) ++ [n] ++ (gpr d <$> saved_regs)) d in
  run ext (isr n ++ isr_save ++ [Mov RDI RSP]) d = set RDI (gpr t RSP) t.
Proof.
  intros Hn. cbv zeta. assert (∀ vs ws x, pushes (vs ++ ws) x = pushes ws (pushes vs x)) as Happ
    by (intros; apply fold_left_app).
  rewrite run_app. assert (run ext (isr n) d = pushes ((if error_code n then [] else [0]) ++ [n]) d) as ->.
  { unfold isr. assert (existsb (Z.eqb n) ISR_ERR = error_code n) as ->; [|by destruct (error_code n)].
    unfold error_code. cbn [existsb ISR_ERR]. by rewrite (proj2 (Z.eqb_neq n 29)) by done. }
  rewrite (assoc_L (++)), (Happ (_ ++ [n])). set (d1 := pushes _ d).
  rewrite run_app. unfold isr_save. fold saved_regs. rewrite run_push by apply saved_no_rsp.
  unfold d1 at 1. rewrite gpr_pushes by apply saved_no_rsp. reflexivity.
Qed.

Lemma deliver_spec rsp0 handler n err s :
  let d := deliver rsp0 handler n err s in
  let hw := [c_ss s; gpr s RSP; c_rflags s; c_cs s; c_rip s] ++ (if error_code n then [err] else []) in
  (gpr d <$> saved_regs = gpr s <$> saved_regs) ∧
  gpr d RSP = stack_top rsp0 s - 8 * Z.of_nat (length hw) ∧
  ram d = snd (push_all hw (stack_top rsp0 s) (ram s)).
Proof.
  intros d hw. unfold d, deliver. fold hw. cbn [gpr ram].
  destruct (pushes_spec hw (set RSP (stack_top rsp0 s) s)) as (D1 & _ & D3 & _). rewrite set_eq in D1, D3.
  split; [|by split]. etrans; [apply gpr_pushes, saved_no_rsp|]. apply list_fmap_ext. intros i q Hq. apply set_ne.
  intros ->. by apply saved_no_rsp, list_elem_of_lookup_2 with i.
Qed.

(** The words of the frame, from the top down. *)
Lemma frame_order n err s :
  rev (([c_ss s; gpr s RSP; c_rflags s; c_cs s; c_rip s] ++ (if error_code n then [err] else [])) ++
       (if error_code n then [] else [0]) ++ [n] ++ (gpr s <$> saved_regs)) = frame_words (snapshot n err s).
Proof. unfold snapshot. by destruct (error_code n). Qed.

(** The state in which isr_handler is called. *)
Lemma isr_entry ext rsp0 handler n err s :
  n ≠ 29 →
  let top := stack_top rsp0 s in
  let c := run ext (isr n ++ isr_save ++ [Mov RDI RSP]) (deliver rsp0 handler n err s) in
  gpr c RDI = top - 176 ∧ gpr c RSP = top - 176 ∧
  words_at (ram c) (top - 176) (frame_words (snapshot n err s)) ∧
  ∀ x, ¬ (top - 176 <= x < top) → ram c x = ram s x.
Proof.
  intros Hn top c. unfold c. rewrite isr_pushes by done. clear c.
  destruct (deliver_spec rsp0 handler n err s) as (D1 & D2 & D3). rewrite D1.
  rewrite <- frame_order. fold top in D2, D3. revert D2 D3. generalize (deliver rsp0 handler n err s).
  set (hw := [c_ss s; _; _; _; _] ++ _). set (sw := _ ++ [n] ++ _). intros d D2 D3.
  destruct (pushes_spec sw d) as (S1 & _ & S3 & _). rewrite D2, D3 in S3. rewrite D2 in S1.
  rewrite <- push_all_fst with (m := ram s), <- push_all_app in S3.
  assert (length (hw ++ sw) = 22%nat) as HV by (unfold hw, sw; by destruct (error_code n)).
  generalize dependent (pushes sw d). intros t S1 S3.
  rewrite set_eq, set_ne by done. cbn [ram set]. rewrite S3, S1. rewrite length_app in HV.
  generalize (push_all_spec (hw ++ sw) top (ram s)). destruct (push_all (hw ++ sw) top (ram s)) as [sp m]. cbn [snd].
  rewrite length_app, HV. intros (Hsp & Hw & Hout). replace (top - 176) with sp by lia.
  split; [lia|]. split; [lia|]. by split.
Qed.
Definition restored_regs : list reg :=
  [R15; R14; R13; R12; R11; R10; R9; R8; RBP; RDI; RSI; RDX; RCX; RBX; RAX].

(** After isr_handler has returned. *)
Lemma isr_leave ext c r :
  words_at (ram c) (gpr c RSP) (frame_words r) → resumed r (run ext isr_restore c).
Proof.
  intros Hw. change (frame_words r) with (take 15 (frame_words r) ++ drop 15 (frame_words r)) in Hw.
  apply words_at_app in Hw as [Hw1 Hw2]. unfold isr_restore. fold restored_regs. rewrite run_app.
  destruct (run_pop ext restored_regs c (take 15 (frame_words r))) as (H1 & H2 & _ & H4); [..|exact Hw1|].
  { apply (bool_decide_eq_true_1 _). by vm_compute. }
  { apply (bool_decide_eq_true_1 _). by vm_compute. }
  { done. }
  generalize dependent (run ext (Pop <$> restored_regs) c). intros t H1 H2 H4.
  rewrite <- H4 in Hw2. cbn [length take frame_words drop] in Hw2. cbn [length restored_regs] in H2.
  change (Z.of_nat 15) with 15 in *. rewrite <- H2 in Hw2. cbn [words_at] in Hw2.
  destruct Hw2 as (_ & _ & W1 & W2 & W3 & W4 & W5 & _).
  assert (∀ k, gpr t RSP + 8 + 8 + k = gpr t RSP + 16 + k) as Ek by (intros; lia).
  unfold resumed. fold restored_regs. rewrite <- H1. cbn [run fold_left step].
  set (u := set RSP (gpr t RSP + 16) t).
  assert (gpr u RSP = gpr t RSP + 16) as Eu by apply set_eq.
  assert (∀ q, q ≠ RSP → gpr u q = gpr t q) as Nu by (intros; by apply set_ne).
  cbn [ram set] in *. change (ram u) with (ram t). rewrite Eu. clearbody u.
  rewrite set_eq. cbn [c_rip c_cs c_rflags c_ss set]. split.
  - apply list_fmap_ext. intros i q Hq. rewrite set_ne; [apply Nu|].
    all: intros ->; apply list_elem_of_lookup_2 in Hq; revert Hq; apply (bool_decide_eq_true_1 (¬ _)); by vm_compute.
  - rewrite <- W1, <- W2, <- W3, <- W4, <- W5. split_and!; f_equal; lia.
Qed.

(** *** The switch *)

(** The context of the caller, whose return address is on the stack. *)
Definition caller (s : cpu) : context regs_x86 :=
  mk_context (mk_regs_x86 (gpr s RBP) (gpr s RBX) (gpr s R12) (gpr s R13) (gpr s R14) (gpr s R15))
    (gpr s RSP + 8) (ram s (gpr s RSP)).
Definition running (s : cpu) : context regs_x86 :=
  mk_context (mk_regs_x86 (gpr s RBP) (gpr s RBX) (gpr s R12) (gpr s R13) (gpr s R14) (gpr s R15))
    (gpr s RSP) (c_rip s).

Lemma push_all_ext vs sp m m' :
  (∀ x, m x = m' x) → fst (push_all vs sp m) = fst (push_all vs sp m') ∧
    ∀ x, snd (push_all vs sp m) x = snd (push_all vs sp m') x.
Proof.
  revert sp m m'. induction vs as [|v vs IH]; intros sp m m' H; [done|]. cbn. apply IH.
  intros x. unfold mem_set. by case_match.
Qed.

Lemma switch_code ext s :
  ¬ (gpr s RSI <= gpr s RDI < gpr s RSI + 56) →
  let '(old_sp, c', m') := arch_context_switch_x86 (caller s) (gpr s RSI) (ram s) in
  let t := run ext arch_context_switch_code s in
  running t = c' ∧ ∀ x, ram t x = m'⟦gpr s RDI := old_sp⟧ x.
Proof.
  intros Hdi. unfold arch_context_switch_x86, caller. cbn [c_regs c_pc c_sp Switch.rbp Switch.rbx Switch.r12 Switch.r13 Switch.r14 Switch.r15].
  set (vs := [gpr s RBP; gpr s RBX; gpr s R12; gpr s R13; gpr s R14; gpr s R15]).
  change (push_all (_ :: _) (gpr s RSP + 8) (ram s)) with
    (push_all vs (gpr s RSP + 8 - 8) ((ram s)⟦gpr s RSP + 8 - 8 := ram s (gpr s RSP)⟧)).
  replace (gpr s RSP + 8 - 8) with (gpr s RSP) by lia.
  destruct (push_all_ext vs (gpr s RSP) (ram s) ((ram s)⟦gpr s RSP := ram s (gpr s RSP)⟧)) as [Ef Em].
  { intros x. unfold mem_set. by destruct (Z.eqb_spec x (gpr s RSP)) as [->|]. }
  pose proof (push_all_fst vs (gpr s RSP) (ram s)) as Hf. cbn [length vs] in Hf.
  destruct (push_all vs (gpr s RSP) (_⟦_ := _⟧)) as [old_sp m']. cbn [fst snd] in Ef, Em.
  unfold arch_context_switch_code. rewrite run_app, run_push by (apply (bool_decide_eq_true_1 _); by vm_compute).
  change (gpr s <$> _) with vs. destruct (pushes_spec vs s) as (P1 & P2 & P3 & _).
  change (length vs) with 6%nat in *.
  assert (∀ p, run ext [Store RDI RSP; Mov RSP RSI] p = set RSP (gpr p RSI) (poke (gpr p RDI) (gpr p RSP) p)) as Hmid
    by reflexivity.
  rewrite run_app, Hmid. clear Hmid. generalize dependent (pushes vs s). intros p P1 P2 P3. clearbody vs.
  rewrite (P2 RSI), (P2 RDI), P1, <- Hf, Ef by done.
  set (q := set RSP _ _). set (new := gpr s RSI) in *. set (m2 := m'⟦gpr s RDI := old_sp⟧).
  assert (∀ x, ram q x = m2 x) as Hq by (intros x; unfold q, m2, mem_set; cbn; unfold mem_set; case_match; [done|]; by rewrite P3).
  assert (gpr q RSP = new) as Hnew by apply set_eq. clearbody q.
  assert (∀ x, new <= x < new + 56 → m2 x = m' x) as Hm2 by (intros x Hx; apply mem_set_ne; lia).
  rewrite run_app. destruct (run_pop ext [R15; R14; R13; R12; RBX; RBP] q
    [m' new; m' (new + 8); m' (new + 16); m' (new + 24); m' (new + 32); m' (new + 40)]) as (H1 & H2 & _ & H4).
  { apply (bool_decide_eq_true_1 _). by vm_compute. }
  { apply (bool_decide_eq_true_1 _). by vm_compute. }
  { done. }
  { rewrite Hnew. cbn [words_at]. rewrite !Hq, !Hm2 by lia. split_and!; try done; f_equal; lia. }
  generalize dependent (run ext (Pop <$> [R15; R14; R13; R12; RBX; RBP]) q). intros t H1 H2 H4.
  cbn [length] in H2. change (Z.of_nat 6) with 6 in H2. rewrite Hnew in H2.
  cbn [fmap list_fmap] in H1. injection H1 as E15 E14 E13 E12 Ebx Ebp.
  cbn [run fold_left step]. set (u := mk_cpu _ _ _ _ _ _). split; [|intros x; cbn; by rewrite H4].
  unfold running. rewrite set_eq, !set_ne by done. cbn [gpr c_rip set u]. rewrite E15, E14, E13, E12, Ebx, Ebp, H2, H4, Hq.
  rewrite Hm2 by lia. replace (new + 8 * 6 + 8) with (new + 56) by lia. by replace (new + 8 * 6) with (new + 48) by lia.
Qed.

(** A context that was switched away from goes on where it was, once something switches
    to the stack pointer stored for it. *)
Lemma switch_back ext s s2 :
  ¬ (gpr s RSI <= gpr s RDI < gpr s RSI + 56) → ¬ (gpr s RSP - 48 <= gpr s RDI < gpr s RSP + 8) →
  ¬ (gpr s2 RSI <= gpr s2 RDI < gpr s2 RSI + 56) →
  (gpr s2 RSP + 8 <= gpr s RSP - 48 ∨ gpr s RSP + 8 <= gpr s2 RSP - 48) →
  let t := run ext arch_context_switch_code s in
  gpr s2 RSI = ram t (gpr s RDI) → (∀ x, gpr s RSP - 48 <= x < gpr s RSP + 8 → ram s2 x = ram t x) →
  running (run ext arch_context_switch_code s2) = caller s.
Proof.
  intros H1 H2 H3 Hdis. pose proof (switch_code ext s H1) as S1. pose proof (switch_code ext s2 H3) as S2. cbv zeta.
  destruct (arch_context_switch_x86 (caller s) _ _) as [[sp c'] m1] eqn:E1. destruct S1 as [_ M1].
  assert (sp = gpr s RSP - 48) as Hsp.
  { pose proof (switch_saves (SwitchLaws := switch_laws_x86 0) (caller s) (gpr s RSI) (ram s)) as Hs.
    cbn [arch_context_switch frame switch_ops_x86] in Hs. rewrite E1 in Hs. destruct Hs as [[Hc _] _]. cbn in Hc. lia. }
  rewrite M1, mem_set_eq, Hsp. intros Hrsi Hm.
  destruct (roundtrip (SwitchLaws0 := switch_laws_x86 0) (caller s) (caller s2) _ _ (ram s2) _ _ _ E1) as (sp' & m3 & E2).
  - intros x Hx. rewrite Hsp in Hx. cbn in Hx. rewrite Hm, M1 by lia. apply mem_set_ne. lia.
  - cbn. rewrite Hsp. lia.
  - cbn [arch_context_switch switch_ops_x86] in E2. rewrite Hrsi, <- Hsp, E2 in S2. apply S2.
Qed.

(** A switch to the stack that arch_thread_init_stack made calls the entry function with
    its argument, on that stack and with interrupts on, and thread_exit after it. *)
Lemma thread_starts ext s tramp top entry arg m0 thread_exit :
  let '(nsp, m) := arch_thread_init_stack_x86 tramp top entry arg m0 in
  gpr s RSI = nsp → (∀ x, nsp <= x < top → ram s x = m x) → ¬ (nsp <= gpr s RDI < top) →
  (gpr s RSP + 8 <= nsp ∨ top <= gpr s RSP - 48) →
  let t := run ext arch_context_switch_code s in
  c_rip t = tramp ∧
  ∃ u, run ext (thread_trampoline_code thread_exit) t = ext thread_exit (ext entry u) ∧
    gpr u RDI = arg ∧ gpr u RSP = top ∧ Z.testbit (c_rflags u) 9 = true.
Proof.
  destruct (init_stack_frame (SwitchLaws0 := switch_laws_x86 tramp) top entry arg m0) as (m & E & Hf & _).
  cbn [arch_thread_init_stack frame_size switch_ops_x86] in E, Hf. rewrite E. intros Hsi Hm Hdi Hdis. cbv zeta.
  pose proof (switch_code ext s ltac:(lia)) as Hsw.
  destruct (resume_suspended (SwitchLaws0 := switch_laws_x86 tramp) (ram s) (top - 56) (entry_context_x86 tramp top entry arg)
    (caller s)) as (m2 & E2 & _).
  { apply (frame_ext (SwitchLaws := switch_laws_x86 tramp) m); [|done]. intros x Hx. apply Hm. cbn in Hx. lia. }
  { cbn. lia. }
  cbn [arch_context_switch switch_ops_x86] in E2. rewrite Hsi, E2 in Hsw. destruct Hsw as [Hr _].
  generalize dependent (run ext arch_context_switch_code s). intros t Hr. injection Hr as _ _ E12 E13 _ _ Esp Epc.
  split; [done|]. eexists. cbn [run thread_trampoline_code fold_left step]. rewrite !set_ne by done.
  cbn [gpr with_flags]. rewrite E12, E13. split; [reflexivity|]. cbn [c_rflags set with_flags].
  rewrite set_eq, set_ne, Z.lor_spec, orb_true_r by done. by cbn.
Qed.

(** *** Into ring 3 *)

(** process_trampoline, with the address of launch_params_t in r12, enters ring 3 at the
    entry point, on the user's stack, with the selectors it was given and interrupts on. *)
Lemma trampoline_enters ext s entry stack data_sel code_sel :
  words_at (ram s) (gpr s R12) [entry; stack; data_sel; code_sel] →
  let t := run ext process_trampoline_code s in
  c_rip t = entry ∧ gpr t RSP = stack ∧ c_cs t = code_sel ∧ c_ss t = data_sel ∧
  Z.testbit (c_rflags t) 9 = true.
Proof.
  intros (Hp & Hs & Hd & Hc & _). set (pre := [Load RDI R12 0; Load RSI R12 8; Load RDX R12 16; Load RCX R12 24; PushI 0]).
  change process_trampoline_code with (pre ++ [Push RDX; Push RSI] ++ [Pushfq; Pop RAX; OrI RAX 0x200] ++
    [Push RAX; Push RCX; Push RDI] ++ [Iretq]).
  rewrite !run_app. set (a := run ext pre s).
  assert (gpr a RDI = entry ∧ gpr a RSI = stack ∧ gpr a RDX = data_sel ∧ gpr a RCX = code_sel) as (A1 & A2 & A3 & A4).
  { unfold a, pre. read_state. rewrite <- Hp, <- Hs, <- Hd, <- Hc. split_and!; f_equal; lia. }
  clearbody a.
  change [Push RDX; Push RSI] with (Push <$> [RDX; RSI]). rewrite run_push by (apply (bool_decide_eq_true_1 _); by vm_compute).
  cbn [fmap list_fmap]. rewrite A2, A3. destruct (pushes_spec [data_sel; stack] a) as (B1 & B2 & B3 & _).
  generalize dependent (pushes [data_sel; stack] a). intros b B1 B2 B3.
  assert (ram b (gpr b RSP) = stack ∧ ram b (gpr b RSP + 8) = data_sel) as [B4 B5].
  { rewrite B1, B3. cbn. split; mem_read. }
  rewrite <- (B2 RCX) in A4 by done. rewrite <- (B2 RDI) in A1 by done.
  set (d := run ext [Pushfq; Pop RAX; OrI RAX 0x200] b).
  assert (gpr d RSP = gpr b RSP ∧ gpr d RAX = c_rflags b .| 0x200 ∧ gpr d RCX = code_sel ∧ gpr d RDI = entry ∧
    ram d = (ram b)⟦gpr b RSP - 8 := c_rflags b⟧) as (D1 & D2 & D3 & D4 & D5).
  { unfold d. read_state. split_and!; [lia|by rewrite mem_set_eq|done|done|done]. }
  clearbody d.
  change [Push RAX; Push RCX; Push RDI] with (Push <$> [RAX; RCX; RDI]).
  rewrite run_push by (apply (bool_decide_eq_true_1 _); by vm_compute).
  cbn [fmap list_fmap]. rewrite D2, D3, D4. destruct (pushes_spec [c_rflags b .| 0x200; code_sel; entry] d) as (E1 & _ & E3 & _).
  generalize dependent (pushes [c_rflags b .| 0x200; code_sel; entry] d). intros e E1 E3. rewrite D1 in E1, E3.
  cbn [run fold_left step c_rip c_cs c_rflags c_ss set]. rewrite set_eq, E1, E3, D5. cbn [push_all snd length].
  change (Z.of_nat 3) with 3. set (sp := gpr b RSP) in *.
  split_and!; [mem_read|rewrite <- B4; mem_read|mem_read|rewrite <- B5; mem_read|].
  rewrite (mem_set_ne _ _ _ (sp - 8 * 3 + 16)), (mem_set_ne _ _ _ (sp - 8 * 3 + 16)), mem_set_at by lia.
  by rewrite Z.lor_spec, orb_true_r.
Qed.
End X86.

(** ** aarch64 *)

Module A64.

(** General registers by number; at EL1 [sp] is SP_EL1. *)
Record cpu := mk_cpu {
  gpr : Z → Z;
  sp : Z;
  sp_el0 : Z;
  elr_el1 : Z;
  spsr_el1 : Z;
  pc : Z;
  pstate : Z;
  ram : memory
}.

Inductive instr :=
  | SubSp (n : Z)
  | AddSp (n : Z)
  | Stp (a b off : Z)
  | Ldp (a b off : Z)
  | StrSp (a off : Z)
  | LdrSp (a off : Z)
  | Ldr (a b off : Z)
  | Str (a b : Z)
  | MrsElr (a : Z)
  | MrsSpsr (a : Z)
  | MsrElr (a : Z)
  | MsrSpsr (a : Z)
  | MsrSpEl0 (a : Z)
  | DaifClr
  | MovI (a n : Z)
  | Mov (a b : Z)
  | MovFromSp (a : Z)
  | MovToSp (a : Z)
  | Bl (f : Z)
  | Blr (a : Z)
  | Ret
  | Eret.

Definition set (r v : Z) (s : cpu) : cpu :=
  mk_cpu (λ q, if q =? r then v else gpr s q) (sp s) (sp_el0 s) (elr_el1 s) (spsr_el1 s) (pc s) (pstate s) (ram s).
Definition with_sp (v : Z) (s : cpu) : cpu :=
  mk_cpu (gpr s) v (sp_el0 s) (elr_el1 s) (spsr_el1 s) (pc s) (pstate s) (ram s).
Definition with_ram (m : memory) (s : cpu) : cpu :=
  mk_cpu (gpr s) (sp s) (sp_el0 s) (elr_el1 s) (spsr_el1 s) (pc s) (pstate s) m.
Definition with_sys (el0 elr spsr : Z) (s : cpu) : cpu :=
  mk_cpu (gpr s) (sp s) el0 elr spsr (pc s) (pstate s) (ram s).
Definition at_pc (p st : Z) (s : cpu) : cpu :=
  mk_cpu (gpr s) (sp s) (sp_el0 s) (elr_el1 s) (spsr_el1 s) p st (ram s).

Section run.
Context (ext : Z → cpu → cpu).

Definition step (i : instr) (s : cpu) : cpu :=
  match i with
  | SubSp n => with_sp (sp s - n) s
  | AddSp n => with_sp (sp s + n) s
  | Stp a b off => with_ram ((ram s)⟦sp s + off := gpr s a⟧⟦sp s + off + 8 := gpr s b⟧) s
  | Ldp a b off => set b (ram s (sp s + off + 8)) (set a (ram s (sp s + off)) s)
  | StrSp a off => with_ram ((ram s)⟦sp s + off := gpr s a⟧) s
  | LdrSp a off => set a (ram s (sp s + off)) s
  | Ldr a b off => set a (ram s (gpr s b + off)) s
  | Str a b => with_ram ((ram s)⟦gpr s b := gpr s a⟧) s
  | MrsElr a => set a (elr_el1 s) s
  | MrsSpsr a => set a (spsr_el1 s) s
  | MsrElr a => with_sys (sp_el0 s) (gpr s a) (spsr_el1 s) s
  | MsrSpsr a => with_sys (sp_el0 s) (elr_el1 s) (gpr s a) s
  | MsrSpEl0 a => with_sys (gpr s a) (elr_el1 s) (spsr_el1 s) s
  | DaifClr => at_pc (pc s) (pstate s .& Z.lnot 0x3C0) s
  | MovI a n => set a n s
  | Mov a b => set a (gpr s b) s
  | MovFromSp a => set a (sp s) s
  | MovToSp a => with_sp (gpr s a) s
  | Bl f => ext f s
  | Blr a => ext (gpr s a) s
  | Ret => at_pc (gpr s 30) (pstate s) s
  | Eret => at_pc (elr_el1 s) (spsr_el1 s) s
  end.

Definition run (p : list instr) (s : cpu) : cpu := fold_left (λ s i, step i s) p s.

Lemma a64_run_app p q s : run (p ++ q) s = run q (run p s).
Proof. apply fold_left_app. Qed.
End run.

(** [n] pairs of registers from [b] on, at sp upwards. *)
Definition stps (b n : Z) : list instr := (λ k, Stp (b + 2 * k) (b + 2 * k + 1) (16 * k)) <$> seqZ 0 n.
Definition ldps (b n : Z) : list instr := (λ k, Ldp (b + 2 * k) (b + 2 * k + 1) (16 * k)) <$> seqZ 0 n.

(** *** exceptions.S *)

Definition kernel_entry : list instr :=
  SubSp 272 :: stps 0 15 ++ [MrsElr 0; Stp 30 0 240; MrsSpsr 0; StrSp 0 256].

Definition kernel_exit : list instr :=
  [LdrSp 0 256; MsrSpsr 0; Ldp 30 0 240; MsrElr 0] ++ ldps 0 15 ++ [AddSp 272; Eret].

Definition irq_common_handler (aarch64_irq_handler : Z) : list instr :=
  kernel_entry ++ [Bl aarch64_irq_handler] ++ kernel_exit.
Definition svc_common_handler (aarch64_svc_handler : Z) : list instr :=
  kernel_entry ++ [MovFromSp 0; Bl aarch64_svc_handler] ++ kernel_exit.

(** The code behind each of the 16 slots; [None] is unhandled_exception, which waits for
    ever.  Slot 5 is an interrupt at EL1, 8 a synchronous exception from EL0 (a system
    call), 9 an interrupt from EL0. *)
Definition vector_table (aarch64_irq_handler aarch64_svc_handler : Z) : list (option (list instr)) :=
  [None; None; None; None;
   None; Some (irq_common_handler aarch64_irq_handler); None; None;
   Some (svc_common_handler aarch64_svc_handler); Some (irq_common_handler aarch64_irq_handler); None; None;
   None; None; None; None].

(** *** context_switch.S *)

Definition arch_context_switch_code : list instr :=
  SubSp 96 :: stps 19 6 ++ [MovFromSp 2; Str 2 0; MovToSp 1] ++ ldps 19 6 ++ [AddSp 96; Ret].

Definition thread_trampoline_code (thread_exit : Z) : list instr :=
  [DaifClr; Mov 0 20; Blr 19; Bl thread_exit].

(** *** usermode.S *)

Definition enter_usermode_code : list instr := [MsrSpEl0 1; MsrElr 0; MovI 2 0; MsrSpsr 2; Eret].
Definition process_trampoline_code : list instr := [Ldr 0 19 0; Ldr 1 19 8] ++ enter_usermode_code.

(** *** The processor's part: an exception taken to EL1, through a slot of the table *)
Definition take_exception (vector : Z) (s : cpu) : cpu :=
  at_pc vector 0x3C5 (with_sys (sp_el0 s) (pc s) (pstate s) s).

(** The words of aarch64_regs_t, without the padding. *)
Definition frame_words (r : ProcessArch.A64.aarch64_regs) : list Z :=
  ProcessArch.A64.x r ++ [ProcessArch.A64.elr r; ProcessArch.A64.spsr r].

Definition resumed (r : ProcessArch.A64.aarch64_regs) (s : cpu) : Prop :=
  gpr s <$> seqZ 0 31 = ProcessArch.A64.x r ∧ pc s = ProcessArch.A64.elr r ∧ pstate s = ProcessArch.A64.spsr r.

Definition snapshot (s : cpu) : ProcessArch.A64.aarch64_regs :=
  ProcessArch.A64.mk_aarch64_regs (gpr s <$> seqZ 0 31) (pc s) (pstate s).

(** *** Lemmas *)

Lemma gpr_set r v s q : gpr (set r v s) q = if q =? r then v else gpr s q.
Proof. done. Qed.

(** Storing pairs: the words above sp, and nothing else. *)
Lemma run_stps ext b n s :
  0 <= n →
  let t := run ext (stps b n) s in
  (∀ i, 0 <= i < 2 * n → ram t (sp s + 8 * i) = gpr s (b + i)) ∧
  (∀ x, ¬ (sp s <= x < sp s + 16 * n) → ram t x = ram s x) ∧
  t = with_ram (ram t) s.
Proof.
  intros Hn. pattern n. apply natlike_ind; [| |done].
  - cbn. split_and!; [lia|done|by destruct s].
  - intros k Hk (H1 & H2 & H3). unfold stps in *. rewrite <- Z.add_1_r, seqZ_app, fmap_app, a64_run_app by lia.
    generalize dependent (run ext ((λ k, Stp (b + 2 * k) (b + 2 * k + 1) (16 * k)) <$> seqZ 0 k) s).
    intros t H1 H2 H3. change (seqZ (0 + k) 1) with [0 + k]. cbn [fmap list_fmap run fold_left step].
    rewrite Z.add_0_l, H3. cbn [gpr sp ram with_ram].
    split_and!; [| |done]; intros x Hx.
    + destruct (decide (x = 2 * k + 1)) as [->|]; [rewrite mem_set_at by lia; f_equal; lia|].
      rewrite mem_set_ne by lia. destruct (decide (x = 2 * k)) as [->|]; [by rewrite mem_set_at by lia|].
      rewrite mem_set_ne by lia. apply H1. lia.
    + rewrite !mem_set_ne by lia. apply H2. lia.
Qed.

(** Loading pairs. *)
Lemma run_ldps ext b n s :
  0 <= n →
  let t := run ext (ldps b n) s in
  (∀ i, 0 <= i < 2 * n → gpr t (b + i) = ram s (sp s + 8 * i)) ∧
  (∀ q, ¬ (b <= q < b + 2 * n) → gpr t q = gpr s q) ∧
  t = mk_cpu (gpr t) (sp s) (sp_el0 s) (elr_el1 s) (spsr_el1 s) (pc s) (pstate s) (ram s).
Proof.
  intros Hn. pattern n. apply natlike_ind; [| |done].
  - cbn. split_and!; [lia|done|by destruct s].
  - intros k Hk (H1 & H2 & H3). unfold ldps in *. rewrite <- Z.add_1_r, seqZ_app, fmap_app, a64_run_app by lia.
    generalize dependent (run ext ((λ k, Ldp (b + 2 * k) (b + 2 * k + 1) (16 * k)) <$> seqZ 0 k) s).
    intros t H1 H2 H3. change (seqZ (0 + k) 1) with [0 + k]. cbn [fmap list_fmap run fold_left step].
    rewrite Z.add_0_l, H3. cbn [gpr sp ram set].
    split_and!; [| |done]; intros x Hx.
    + destruct (Z.eqb_spec (b + x) (b + 2 * k + 1)); [f_equal; lia|].
      destruct (Z.eqb_spec (b + x) (b + 2 * k)); [f_equal; lia|]. apply H1. lia.
    + rewrite !(proj2 (Z.eqb_neq _ _)) by lia. apply H2. lia.
Qed.

Lemma words_at_seqZ m sp f n :
  (∀ i, 0 <= i < n → m (sp + 8 * i) = f i) → words_at m sp (f <$> seqZ 0 n).
Proof.
  intros H. apply words_at_lookup. intros i v Hi. apply list_lookup_fmap_Some in Hi as (k & Hk & Hv).
  apply lookup_seqZ in Hv as [-> Hi]. rewrite Hk. apply H. lia.
Qed.

(** The state in which the C handler is called. *)
Lemma entry_spec ext vector s :
  let c := run ext kernel_entry (take_exception vector s) in
  sp c = sp s - 272 ∧ words_at (ram c) (sp s - 272) (frame_words (snapshot s)) ∧
  ∀ x, ¬ (sp s - 272 <= x < sp s) → ram c x = ram s x.
Proof.
  unfold kernel_entry. change (SubSp 272 :: stps 0 15 ++ [MrsElr 0; Stp 30 0 240; MrsSpsr 0; StrSp 0 256])
    with ([SubSp 272] ++ stps 0 15 ++ [MrsElr 0; Stp 30 0 240; MrsSpsr 0; StrSp 0 256]).
  rewrite !a64_run_app. set (e := run ext [SubSp 272] _). destruct (run_stps ext 0 15 e) as (H1 & H2 & H3); [lia|].
  generalize dependent (run ext (stps 0 15) e). intros t H1 H2 H3. rewrite H3.
  cbn [run fold_left step gpr sp ram elr_el1 spsr_el1 set with_ram e with_sp take_exception with_sys at_pc Z.eqb Pos.eqb] in *.
  split; [done|]. split.
  - apply words_at_app. split.
    + apply (words_at_seqZ _ _ (gpr s) 31). intros i Hi. destruct (decide (i = 30)) as [->|].
      * mem_read.
      * rewrite !mem_set_ne by lia. rewrite H1 by lia. done.
    + cbn [ProcessArch.A64.x ProcessArch.A64.elr ProcessArch.A64.spsr snapshot]. rewrite length_fmap, length_seqZ.
      cbn [words_at]. change (8 * Z.of_nat (Z.to_nat 31)) with 248. split_and!; [mem_read|mem_read|done].
  - intros x Hx. rewrite !mem_set_ne by lia. apply H2. lia.
Qed.

(** After the C handler has returned. *)
Lemma leave_spec ext c r :
  length (ProcessArch.A64.x r) = 31%nat → words_at (ram c) (sp c) (frame_words r) →
  let t := run ext kernel_exit c in resumed r t ∧ sp t = sp c + 272.
Proof.
  intros Hl Hw. unfold frame_words in Hw. apply words_at_app in Hw as [Hx (He & Hs & _)].
  rewrite Hl in He, Hs. pose proof (proj1 (words_at_lookup _ _ _) Hx) as Hg.
  unfold kernel_exit. rewrite !a64_run_app. set (e := run ext [LdrSp 0 256; _; _; _] c).
  destruct (run_ldps ext 0 15 e) as (H1 & H2 & H3); [lia|].
  generalize dependent (run ext (ldps 0 15) e). intros t H1 H2 H3. rewrite H3.
  cbn [run fold_left step gpr sp ram elr_el1 spsr_el1 set with_ram e with_sp with_sys at_pc Z.eqb Pos.eqb pc pstate] in *.
  unfold resumed. cbn [gpr pc pstate]. split_and!; [|rewrite <- He|rewrite <- Hs|done]; [|apply (f_equal (ram c)); lia..].
  apply list_eq. intros i. destruct (decide (i < 31)%nat) as [Hi|].
  - destruct (lookup_lt_is_Some_2 (ProcessArch.A64.x r) i) as [v Hv]; [lia|]. rewrite Hv, <- (Hg i v Hv).
    rewrite list_lookup_fmap, lookup_seqZ_lt by lia. cbn. f_equal. destruct (decide (i = 30%nat)) as [->|].
    + rewrite H2 by lia. done.
    + rewrite <- H1 by lia. done.
  - rewrite !lookup_ge_None_2; [done|lia|]. rewrite length_fmap, length_seqZ. lia.
Qed.

(** *** The switch *)

Definition regs (s : cpu) : regs_a64 :=
  mk_regs_a64 (gpr s 19) (gpr s 20) (gpr s 21) (gpr s 22) (gpr s 23) (gpr s 24) (gpr s 25) (gpr s 26) (gpr s 27)
    (gpr s 28) (gpr s 29).
Definition caller (s : cpu) : context regs_a64 := mk_context (regs s) (sp s) (gpr s 30).
Definition running (s : cpu) : context regs_a64 := mk_context (regs s) (sp s) (pc s).

Lemma a64_switch_code ext s :
  ¬ (gpr s 1 <= gpr s 0 < gpr s 1 + 96) →
  let '(old_sp, c', m') := arch_context_switch_a64 (caller s) (gpr s 1) (ram s) in
  let t := run ext arch_context_switch_code s in
  running t = c' ∧ ∀ x, ram t x = m'⟦gpr s 0 := old_sp⟧ x.
Proof.
  intros Hp. unfold arch_context_switch_a64, caller, regs. cbn [c_regs c_pc c_sp x19 x20 x21 x22 x23 x24 x25 x26 x27 x28 x29].
  unfold arch_context_switch_code. change (SubSp 96 :: stps 19 6 ++ [MovFromSp 2; Str 2 0; MovToSp 1] ++ ldps 19 6 ++ [AddSp 96; Ret])
    with ((SubSp 96 :: stps 19 6) ++ [MovFromSp 2; Str 2 0; MovToSp 1] ++ ldps 19 6 ++ [AddSp 96; Ret]).
  rewrite !a64_run_app. set (m' := _⟦_ := gpr s 30⟧). set (e := run ext (SubSp 96 :: stps 19 6) s).
  assert (e = with_ram (ram e) (with_sp (sp s - 96) s)) as He by reflexivity.
  assert (∀ x, ram e x = m' x) as Hm.
  { unfold m', e. change (stps 19 6) with [Stp 19 20 0; Stp 21 22 16; Stp 23 24 32; Stp 25 26 48; Stp 27 28 64; Stp 29 30 80].
    cbn [run fold_left step gpr sp ram with_ram with_sp]. repeat (apply mem_set_ext; [lia|done|]). done. }
  clearbody e m'. rewrite He. clear He.
  set (f := run ext [MovFromSp 2; Str 2 0; MovToSp 1] _).
  destruct (run_ldps ext 19 6 f) as (H1 & H2 & H3); [lia|].
  generalize dependent (run ext (ldps 19 6) f). intros t H1 H2 H3. rewrite H3.
  cbn [run fold_left step gpr sp ram elr_el1 spsr_el1 set with_ram f with_sp with_sys at_pc Z.eqb Pos.eqb pc pstate] in *.
  split; [|by apply mem_set_ext].
  assert (∀ i, 19 <= i < 31 → gpr t i = m' (gpr s 1 + 8 * (i - 19))) as G.
  { intros i Hi. replace i with (19 + (i - 19)) at 1 by lia. rewrite H1, mem_set_ne by lia. apply Hm. }
  unfold running, regs. cbn [gpr sp pc at_pc with_sp]. rewrite !G by lia. do 2 f_equal. apply (f_equal m'). lia.
Qed.

Lemma a64_switch_back ext s s2 :
  ¬ (gpr s 1 <= gpr s 0 < gpr s 1 + 96) → ¬ (sp s - 96 <= gpr s 0 < sp s) →
  ¬ (gpr s2 1 <= gpr s2 0 < gpr s2 1 + 96) → (sp s2 <= sp s - 96 ∨ sp s <= sp s2 - 96) →
  let t := run ext arch_context_switch_code s in
  gpr s2 1 = ram t (gpr s 0) → (∀ x, sp s - 96 <= x < sp s → ram s2 x = ram t x) →
  running (run ext arch_context_switch_code s2) = caller s.
Proof.
  intros H1 H2 H3 Hdis. pose proof (a64_switch_code ext s H1) as S1. pose proof (a64_switch_code ext s2 H3) as S2. cbv zeta.
  destruct (arch_context_switch_a64 (caller s) _ _) as [[old c'] m1] eqn:E1. destruct S1 as [_ M1].
  assert (old = sp s - 96) as Hsp by (by injection E1 as <- _ _).
  rewrite M1, mem_set_eq, Hsp. intros Hrsi Hm.
  destruct (roundtrip (SwitchLaws0 := switch_laws_a64 0) (caller s) (caller s2) _ _ (ram s2) _ _ _ E1) as (sp' & m3 & E2).
  - intros x Hx. rewrite Hsp in Hx. cbn in Hx. rewrite Hm, M1 by lia. apply mem_set_ne. lia.
  - cbn. rewrite Hsp. lia.
  - cbn [arch_context_switch switch_ops_a64] in E2. rewrite Hrsi, <- Hsp, E2 in S2. apply S2.
Qed.

Lemma a64_thread_starts ext s tramp top entry arg m0 thread_exit :
  let '(nsp, m) := arch_thread_init_stack_a64 tramp top entry arg m0 in
  gpr s 1 = nsp → (∀ x, nsp <= x < top → ram s x = m x) → ¬ (nsp <= gpr s 0 < top) →
  (sp s <= nsp ∨ top <= sp s - 96) →
  let t := run ext arch_context_switch_code s in
  pc t = tramp ∧
  ∃ u, run ext (thread_trampoline_code thread_exit) t = ext thread_exit (ext entry u) ∧
    gpr u 0 = arg ∧ sp u = top ∧ Z.testbit (pstate u) 7 = false.
Proof.
  destruct (init_stack_frame (SwitchLaws0 := switch_laws_a64 tramp) top entry arg m0) as (m & E & Hf & _).
  cbn [arch_thread_init_stack frame_size switch_ops_a64] in E, Hf. rewrite E. intros Hsi Hm Hdi Hdis. cbv zeta.
  pose proof (a64_switch_code ext s ltac:(lia)) as Hsw.
  destruct (resume_suspended (SwitchLaws0 := switch_laws_a64 tramp) (ram s) (top - 96) (entry_context_a64 tramp top entry arg)
    (caller s)) as (m2 & E2 & _).
  { apply (frame_ext (SwitchLaws := switch_laws_a64 tramp) m); [|done]. intros x Hx. apply Hm. cbn in Hx. lia. }
  { cbn. lia. }
  cbn [arch_context_switch switch_ops_a64] in E2. rewrite Hsi, E2 in Hsw. destruct Hsw as [Hr _].
  generalize dependent (run ext arch_context_switch_code s). intros t Hr.
  assert (gpr t 19 = entry ∧ gpr t 20 = arg ∧ sp t = top ∧ pc t = tramp) as (E19 & E20 & Esp & Epc).
  { injection Hr. intros. done. }
  split; [done|]. eexists. cbn [run thread_trampoline_code fold_left step].
  split; [by rewrite <- E19|]. cbn [gpr set sp pstate at_pc Z.eqb]. rewrite E20, Esp.
  split; [done|]. split; [done|]. rewrite Z.land_spec. apply andb_false_r.
Qed.

(** *** Into EL0 *)

(** process_trampoline, with the address of launch_params_t in x19, enters EL0 at the
    entry point, on the user's stack, with nothing masked. *)
Lemma a64_trampoline_enters ext s entry stack :
  words_at (ram s) (gpr s 19) [entry; stack] →
  let t := run ext process_trampoline_code s in pc t = entry ∧ sp_el0 t = stack ∧ pstate t = 0.
Proof.
  intros (He & Hs & _). cbn. rewrite Z.add_0_r. done.
Qed.
End A64.

(** ** Properties *)

Lemma x86_isr_runs ext n h s :
  X86.run ext (X86.isr n ++ X86.isr_common_stub h) s =
  X86.run ext X86.isr_restore (ext h (X86.run ext (X86.isr n ++ X86.isr_save ++ [X86.Mov X86.RDI X86.RSP]) s)).
Proof.
  unfold X86.isr_common_stub. change [X86.Mov X86.RDI X86.RSP; X86.Call h] with ([X86.Mov X86.RDI X86.RSP] ++ [X86.Call h]).
  rewrite !X86.run_app. done.
Qed.

Lemma vector_table_code ih sh k code :
  A64.vector_table ih sh !! k = Some (Some code) →
  ∃ svc : bool, code = (if svc then A64.svc_common_handler sh else A64.irq_common_handler ih) ∧ (k = 8%nat ↔ svc = true).
Proof.
  intros H. do 16 (destruct k as [|k]; [cbn in H; first [discriminate H|injection H as <-; first
    [by exists true|by exists false]]|]). done.
Qed.

(** C5: an interrupt is invisible but for what the handler writes into the frame.  On x86_64
    the stub of every vector but 29 and isr_common_stub, started by the processor on any of
    the stacks, call isr_handler with the address of 22 words that are the fields of
    registers_t, in its order, with the values of the interrupted program, the vector and
    its error code (or 0), and have touched nothing else; when the handler returns with
    its stack and a frame [r] there, the program goes on with the registers, the address,
    the flags and the stack of [r], all of them.  For vector 29 (#VC) this fails: the stub
    takes it for an exception without an error code ([isr29_frame_off]).  The same on
    aarch64, for interrupts and system calls, with aarch64_regs_t. *)
Theorem interrupts_are_transparent :
  (∀ ext rsp0 stub isr_handler n err s,
     n ≠ 29 →
     let top := X86.stack_top rsp0 s in
     let d := X86.deliver rsp0 stub n err s in
     let c := X86.run ext (X86.isr n ++ X86.isr_save ++ [X86.Mov X86.RDI X86.RSP]) d in
     let h := ext isr_handler c in
     X86.gpr c X86.RDI = top - 176 ∧
     words_at (X86.ram c) (top - 176) (X86.frame_words (X86.snapshot n err s)) ∧
     (∀ x, ¬ (top - 176 <= x < top) → X86.ram c x = X86.ram s x) ∧
     ∀ r, X86.gpr h X86.RSP = X86.gpr c X86.RSP → words_at (X86.ram h) (top - 176) (X86.frame_words r) →
       X86.resumed r (X86.run ext (X86.isr n ++ X86.isr_common_stub isr_handler) d)) ∧
  (∀ ext vbar irq_handler svc_handler k code s,
     A64.vector_table irq_handler svc_handler !! k = Some (Some code) →
     let handler := if decide (k = 8%nat) then svc_handler else irq_handler in
     let d := A64.take_exception (vbar + 0x80 * Z.of_nat k) s in
     let frame := A64.sp s - 272 in
     ∃ c, A64.run ext code d = A64.run ext A64.kernel_exit (ext handler c) ∧
       (k = 8%nat → A64.gpr c 0 = frame) ∧
       words_at (A64.ram c) frame (A64.frame_words (A64.snapshot s)) ∧
       (∀ x, ¬ (frame <= x < A64.sp s) → A64.ram c x = A64.ram s x) ∧
       ∀ r, length (ProcessArch.A64.x r) = 31%nat → A64.sp (ext handler c) = A64.sp c →
         words_at (A64.ram (ext handler c)) frame (A64.frame_words r) →
         A64.resumed r (A64.run ext code d) ∧ A64.sp (A64.run ext code d) = A64.sp s).
Proof.
  split.
  - intros ext rsp0 stub h n err s Hn top d c hd. destruct (X86.isr_entry ext rsp0 stub n err s Hn) as (E1 & E2 & E3 & E4).
    fold top d c in E1, E2, E3, E4. split_and!; [done..|]. intros r Hsp Hw. rewrite x86_isr_runs. fold c hd.
    apply X86.isr_leave. by rewrite Hsp, E2.
  - intros ext vbar ih sh k0 code s [svc [Hcode Hk]]%vector_table_code h d frame.
    destruct (A64.entry_spec ext (vbar + 0x80 * Z.of_nat k0) s) as (E1 & E2 & E3). fold d frame in E1, E2, E3.
    set (k := A64.run ext A64.kernel_entry d) in *. set (c := if svc then A64.set 0 (A64.sp k) k else k).
    assert (∀ q, let p := if svc then A64.set 0 (A64.sp q) q else q in A64.sp p = A64.sp q ∧ A64.ram p = A64.ram q) as G
      by (intros q; by destruct svc).
    destruct (G k) as [C1 C2]. fold c in C1, C2. rewrite E1 in C1. clear G.
    assert (A64.run ext code d = A64.run ext A64.kernel_exit (ext h c)) as Hrun.
    { rewrite Hcode. unfold c, h, A64.irq_common_handler, A64.svc_common_handler.
      destruct svc; [rewrite decide_True by by apply Hk|rewrite decide_False by (intros ?%Hk; done)]; rewrite !A64.a64_run_app; reflexivity. }
    exists c. split; [exact Hrun|]. split; [|split; [rewrite C2; exact E2|split; [rewrite C2; exact E3|]]].
    + intros ->%Hk. exact E1.
    + intros r Hl Hsp Hw. rewrite Hrun. destruct (A64.leave_spec ext (ext h c) r Hl) as [L1 L2]; [by rewrite Hsp, C1|].
      split; [exact L1|]. rewrite L2, Hsp, C1. unfold frame. lia.
Qed.

(** A concrete machine: rax is 9, every other register its stack pointer, and a handler
    that writes 7 over the saved rax. *)
Definition demo_x86 : X86.cpu :=
  X86.mk_cpu (λ r, if decide (r = X86.RAX) then 9 else 0x8000) 0x1234 0x08 0x202 0x10 (λ _, 0).
Definition demo_handler (_ : Z) (s : X86.cpu) : X86.cpu := X86.poke (X86.gpr s X86.RSP + 112) 7 s.
Definition demo_a64 : A64.cpu := A64.mk_cpu (λ r, r) 0x8000 0 0 0 0x1234 0 (λ _, 0).

Lemma interrupts_are_transparent_witness :
  let t := X86.run demo_handler (X86.isr 128 ++ X86.isr_common_stub 1) (X86.deliver 0 0 128 0 demo_x86) in
  X86.gpr t X86.RAX = 7 ∧ X86.c_rip t = 0x1234 ∧ X86.gpr t X86.RSP = 0x8000 ∧
  A64.resumed (A64.snapshot demo_a64)
    (A64.run (λ _ s, s) (A64.irq_common_handler 1) (A64.take_exception (0 + 0x80 * Z.of_nat 5) demo_a64)).
Proof.
  cbv zeta. split_and!.
  - destruct (proj1 interrupts_are_transparent demo_handler 0 0 1 128 0 demo_x86 ltac:(lia)) as (_ & _ & _ & H).
    set (r := mk_registers 0x8000 0x8000 0x8000 0x8000 0x8000 0x8000 0x8000 0x8000 0x8000 0x8000 0x8000 0x8000 0x8000 0x8000
      7 128 0 0x1234 0x08 0x202 0x8000 0x10).
    destruct (H r) as [Hg _]; [by vm_compute|by vm_compute|].
    pose proof (f_equal (λ l : list Z, nth 14%nat l 0) Hg) as Ha. exact Ha.
  - by vm_compute.
  - by vm_compute.
  - destruct (proj2 interrupts_are_transparent (λ _ s, s) 0 1 2 5%nat _ demo_a64 eq_refl) as (c & _ & _ & Hw & _ & H).
    apply (H (A64.snapshot demo_a64)); [reflexivity|reflexivity|exact Hw].
Defined.

(** The processor pushes an error code for vector 29 (#VC) as well, which ISR_NOERR 29 does
    not know: the frame is one word off and the word read as rip is the error code. *)
Lemma isr29_frame_off :
  let d := X86.deliver 0 0 29 5 demo_x86 in
  let c := X86.run (λ _ s, s) (X86.isr 29 ++ X86.isr_save ++ [X86.Mov X86.RDI X86.RSP]) d in
  X86.ram c (X86.gpr c X86.RDI + 17 * 8) = 5 ∧ X86.c_rip demo_x86 = 0x1234 ∧
  X86.c_rip (X86.run (λ _ s, s) X86.isr_restore c) = 5.
Proof. vm_compute. done. Qed.

(** C6: context_switch.asm and context_switch.S do what the scheduler's model takes them
    for.  Run on any registers and memory, provided the word for the old stack pointer
    is outside the new thread's frame, they leave the registers, the stack and the memory that
    arch_context_switch of Switch.v gives; a thread that was switched away from goes on
    with all its callee-saved registers, behind its call, once any other switches to the
    stack pointer stored for it and its frame was left alone; and a switch to the stack
    arch_thread_init_stack has built calls the entry function with its argument on that
    stack with interrupts on, and thread_exit when it returns. *)
Theorem switch_code_refines :
  (∀ ext s, ¬ (X86.gpr s X86.RSI <= X86.gpr s X86.RDI < X86.gpr s X86.RSI + 56) →
     let t := X86.run ext X86.arch_context_switch_code s in
     (let '(old_sp, c', m') := arch_context_switch_x86 (X86.caller s) (X86.gpr s X86.RSI) (X86.ram s) in
      X86.running t = c' ∧ ∀ x, X86.ram t x = m'⟦X86.gpr s X86.RDI := old_sp⟧ x) ∧
     (let frame := X86.gpr s X86.RSP - 48 in
      ∀ s2, ¬ (frame <= X86.gpr s X86.RDI < frame + 56) →
        ¬ (X86.gpr s2 X86.RSI <= X86.gpr s2 X86.RDI < X86.gpr s2 X86.RSI + 56) →
        (X86.gpr s2 X86.RSP + 8 <= frame ∨ frame + 56 <= X86.gpr s2 X86.RSP - 48) →
        X86.gpr s2 X86.RSI = X86.ram t (X86.gpr s X86.RDI) →
        (∀ x, frame <= x < frame + 56 → X86.ram s2 x = X86.ram t x) →
        X86.running (X86.run ext X86.arch_context_switch_code s2) = X86.caller s) ∧
     ∀ tramp top entry arg m0 thread_exit,
       let '(nsp, m) := arch_thread_init_stack_x86 tramp top entry arg m0 in
       X86.gpr s X86.RSI = nsp → (∀ x, nsp <= x < top → X86.ram s x = m x) →
       (X86.gpr s X86.RSP + 8 <= nsp ∨ top <= X86.gpr s X86.RSP - 48) →
       X86.c_rip t = tramp ∧
       ∃ u, X86.run ext (X86.thread_trampoline_code thread_exit) t = ext thread_exit (ext entry u) ∧
         X86.gpr u X86.RDI = arg ∧ X86.gpr u X86.RSP = top ∧ Z.testbit (X86.c_rflags u) 9 = true) ∧
  (∀ ext s, ¬ (A64.gpr s 1 <= A64.gpr s 0 < A64.gpr s 1 + 96) →
     let t := A64.run ext A64.arch_context_switch_code s in
     (let '(old_sp, c', m') := arch_context_switch_a64 (A64.caller s) (A64.gpr s 1) (A64.ram s) in
      A64.running t = c' ∧ ∀ x, A64.ram t x = m'⟦A64.gpr s 0 := old_sp⟧ x) ∧
     (let frame := A64.sp s - 96 in
      ∀ s2, ¬ (frame <= A64.gpr s 0 < frame + 96) → ¬ (A64.gpr s2 1 <= A64.gpr s2 0 < A64.gpr s2 1 + 96) →
        (A64.sp s2 <= frame ∨ frame + 96 <= A64.sp s2 - 96) →
        A64.gpr s2 1 = A64.ram t (A64.gpr s 0) → (∀ x, frame <= x < frame + 96 → A64.ram s2 x = A64.ram t x) →
        A64.running (A64.run ext A64.arch_context_switch_code s2) = A64.caller s) ∧
     ∀ tramp top entry arg m0 thread_exit,
       let '(nsp, m) := arch_thread_init_stack_a64 tramp top entry arg m0 in
       A64.gpr s 1 = nsp → (∀ x, nsp <= x < top → A64.ram s x = m x) →
       (A64.sp s <= nsp ∨ top <= A64.sp s - 96) →
       A64.pc t = tramp ∧
       ∃ u, A64.run ext (A64.thread_trampoline_code thread_exit) t = ext thread_exit (ext entry u) ∧
         A64.gpr u 0 = arg ∧ A64.sp u = top ∧ Z.testbit (A64.pstate u) 7 = false).
Proof.
  split; intros ext s Hp t; (split; [|split]).
  - by apply X86.switch_code.
  - intros frame s2 H1 H2 H3 H4 H5. apply (X86.switch_back ext s s2); [done|lia|done|lia|done|intros x Hx; apply H5; lia].
  - intros tramp top entry arg m0 te. pose proof (X86.thread_starts ext s tramp top entry arg m0 te) as H.
    destruct (arch_thread_init_stack_x86 tramp top entry arg m0) as [nsp m] eqn:E. intros H1 H2 H3. apply H; [done..| |done].
    assert (nsp = top - 56) by (injection E as <- _; lia). lia.
  - by apply A64.a64_switch_code.
  - intros frame s2 H1 H2 H3 H4 H5. apply (A64.a64_switch_back ext s s2); [done|lia|done|lia|done|intros x Hx; apply H5; lia].
  - intros tramp top entry arg m0 te. pose proof (A64.a64_thread_starts ext s tramp top entry arg m0 te) as H.
    destruct (arch_thread_init_stack_a64 tramp top entry arg m0) as [nsp m] eqn:E. intros H1 H2 H3. apply H; [done..| |done].
    assert (nsp = top - 96) by (injection E as <- _; lia). lia.
Qed.

(** From one stack to a fresh one and back. *)
Definition demo_s : X86.cpu :=
  X86.mk_cpu (λ r, if decide (r = X86.RSI) then 0x4FC8 else if decide (r = X86.RDI) then 0x100 else 0x9000)
    0 0x08 0x2 0x10 (snd (arch_thread_init_stack_x86 0x77 0x5000 0xEE 0xA6 (λ _, 0))).
Definition demo_t : X86.cpu := X86.run (λ _ q, q) X86.arch_context_switch_code demo_s.
Definition demo_s2 : X86.cpu :=
  X86.mk_cpu (λ r, if decide (r = X86.RSI) then 0x8FD0 else if decide (r = X86.RDI) then 0x108 else 0x4F00)
    0 0x08 0x202 0x10 (X86.ram demo_t).

Lemma ram_mk g a b c d m : X86.ram (X86.mk_cpu g a b c d m) = m.
Proof. reflexivity. Qed.

Lemma switch_code_refines_witness :
  X86.c_rip demo_t = 0x77 ∧
  X86.running (X86.run (λ _ q, q) X86.arch_context_switch_code demo_s2) = X86.caller demo_s.
Proof.
  destruct (proj1 switch_code_refines (λ _ q, q) demo_s) as (_ & Hback & Hstart).
  { vm_compute. by intros []. }
  fold demo_t in Hback, Hstart. split.
  - specialize (Hstart 0x77 0x5000 0xEE 0xA6 (λ _, 0) 0).
    assert (arch_thread_init_stack_x86 0x77 0x5000 0xEE 0xA6 (λ _, 0) = (0x4FC8, X86.ram demo_s)) as E by reflexivity.
    rewrite E in Hstart. refine (proj1 (Hstart _ _ _)); [reflexivity|done|right; by vm_compute].
  - apply Hback.
    + vm_compute. by intros [].
    + vm_compute. by intros [].
    + left. by vm_compute.
    + by vm_compute.
    + intros x _. unfold demo_s2. rewrite ram_mk. reflexivity.
Defined.
